(** * FastCollection: persistent containers over a memory-mapped file

    A shallow embedding of the C++ sources of the FastCollection library
    ([fc_common], [fc_serialization], [fc_list], [fc_set], [fc_map],
    [fc_queue], [fc_stack]) and the properties its specification states
    about them.

    Conventions of the embedding.

    - Machine integers are [Z]; every unsigned operation that can leave
      its range is followed by the reduction it has in C++ ([wrap32],
      [wrap64]).  Offsets are [int64_t] values, [-1] being the null offset.
    - The mapped heap is a finite map from offsets to records.  An offset
      that is not in the map is not an allocated record; following it is
      undefined in C++ and yields [Stuck] here.
    - A [(pointer, size)] argument is a [buffer]: [None] is the null
      pointer, [Some bs] a pointer to the [length bs] bytes [bs].
    - [current_timestamp_ns()] is read anew by every [is_expired()],
      [is_alive()], [remaining_ttl_seconds()], [copy_from_node()] and
      [set_ttl()], and for every stamp of a header.  The readings are
      parameters of the operations.  An operation that tests each record
      once, and stamps after its decision only, takes the one instant
      [now : Z] of its tests.  An operation that tests a record it has
      tested before ([poll], [peek], [pollLast], [peekLast] and their
      callers on the queue, [pop], [peek] and their callers on the
      stack, [removeFirst] and [removeLast] on the list, [add] on the
      set) takes the readings of the call as a sequence [now : clock]:
      each of its steps that reads the clock reads an element of its
      own, which the comment of the operation names, later steps
      reading later elements; nothing is assumed of the sequence.
    - Loops that follow offsets take a [fuel]; running out of it is
      [Stuck].  The theorems show that a finite chain gives enough fuel.
    - The address returned by the heap of the mapped file is given by the
      environment, as a function [alloc] from the requested size to the
      offset obtained, [None] being the failure that
      [MMapFileManager::allocate] reports by an exception. *)

From stdpp Require Import gmap strings list fin_maps.
From Stdlib Require Import ZArith Lia.
From Stdlib.Strings Require Import Byte.

Open Scope Z_scope.

(* ===================================================================== *)
(** * fc_common.h *)
(* ===================================================================== *)

Definition wrap32 (z : Z) : Z := z mod 2 ^ 32.
Definition wrap64 (z : Z) : Z := z mod 2 ^ 64.

(** The readings of [current_timestamp_ns()] that one call takes, in the
    order in which it takes them. *)
Definition clock : Type := nat -> Z.

(** What is left of a sequence once its first element is taken. *)
Definition tick {A : Type} (now : nat -> A) : nat -> A := fun k => now (S k).

Definition SIZE_MAX : Z := 2 ^ 64 - 1.

Definition DEFAULT_INITIAL_SIZE : Z := 64 * 1024 * 1024.
Definition DEFAULT_GROWTH_SIZE : Z := 16 * 1024 * 1024.
Definition MAX_SERIALIZED_SIZE : Z := 16 * 1024 * 1024.

Definition TTL_INFINITE : Z := -1.

(** [FastCollectionException::ErrorCode]. *)
Inductive ErrorCode : Type :=
| SUCCESS
| MEMORY_ALLOCATION_FAILED
| FILE_CREATION_FAILED
| FILE_OPEN_FAILED
| SERIALIZATION_FAILED
| DESERIALIZATION_FAILED
| INDEX_OUT_OF_BOUNDS
| KEY_NOT_FOUND
| NOT_FOUND
| COLLECTION_FULL
| LOCK_TIMEOUT
| INVALID_ARGUMENT
| INTERNAL_ERROR
| TIMEOUT
| ELEMENT_EXPIRED.

(** The exceptions that cross the functions embedded here: the library's
    own, and the two of Boost.Interprocess that the sources catch. *)
Inductive exn : Type :=
| FastCollectionException (code : ErrorCode)
| bip_interprocess_exception
| bip_bad_alloc.

(** Outcome of a call: a value, an exception, or no defined outcome (an
    offset outside the heap was followed, or the fuel ran out). *)
Inductive result (A : Type) : Type :=
| Ret (a : A)
| Throw (e : exn)
| Stuck.

Arguments Ret {A} a.
Arguments Throw {A} e.
Arguments Stuck {A}.

#[export] Instance result_ret : MRet result := fun A a => Ret a.

#[export] Instance result_bind : MBind result :=
  fun A B f m =>
    match m with
    | Ret a => f a
    | Throw e => Throw e
    | Stuck => Stuck
    end.

(** Reading the record at an offset: [reinterpret_cast<T*>(base + offset)]
    followed by an access. *)
Definition deref {A : Type} (h : gmap Z A) (offset : Z) : result A :=
  match h !! offset with
  | Some n => Ret n
  | None => Stuck
  end.

(** A store through a pointer to the record at [offset]. *)
Definition update {A : Type} (offset : Z) (f : A -> A) (h : gmap Z A) : result (gmap Z A) :=
  n ← deref h offset; Ret (<[offset := f n]> h).

Definition bytes : Type := list byte.

(** A [(const uint8_t* data, size_t size)] argument. *)
Definition buffer : Type := option bytes.

Definition byte_val (b : byte) : Z := Z.of_N (Byte.to_N b).

Fixpoint bytes_eqb (a b : bytes) : bool :=
  match a, b with
  | [], [] => true
  | x :: a', y :: b' => Byte.eqb x y && bytes_eqb a' b'
  | _, _ => false
  end.

(** [std::memcmp(a, b, n) == 0]. *)
Definition memcmp_eq (a b : bytes) (n : Z) : bool :=
  bytes_eqb (take (Z.to_nat n) a) (take (Z.to_nat n) b).

Definition size_of (bs : bytes) : Z := Z.of_nat (length bs).

(** FNV-1a over 32 bits. *)
Definition compute_hash (data : bytes) : Z :=
  fold_left (fun hash b => wrap32 (Z.lxor hash (byte_val b) * 16777619))
            data 2166136261.

Module CollectionStats.

Record t : Type := mk {
  size : Z;
  capacity : Z;
  total_bytes : Z;
  read_count : Z;
  write_count : Z;
  hit_count : Z;
  miss_count : Z
}.

Definition init : t := mk 0 0 0 0 0 0 0.

Definition size_store (v : Z) (s : t) : t :=
  mk v (capacity s) (total_bytes s) (read_count s) (write_count s)
     (hit_count s) (miss_count s).
Definition size_fetch_add (d : Z) (s : t) : t := size_store (wrap64 (size s + d)) s.
Definition size_fetch_sub (d : Z) (s : t) : t := size_store (wrap64 (size s - d)) s.
Definition read_fetch_add (d : Z) (s : t) : t :=
  mk (size s) (capacity s) (total_bytes s) (wrap64 (read_count s + d))
     (write_count s) (hit_count s) (miss_count s).
Definition write_fetch_add (d : Z) (s : t) : t :=
  mk (size s) (capacity s) (total_bytes s) (read_count s)
     (wrap64 (write_count s + d)) (hit_count s) (miss_count s).
Definition hit_fetch_add (d : Z) (s : t) : t :=
  mk (size s) (capacity s) (total_bytes s) (read_count s) (write_count s)
     (wrap64 (hit_count s + d)) (miss_count s).
Definition miss_fetch_add (d : Z) (s : t) : t :=
  mk (size s) (capacity s) (total_bytes s) (read_count s) (write_count s)
     (hit_count s) (wrap64 (miss_count s + d)).

End CollectionStats.

(* ===================================================================== *)
(** * fc_serialization.h *)
(* ===================================================================== *)

Module ShmEntry.

Record t : Type := mk {
  state : Z;
  data_size : Z;
  hash_code : Z;
  ttl_seconds : Z;
  created_at : Z;
  expires_at : Z;
  version : Z
}.

Definition STATE_EMPTY : Z := 0.
Definition STATE_WRITING : Z := 1.
Definition STATE_VALID : Z := 2.
Definition STATE_DELETED : Z := 3.
Definition STATE_EXPIRED : Z := 4.

(** [ShmEntry()]. *)
Definition init : t := mk STATE_EMPTY 0 0 TTL_INFINITE 0 0 0.

Definition set_state (s : Z) (e : t) : t :=
  mk s (data_size e) (hash_code e) (ttl_seconds e) (created_at e)
     (expires_at e) (version e).
Definition set_data_size (n : Z) (e : t) : t :=
  mk (state e) n (hash_code e) (ttl_seconds e) (created_at e)
     (expires_at e) (version e).
Definition set_hash_code (c : Z) (e : t) : t :=
  mk (state e) (data_size e) c (ttl_seconds e) (created_at e)
     (expires_at e) (version e).

Definition mark_valid : t -> t := set_state STATE_VALID.
Definition mark_deleted : t -> t := set_state STATE_DELETED.
Definition mark_expired : t -> t := set_state STATE_EXPIRED.

Definition is_valid (e : t) : bool := state e =? STATE_VALID.

Definition is_expired (now : Z) (e : t) : bool :=
  if state e =? STATE_EXPIRED then true
  else if negb (state e =? STATE_VALID) then false
  else if expires_at e =? 0 then false
  else expires_at e <=? now.

Definition is_alive (now : Z) (e : t) : bool :=
  if negb (is_valid e) then false
  else if expires_at e =? 0 then true
  else now <? expires_at e.

Definition set_ttl (now : Z) (ttl : Z) (e : t) : t :=
  mk (state e) (data_size e) (hash_code e) ttl now
     (if ttl <? 0 then 0 else wrap64 (now + wrap64 (ttl * 1000000000)))
     (version e).

Definition remaining_ttl_seconds (now : Z) (e : t) : Z :=
  if ttl_seconds e <? 0 then -1
  else if expires_at e =? 0 then -1
  else if expires_at e <=? now then 0
  else (expires_at e - now) / 1000000000.

End ShmEntry.

Definition NULL_OFFSET : Z := -1.

(** [sizeof(ShmNode)] and [sizeof(ShmKeyValue)]: a 64-byte aligned entry
    followed by two offsets (and two sizes), padded to the alignment. *)
Definition sizeof_ShmNode : Z := 128.
Definition sizeof_ShmKeyValue : Z := 128.

(** [(base + 63) & ~63] on [size_t]. *)
Definition align64 (base : Z) : Z :=
  Z.land (wrap64 (base + 63)) (Z.lxor SIZE_MAX 63).

Module ShmNode.

Record t : Type := mk {
  entry : ShmEntry.t;
  next_offset : Z;
  prev_offset : Z;
  data : bytes
}.

(** [ShmNode()] placed on fresh memory: no payload yet. *)
Definition init : t := mk ShmEntry.init NULL_OFFSET NULL_OFFSET [].

Definition total_size (data_size : Z) : Z := align64 (sizeof_ShmNode + data_size).

Definition set_entry (e : ShmEntry.t) (n : t) : t :=
  mk e (next_offset n) (prev_offset n) (data n).
Definition set_next (o : Z) (n : t) : t :=
  mk (entry n) o (prev_offset n) (data n).
Definition set_prev (o : Z) (n : t) : t :=
  mk (entry n) (next_offset n) o (data n).
Definition set_data (d : bytes) (n : t) : t :=
  mk (entry n) (next_offset n) (prev_offset n) d.

End ShmNode.

Module ShmKeyValue.

Record t : Type := mk {
  entry : ShmEntry.t;
  next_offset : Z;
  prev_offset : Z;
  key_size : Z;
  value_size : Z;
  data : bytes
}.

Definition init : t := mk ShmEntry.init NULL_OFFSET NULL_OFFSET 0 0 [].

Definition total_size (key_size value_size : Z) : Z :=
  align64 (sizeof_ShmKeyValue + key_size + value_size).

Definition key_data (kv : t) : bytes := data kv.
(** [data + key_size]. *)
Definition value_data (kv : t) : bytes := drop (Z.to_nat (key_size kv)) (data kv).

Definition set_entry (e : ShmEntry.t) (n : t) : t :=
  mk e (next_offset n) (prev_offset n) (key_size n) (value_size n) (data n).
Definition set_next (o : Z) (n : t) : t :=
  mk (entry n) o (prev_offset n) (key_size n) (value_size n) (data n).
Definition set_prev (o : Z) (n : t) : t :=
  mk (entry n) (next_offset n) o (key_size n) (value_size n) (data n).
Definition set_data (d : bytes) (n : t) : t :=
  mk (entry n) (next_offset n) (prev_offset n) (key_size n) (value_size n) d.

End ShmKeyValue.

Module ShmBucket.

(** The interprocess mutex of a bucket has no content in a sequential
    run and is left out. *)
Record t : Type := mk {
  head_offset : Z;
  count : Z;
  size : Z
}.

Definition init : t := mk NULL_OFFSET 0 0.

Definition set_head (o : Z) (b : t) : t := mk o (count b) (size b).
Definition size_store (v : Z) (b : t) : t := mk (head_offset b) (count b) v.
Definition size_fetch_add (d : Z) (b : t) : t := size_store (wrap32 (size b + d)) b.
Definition size_fetch_sub (d : Z) (b : t) : t := size_store (wrap32 (size b - d)) b.

End ShmBucket.

Module CollectionHeader.

Record t : Type := mk {
  magic : Z;
  version : Z;
  created_at : Z;
  modified_at : Z;
  size : Z;
  capacity : Z
}.

Definition MAGIC : Z := 0xFAC01EC0.
Definition CURRENT_VERSION : Z := 1.

(** [CollectionHeader()]. *)
Definition init (now : Z) : t := mk MAGIC CURRENT_VERSION now now 0 0.

Definition is_valid (h : t) : bool :=
  (magic h =? MAGIC) && (version h =? CURRENT_VERSION).

Definition size_store (v : Z) (h : t) : t :=
  mk (magic h) (version h) (created_at h) (modified_at h) v (capacity h).
Definition size_fetch_add (d : Z) (h : t) : t := size_store (wrap64 (size h + d)) h.
Definition size_fetch_sub (d : Z) (h : t) : t := size_store (wrap64 (size h - d)) h.
Definition set_modified_at (now : Z) (h : t) : t :=
  mk (magic h) (version h) (created_at h) now (size h) (capacity h).

End CollectionHeader.

Module ListHeader.

Record t : Type := mk {
  base : CollectionHeader.t;
  head_offset : Z;
  tail_offset : Z
}.

Definition init (now : Z) : t := mk (CollectionHeader.init now) NULL_OFFSET NULL_OFFSET.

Definition set_base (b : CollectionHeader.t) (h : t) : t :=
  mk b (head_offset h) (tail_offset h).
Definition set_head (o : Z) (h : t) : t := mk (base h) o (tail_offset h).
Definition set_tail (o : Z) (h : t) : t := mk (base h) (head_offset h) o.
Definition size (h : t) : Z := CollectionHeader.size (base h).

End ListHeader.

Module HashTableHeader.

Record t : Type := mk {
  base : CollectionHeader.t;
  bucket_count : Z;
  load_factor_percent : Z;
  total_bytes : Z
}.

Definition DEFAULT_BUCKET_COUNT : Z := 16384.
Definition DEFAULT_LOAD_FACTOR : Z := 75.

(** [explicit HashTableHeader(uint32_t buckets)]. *)
Definition init (now : Z) (buckets : Z) : t :=
  mk (CollectionHeader.init now)
     (if 0 <? buckets then buckets else DEFAULT_BUCKET_COUNT)
     DEFAULT_LOAD_FACTOR 0.

Definition set_base (b : CollectionHeader.t) (h : t) : t :=
  mk b (bucket_count h) (load_factor_percent h) (total_bytes h).
Definition size (h : t) : Z := CollectionHeader.size (base h).

End HashTableHeader.

Module DequeHeader.

Record t : Type := mk {
  base : CollectionHeader.t;
  front_offset : Z;
  back_offset : Z
}.

Definition init (now : Z) : t := mk (CollectionHeader.init now) NULL_OFFSET NULL_OFFSET.

Definition set_base (b : CollectionHeader.t) (h : t) : t :=
  mk b (front_offset h) (back_offset h).
Definition set_front (o : Z) (h : t) : t := mk (base h) o (back_offset h).
Definition set_back (o : Z) (h : t) : t := mk (base h) (front_offset h) o.
Definition size (h : t) : Z := CollectionHeader.size (base h).

End DequeHeader.

Module SerializationUtil.

Definition copy_to_node (now : Z) (node : ShmNode.t) (data : bytes) (ttl_seconds : Z)
  : ShmNode.t :=
  let e := ShmNode.entry node in
  let e := ShmEntry.set_data_size (wrap32 (size_of data)) e in
  let e := ShmEntry.set_hash_code (compute_hash data) e in
  let e := ShmEntry.set_ttl now ttl_seconds e in
  let node := ShmNode.set_data data (ShmNode.set_entry e node) in
  ShmNode.set_entry (ShmEntry.mark_valid (ShmNode.entry node)) node.

(** The empty vector for a record that is not alive. *)
Definition copy_from_node (now : Z) (node : ShmNode.t) : bytes :=
  if negb (ShmEntry.is_alive now (ShmNode.entry node)) then []
  else take (Z.to_nat (ShmEntry.data_size (ShmNode.entry node))) (ShmNode.data node).

Definition copy_to_kv (now : Z) (kv : ShmKeyValue.t) (key value : bytes) (ttl_seconds : Z)
  : ShmKeyValue.t :=
  let e := ShmKeyValue.entry kv in
  let e := ShmEntry.set_data_size (wrap32 (size_of key + size_of value)) e in
  let e := ShmEntry.set_hash_code (compute_hash key) e in
  let e := ShmEntry.set_ttl now ttl_seconds e in
  ShmKeyValue.mk (ShmEntry.mark_valid e)
                 (ShmKeyValue.next_offset kv) (ShmKeyValue.prev_offset kv)
                 (wrap32 (size_of key)) (wrap32 (size_of value))
                 (key ++ value).

Definition bucket_index (hash bucket_count : Z) : Z :=
  Z.land hash (wrap32 (bucket_count - 1)).

End SerializationUtil.

(** [std::memcpy(dst + off, src, length src)] inside the record's bytes. *)
Definition memcpy_at (dst : bytes) (off : Z) (src : bytes) : bytes :=
  take (Z.to_nat off) dst ++ src ++ drop (Z.to_nat off + length src) dst.

(** [MMapFileManager::allocate] as the containers see it: the offset of
    the block obtained, or the exception it raises. *)
Definition manager_allocate (alloc : Z -> option Z) (total : Z) : result Z :=
  match alloc total with
  | Some off => Ret off
  | None => Throw (FastCollectionException MEMORY_ALLOCATION_FAILED)
  end.

Definition is_null_or_empty (data : buffer) : bool :=
  match data with
  | None => true
  | Some bs => size_of bs =? 0
  end.

(* ===================================================================== *)
(** * fc_list.cpp *)
(* ===================================================================== *)

(** The operations of the list hold [header_->global_mutex] from their
    first statement to their return; it has no content in a sequential
    run and the list keeps no trace of it. *)
Module FastList.

Record t : Type := mk {
  heap : gmap Z ShmNode.t;
  header : ListHeader.t;
  stats : CollectionStats.t;
  cache_last_index : Z;
  cache_last_offset : Z
}.

Definition set_heap (h : gmap Z ShmNode.t) (l : t) : t :=
  mk h (header l) (stats l) (cache_last_index l) (cache_last_offset l).
Definition set_header (hd : ListHeader.t) (l : t) : t :=
  mk (heap l) hd (stats l) (cache_last_index l) (cache_last_offset l).
Definition set_stats (s : CollectionStats.t) (l : t) : t :=
  mk (heap l) (header l) s (cache_last_index l) (cache_last_offset l).
Definition set_cache (i o : Z) (l : t) : t :=
  mk (heap l) (header l) (stats l) i o.

(** A list on a fresh file: the constructed header, an empty heap. *)
Definition create (now : Z) : t :=
  mk ∅ (ListHeader.init now) CollectionStats.init SIZE_MAX (-1).

(** A [ShmNode*]: [None] is [nullptr], [Some o] the record at offset [o]. *)
Definition node_at_offset (offset : Z) : option Z :=
  if offset <? 0 then None else Some offset.

(** [while (node && node->entry.is_expired()) { next = node->link; node =
    node_at_offset(next); }], for [link] one of the two offsets of a node.
    The value is the last [next]. *)
Fixpoint skip_expired (fuel : nat) (now : Z) (h : gmap Z ShmNode.t)
         (link : ShmNode.t -> Z) (next : Z) : result Z :=
  match fuel with
  | O => Stuck
  | S fuel' =>
      match node_at_offset next with
      | None => Ret next
      | Some o =>
          node ← deref h o;
          if ShmEntry.is_expired now (ShmNode.entry node)
          then skip_expired fuel' now h link (link node)
          else Ret next
      end
  end.

(** The traversal from the head of [node_at_index]. *)
Fixpoint traverse_from_head (fuel : nat) (now : Z) (h : gmap Z ShmNode.t)
         (index : Z) (current live_index : Z) : result (option Z) :=
  match fuel with
  | O => Stuck
  | S fuel' =>
      if current <? 0 then Ret None
      else
        node ← deref h current;
        if ShmEntry.is_alive now (ShmNode.entry node) then
          if live_index =? index then Ret (Some current)
          else traverse_from_head fuel' now h index (ShmNode.next_offset node)
                                  (wrap64 (live_index + 1))
        else traverse_from_head fuel' now h index (ShmNode.next_offset node) live_index
  end.

(** The traversal from the tail of [node_at_index]. *)
Fixpoint traverse_from_tail (fuel : nat) (now : Z) (h : gmap Z ShmNode.t)
         (index : Z) (current live_index : Z) : result (option Z) :=
  match fuel with
  | O => Stuck
  | S fuel' =>
      if current <? 0 then Ret None
      else
        node ← deref h current;
        if ShmEntry.is_alive now (ShmNode.entry node) then
          if live_index =? index then Ret (Some current)
          else traverse_from_tail fuel' now h index (ShmNode.prev_offset node)
                                  (wrap64 (live_index - 1))
        else traverse_from_tail fuel' now h index (ShmNode.prev_offset node) live_index
  end.

(** One of the two cached steps of [node_at_index]: from the cached node,
    follow [link] past expired nodes; the node reached counts when alive. *)
Definition cached_step (fuel : nat) (now : Z) (l : t) (link : ShmNode.t -> Z)
  : result (option Z) :=
  match node_at_offset (cache_last_offset l) with
  | None => Ret None
  | Some c =>
      cached ← deref (heap l) c;
      next ← skip_expired fuel now (heap l) link (link cached);
      match node_at_offset next with
      | None => Ret None
      | Some o =>
          node ← deref (heap l) o;
          if ShmEntry.is_alive now (ShmNode.entry node) then Ret (Some o) else Ret None
      end
  end.

Definition full_traversal (fuel : nat) (now : Z) (l : t) (index : Z)
  : result (option Z * t) :=
  let list_size := ListHeader.size (header l) in
  found ←
    (if index <? list_size / 2
     then traverse_from_head fuel now (heap l) index
                             (ListHeader.head_offset (header l)) 0
     else traverse_from_tail fuel now (heap l) index
                             (ListHeader.tail_offset (header l))
                             (wrap64 (list_size - 1)));
  match found with
  | Some o => Ret (Some o, set_cache index o l)
  | None => Ret (None, l)
  end.

Definition node_at_index (fuel : nat) (now : Z) (l : t) (index : Z)
  : result (option Z * t) :=
  if negb (cache_last_index l =? SIZE_MAX) && (0 <=? cache_last_offset l) then
    fwd ←
      (if index =? wrap64 (cache_last_index l + 1)
       then cached_step fuel now l ShmNode.next_offset
       else Ret None);
    match fwd with
    | Some o => Ret (Some o, set_cache index o l)
    | None =>
        bwd ←
          (if (index =? wrap64 (cache_last_index l - 1)) && (0 <? cache_last_index l)
           then cached_step fuel now l ShmNode.prev_offset
           else Ret None);
        match bwd with
        | Some o => Ret (Some o, set_cache index o l)
        | None => full_traversal fuel now l index
        end
    end
  else full_traversal fuel now l index.

(** [allocate_node]: the block obtained, holding a constructed [ShmNode]. *)
Definition allocate_node (alloc : Z -> option Z) (data_size : Z) (h : gmap Z ShmNode.t)
  : result (Z * gmap Z ShmNode.t) :=
  mem ← manager_allocate alloc (ShmNode.total_size data_size);
  Ret (mem, <[mem := ShmNode.init]> h).

Definition free_node (node : Z) (h : gmap Z ShmNode.t) : gmap Z ShmNode.t :=
  delete node h.


Definition link_node (node : Z) (prev next : option Z) (l : t) : result t :=
  l1 ←
    match prev with
    | Some p =>
        h1 ← update node (ShmNode.set_prev p) (heap l);
        h2 ← update p (ShmNode.set_next node) h1;
        Ret (set_heap h2 l)
    | None =>
        h1 ← update node (ShmNode.set_prev NULL_OFFSET) (heap l);
        Ret (set_header (ListHeader.set_head node (header l)) (set_heap h1 l))
    end;
  match next with
  | Some n =>
      h1 ← update node (ShmNode.set_next n) (heap l1);
      h2 ← update n (ShmNode.set_prev node) h1;
      Ret (set_heap h2 l1)
  | None =>
      h1 ← update node (ShmNode.set_next NULL_OFFSET) (heap l1);
      Ret (set_header (ListHeader.set_tail node (header l1)) (set_heap h1 l1))
  end.

(** The bookkeeping that ends the three insertions. *)
Definition count_insertion (now : Z) (l : t) : t :=
  let hd := header l in
  let b := CollectionHeader.set_modified_at now
             (CollectionHeader.size_fetch_add 1 (ListHeader.base hd)) in
  set_stats (CollectionStats.write_fetch_add 1
               (CollectionStats.size_fetch_add 1 (stats l)))
            (set_header (ListHeader.set_base b hd) l).

Definition add (alloc : Z -> option Z) (now : Z) (l : t) (data : buffer) (ttl_seconds : Z)
  : result (bool * t) :=
  match data with
  | None => Ret (false, l)
  | Some bs =>
      if size_of bs =? 0 then Ret (false, l)
      else
        '(node, h1) ← allocate_node alloc (size_of bs) (heap l);
        h2 ← update node (fun n => SerializationUtil.copy_to_node now n bs ttl_seconds) h1;
        let tail := ListHeader.tail_offset (header l) in
        l3 ← link_node node (node_at_offset tail) None (set_heap h2 l);
        Ret (true, count_insertion now l3)
  end.

Definition addFirst (alloc : Z -> option Z) (now : Z) (l : t) (data : buffer)
           (ttl_seconds : Z) : result (bool * t) :=
  match data with
  | None => Ret (false, l)
  | Some bs =>
      if size_of bs =? 0 then Ret (false, l)
      else
        '(node, h1) ← allocate_node alloc (size_of bs) (heap l);
        h2 ← update node (fun n => SerializationUtil.copy_to_node now n bs ttl_seconds) h1;
        let head := ListHeader.head_offset (header l) in
        l3 ← link_node node None (node_at_offset head) (set_heap h2 l);
        Ret (true, count_insertion now l3)
  end.

(** [add(size_t index, ...)]. *)
Definition add_at (fuel : nat) (alloc : Z -> option Z) (now : Z) (l : t)
           (index : Z) (data : buffer) (ttl_seconds : Z) : result (bool * t) :=
  match data with
  | None => Ret (false, l)
  | Some bs =>
      if size_of bs =? 0 then Ret (false, l)
      else
        let current_size := ListHeader.size (header l) in
        if current_size <? index then Ret (false, l)
        else if index =? current_size then add alloc now l data ttl_seconds
        else if index =? 0 then addFirst alloc now l data ttl_seconds
        else
          '(next_node, l1) ← node_at_index fuel now l index;
          match next_node with
          | None => Ret (false, l1)
          | Some nx =>
              nxn ← deref (heap l1) nx;
              let prev_node := node_at_offset (ShmNode.prev_offset nxn) in
              '(node, h1) ← allocate_node alloc (size_of bs) (heap l1);
              h2 ← update node
                     (fun n => SerializationUtil.copy_to_node now n bs ttl_seconds) h1;
              l3 ← link_node node prev_node (Some nx) (set_heap h2 l1);
              Ret (true, count_insertion now l3)
          end
  end.

(** The loop of [size()]. *)
Fixpoint size_loop (fuel : nat) (now : Z) (h : gmap Z ShmNode.t)
         (current alive_count : Z) : result Z :=
  match fuel with
  | O => Stuck
  | S fuel' =>
      if current <? 0 then Ret alive_count
      else
        node ← deref h current;
        size_loop fuel' now h (ShmNode.next_offset node)
                  (if ShmEntry.is_alive now (ShmNode.entry node)
                   then alive_count + 1 else alive_count)
  end.

Definition size (fuel : nat) (now : Z) (l : t) : result Z :=
  size_loop fuel now (heap l) (ListHeader.head_offset (header l)) 0.

(** The loop of [forEach]; its value is the sequence of calls made to the
    callback, each with the bytes, their size and the index passed. *)
Fixpoint forEach_loop (fuel : nat) (now : Z) (h : gmap Z ShmNode.t)
         (callback : bytes -> Z -> Z -> bool) (current index : Z)
  : result (list (bytes * Z * Z)) :=
  match fuel with
  | O => Stuck
  | S fuel' =>
      if current <? 0 then Ret []
      else
        node ← deref h current;
        if ShmEntry.is_alive now (ShmNode.entry node) then
          let call := (ShmNode.data node, ShmEntry.data_size (ShmNode.entry node), index) in
          if negb (callback (ShmNode.data node)
                            (ShmEntry.data_size (ShmNode.entry node)) index)
          then Ret [call]
          else
            rest ← forEach_loop fuel' now h callback (ShmNode.next_offset node) (index + 1);
            Ret (call :: rest)
        else forEach_loop fuel' now h callback (ShmNode.next_offset node) index
  end.

Definition forEach (fuel : nat) (now : Z) (l : t) (callback : bytes -> Z -> Z -> bool)
  : result (list (bytes * Z * Z)) :=
  forEach_loop fuel now (heap l) callback (ListHeader.head_offset (header l)) 0.

(** [unlink_node]: the two neighbours, or the head and the tail of the
    header, are linked to each other, and the access cache is
    invalidated. *)
Definition unlink_node (node : Z) (l : t) : result t :=
  n ← deref (heap l) node;
  let prev := ShmNode.prev_offset n in
  let next := ShmNode.next_offset n in
  l1 ← (if 0 <=? prev then
          h ← update prev (ShmNode.set_next next) (heap l); Ret (set_heap h l)
        else Ret (set_header (ListHeader.set_head next (header l)) l));
  l2 ← (if 0 <=? next then
          h ← update next (ShmNode.set_prev prev) (heap l1); Ret (set_heap h l1)
        else Ret (set_header (ListHeader.set_tail prev (header l1)) l1));
  Ret (set_cache SIZE_MAX (-1) l2).

Definition mark_deleted (n : ShmNode.t) : ShmNode.t :=
  ShmNode.set_entry (ShmEntry.mark_deleted (ShmNode.entry n)) n.

(** What [removeFirst] and [removeLast] do with the node they found;
    [out_data] is [None] for a null pointer, else the contents of the
    caller's vector.  [is_alive()] takes the first reading of the clock,
    [copy_from_node()] the second and the stamp of the header the
    third. *)
Definition remove_node (now : clock) (l : t) (node : Z) (out_data : option bytes)
  : result (bool * option bytes * t) :=
  n ← deref (heap l) node;
  let out :=
    match out_data with
    | Some _ =>
        if ShmEntry.is_alive (now O) (ShmNode.entry n)
        then Some (SerializationUtil.copy_from_node (now 1%nat) n)
        else out_data
    | None => None
    end in
  l1 ← unlink_node node l;
  h ← update node mark_deleted (heap l1);
  let l2 := set_heap (free_node node h) l1 in
  let b := CollectionHeader.set_modified_at (now 2%nat)
             (CollectionHeader.size_fetch_sub 1 (ListHeader.base (header l2))) in
  Ret (true, out,
       set_stats (CollectionStats.size_fetch_sub 1 (stats l2))
                 (set_header (ListHeader.set_base b (header l2)) l2)).

Definition removeFirst (now : clock) (l : t) (out_data : option bytes)
  : result (bool * option bytes * t) :=
  match node_at_offset (ListHeader.head_offset (header l)) with
  | None => Ret (false, out_data, l)
  | Some node => remove_node now l node out_data
  end.

Definition removeLast (now : clock) (l : t) (out_data : option bytes)
  : result (bool * option bytes * t) :=
  match node_at_offset (ListHeader.tail_offset (header l)) with
  | None => Ret (false, out_data, l)
  | Some node => remove_node now l node out_data
  end.

(** The loop of [indexOf]: the index, counted over the nodes that are
    alive, of the first of them that holds [data]. *)
Fixpoint indexOf_loop (fuel : nat) (now : Z) (h : gmap Z ShmNode.t)
         (data : bytes) (target_hash : Z) (current index : Z) : result Z :=
  match fuel with
  | O => Stuck
  | S fuel' =>
      if current <? 0 then Ret (-1)
      else
        node ← deref h current;
        if ShmEntry.is_alive now (ShmNode.entry node) then
          if (ShmEntry.hash_code (ShmNode.entry node) =? target_hash)
             && (ShmEntry.data_size (ShmNode.entry node) =? size_of data)
             && memcmp_eq (ShmNode.data node) data (size_of data)
          then Ret index
          else indexOf_loop fuel' now h data target_hash
                            (ShmNode.next_offset node) (index + 1)
        else indexOf_loop fuel' now h data target_hash (ShmNode.next_offset node) index
  end.

Definition indexOf (fuel : nat) (now : Z) (l : t) (data : buffer) : result Z :=
  match data with
  | None => Ret (-1)
  | Some bs =>
      if size_of bs =? 0 then Ret (-1)
      else indexOf_loop fuel now (heap l) bs (compute_hash bs)
                        (ListHeader.head_offset (header l)) 0
  end.

Definition contains (fuel : nat) (now : Z) (l : t) (data : buffer) : result bool :=
  i ← indexOf fuel now l data; Ret (0 <=? i).

End FastList.

(* ===================================================================== *)
(** * fc_set.cpp *)
(* ===================================================================== *)

Module FastSet.

Record t : Type := mk {
  heap : gmap Z ShmNode.t;
  header : HashTableHeader.t;
  buckets : list ShmBucket.t;
  stats : CollectionStats.t
}.

Definition set_heap (h : gmap Z ShmNode.t) (s : t) : t :=
  mk h (header s) (buckets s) (stats s).
Definition set_header (hd : HashTableHeader.t) (s : t) : t :=
  mk (heap s) hd (buckets s) (stats s).
Definition set_buckets (bs : list ShmBucket.t) (s : t) : t :=
  mk (heap s) (header s) bs (stats s).
Definition set_stats (st : CollectionStats.t) (s : t) : t :=
  mk (heap s) (header s) (buckets s) st.

(** A set on a fresh file: the constructed header and bucket array. *)
Definition create (now : Z) (bucket_count : Z) : t :=
  let hd := HashTableHeader.init now bucket_count in
  mk ∅ hd (replicate (Z.to_nat (HashTableHeader.bucket_count hd)) ShmBucket.init)
     CollectionStats.init.

(** [get_bucket]: the index of the bucket, standing for [&buckets_[idx]]. *)
Definition get_bucket (s : t) (hash : Z) : Z :=
  Z.land hash (wrap32 (HashTableHeader.bucket_count (header s) - 1)).

Definition bucket_at (s : t) (idx : Z) : result ShmBucket.t :=
  match buckets s !! Z.to_nat idx with
  | Some b => Ret b
  | None => Stuck
  end.

Definition store_bucket (idx : Z) (b : ShmBucket.t) (s : t) : t :=
  set_buckets (<[Z.to_nat idx := b]> (buckets s)) s.

(** The loop of [find_in_bucket]; the value is the node found and the
    last node passed ([*prev_out]). *)
Fixpoint find_loop (fuel : nat) (now : Z) (h : gmap Z ShmNode.t)
         (data : bytes) (hash : Z) (current : Z) (prev : option Z)
  : result (option Z * option Z) :=
  match fuel with
  | O => Stuck
  | S fuel' =>
      if current <? 0 then Ret (None, prev)
      else
        node ← deref h current;
        if ShmEntry.is_alive now (ShmNode.entry node)
           && (ShmEntry.hash_code (ShmNode.entry node) =? hash)
           && (ShmEntry.data_size (ShmNode.entry node) =? size_of data)
           && memcmp_eq (ShmNode.data node) data (size_of data)
        then Ret (Some current, prev)
        else find_loop fuel' now h data hash (ShmNode.next_offset node) (Some current)
  end.

Definition find_in_bucket (fuel : nat) (now : Z) (s : t) (bucket : ShmBucket.t)
           (data : bytes) (hash : Z) : result (option Z * option Z) :=
  find_loop fuel now (heap s) data hash (ShmBucket.head_offset bucket) None.

Definition allocate_node (alloc : Z -> option Z) (data_size : Z) (h : gmap Z ShmNode.t)
  : result (Z * gmap Z ShmNode.t) :=
  mem ← manager_allocate alloc (ShmNode.total_size data_size);
  Ret (mem, <[mem := ShmNode.init]> h).

Definition free_node (node : Z) (h : gmap Z ShmNode.t) : gmap Z ShmNode.t :=
  delete node h.


(** [add(data, size, ttl_seconds)].  The tests of [find_in_bucket], one
    for each record, are made at the first reading of the clock; the
    test [is_alive()] of the record found takes the second reading,
    [set_ttl()] the third (in the revival as in [copy_to_node]) and the
    stamp of the header the fourth. *)
Definition add (fuel : nat) (alloc : Z -> option Z) (now : clock) (s : t)
           (data : buffer) (ttl_seconds : Z) : result (bool * t) :=
  match data with
  | None => Ret (false, s)
  | Some bs =>
      if size_of bs =? 0 then Ret (false, s)
      else
        let hash := compute_hash bs in
        let idx := get_bucket s hash in
        bucket ← bucket_at s idx;
        '(existing, _) ← find_in_bucket fuel (now O) s bucket bs hash;
        match existing with
        | Some e =>
            node ← deref (heap s) e;
            if ShmEntry.is_alive (now 1%nat) (ShmNode.entry node) then Ret (false, s)
            else
              (* Expired - update in place *)
              h1 ← update e (fun n =>
                     ShmNode.set_entry
                       (ShmEntry.mark_valid
                          (ShmEntry.set_ttl (now 2%nat) ttl_seconds (ShmNode.entry n))) n)
                     (heap s);
              Ret (true, set_stats (CollectionStats.write_fetch_add 1 (stats s))
                                   (set_heap h1 s))
        | None =>
            '(node, h1) ← allocate_node alloc (size_of bs) (heap s);
            h2 ← update node
                   (fun n => SerializationUtil.copy_to_node (now 2%nat) n bs ttl_seconds)
                   h1;
            let old_head := ShmBucket.head_offset bucket in
            h3 ← update node (ShmNode.set_next old_head) h2;
            h4 ← update node (ShmNode.set_prev NULL_OFFSET) h3;
            h5 ← (if 0 <=? old_head then update old_head (ShmNode.set_prev node) h4
                  else Ret h4);
            let bucket' := ShmBucket.size_fetch_add 1 (ShmBucket.set_head node bucket) in
            let b := CollectionHeader.set_modified_at (now 3%nat)
                       (CollectionHeader.size_fetch_add 1
                          (HashTableHeader.base (header s))) in
            Ret (true,
                 set_stats (CollectionStats.write_fetch_add 1
                              (CollectionStats.size_fetch_add 1 (stats s)))
                   (set_header (HashTableHeader.set_base b (header s))
                      (store_bucket idx bucket' (set_heap h5 s))))
        end
  end.

(** The inner loop of [size()], over one bucket chain. *)
Fixpoint size_chain (fuel : nat) (now : Z) (h : gmap Z ShmNode.t)
         (current alive : Z) : result Z :=
  match fuel with
  | O => Stuck
  | S fuel' =>
      if current <? 0 then Ret alive
      else
        node ← deref h current;
        size_chain fuel' now h (ShmNode.next_offset node)
                   (if ShmEntry.is_alive now (ShmNode.entry node)
                    then alive + 1 else alive)
  end.

(** The outer loop of [size()]: [remaining] buckets from index [i] on. *)
Fixpoint size_buckets (remaining : nat) (fuel : nat) (now : Z) (s : t)
         (i alive : Z) : result Z :=
  match remaining with
  | O => Ret alive
  | S remaining' =>
      bucket ← bucket_at s i;
      alive' ← size_chain fuel now (heap s) (ShmBucket.head_offset bucket) alive;
      size_buckets remaining' fuel now s (i + 1) alive'
  end.

Definition size (fuel : nat) (now : Z) (s : t) : result Z :=
  size_buckets (Z.to_nat (HashTableHeader.bucket_count (header s))) fuel now s 0 0.

(** The inner loop of [forEach]: the calls made to the callback in one
    chain, and whether the callback asked to stop. *)
Fixpoint forEach_chain (fuel : nat) (now : Z) (h : gmap Z ShmNode.t)
         (callback : bytes -> Z -> bool) (current : Z)
  : result (list (bytes * Z) * bool) :=
  match fuel with
  | O => Stuck
  | S fuel' =>
      if current <? 0 then Ret ([], false)
      else
        node ← deref h current;
        if ShmEntry.is_alive now (ShmNode.entry node) then
          let call := (ShmNode.data node, ShmEntry.data_size (ShmNode.entry node)) in
          if negb (callback (ShmNode.data node) (ShmEntry.data_size (ShmNode.entry node)))
          then Ret ([call], true)
          else
            '(rest, stop) ← forEach_chain fuel' now h callback (ShmNode.next_offset node);
            Ret (call :: rest, stop)
        else forEach_chain fuel' now h callback (ShmNode.next_offset node)
  end.

Fixpoint forEach_buckets (remaining : nat) (fuel : nat) (now : Z) (s : t)
         (callback : bytes -> Z -> bool) (i : Z) : result (list (bytes * Z)) :=
  match remaining with
  | O => Ret []
  | S remaining' =>
      bucket ← bucket_at s i;
      '(calls, stop) ← forEach_chain fuel now (heap s) callback
                                     (ShmBucket.head_offset bucket);
      if (stop : bool) then Ret calls
      else
        rest ← forEach_buckets remaining' fuel now s callback (i + 1);
        Ret (calls ++ rest)
  end.

Definition forEach (fuel : nat) (now : Z) (s : t) (callback : bytes -> Z -> bool)
  : result (list (bytes * Z)) :=
  forEach_buckets (Z.to_nat (HashTableHeader.bucket_count (header s))) fuel now s
                  callback 0.

(** The loop of [contains]. *)
Fixpoint contains_loop (fuel : nat) (now : Z) (h : gmap Z ShmNode.t)
         (data : bytes) (hash : Z) (current : Z) : result bool :=
  match fuel with
  | O => Stuck
  | S fuel' =>
      if current <? 0 then Ret false
      else
        node ← deref h current;
        if ShmEntry.is_alive now (ShmNode.entry node)
           && (ShmEntry.hash_code (ShmNode.entry node) =? hash)
           && (ShmEntry.data_size (ShmNode.entry node) =? size_of data)
           && memcmp_eq (ShmNode.data node) data (size_of data)
        then Ret true
        else contains_loop fuel' now h data hash (ShmNode.next_offset node)
  end.

Definition contains (fuel : nat) (now : Z) (s : t) (data : buffer) : result (bool * t) :=
  match data with
  | None => Ret (false, s)
  | Some bs =>
      if size_of bs =? 0 then Ret (false, s)
      else
        let hash := compute_hash bs in
        bucket ← bucket_at s (get_bucket s hash);
        found ← contains_loop fuel now (heap s) bs hash (ShmBucket.head_offset bucket);
        if (found : bool) then
          Ret (true,
               set_stats (CollectionStats.read_fetch_add 1
                            (CollectionStats.hit_fetch_add 1 (stats s))) s)
        else
          Ret (false,
               set_stats (CollectionStats.read_fetch_add 1
                            (CollectionStats.miss_fetch_add 1 (stats s))) s)
  end.

Definition mark_deleted (n : ShmNode.t) : ShmNode.t :=
  ShmNode.set_entry (ShmEntry.mark_deleted (ShmNode.entry n)) n.

(** [remove]: [prev] is the node that [find_in_bucket] passed last. *)
Definition remove (fuel : nat) (now : Z) (s : t) (data : buffer) : result (bool * t) :=
  match data with
  | None => Ret (false, s)
  | Some bs =>
      if size_of bs =? 0 then Ret (false, s)
      else
        let hash := compute_hash bs in
        let idx := get_bucket s hash in
        bucket ← bucket_at s idx;
        '(found, prev) ← find_in_bucket fuel now s bucket bs hash;
        match found with
        | None => Ret (false, s)
        | Some node_offset =>
            node ← deref (heap s) node_offset;
            if negb (ShmEntry.is_alive now (ShmNode.entry node)) then Ret (false, s)
            else
              let next := ShmNode.next_offset node in
              '(h1, bucket1) ←
                match prev with
                | Some p =>
                    h ← update p (ShmNode.set_next next) (heap s); Ret (h, bucket)
                | None => Ret (heap s, ShmBucket.set_head next bucket)
                end;
              h2 ← (if 0 <=? next then
                      update next (ShmNode.set_prev (match prev with
                                                     | Some p => p
                                                     | None => NULL_OFFSET
                                                     end)) h1
                    else Ret h1);
              h3 ← update node_offset mark_deleted h2;
              let h4 := free_node node_offset h3 in
              let bucket2 := ShmBucket.size_fetch_sub 1 bucket1 in
              let b := CollectionHeader.set_modified_at now
                         (CollectionHeader.size_fetch_sub 1
                            (HashTableHeader.base (header s))) in
              Ret (true,
                   set_stats (CollectionStats.size_fetch_sub 1 (stats s))
                     (set_header (HashTableHeader.set_base b (header s))
                        (store_bucket idx bucket2 (set_heap h4 s))))
        end
  end.

End FastSet.

(* ===================================================================== *)
(** * fc_map.cpp *)
(* ===================================================================== *)

Module FastMap.

Record t : Type := mk {
  heap : gmap Z ShmKeyValue.t;
  header : HashTableHeader.t;
  buckets : list ShmBucket.t;
  stats : CollectionStats.t
}.

Definition set_heap (h : gmap Z ShmKeyValue.t) (m : t) : t :=
  mk h (header m) (buckets m) (stats m).
Definition set_header (hd : HashTableHeader.t) (m : t) : t :=
  mk (heap m) hd (buckets m) (stats m).
Definition set_buckets (bs : list ShmBucket.t) (m : t) : t :=
  mk (heap m) (header m) bs (stats m).
Definition set_stats (st : CollectionStats.t) (m : t) : t :=
  mk (heap m) (header m) (buckets m) st.

Definition create (now : Z) (bucket_count : Z) : t :=
  let hd := HashTableHeader.init now bucket_count in
  mk ∅ hd (replicate (Z.to_nat (HashTableHeader.bucket_count hd)) ShmBucket.init)
     CollectionStats.init.

Definition get_bucket (m : t) (hash : Z) : Z :=
  Z.land hash (wrap32 (HashTableHeader.bucket_count (header m) - 1)).

Definition bucket_at (m : t) (idx : Z) : result ShmBucket.t :=
  match buckets m !! Z.to_nat idx with
  | Some b => Ret b
  | None => Stuck
  end.

Definition store_bucket (idx : Z) (b : ShmBucket.t) (m : t) : t :=
  set_buckets (<[Z.to_nat idx := b]> (buckets m)) m.

(** The key comparison of every probe:
    [hash_code == hash && key_size == key_size && memcmp(data, key) == 0]. *)
Definition key_matches (kv : ShmKeyValue.t) (key : bytes) (hash : Z) : bool :=
  (ShmEntry.hash_code (ShmKeyValue.entry kv) =? hash)
  && (ShmKeyValue.key_size kv =? size_of key)
  && memcmp_eq (ShmKeyValue.data kv) key (size_of key).

(** The loop of [find_in_bucket].  It does not look at the state or the
    expiry of a record. *)
Fixpoint find_loop (fuel : nat) (h : gmap Z ShmKeyValue.t)
         (key : bytes) (hash : Z) (current : Z) (prev : option Z)
  : result (option Z * option Z) :=
  match fuel with
  | O => Stuck
  | S fuel' =>
      if current <? 0 then Ret (None, prev)
      else
        kv ← deref h current;
        if key_matches kv key hash then Ret (Some current, prev)
        else find_loop fuel' h key hash (ShmKeyValue.next_offset kv) (Some current)
  end.

Definition find_in_bucket (fuel : nat) (m : t) (bucket : ShmBucket.t)
           (key : bytes) (hash : Z) : result (option Z * option Z) :=
  find_loop fuel (heap m) key hash (ShmBucket.head_offset bucket) None.

Definition allocate_kv (alloc : Z -> option Z) (key_size value_size : Z)
           (h : gmap Z ShmKeyValue.t) : result (Z * gmap Z ShmKeyValue.t) :=
  mem ← manager_allocate alloc (ShmKeyValue.total_size key_size value_size);
  Ret (mem, <[mem := ShmKeyValue.init]> h).

Definition free_kv (kv : Z) (h : gmap Z ShmKeyValue.t) : gmap Z ShmKeyValue.t :=
  delete kv h.


Definition mark_deleted (kv : ShmKeyValue.t) : ShmKeyValue.t :=
  ShmKeyValue.set_entry (ShmEntry.mark_deleted (ShmKeyValue.entry kv)) kv.

(** "Different size - need to reallocate": a new record takes the place
    of [existing] between the same neighbours, and [existing] is freed. *)
Definition reallocate (alloc : Z -> option Z) (now : Z) (m : t) (idx : Z)
           (existing : Z) (key value : bytes) (ttl_seconds : Z) : result t :=
  old ← deref (heap m) existing;
  let prev_offset := ShmKeyValue.prev_offset old in
  let next_offset := ShmKeyValue.next_offset old in
  '(new_kv, h1) ← allocate_kv alloc (size_of key) (size_of value) (heap m);
  h2 ← update new_kv (fun kv => SerializationUtil.copy_to_kv now kv key value ttl_seconds) h1;
  h3 ← update new_kv (ShmKeyValue.set_prev prev_offset) h2;
  h4 ← update new_kv (ShmKeyValue.set_next next_offset) h3;
  m5 ←
    (if 0 <=? prev_offset then
       h5 ← update prev_offset (ShmKeyValue.set_next new_kv) h4;
       Ret (set_heap h5 m)
     else
       bucket ← bucket_at m idx;
       Ret (store_bucket idx (ShmBucket.set_head new_kv bucket) (set_heap h4 m)));
  h6 ← (if 0 <=? next_offset
        then update next_offset (ShmKeyValue.set_prev new_kv) (heap m5)
        else Ret (heap m5));
  h7 ← update existing mark_deleted h6;
  Ret (set_heap (free_kv existing h7) m5).

(** "Add new entry": a new record at the head of the bucket chain. *)
Definition add_new_entry (alloc : Z -> option Z) (now : Z) (m : t) (idx : Z)
           (key value : bytes) (ttl_seconds : Z) : result t :=
  bucket ← bucket_at m idx;
  '(kv, h1) ← allocate_kv alloc (size_of key) (size_of value) (heap m);
  h2 ← update kv (fun r => SerializationUtil.copy_to_kv now r key value ttl_seconds) h1;
  let old_head := ShmBucket.head_offset bucket in
  h3 ← update kv (ShmKeyValue.set_next old_head) h2;
  h4 ← update kv (ShmKeyValue.set_prev NULL_OFFSET) h3;
  h5 ← (if 0 <=? old_head then update old_head (ShmKeyValue.set_prev kv) h4 else Ret h4);
  let bucket' := ShmBucket.size_fetch_add 1 (ShmBucket.set_head kv bucket) in
  let b := CollectionHeader.set_modified_at now
             (CollectionHeader.size_fetch_add 1 (HashTableHeader.base (header m))) in
  Ret (set_stats (CollectionStats.write_fetch_add 1
                    (CollectionStats.size_fetch_add 1 (stats m)))
         (set_header (HashTableHeader.set_base b (header m))
            (store_bucket idx bucket' (set_heap h5 m)))).

(** The end of the two updates of an existing key. *)
Definition touch (now : Z) (m : t) : t :=
  set_stats (CollectionStats.write_fetch_add 1 (stats m))
    (set_header (HashTableHeader.set_base
                   (CollectionHeader.set_modified_at now (HashTableHeader.base (header m)))
                   (header m)) m).

(** "Same size - update in place" of [put]: the value bytes are copied
    over the old ones, after the key; the time to live is set and the
    record is marked Valid. *)
Definition update_in_place (now : Z) (key value : bytes) (ttl_seconds : Z)
           (kv : ShmKeyValue.t) : ShmKeyValue.t :=
  let kv := ShmKeyValue.set_data
              (memcpy_at (ShmKeyValue.data kv) (size_of key) value) kv in
  ShmKeyValue.set_entry
    (ShmEntry.mark_valid (ShmEntry.set_ttl now ttl_seconds (ShmKeyValue.entry kv))) kv.

Definition put (fuel : nat) (alloc : Z -> option Z) (now : Z) (m : t)
           (key : buffer) (value : bytes) (ttl_seconds : Z) : result (bool * t) :=
  match key with
  | None => Ret (false, m)
  | Some k =>
      if size_of k =? 0 then Ret (false, m)
      else
        let hash := compute_hash k in
        let idx := get_bucket m hash in
        bucket ← bucket_at m idx;
        '(existing, _) ← find_in_bucket fuel m bucket k hash;
        match existing with
        | Some e =>
            old ← deref (heap m) e;
            m1 ←
              (if ShmKeyValue.value_size old =? size_of value then
                 h1 ← update e (update_in_place now k value ttl_seconds) (heap m);
                 Ret (set_heap h1 m)
               else reallocate alloc now m idx e k value ttl_seconds);
            Ret (true, touch now m1)
        | None =>
            m1 ← add_new_entry alloc now m idx k value ttl_seconds;
            Ret (true, m1)
        end
  end.

(** The unlinking of [putIfAbsent] and of the sweeps: through the
    record's own [prev_offset]. *)
Definition unlink_by_offsets (m : t) (idx : Z) (existing : Z) : result t :=
  old ← deref (heap m) existing;
  let prev := ShmKeyValue.prev_offset old in
  let next := ShmKeyValue.next_offset old in
  m1 ←
    (if 0 <=? prev then
       h1 ← update prev (ShmKeyValue.set_next next) (heap m);
       Ret (set_heap h1 m)
     else
       bucket ← bucket_at m idx;
       Ret (store_bucket idx (ShmBucket.set_head next bucket) m));
  h2 ← (if 0 <=? next then update next (ShmKeyValue.set_prev prev) (heap m1)
        else Ret (heap m1));
  Ret (set_heap h2 m1).

(** The bookkeeping of a removal: state, storage, the three counters. *)
Definition discard (m : t) (idx : Z) (kv : Z) : result t :=
  h1 ← update kv mark_deleted (heap m);
  bucket ← bucket_at m idx;
  Ret (set_stats (CollectionStats.size_fetch_sub 1 (stats m))
         (set_header (HashTableHeader.set_base
                        (CollectionHeader.size_fetch_sub 1 (HashTableHeader.base (header m)))
                        (header m))
            (store_bucket idx (ShmBucket.size_fetch_sub 1 bucket)
               (set_heap (free_kv kv h1) m)))).

Definition putIfAbsent (fuel : nat) (alloc : Z -> option Z) (now : Z) (m : t)
           (key : buffer) (value : bytes) (ttl_seconds : Z) : result (bool * t) :=
  match key with
  | None => Ret (false, m)
  | Some k =>
      if size_of k =? 0 then Ret (false, m)
      else
        let hash := compute_hash k in
        let idx := get_bucket m hash in
        bucket ← bucket_at m idx;
        '(existing, _) ← find_in_bucket fuel m bucket k hash;
        alive ←
          match existing with
          | Some e => old ← deref (heap m) e;
                      Ret (ShmEntry.is_alive now (ShmKeyValue.entry old))
          | None => Ret false
          end;
        if (alive : bool) then Ret (false, m)
        else
          m1 ←
            match existing with
            | Some e => m' ← unlink_by_offsets m idx e; discard m' idx e
            | None => Ret m
            end;
          m2 ← add_new_entry alloc now m1 idx k value ttl_seconds;
          Ret (true, m2)
  end.

(** The loop of [get]: the first record of the chain that is alive and
    has the key. *)
Fixpoint get_loop (fuel : nat) (now : Z) (h : gmap Z ShmKeyValue.t)
         (key : bytes) (hash : Z) (current : Z) : result (option ShmKeyValue.t) :=
  match fuel with
  | O => Stuck
  | S fuel' =>
      if current <? 0 then Ret None
      else
        kv ← deref h current;
        if ShmEntry.is_alive now (ShmKeyValue.entry kv) && key_matches kv key hash
        then Ret (Some kv)
        else get_loop fuel' now h key hash (ShmKeyValue.next_offset kv)
  end.

(** The bytes [out_value] holds after the copy out of a record. *)
Definition read_value (kv : ShmKeyValue.t) : bytes :=
  take (Z.to_nat (ShmKeyValue.value_size kv)) (ShmKeyValue.value_data kv).

(** [get]: the flag returned, the contents of [out_value] afterwards, and
    the map (a read counts in the statistics). *)
Definition get (fuel : nat) (now : Z) (m : t) (key : buffer) (out_value : bytes)
  : result (bool * bytes * t) :=
  match key with
  | None => Ret (false, out_value, m)
  | Some k =>
      if size_of k =? 0 then Ret (false, out_value, m)
      else
        let hash := compute_hash k in
        bucket ← bucket_at m (get_bucket m hash);
        found ← get_loop fuel now (heap m) k hash (ShmBucket.head_offset bucket);
        match found with
        | Some kv =>
            Ret (true, read_value kv,
                 set_stats (CollectionStats.read_fetch_add 1
                              (CollectionStats.hit_fetch_add 1 (stats m))) m)
        | None =>
            Ret (false, out_value,
                 set_stats (CollectionStats.read_fetch_add 1
                              (CollectionStats.miss_fetch_add 1 (stats m))) m)
        end
  end.

(** The unlinking of the two [remove]: through the predecessor that
    [find_in_bucket] reported. *)
Definition unlink_after (m : t) (idx : Z) (prev : option Z) (kv : Z) : result t :=
  rec ← deref (heap m) kv;
  let next := ShmKeyValue.next_offset rec in
  m1 ←
    match prev with
    | Some p =>
        h1 ← update p (ShmKeyValue.set_next next) (heap m);
        Ret (set_heap h1 m)
    | None =>
        bucket ← bucket_at m idx;
        Ret (store_bucket idx (ShmBucket.set_head next bucket) m)
    end;
  h2 ← (if 0 <=? next
        then update next (ShmKeyValue.set_prev (default NULL_OFFSET prev)) (heap m1)
        else Ret (heap m1));
  Ret (set_heap h2 m1).

Definition stamp (now : Z) (m : t) : t :=
  set_header (HashTableHeader.set_base
                (CollectionHeader.set_modified_at now (HashTableHeader.base (header m)))
                (header m)) m.

(** [remove(key, key_size, out_value)]; [out_value] is [None] for a null
    pointer, else the contents of the caller's vector. *)
Definition remove (fuel : nat) (now : Z) (m : t) (key : buffer) (out_value : option bytes)
  : result (bool * option bytes * t) :=
  match key with
  | None => Ret (false, out_value, m)
  | Some k =>
      if size_of k =? 0 then Ret (false, out_value, m)
      else
        let hash := compute_hash k in
        let idx := get_bucket m hash in
        bucket ← bucket_at m idx;
        '(found, prev) ← find_in_bucket fuel m bucket k hash;
        match found with
        | None => Ret (false, out_value, m)
        | Some kv =>
            rec ← deref (heap m) kv;
            let out' :=
              match out_value with
              | Some _ =>
                  if ShmEntry.is_alive now (ShmKeyValue.entry rec)
                  then Some (read_value rec) else out_value
              | None => None
              end in
            m1 ← unlink_after m idx prev kv;
            m2 ← discard m1 idx kv;
            Ret (true, out', stamp now m2)
        end
  end.

(** [remove(key, key_size, expected_value, value_size)]. *)
Definition remove_expected (fuel : nat) (now : Z) (m : t) (key : buffer)
           (expected_value : bytes) : result (bool * t) :=
  match key with
  | None => Ret (false, m)
  | Some k =>
      if size_of k =? 0 then Ret (false, m)
      else
        let hash := compute_hash k in
        let idx := get_bucket m hash in
        bucket ← bucket_at m idx;
        '(found, prev) ← find_in_bucket fuel m bucket k hash;
        match found with
        | None => Ret (false, m)
        | Some kv =>
            rec ← deref (heap m) kv;
            if negb (ShmEntry.is_alive now (ShmKeyValue.entry rec)) then Ret (false, m)
            else if negb (ShmKeyValue.value_size rec =? size_of expected_value)
                    || negb (memcmp_eq (ShmKeyValue.value_data rec) expected_value
                                       (size_of expected_value))
            then Ret (false, m)
            else
              m1 ← unlink_after m idx prev kv;
              m2 ← discard m1 idx kv;
              Ret (true, stamp now m2)
        end
  end.

(** "Same size - update in place" of [replace]: the value bytes are
    copied over the old ones and the time to live is set; the state is
    left as it is. *)
Definition replace_in_place (now : Z) (key value : bytes) (ttl_seconds : Z)
           (kv : ShmKeyValue.t) : ShmKeyValue.t :=
  let kv := ShmKeyValue.set_data
              (memcpy_at (ShmKeyValue.data kv) (size_of key) value) kv in
  ShmKeyValue.set_entry (ShmEntry.set_ttl now ttl_seconds (ShmKeyValue.entry kv)) kv.

(** [replace(key, key_size, value, value_size, ttl_seconds)]. *)
Definition replace (fuel : nat) (alloc : Z -> option Z) (now : Z) (m : t)
           (key : buffer) (value : bytes) (ttl_seconds : Z) : result (bool * t) :=
  match key with
  | None => Ret (false, m)
  | Some k =>
      if size_of k =? 0 then Ret (false, m)
      else
        let hash := compute_hash k in
        let idx := get_bucket m hash in
        bucket ← bucket_at m idx;
        '(found, _) ← find_in_bucket fuel m bucket k hash;
        match found with
        | None => Ret (false, m)
        | Some kv =>
            rec ← deref (heap m) kv;
            if negb (ShmEntry.is_alive now (ShmKeyValue.entry rec)) then Ret (false, m)
            else
              m1 ←
                (if ShmKeyValue.value_size rec =? size_of value then
                   h1 ← update kv (replace_in_place now k value ttl_seconds) (heap m);
                   Ret (set_heap h1 m)
                 else reallocate alloc now m idx kv k value ttl_seconds);
              Ret (true, touch now m1)
        end
  end.

Fixpoint size_chain (fuel : nat) (now : Z) (h : gmap Z ShmKeyValue.t)
         (current alive : Z) : result Z :=
  match fuel with
  | O => Stuck
  | S fuel' =>
      if current <? 0 then Ret alive
      else
        kv ← deref h current;
        size_chain fuel' now h (ShmKeyValue.next_offset kv)
                   (if ShmEntry.is_alive now (ShmKeyValue.entry kv)
                    then alive + 1 else alive)
  end.

Fixpoint size_buckets (remaining : nat) (fuel : nat) (now : Z) (m : t)
         (i alive : Z) : result Z :=
  match remaining with
  | O => Ret alive
  | S remaining' =>
      bucket ← bucket_at m i;
      alive' ← size_chain fuel now (heap m) (ShmBucket.head_offset bucket) alive;
      size_buckets remaining' fuel now m (i + 1) alive'
  end.

Definition size (fuel : nat) (now : Z) (m : t) : result Z :=
  size_buckets (Z.to_nat (HashTableHeader.bucket_count (header m))) fuel now m 0 0.

(** A call of the callback of [forEach]: key bytes, key size, value
    bytes, value size. *)
Definition call_of (kv : ShmKeyValue.t) : bytes * Z * bytes * Z :=
  (ShmKeyValue.key_data kv, ShmKeyValue.key_size kv,
   ShmKeyValue.value_data kv, ShmKeyValue.value_size kv).

Fixpoint forEach_chain (fuel : nat) (now : Z) (h : gmap Z ShmKeyValue.t)
         (callback : bytes -> Z -> bytes -> Z -> bool) (current : Z)
  : result (list (bytes * Z * bytes * Z) * bool) :=
  match fuel with
  | O => Stuck
  | S fuel' =>
      if current <? 0 then Ret ([], false)
      else
        kv ← deref h current;
        if ShmEntry.is_alive now (ShmKeyValue.entry kv) then
          if negb (callback (ShmKeyValue.key_data kv) (ShmKeyValue.key_size kv)
                            (ShmKeyValue.value_data kv) (ShmKeyValue.value_size kv))
          then Ret ([call_of kv], true)
          else
            '(rest, stop) ← forEach_chain fuel' now h callback (ShmKeyValue.next_offset kv);
            Ret (call_of kv :: rest, stop)
        else forEach_chain fuel' now h callback (ShmKeyValue.next_offset kv)
  end.

Fixpoint forEach_buckets (remaining : nat) (fuel : nat) (now : Z) (m : t)
         (callback : bytes -> Z -> bytes -> Z -> bool) (i : Z)
  : result (list (bytes * Z * bytes * Z)) :=
  match remaining with
  | O => Ret []
  | S remaining' =>
      bucket ← bucket_at m i;
      '(calls, stop) ← forEach_chain fuel now (heap m) callback
                                     (ShmBucket.head_offset bucket);
      if (stop : bool) then Ret calls
      else
        rest ← forEach_buckets remaining' fuel now m callback (i + 1);
        Ret (calls ++ rest)
  end.

Definition forEach (fuel : nat) (now : Z) (m : t)
           (callback : bytes -> Z -> bytes -> Z -> bool)
  : result (list (bytes * Z * bytes * Z)) :=
  forEach_buckets (Z.to_nat (HashTableHeader.bucket_count (header m))) fuel now m
                  callback 0.

(** The loop of [containsKey]. *)
Fixpoint containsKey_loop (fuel : nat) (now : Z) (h : gmap Z ShmKeyValue.t)
         (key : bytes) (hash : Z) (current : Z) : result bool :=
  match fuel with
  | O => Stuck
  | S fuel' =>
      if current <? 0 then Ret false
      else
        kv ← deref h current;
        if ShmEntry.is_alive now (ShmKeyValue.entry kv) && key_matches kv key hash
        then Ret true
        else containsKey_loop fuel' now h key hash (ShmKeyValue.next_offset kv)
  end.

Definition containsKey (fuel : nat) (now : Z) (m : t) (key : buffer) : result bool :=
  match key with
  | None => Ret false
  | Some k =>
      if size_of k =? 0 then Ret false
      else
        let hash := compute_hash k in
        bucket ← bucket_at m (get_bucket m hash);
        containsKey_loop fuel now (heap m) k hash (ShmBucket.head_offset bucket)
  end.

(** The loop of [getTTL]. *)
Fixpoint getTTL_loop (fuel : nat) (now : Z) (h : gmap Z ShmKeyValue.t)
         (key : bytes) (hash : Z) (current : Z) : result Z :=
  match fuel with
  | O => Stuck
  | S fuel' =>
      if current <? 0 then Ret 0
      else
        kv ← deref h current;
        if ShmEntry.is_alive now (ShmKeyValue.entry kv) && key_matches kv key hash
        then Ret (ShmEntry.remaining_ttl_seconds now (ShmKeyValue.entry kv))
        else getTTL_loop fuel' now h key hash (ShmKeyValue.next_offset kv)
  end.

Definition getTTL (fuel : nat) (now : Z) (m : t) (key : buffer) : result Z :=
  match key with
  | None => Ret 0
  | Some k =>
      if size_of k =? 0 then Ret 0
      else
        let hash := compute_hash k in
        bucket ← bucket_at m (get_bucket m hash);
        getTTL_loop fuel now (heap m) k hash (ShmBucket.head_offset bucket)
  end.

(** [getOrDefault]: [get] into an empty vector, the default when it
    fails. *)
Definition getOrDefault (fuel : nat) (now : Z) (m : t) (key : buffer)
           (default_value : bytes) : result (bytes * t) :=
  '(found, result, m') ← get fuel now m key [];
  if (found : bool) then Ret (result, m') else Ret (default_value, m').

Definition setTTL (fuel : nat) (now : Z) (m : t) (key : buffer) (ttl_seconds : Z)
  : result (bool * t) :=
  match key with
  | None => Ret (false, m)
  | Some k =>
      if size_of k =? 0 then Ret (false, m)
      else
        let hash := compute_hash k in
        let idx := get_bucket m hash in
        bucket ← bucket_at m idx;
        '(found, _) ← find_in_bucket fuel m bucket k hash;
        match found with
        | None => Ret (false, m)
        | Some kv =>
            rec ← deref (heap m) kv;
            if negb (ShmEntry.is_alive now (ShmKeyValue.entry rec)) then Ret (false, m)
            else
              h1 ← update kv (fun r => ShmKeyValue.set_entry
                                         (ShmEntry.set_ttl now ttl_seconds
                                                           (ShmKeyValue.entry r)) r)
                         (heap m);
              Ret (true, stamp now (set_heap h1 m))
        end
  end.

(** The inner loop of [clear]: every record of the chain is marked
    Deleted and freed. *)
Fixpoint clear_chain (fuel : nat) (h : gmap Z ShmKeyValue.t) (current : Z)
  : result (gmap Z ShmKeyValue.t) :=
  match fuel with
  | O => Stuck
  | S fuel' =>
      if current <? 0 then Ret h
      else
        kv ← deref h current;
        let next := ShmKeyValue.next_offset kv in
        h1 ← update current mark_deleted h;
        clear_chain fuel' (free_kv current h1) next
  end.

Fixpoint clear_buckets (remaining : nat) (fuel : nat) (m : t) (i : Z) : result t :=
  match remaining with
  | O => Ret m
  | S remaining' =>
      bucket ← bucket_at m i;
      h1 ← clear_chain fuel (heap m) (ShmBucket.head_offset bucket);
      clear_buckets remaining' fuel
        (store_bucket i (ShmBucket.size_store 0 (ShmBucket.set_head NULL_OFFSET bucket))
                      (set_heap h1 m))
        (i + 1)
  end.

Definition clear (fuel : nat) (now : Z) (m : t) : result t :=
  m1 ← clear_buckets (Z.to_nat (HashTableHeader.bucket_count (header m))) fuel m 0;
  Ret (set_stats (CollectionStats.size_store 0 (stats m1))
         (set_header (HashTableHeader.set_base
                        (CollectionHeader.set_modified_at now
                           (CollectionHeader.size_store 0 (HashTableHeader.base (header m1))))
                        (header m1)) m1)).

Definition isEmpty (fuel : nat) (now : Z) (m : t) : result bool :=
  n ← size fuel now m; Ret (n =? 0).

End FastMap.

(* ===================================================================== *)
(** * fc_queue.cpp *)
(* ===================================================================== *)

Module FastQueue.

(** What a run does to the collection lock and to the heap of the file,
    in the order it does it.  The queue keeps this history next to its
    data so that the order of the effects of an operation can be stated. *)
Inductive event : Type :=
| Lock
| Unlock
| Deallocate (offset : Z).

Record t : Type := mk {
  heap : gmap Z ShmNode.t;
  header : DequeHeader.t;
  stats : CollectionStats.t;
  trace : list event
}.

Definition set_heap (h : gmap Z ShmNode.t) (q : t) : t :=
  mk h (header q) (stats q) (trace q).
Definition set_header (hd : DequeHeader.t) (q : t) : t :=
  mk (heap q) hd (stats q) (trace q).
Definition set_stats (s : CollectionStats.t) (q : t) : t :=
  mk (heap q) (header q) s (trace q).
Definition emit (e : event) (q : t) : t :=
  mk (heap q) (header q) (stats q) (trace q ++ [e]).

Definition create (now : Z) : t :=
  mk ∅ (DequeHeader.init now) CollectionStats.init [].

(** [IpcScopedLock lock(header_->global_mutex)] and the end of its scope. *)
Definition lock (q : t) : t := emit Lock q.
Definition unlock (q : t) : t := emit Unlock q.

Definition node_at_offset (offset : Z) : option Z :=
  if offset <? 0 then None else Some offset.

Definition allocate_node (alloc : Z -> option Z) (data_size : Z) (h : gmap Z ShmNode.t)
  : result (Z * gmap Z ShmNode.t) :=
  mem ← manager_allocate alloc (ShmNode.total_size data_size);
  Ret (mem, <[mem := ShmNode.init]> h).

(** [free_node]: [file_manager_->deallocate(node)]. *)
Definition free_node (node : Z) (q : t) : t :=
  emit (Deallocate node) (set_heap (delete node (heap q)) q).


Definition mark_deleted (n : ShmNode.t) : ShmNode.t :=
  ShmNode.set_entry (ShmEntry.mark_deleted (ShmNode.entry n)) n.

Definition header_size_sub (q : t) : t :=
  set_header (DequeHeader.set_base
                (CollectionHeader.size_fetch_sub 1 (DequeHeader.base (header q)))
                (header q)) q.
Definition header_size_add (q : t) : t :=
  set_header (DequeHeader.set_base
                (CollectionHeader.size_fetch_add 1 (DequeHeader.base (header q)))
                (header q)) q.
Definition stamp (now : Z) (q : t) : t :=
  set_header (DequeHeader.set_base
                (CollectionHeader.set_modified_at now (DequeHeader.base (header q)))
                (header q)) q.

(** The removal of the front node [front], common to the skip of an
    expired front and to the two removals of an alive one: the front
    offset moves to the successor, whose [prev] is cleared (or the back
    offset is cleared), the node is marked deleted and freed, and the
    header size goes down by one. *)
Definition remove_front (q : t) (front : Z) : result t :=
  node ← deref (heap q) front;
  let next := ShmNode.next_offset node in
  let q1 := set_header (DequeHeader.set_front next (header q)) q in
  q2 ←
    (if 0 <=? next then
       h ← update next (ShmNode.set_prev NULL_OFFSET) (heap q1);
       Ret (set_heap h q1)
     else Ret (set_header (DequeHeader.set_back NULL_OFFSET (header q1)) q1));
  h3 ← update front mark_deleted (heap q2);
  let q3 := free_node front (set_heap h3 q2) in
  Ret (header_size_sub q3).

(** [skip_expired_front] (must be called with lock held).  Each round
    of the loop that reaches [is_expired()] takes one reading of the
    clock; the value is the number of the readings taken, and the
    queue. *)
Fixpoint skip_expired_front (fuel : nat) (now : clock) (q : t) : result (nat * t) :=
  match fuel with
  | O => Stuck
  | S fuel' =>
      let front := DequeHeader.front_offset (header q) in
      if front <? 0 then Ret (O, q)
      else
        node ← deref (heap q) front;
        if negb (ShmEntry.is_expired (now O) (ShmNode.entry node)) then Ret (1%nat, q)
        else
          q1 ← remove_front q front;
          '(n, q2) ← skip_expired_front fuel' (tick now)
                       (set_stats (CollectionStats.size_fetch_sub 1 (stats q1)) q1);
          Ret (S n, q2)
  end.

Definition offer (alloc : Z -> option Z) (now : Z) (q : t) (data : buffer)
           (ttl_seconds : Z) : result (bool * t) :=
  match data with
  | None => Ret (false, q)
  | Some bs =>
      if size_of bs =? 0 then Ret (false, q)
      else
        let q := lock q in
        '(node, h1) ← allocate_node alloc (size_of bs) (heap q);
        h2 ← update node (fun n => SerializationUtil.copy_to_node now n bs ttl_seconds) h1;
        let back := DequeHeader.back_offset (header q) in
        h3 ← update node (ShmNode.set_prev back) h2;
        h4 ← update node (ShmNode.set_next NULL_OFFSET) h3;
        q5 ←
          (if 0 <=? back then
             h5 ← update back (ShmNode.set_next node) h4;
             Ret (set_heap h5 q)
           else Ret (set_header (DequeHeader.set_front node (header q)) (set_heap h4 q)));
        let q6 := set_header (DequeHeader.set_back node (header q5)) q5 in
        let q7 := stamp now (header_size_add q6) in
        Ret (true,
             unlock (set_stats (CollectionStats.write_fetch_add 1
                                  (CollectionStats.size_fetch_add 1 (stats q7))) q7))
  end.

Definition offerFirst (alloc : Z -> option Z) (now : Z) (q : t) (data : buffer)
           (ttl_seconds : Z) : result (bool * t) :=
  match data with
  | None => Ret (false, q)
  | Some bs =>
      if size_of bs =? 0 then Ret (false, q)
      else
        let q := lock q in
        '(node, h1) ← allocate_node alloc (size_of bs) (heap q);
        h2 ← update node (fun n => SerializationUtil.copy_to_node now n bs ttl_seconds) h1;
        let front := DequeHeader.front_offset (header q) in
        h3 ← update node (ShmNode.set_next front) h2;
        h4 ← update node (ShmNode.set_prev NULL_OFFSET) h3;
        q5 ←
          (if 0 <=? front then
             h5 ← update front (ShmNode.set_prev node) h4;
             Ret (set_heap h5 q)
           else Ret (set_header (DequeHeader.set_back node (header q)) (set_heap h4 q)));
        let q6 := set_header (DequeHeader.set_front node (header q5)) q5 in
        let q7 := stamp now (header_size_add q6) in
        Ret (true,
             unlock (set_stats (CollectionStats.write_fetch_add 1
                                  (CollectionStats.size_fetch_add 1 (stats q7))) q7))
  end.

Definition miss (q : t) : t :=
  set_stats (CollectionStats.miss_fetch_add 1 (stats q)) q.
Definition hit (q : t) : t :=
  set_stats (CollectionStats.hit_fetch_add 1
               (CollectionStats.read_fetch_add 1 (stats q))) q.

(** [poll(out_data)]: the flag, the contents of [out_data] afterwards, the
    queue.  After the [n] readings of [skip_expired_front], the test
    [is_alive()] takes the next reading, [copy_from_node()] the one
    after, and the stamp of the header the one after that. *)
Definition poll (fuel : nat) (now : clock) (q : t) (out_data : bytes)
  : result (bool * bytes * t) :=
  let q := lock q in
  '(n, q1) ← skip_expired_front fuel now q;
  let front := DequeHeader.front_offset (header q1) in
  if front <? 0 then Ret (false, out_data, unlock (miss q1))
  else
    node ← deref (heap q1) front;
    if negb (ShmEntry.is_alive (now n) (ShmNode.entry node))
    then Ret (false, out_data, unlock (miss q1))
    else
      let out := SerializationUtil.copy_from_node (now (S n)) node in
      q2 ← remove_front q1 front;
      let q3 := stamp (now (S (S n))) q2 in
      Ret (true, out,
           unlock (hit (set_stats (CollectionStats.size_fetch_sub 1 (stats q3)) q3))).

(** [peek(out_data)]: as [poll], without the removal and the stamp. *)
Definition peek (fuel : nat) (now : clock) (q : t) (out_data : bytes)
  : result (bool * bytes * t) :=
  let q := lock q in
  '(n, q1) ← skip_expired_front fuel now q;
  let front := DequeHeader.front_offset (header q1) in
  if front <? 0 then Ret (false, out_data, unlock (miss q1))
  else
    node ← deref (heap q1) front;
    if negb (ShmEntry.is_alive (now n) (ShmNode.entry node))
    then Ret (false, out_data, unlock (miss q1))
    else Ret (true, SerializationUtil.copy_from_node (now (S n)) node, unlock (hit q1)).

Fixpoint size_loop (fuel : nat) (now : Z) (h : gmap Z ShmNode.t)
         (current alive : Z) : result Z :=
  match fuel with
  | O => Stuck
  | S fuel' =>
      if current <? 0 then Ret alive
      else
        node ← deref h current;
        size_loop fuel' now h (ShmNode.next_offset node)
                  (if ShmEntry.is_alive now (ShmNode.entry node)
                   then alive + 1 else alive)
  end.

(** [size()]; the queue returned differs by the lock events only. *)
Definition size (fuel : nat) (now : Z) (q : t) : result (Z * t) :=
  let q := lock q in
  n ← size_loop fuel now (heap q) (DequeHeader.front_offset (header q)) 0;
  Ret (n, unlock q).

Fixpoint forEach_loop (fuel : nat) (now : Z) (h : gmap Z ShmNode.t)
         (callback : bytes -> Z -> bool) (current : Z) : result (list (bytes * Z)) :=
  match fuel with
  | O => Stuck
  | S fuel' =>
      if current <? 0 then Ret []
      else
        node ← deref h current;
        if ShmEntry.is_alive now (ShmNode.entry node) then
          let call := (ShmNode.data node, ShmEntry.data_size (ShmNode.entry node)) in
          if negb (callback (ShmNode.data node) (ShmEntry.data_size (ShmNode.entry node)))
          then Ret [call]
          else
            rest ← forEach_loop fuel' now h callback (ShmNode.next_offset node);
            Ret (call :: rest)
        else forEach_loop fuel' now h callback (ShmNode.next_offset node)
  end.

Definition forEach (fuel : nat) (now : Z) (q : t) (callback : bytes -> Z -> bool)
  : result (list (bytes * Z) * t) :=
  let q := lock q in
  calls ← forEach_loop fuel now (heap q) callback (DequeHeader.front_offset (header q));
  Ret (calls, unlock q).

(** [remove()]: the bytes that [poll] gives, or the exception raised when
    [poll] returns [false]; the queue is the one that [poll] leaves, in
    both cases. *)
Definition remove (fuel : nat) (now : clock) (q : t) : result ((exn + bytes) * t) :=
  '(ok, result, q') ← poll fuel now q [];
  if (ok : bool) then Ret (inr result, q')
  else Ret (inl (FastCollectionException NOT_FOUND), q').

(** [element()]: as [remove()], on [peek]. *)
Definition element (fuel : nat) (now : clock) (q : t) : result ((exn + bytes) * t) :=
  '(ok, result, q') ← peek fuel now q [];
  if (ok : bool) then Ret (inr result, q')
  else Ret (inl (FastCollectionException NOT_FOUND), q').

(** The removal of the back node [back]: the back offset moves to the
    predecessor, whose [next] is cleared (or the front offset is
    cleared), the node is marked deleted and freed, and the header size
    goes down by one. *)
Definition remove_back (q : t) (back : Z) : result t :=
  node ← deref (heap q) back;
  let prev := ShmNode.prev_offset node in
  let q1 := set_header (DequeHeader.set_back prev (header q)) q in
  q2 ←
    (if 0 <=? prev then
       h ← update prev (ShmNode.set_next NULL_OFFSET) (heap q1);
       Ret (set_heap h q1)
     else Ret (set_header (DequeHeader.set_front NULL_OFFSET (header q1)) q1));
  h3 ← update back mark_deleted (heap q2);
  let q3 := free_node back (set_heap h3 q2) in
  Ret (header_size_sub q3).

(** "Skip expired from back" of [pollLast]: the nodes that are not alive
    are removed, from the back on.  Each round of the loop that reaches
    [is_alive()] takes one reading of the clock; the value is the number
    of the readings taken, the variable [back] of the loop, and the
    queue. *)
Fixpoint skip_dead_back (fuel : nat) (now : clock) (q : t) (back : Z)
  : result (nat * Z * t) :=
  match fuel with
  | O => Stuck
  | S fuel' =>
      if back <? 0 then Ret (O, back, q)
      else
        node ← deref (heap q) back;
        if ShmEntry.is_alive (now O) (ShmNode.entry node) then Ret (1%nat, back, q)
        else
          let prev := ShmNode.prev_offset node in
          q1 ← remove_back q back;
          '(n, back', q2) ← skip_dead_back fuel' (tick now)
                              (set_stats (CollectionStats.size_fetch_sub 1 (stats q1)) q1)
                              prev;
          Ret (S n, back', q2)
  end.

(** [pollLast(out_data)].  After the [n] readings of the loop, the test
    [is_alive()] takes the next reading, [copy_from_node()] the one
    after, and the stamp of the header the one after that. *)
Definition pollLast (fuel : nat) (now : clock) (q : t) (out_data : bytes)
  : result (bool * bytes * t) :=
  let q := lock q in
  '(n, back, q1) ← skip_dead_back fuel now q (DequeHeader.back_offset (header q));
  if back <? 0 then Ret (false, out_data, unlock (miss q1))
  else
    node ← deref (heap q1) back;
    if negb (ShmEntry.is_alive (now n) (ShmNode.entry node))
    then Ret (false, out_data, unlock (miss q1))
    else
      let out := SerializationUtil.copy_from_node (now (S n)) node in
      q2 ← remove_back q1 back;
      let q3 := stamp (now (S (S n))) q2 in
      Ret (true, out,
           unlock (hit (set_stats (CollectionStats.size_fetch_sub 1 (stats q3)) q3))).

(** "Skip expired from back" of [peekLast]: nothing is removed.  The
    value is the number of the readings taken, one for each test, and
    the variable [back] of the loop. *)
Fixpoint last_alive (fuel : nat) (now : clock) (h : gmap Z ShmNode.t) (back : Z)
  : result (nat * Z) :=
  match fuel with
  | O => Stuck
  | S fuel' =>
      if back <? 0 then Ret (O, back)
      else
        node ← deref h back;
        if ShmEntry.is_alive (now O) (ShmNode.entry node) then Ret (1%nat, back)
        else
          '(n, back') ← last_alive fuel' (tick now) h (ShmNode.prev_offset node);
          Ret (S n, back')
  end.

(** [peekLast(out_data)]: as [pollLast], without the removal and the
    stamp. *)
Definition peekLast (fuel : nat) (now : clock) (q : t) (out_data : bytes)
  : result (bool * bytes * t) :=
  let q := lock q in
  '(n, back) ← last_alive fuel now (heap q) (DequeHeader.back_offset (header q));
  if back <? 0 then Ret (false, out_data, unlock (miss q))
  else
    node ← deref (heap q) back;
    if negb (ShmEntry.is_alive (now n) (ShmNode.entry node))
    then Ret (false, out_data, unlock (miss q))
    else Ret (true, SerializationUtil.copy_from_node (now (S n)) node, unlock (hit q)).

Fixpoint peekTTL_loop (fuel : nat) (now : Z) (h : gmap Z ShmNode.t) (front : Z)
  : result Z :=
  match fuel with
  | O => Stuck
  | S fuel' =>
      if front <? 0 then Ret 0
      else
        node ← deref h front;
        if ShmEntry.is_alive now (ShmNode.entry node)
        then Ret (ShmEntry.remaining_ttl_seconds now (ShmNode.entry node))
        else peekTTL_loop fuel' now h (ShmNode.next_offset node)
  end.

Definition peekTTL (fuel : nat) (now : Z) (q : t) : result (Z * t) :=
  let q := lock q in
  ttl ← peekTTL_loop fuel now (heap q) (DequeHeader.front_offset (header q));
  Ret (ttl, unlock q).

(** The comparison of [contains] and [removeElement]:
    [is_alive() && hash_code == hash && data_size == size
     && memcmp(node->data, data, size) == 0]. *)
Definition node_matches (now : Z) (node : ShmNode.t) (data : bytes) (hash : Z) : bool :=
  ShmEntry.is_alive now (ShmNode.entry node)
  && (ShmEntry.hash_code (ShmNode.entry node) =? hash)
  && (ShmEntry.data_size (ShmNode.entry node) =? size_of data)
  && memcmp_eq (ShmNode.data node) data (size_of data).

Fixpoint contains_loop (fuel : nat) (now : Z) (h : gmap Z ShmNode.t)
         (data : bytes) (hash : Z) (current : Z) : result bool :=
  match fuel with
  | O => Stuck
  | S fuel' =>
      if current <? 0 then Ret false
      else
        node ← deref h current;
        if node_matches now node data hash then Ret true
        else contains_loop fuel' now h data hash (ShmNode.next_offset node)
  end.

Definition contains (fuel : nat) (now : Z) (q : t) (data : buffer) : result (bool * t) :=
  match data with
  | None => Ret (false, q)
  | Some bs =>
      if size_of bs =? 0 then Ret (false, q)
      else
        let hash := compute_hash bs in
        let q := lock q in
        found ← contains_loop fuel now (heap q) bs hash
                              (DequeHeader.front_offset (header q));
        Ret (found, unlock q)
  end.

(** The loop of [clear]: every node of the chain is marked deleted and
    freed. *)
Fixpoint clear_loop (fuel : nat) (q : t) (current : Z) : result t :=
  match fuel with
  | O => Stuck
  | S fuel' =>
      if current <? 0 then Ret q
      else
        node ← deref (heap q) current;
        let next := ShmNode.next_offset node in
        h1 ← update current mark_deleted (heap q);
        clear_loop fuel' (free_node current (set_heap h1 q)) next
  end.

Definition clear (fuel : nat) (now : Z) (q : t) : result t :=
  let q := lock q in
  q1 ← clear_loop fuel q (DequeHeader.front_offset (header q));
  let hd := DequeHeader.set_back NULL_OFFSET
              (DequeHeader.set_front NULL_OFFSET (header q1)) in
  let hd := DequeHeader.set_base
              (CollectionHeader.set_modified_at now
                 (CollectionHeader.size_store 0 (DequeHeader.base hd))) hd in
  Ret (unlock (set_stats (CollectionStats.size_store 0 (stats q1)) (set_header hd q1))).

Definition isEmpty (fuel : nat) (now : Z) (q : t) : result (bool * t) :=
  '(n, q') ← size fuel now q; Ret (n =? 0, q').

End FastQueue.

(* ===================================================================== *)
(** * fc_stack.cpp *)
(* ===================================================================== *)

Module FastStack.

Record t : Type := mk {
  heap : gmap Z ShmNode.t;
  header : DequeHeader.t;
  aba_tag : Z;
  stats : CollectionStats.t
}.

Definition set_heap (h : gmap Z ShmNode.t) (s : t) : t :=
  mk h (header s) (aba_tag s) (stats s).
Definition set_header (hd : DequeHeader.t) (s : t) : t :=
  mk (heap s) hd (aba_tag s) (stats s).
Definition set_aba_tag (v : Z) (s : t) : t :=
  mk (heap s) (header s) v (stats s).
Definition set_stats (st : CollectionStats.t) (s : t) : t :=
  mk (heap s) (header s) (aba_tag s) st.

Definition create (now : Z) : t :=
  mk ∅ (DequeHeader.init now) 0 CollectionStats.init.

Definition allocate_node (alloc : Z -> option Z) (data_size : Z) (h : gmap Z ShmNode.t)
  : result (Z * gmap Z ShmNode.t) :=
  mem ← manager_allocate alloc (ShmNode.total_size data_size);
  Ret (mem, <[mem := ShmNode.init]> h).


(** [push].  No other thread runs between the load of the front offset
    and the compare-and-exchange, which therefore succeeds in the first
    round of the loop. *)
Definition push (alloc : Z -> option Z) (now : Z) (s : t) (data : buffer)
           (ttl_seconds : Z) : result (bool * t) :=
  match data with
  | None => Ret (false, s)
  | Some bs =>
      if size_of bs =? 0 then Ret (false, s)
      else
        '(node, h1) ← allocate_node alloc (size_of bs) (heap s);
        h2 ← update node (fun n => SerializationUtil.copy_to_node now n bs ttl_seconds) h1;
        let old_top := DequeHeader.front_offset (header s) in
        h3 ← update node (ShmNode.set_next old_top) h2;
        h4 ← update node (ShmNode.set_prev NULL_OFFSET) h3;
        let hd := DequeHeader.set_front node (header s) in
        h5 ← (if 0 <=? old_top then update old_top (ShmNode.set_prev node) h4 else Ret h4);
        let b := CollectionHeader.set_modified_at now
                   (CollectionHeader.size_fetch_add 1 (DequeHeader.base hd)) in
        Ret (true,
             set_stats (CollectionStats.write_fetch_add 1
                          (CollectionStats.size_fetch_add 1 (stats s)))
               (set_aba_tag (wrap64 (aba_tag s + 1))
                  (set_header (DequeHeader.set_base b hd) (set_heap h5 s))))
  end.

Fixpoint size_loop (fuel : nat) (now : Z) (h : gmap Z ShmNode.t)
         (current alive : Z) : result Z :=
  match fuel with
  | O => Stuck
  | S fuel' =>
      if current <? 0 then Ret alive
      else
        node ← deref h current;
        size_loop fuel' now h (ShmNode.next_offset node)
                  (if ShmEntry.is_alive now (ShmNode.entry node)
                   then alive + 1 else alive)
  end.

Definition size (fuel : nat) (now : Z) (s : t) : result Z :=
  size_loop fuel now (heap s) (DequeHeader.front_offset (header s)) 0.

Fixpoint forEach_loop (fuel : nat) (now : Z) (h : gmap Z ShmNode.t)
         (callback : bytes -> Z -> bool) (current : Z) : result (list (bytes * Z)) :=
  match fuel with
  | O => Stuck
  | S fuel' =>
      if current <? 0 then Ret []
      else
        node ← deref h current;
        if ShmEntry.is_alive now (ShmNode.entry node) then
          let call := (ShmNode.data node, ShmEntry.data_size (ShmNode.entry node)) in
          if negb (callback (ShmNode.data node) (ShmEntry.data_size (ShmNode.entry node)))
          then Ret [call]
          else
            rest ← forEach_loop fuel' now h callback (ShmNode.next_offset node);
            Ret (call :: rest)
        else forEach_loop fuel' now h callback (ShmNode.next_offset node)
  end.

Definition forEach (fuel : nat) (now : Z) (s : t) (callback : bytes -> Z -> bool)
  : result (list (bytes * Z)) :=
  forEach_loop fuel now (heap s) callback (DequeHeader.front_offset (header s)).

(** [free_node]: [file_manager_->deallocate(node)]. *)
Definition free_node (node : Z) (s : t) : t :=
  set_heap (delete node (heap s)) s.

Definition mark_deleted (n : ShmNode.t) : ShmNode.t :=
  ShmNode.set_entry (ShmEntry.mark_deleted (ShmNode.entry n)) n.

Definition miss (s : t) : t :=
  set_stats (CollectionStats.miss_fetch_add 1 (stats s)) s.
Definition hit (s : t) : t :=
  set_stats (CollectionStats.hit_fetch_add 1
               (CollectionStats.read_fetch_add 1 (stats s))) s.

(** What the two branches of [pop] do once their compare-and-exchange
    has moved the front offset from [top] to the successor: the [prev]
    of the successor is cleared, the node is marked deleted and freed,
    the tag goes up and the header size down by one.  As in [push], no
    other thread runs between the load and the compare-and-exchange. *)
Definition unlink_top (s : t) (top : Z) (node : ShmNode.t) : result t :=
  let next := ShmNode.next_offset node in
  let s1 := set_header (DequeHeader.set_front next (header s)) s in
  h1 ← (if 0 <=? next then update next (ShmNode.set_prev NULL_OFFSET) (heap s1)
        else Ret (heap s1));
  h2 ← update top mark_deleted h1;
  let s2 := free_node top (set_heap h2 s1) in
  let s3 := set_aba_tag (wrap64 (aba_tag s2 + 1)) s2 in
  Ret (set_header
         (DequeHeader.set_base
            (CollectionHeader.size_fetch_sub 1 (DequeHeader.base (header s3)))
            (header s3)) s3).

(** [pop(out_data)]: the flag, the contents of [out_data] afterwards, the
    stack.  One round of the source's loop removes an expired top and
    starts again, or pops the top.  [is_expired()] takes the first
    reading of the round; the round that pops takes a second reading in
    [copy_from_node()] and a third for the stamp of the header. *)
Fixpoint pop (fuel : nat) (now : clock) (s : t) (out_data : bytes)
  : result (bool * bytes * t) :=
  match fuel with
  | O => Stuck
  | S fuel' =>
      let top := DequeHeader.front_offset (header s) in
      if top <? 0 then Ret (false, out_data, miss s)
      else
        node ← deref (heap s) top;
        if ShmEntry.is_expired (now O) (ShmNode.entry node) then
          s1 ← unlink_top s top node;
          pop fuel' (tick now)
              (set_stats (CollectionStats.size_fetch_sub 1 (stats s1)) s1)
              out_data
        else
          let temp_data := SerializationUtil.copy_from_node (now 1%nat) node in
          s1 ← unlink_top s top node;
          let s2 := set_header
                      (DequeHeader.set_base
                         (CollectionHeader.set_modified_at (now 2%nat)
                            (DequeHeader.base (header s1)))
                         (header s1)) s1 in
          Ret (true, temp_data,
               hit (set_stats (CollectionStats.size_fetch_sub 1 (stats s2)) s2))
  end.

(** The loop of [peek]: what [copy_from_node()] gives for the first node
    that [is_alive()] accepts.  [is_alive()] takes the first reading of
    the round, [copy_from_node()] the second reading of the last
    round. *)
Fixpoint peek_loop (fuel : nat) (now : clock) (h : gmap Z ShmNode.t) (top : Z)
  : result (option bytes) :=
  match fuel with
  | O => Stuck
  | S fuel' =>
      if top <? 0 then Ret None
      else
        node ← deref h top;
        if ShmEntry.is_alive (now O) (ShmNode.entry node)
        then Ret (Some (SerializationUtil.copy_from_node (now 1%nat) node))
        else peek_loop fuel' (tick now) h (ShmNode.next_offset node)
  end.

Definition peek (fuel : nat) (now : clock) (s : t) (out_data : bytes)
  : result (bool * bytes * t) :=
  found ← peek_loop fuel now (heap s) (DequeHeader.front_offset (header s));
  match found with
  | Some out => Ret (true, out, hit s)
  | None => Ret (false, out_data, miss s)
  end.

(** [popOrThrow] and [peekOrThrow]: the exception is raised after [pop]
    or [peek] has run, so the stack that they leave is kept. *)
Definition popOrThrow (fuel : nat) (now : clock) (s : t) : result ((exn + bytes) * t) :=
  '(ok, out, s') ← pop fuel now s [];
  if (ok : bool) then Ret (inr out, s')
  else Ret (inl (FastCollectionException NOT_FOUND), s').

Definition peekOrThrow (fuel : nat) (now : clock) (s : t) : result ((exn + bytes) * t) :=
  '(ok, out, s') ← peek fuel now s [];
  if (ok : bool) then Ret (inr out, s')
  else Ret (inl (FastCollectionException NOT_FOUND), s').

(** [popAll(out_data, max_count)]: [rounds] bounds the rounds of its
    loop and [fuel] those of each [pop].  [item] is moved into
    [out_data] after each successful [pop]; what it holds afterwards is
    overwritten by the next successful [pop] and never read.  [now 0]
    are the readings of the clock that the first call of [pop] takes,
    [now 1] those of the second, and so on. *)
Fixpoint popAll_loop (rounds fuel : nat) (now : nat -> clock) (s : t)
         (out_data : list bytes) (max_count popped : Z) (item : bytes)
  : result (Z * list bytes * t) :=
  match rounds with
  | O => Stuck
  | S rounds' =>
      if popped <? max_count then
        '(ok, item', s') ← pop fuel (now O) s item;
        if (ok : bool) then
          popAll_loop rounds' fuel (tick now) s' (out_data ++ [item']) max_count
                      (popped + 1) []
        else Ret (popped, out_data, s')
      else Ret (popped, out_data, s)
  end.

Definition popAll (rounds fuel : nat) (now : nat -> clock) (s : t)
           (out_data : list bytes) (max_count : Z) : result (Z * list bytes * t) :=
  popAll_loop rounds fuel now s out_data max_count 0 [].

Fixpoint peekTTL_loop (fuel : nat) (now : Z) (h : gmap Z ShmNode.t) (top : Z)
  : result Z :=
  match fuel with
  | O => Stuck
  | S fuel' =>
      if top <? 0 then Ret 0
      else
        node ← deref h top;
        if ShmEntry.is_alive now (ShmNode.entry node)
        then Ret (ShmEntry.remaining_ttl_seconds now (ShmNode.entry node))
        else peekTTL_loop fuel' now h (ShmNode.next_offset node)
  end.

Definition peekTTL (fuel : nat) (now : Z) (s : t) : result Z :=
  peekTTL_loop fuel now (heap s) (DequeHeader.front_offset (header s)).

(** The loop of [search]: the distance, counted from 1 over the nodes
    that are alive, of the first of them that holds [data]. *)
Fixpoint search_loop (fuel : nat) (now : Z) (h : gmap Z ShmNode.t)
         (data : bytes) (hash : Z) (top distance : Z) : result Z :=
  match fuel with
  | O => Stuck
  | S fuel' =>
      if top <? 0 then Ret (-1)
      else
        node ← deref h top;
        if ShmEntry.is_alive now (ShmNode.entry node) then
          if (ShmEntry.hash_code (ShmNode.entry node) =? hash)
             && (ShmEntry.data_size (ShmNode.entry node) =? size_of data)
             && memcmp_eq (ShmNode.data node) data (size_of data)
          then Ret distance
          else search_loop fuel' now h data hash (ShmNode.next_offset node) (distance + 1)
        else search_loop fuel' now h data hash (ShmNode.next_offset node) distance
  end.

Definition search (fuel : nat) (now : Z) (s : t) (data : buffer) : result Z :=
  match data with
  | None => Ret (-1)
  | Some bs =>
      if size_of bs =? 0 then Ret (-1)
      else search_loop fuel now (heap s) bs (compute_hash bs)
                       (DequeHeader.front_offset (header s)) 1
  end.

(** The loop of [clear]: every node of the chain is marked deleted and
    freed. *)
Fixpoint clear_loop (fuel : nat) (s : t) (current : Z) : result t :=
  match fuel with
  | O => Stuck
  | S fuel' =>
      if current <? 0 then Ret s
      else
        node ← deref (heap s) current;
        let next := ShmNode.next_offset node in
        h1 ← update current mark_deleted (heap s);
        clear_loop fuel' (free_node current (set_heap h1 s)) next
  end.

(** [clear]: the back offset is left as it is (no operation of the
    stack stores it).  The mutex that [clear] holds has no content in a
    sequential run and is left out, as the stack keeps no trace. *)
Definition clear (fuel : nat) (now : Z) (s : t) : result t :=
  s1 ← clear_loop fuel s (DequeHeader.front_offset (header s));
  let hd := DequeHeader.set_front NULL_OFFSET (header s1) in
  let hd := DequeHeader.set_base
              (CollectionHeader.set_modified_at now
                 (CollectionHeader.size_store 0 (DequeHeader.base hd))) hd in
  Ret (set_stats (CollectionStats.size_store 0 (stats s1))
         (set_aba_tag (wrap64 (aba_tag s1 + 1)) (set_header hd s1))).

Definition isEmpty (fuel : nat) (now : Z) (s : t) : result bool :=
  n ← size fuel now s; Ret (n =? 0).

End FastStack.

(* ===================================================================== *)
(** * fc_common.cpp: the mapped-file manager *)
(* ===================================================================== *)

Module MMapFileManager.

(** The calls the manager makes to Boost.Interprocess, in order. *)
Inductive call : Type :=
| CallAllocate (bytes : Z)
| CallGrow (filename : string) (extra_bytes : Z)
| CallOpen (filename : string).

Section Boost.

(** [bip::managed_mapped_file] is not part of the library.  An open
    mapping and the files behind it are abstract; its operations are the
    parameters of the section, [None] standing for the exception each of
    them can raise ([bip::bad_alloc] for an allocation,
    [bip::interprocess_exception] otherwise). *)
Context {Mapping Disk : Type}.
Variable bip_allocate : Mapping -> Z -> option (Z * Mapping).
Variable bip_close : Mapping -> Disk -> Disk.
Variable bip_grow : Disk -> string -> Z -> option (bool * Disk).
Variable bip_open_only : Disk -> string -> option Mapping.

Record t : Type := mk {
  filename_ : string;
  file_ : option Mapping;
  growth_size_ : Z
}.

Definition set_file (f : option Mapping) (m : t) : t :=
  mk (filename_ m) f (growth_size_ m).

(** The manager together with the files it works on. *)
Record world : Type := mkWorld {
  mgr : t;
  disk : Disk
}.

(** The handler of [grow]: "Reopen without growing". *)
Definition reopen_without_growing (m : t) (d : Disk) : result (bool * world) :=
  match bip_open_only d (filename_ m) with
  | Some f => Ret (false, mkWorld (set_file (Some f) m) d)
  | None => Throw bip_interprocess_exception
  end.

(** [grow(additional_bytes)]: the calls made, and the outcome. *)
Definition grow (w : world) (additional_bytes : Z) : list call * result (bool * world) :=
  let m := mgr w in
  let d := match file_ m with Some f => bip_close f (disk w) | None => disk w end in
  let m := set_file None m in
  match bip_grow d (filename_ m) additional_bytes with
  | None =>
      ([CallGrow (filename_ m) additional_bytes; CallOpen (filename_ m)],
       reopen_without_growing m d)
  | Some (_, d') =>
      match bip_open_only d' (filename_ m) with
      | Some f =>
          ([CallGrow (filename_ m) additional_bytes; CallOpen (filename_ m)],
           Ret (true, mkWorld (set_file (Some f) m) d'))
      | None =>
          ([CallGrow (filename_ m) additional_bytes; CallOpen (filename_ m);
            CallOpen (filename_ m)],
           reopen_without_growing m d')
      end
  end.

(** [file_->allocate(bytes)] on the open mapping. *)
Definition file_allocate (w : world) (bytes : Z) : result (Z * world) :=
  match file_ (mgr w) with
  | None => Stuck
  | Some f =>
      match bip_allocate f bytes with
      | Some (off, f') => Ret (off, mkWorld (set_file (Some f') (mgr w)) (disk w))
      | None => Throw bip_bad_alloc
      end
  end.

(** [allocate(bytes)]: the calls made, and the outcome. *)
Definition allocate (w : world) (bytes : Z) : list call * result (Z * world) :=
  match file_allocate w bytes with
  | Throw bip_bad_alloc =>
      let '(calls, grown) := grow w (wrap64 (bytes + growth_size_ (mgr w))) in
      match grown with
      | Ret (true, w') =>
          ([CallAllocate bytes] ++ calls ++ [CallAllocate bytes], file_allocate w' bytes)
      | Ret (false, _) =>
          ([CallAllocate bytes] ++ calls,
           Throw (FastCollectionException MEMORY_ALLOCATION_FAILED))
      | Throw e => ([CallAllocate bytes] ++ calls, Throw e)
      | Stuck => ([CallAllocate bytes] ++ calls, Stuck)
      end
  | r => ([CallAllocate bytes], r)
  end.

Definition is_grow (c : call) : bool :=
  match c with CallGrow _ _ => true | _ => false end.

End Boost.

End MMapFileManager.

(* ===================================================================== *)
(** * fc_common.cpp: the library functions, and the constructors *)
(* ===================================================================== *)

Module Files.

(** The objects the library constructs by name in a mapped file. *)
Inductive named_object : Type :=
| ObjCollectionHeader (h : CollectionHeader.t)
| ObjListHeader (h : ListHeader.t)
| ObjHashTableHeader (h : HashTableHeader.t)
| ObjDequeHeader (h : DequeHeader.t)
| ObjBuckets (bs : list ShmBucket.t)
| ObjAtomicU64 (v : Z).

(** The index of named objects of a [bip::managed_mapped_file]; the
    blocks obtained from [allocate] have no name. *)
Abbreviation managed_mapped_file := (gmap string named_object).

(** The files, by path. *)
Abbreviation disk := (gmap string managed_mapped_file).

(** An object read through a [CollectionHeader*]: the base sub-object of
    each header type; nothing defined for the other objects. *)
Definition as_CollectionHeader (o : named_object) : result CollectionHeader.t :=
  match o with
  | ObjCollectionHeader h => Ret h
  | ObjListHeader h => Ret (ListHeader.base h)
  | ObjHashTableHeader h => Ret (HashTableHeader.base h)
  | ObjDequeHeader h => Ret (DequeHeader.base h)
  | ObjBuckets _ | ObjAtomicU64 _ => Stuck
  end.

(** [isValidCollectionFile(filename)]. *)
Definition isValidCollectionFile (d : disk) (filename : string) : result bool :=
  match d !! filename with
  | None => Ret false
  | Some file =>
      match file !! "header"%string with
      | None => Ret false
      | Some o =>
          h ← as_CollectionHeader o;
          Ret (CollectionHeader.is_valid h)
      end
  end.

(** [MMapFileManager(filename, initial_size, create_new)]: the mapping
    opened and the files afterwards.  Creating and opening a file succeed
    here; their failure is the exception [FILE_CREATION_FAILED]. *)
Definition open_manager (d : disk) (filename : string) (initial_size : Z)
           (create_new : bool) : managed_mapped_file * disk :=
  match d !! filename with
  | Some file =>
      if create_new then (∅, <[filename := ∅]> (delete filename d)) else (file, d)
  | None => (∅, <[filename := ∅]> d)
  end.

(** The header lookup every constructor starts with: the object found
    under [name] must be a valid header; when there is none, [fresh] is
    constructed under that name. *)
Definition find_or_construct_header (file : managed_mapped_file) (name : string)
           (fresh : named_object) : result managed_mapped_file :=
  match file !! name with
  | Some o =>
      h ← as_CollectionHeader o;
      if CollectionHeader.is_valid h then Ret file
      else Throw (FastCollectionException INTERNAL_ERROR)
  | None => Ret (<[name := fresh]> file)
  end.

(** [find] then [find_or_construct] / [construct_array] of a second object. *)
Definition find_or_construct (file : managed_mapped_file) (name : string)
           (fresh : named_object) : managed_mapped_file :=
  match file !! name with
  | Some _ => file
  | None => <[name := fresh]> file
  end.

Definition header_bucket_count (file : managed_mapped_file) (name : string) : Z :=
  match file !! name with
  | Some (ObjHashTableHeader h) => HashTableHeader.bucket_count h
  | _ => 0
  end.

(** The five constructors, as far as the file is concerned. *)
Definition FastList_new (d : disk) (now : Z) (mmap_file : string) (initial_size : Z)
           (create_new : bool) : result disk :=
  let '(file, d1) := open_manager d mmap_file initial_size create_new in
  file1 ← find_or_construct_header file "list_header" (ObjListHeader (ListHeader.init now));
  Ret (<[mmap_file := file1]> d1).

Definition FastSet_new (d : disk) (now : Z) (mmap_file : string) (initial_size : Z)
           (create_new : bool) (bucket_count : Z) : result disk :=
  let '(file, d1) := open_manager d mmap_file initial_size create_new in
  file1 ← find_or_construct_header file "set_header"
            (ObjHashTableHeader (HashTableHeader.init now bucket_count));
  let n := header_bucket_count file1 "set_header" in
  let file2 := find_or_construct file1 "set_buckets"
                 (ObjBuckets (replicate (Z.to_nat n) ShmBucket.init)) in
  Ret (<[mmap_file := file2]> d1).

Definition FastMap_new (d : disk) (now : Z) (mmap_file : string) (initial_size : Z)
           (create_new : bool) (bucket_count : Z) : result disk :=
  let '(file, d1) := open_manager d mmap_file initial_size create_new in
  file1 ← find_or_construct_header file "map_header"
            (ObjHashTableHeader (HashTableHeader.init now bucket_count));
  let n := header_bucket_count file1 "map_header" in
  let file2 := find_or_construct file1 "map_buckets"
                 (ObjBuckets (replicate (Z.to_nat n) ShmBucket.init)) in
  Ret (<[mmap_file := file2]> d1).

Definition FastQueue_new (d : disk) (now : Z) (mmap_file : string) (initial_size : Z)
           (create_new : bool) : result disk :=
  let '(file, d1) := open_manager d mmap_file initial_size create_new in
  file1 ← find_or_construct_header file "queue_header" (ObjDequeHeader (DequeHeader.init now));
  Ret (<[mmap_file := file1]> d1).

Definition FastStack_new (d : disk) (now : Z) (mmap_file : string) (initial_size : Z)
           (create_new : bool) : result disk :=
  let '(file, d1) := open_manager d mmap_file initial_size create_new in
  file1 ← find_or_construct_header file "stack_header" (ObjDequeHeader (DequeHeader.init now));
  let file2 := find_or_construct file1 "stack_aba_tag" (ObjAtomicU64 0) in
  Ret (<[mmap_file := file2]> d1).

(** What the operations of a container do to the named objects of its
    file once it is constructed: they store into the header (and into the
    bucket array, and the tag), and never construct or destroy a name. *)
Definition store_object (d : disk) (mmap_file name : string) (o : named_object) : disk :=
  match d !! mmap_file with
  | Some file =>
      match file !! name with
      | Some _ => <[mmap_file := <[name := o]> file]> d
      | None => d
      end
  | None => d
  end.

End Files.


(* ===================================================================== *)
(** * The shape of the linked structures *)
(* ===================================================================== *)

Section Chains.

Context {A : Type}.
Variable next prev : A -> Z.

(** The records reached from offset [p] by following [next] are those at
    the offsets [l], in this order, and the walk ends on a null offset. *)
Fixpoint chain (h : gmap Z A) (p : Z) (l : list Z) : Prop :=
  match l with
  | [] => p < 0
  | o :: l' =>
      p = o /\ 0 <= o /\ exists n, h !! o = Some n /\ chain h (next n) l'
  end.

(** A doubly-linked segment: from [p], whose predecessor is [pp], the
    offsets [l] are linked forwards and backwards; [q] is the last of
    them (or [pp] when there is none) and [qn] the successor of [q]. *)
Fixpoint dseg (h : gmap Z A) (pp p : Z) (l : list Z) (q qn : Z) : Prop :=
  match l with
  | [] => p = qn /\ pp = q
  | o :: l' =>
      p = o /\ 0 <= o
      /\ exists n, h !! o = Some n /\ prev n = pp /\ dseg h o (next n) l' q qn
  end.

(** A whole doubly-linked chain, from [first] to [last], without
    repetition. *)
Definition dlist (h : gmap Z A) (first : Z) (l : list Z) (last : Z) : Prop :=
  dseg h NULL_OFFSET first l last NULL_OFFSET /\ NoDup l.

End Chains.

(** The chains of all the buckets of a hash container end, within [fuel]
    steps. *)
Definition buckets_chained {A : Type} (next : A -> Z) (fuel : nat) (h : gmap Z A)
           (buckets : list ShmBucket.t) : Prop :=
  Forall (fun b => exists l, chain next h (ShmBucket.head_offset b) l
                             /\ (length l < fuel)%nat) buckets.

(** The record at offset [o] of the heap [h'] has the entry and the bytes
    that the record at [o] of [h] has: only its links may differ. *)
Definition same_content (h h' : gmap Z ShmNode.t) (o : Z) : Prop :=
  ShmNode.entry <$> h' !! o = ShmNode.entry <$> h !! o
  /\ ShmNode.data <$> h' !! o = ShmNode.data <$> h !! o.

(** The records at the offsets [l] are in state Valid. *)
Definition all_valid (h : gmap Z ShmNode.t) (l : list Z) : Prop :=
  Forall (fun o => exists n, h !! o = Some n
                             /\ ShmEntry.state (ShmNode.entry n) = ShmEntry.STATE_VALID) l.

(** The record at [o] is expired at instant [now]. *)
Definition expired_at (now : Z) (h : gmap Z ShmNode.t) (o : Z) : Prop :=
  exists n, h !! o = Some n /\ ShmEntry.is_expired now (ShmNode.entry n) = true.

(** The records at the offsets [l] are expired when a loop tests them
    one after the other, the first at the reading [now 0], the second at
    [now 1], and so on. *)
Fixpoint expired_in_turn (now : clock) (h : gmap Z ShmNode.t) (l : list Z) : Prop :=
  match l with
  | [] => True
  | o :: l' => expired_at (now O) h o /\ expired_in_turn (tick now) h l'
  end.

(** The first [m] readings of [now] give each record at the offsets [l]
    the answers of [is_expired()] and [is_alive()] that the instant [t]
    gives it: none of them expires between [t] and one of these
    readings. *)
Definition steady (t : Z) (now : clock) (m : nat) (h : gmap Z ShmNode.t) (l : list Z)
  : Prop :=
  forall k o n, (k < m)%nat -> o ∈ l -> h !! o = Some n ->
    ShmEntry.is_expired (now k) (ShmNode.entry n) = ShmEntry.is_expired t (ShmNode.entry n)
    /\ ShmEntry.is_alive (now k) (ShmNode.entry n) = ShmEntry.is_alive t (ShmNode.entry n).

(** The queue links the records at the offsets [l], from its front offset
    to its back offset, and each of them is in state Valid: a node is
    linked after [copy_to_node] marked it Valid and is marked Deleted
    after it is unlinked only. *)
Definition queue_shape (q : FastQueue.t) (l : list Z) : Prop :=
  dlist ShmNode.next_offset ShmNode.prev_offset (FastQueue.heap q)
        (DequeHeader.front_offset (FastQueue.header q)) l
        (DequeHeader.back_offset (FastQueue.header q))
  /\ all_valid (FastQueue.heap q) l.

(** The first record of [l], when there is one, is not expired. *)
Definition front_not_expired (now : Z) (h : gmap Z ShmNode.t) (l : list Z) : Prop :=
  match l with
  | [] => True
  | o :: _ => exists n, h !! o = Some n /\ ShmEntry.is_expired now (ShmNode.entry n) = false
  end.

(** What [poll] and [peek] answer on a queue whose first node that is not
    expired is the first of [l]. *)
Definition front_answer (h : gmap Z ShmNode.t) (l : list Z) (out_data : bytes)
  : bool * bytes :=
  match l with
  | [] => (false, out_data)
  | o :: _ =>
      (true,
       match h !! o with
       | Some n => take (Z.to_nat (ShmEntry.data_size (ShmNode.entry n))) (ShmNode.data n)
       | None => []
       end)
  end.

(** What [poll] and [peek] answer once their loop has stopped at the
    first record of [l]: [is_alive()] is asked at the reading [now k]
    and [copy_from_node()] at the next. *)
Definition front_reading (now : clock) (k : nat) (h : gmap Z ShmNode.t) (l : list Z)
           (out_data : bytes) : bool * bytes :=
  match l with
  | [] => (false, out_data)
  | o :: _ =>
      match h !! o with
      | Some n =>
          if ShmEntry.is_alive (now k) (ShmNode.entry n)
          then (true, SerializationUtil.copy_from_node (now (S k)) n)
          else (false, out_data)
      | None => (false, out_data)
      end
  end.

(** The specification's account of a run of [poll] or of [peek] on the
    queue [q], with respect to an instant [t]: the chain of [q] is the
    nodes [l1], expired at [t], followed by the nodes [l2], the first of
    which is not; the run returns, and it answers with the bytes of the
    first node of [l2], or with [false] when [l2] is empty. *)
Definition answers_with_first_alive (t : Z) (q : FastQueue.t) (out_data : bytes)
           (run : result (bool * bytes * FastQueue.t)) : Prop :=
  exists l1 l2 q',
    queue_shape q (l1 ++ l2)
    /\ Forall (expired_at t (FastQueue.heap q)) l1
    /\ front_not_expired t (FastQueue.heap q) l2
    /\ run = Ret (front_answer (FastQueue.heap q) l2 out_data, q').

(** The bytes [poll] and [peek] copy out of the record at [o]. *)
Definition payload_at (h : gmap Z ShmNode.t) (o : Z) : bytes :=
  match h !! o with
  | Some n => take (Z.to_nat (ShmEntry.data_size (ShmNode.entry n))) (ShmNode.data n)
  | None => []
  end.

(** The node that an insertion leaves at the offset obtained: the bytes
    and the entry that [copy_to_node] writes, and the two links. *)
Definition new_node (now : Z) (data : bytes) (ttl prev next : Z) : ShmNode.t :=
  ShmNode.set_next next
    (ShmNode.set_prev prev (SerializationUtil.copy_to_node now ShmNode.init data ttl)).

(** The calls that an enumeration makes at instant [now] on the nodes at
    the offsets [l] when the callback never stops it: one for each node
    that is alive, in the order of [l], with the bytes of the node and
    the size its entry records. *)
Definition alive_calls (now : Z) (h : gmap Z ShmNode.t) (l : list Z) : list (bytes * Z) :=
  omap (fun o =>
          match h !! o with
          | Some n => if ShmEntry.is_alive now (ShmNode.entry n)
                      then Some (ShmNode.data n, ShmEntry.data_size (ShmNode.entry n))
                      else None
          | None => None
          end) l.

(** The chain [l] is empty or its last record is not expired. *)
Definition back_not_expired (now : Z) (h : gmap Z ShmNode.t) (l : list Z) : Prop :=
  l = [] \/ exists l0 o n, l = l0 ++ [o] /\ h !! o = Some n
                           /\ ShmEntry.is_expired now (ShmNode.entry n) = false.

(** Some record at the offsets [l] passes the comparison that the
    queue's [contains] makes with [data]. *)
Definition some_node_matches (now : Z) (h : gmap Z ShmNode.t) (data : bytes)
           (l : list Z) : bool :=
  existsb (fun o => match h !! o with
                    | Some n => FastQueue.node_matches now n data (compute_hash data)
                    | None => false
                    end) l.

(** The records at the offsets [l] record the size and the hash of the
    bytes they hold, as [copy_to_node] writes them for a payload of less
    than 2^32 bytes. *)
Definition nodes_hashed (h : gmap Z ShmNode.t) (l : list Z) : Prop :=
  Forall (fun o => exists n, h !! o = Some n
                             /\ ShmEntry.data_size (ShmNode.entry n)
                                = size_of (ShmNode.data n)
                             /\ ShmEntry.hash_code (ShmNode.entry n)
                                = compute_hash (ShmNode.data n)) l.

(** What [pop] and [peek] of the stack answer once their loop has
    stopped at the first record of [l]: [copy_from_node()] is asked at
    the reading [now k]. *)
Definition top_reading (now : clock) (k : nat) (h : gmap Z ShmNode.t) (l : list Z)
           (out_data : bytes) : bool * bytes :=
  match l with
  | [] => (false, out_data)
  | o :: _ =>
      (true,
       match h !! o with
       | Some n => SerializationUtil.copy_from_node (now k) n
       | None => []
       end)
  end.

(** The stack links the records at the offsets [l] from its front
    offset on, without repetition, and each of them is in state Valid. *)
Definition stack_shape (s : FastStack.t) (l : list Z) : Prop :=
  chain ShmNode.next_offset (FastStack.heap s)
        (DequeHeader.front_offset (FastStack.header s)) l
  /\ NoDup l
  /\ all_valid (FastStack.heap s) l.

(** What [search] answers with respect to the calls [calls] of an
    enumeration, when the distance of the first of them is [d]: -1 if
    none is made with [data], else the distance of the first that is. *)
Definition search_answer (calls : list (bytes * Z)) (data : bytes) (d r : Z) : Prop :=
  (r = -1 /\ (data, size_of data) ∉ calls)
  \/ (d <= r
      /\ calls !! Z.to_nat (r - d) = Some (data, size_of data)
      /\ forall i, (i < Z.to_nat (r - d))%nat -> calls !! i <> Some (data, size_of data)).

(** The bucket [idx] of the set heads the chain of the records at the
    offsets [l], without repetition. *)
Definition set_chain (s : FastSet.t) (idx : Z) (l : list Z) : Prop :=
  exists b, FastSet.buckets s !! Z.to_nat idx = Some b
            /\ chain ShmNode.next_offset (FastSet.heap s) (ShmBucket.head_offset b) l
            /\ NoDup l.

(** No record of the chain [l] that follows a record passing the
    comparison with [data] passes it: the set holds an element once. *)
Definition at_most_one_match (now : Z) (h : gmap Z ShmNode.t) (data : bytes)
           (l : list Z) : Prop :=
  forall l1 e l2 n,
    l = l1 ++ e :: l2 -> h !! e = Some n ->
    FastQueue.node_matches now n data (compute_hash data) = true ->
    some_node_matches now h data l2 = false.

(** The list links the records at the offsets [offs], from its head
    offset to its tail offset, and each of them is in state Valid. *)
Definition list_shape (l : FastList.t) (offs : list Z) : Prop :=
  dlist ShmNode.next_offset ShmNode.prev_offset (FastList.heap l)
        (ListHeader.head_offset (FastList.header l)) offs
        (ListHeader.tail_offset (FastList.header l))
  /\ all_valid (FastList.heap l) offs.

(** The calls of an enumeration of the list: those of [calls], each with
    its index, counted from [i]. *)
Fixpoint indexed (i : Z) (calls : list (bytes * Z)) : list (bytes * Z * Z) :=
  match calls with
  | [] => []
  | c :: rest => (c.1, c.2, i) :: indexed (i + 1) rest
  end.

(** No record at the offsets [l] has the key [key]. *)
Definition key_absent (h : gmap Z ShmKeyValue.t) (key : bytes) (l : list Z) : Prop :=
  Forall (fun o => forall kv, h !! o = Some kv ->
                              FastMap.key_matches kv key (compute_hash key) = false) l.

(** The chain of bucket [idx] of the map links the records at the offsets
    [l], forwards and backwards. *)
Definition bucket_shape (m : FastMap.t) (idx : Z) (l : list Z) : Prop :=
  exists bucket last,
    FastMap.buckets m !! Z.to_nat idx = Some bucket
    /\ dlist ShmKeyValue.next_offset ShmKeyValue.prev_offset (FastMap.heap m)
             (ShmBucket.head_offset bucket) l last.

(** The predecessor [find_in_bucket] reports after passing the offsets
    [l]: the last of them, if any. *)
Definition last_passed (l : list Z) : option Z := last l.

(** The record a new entry holds once it is linked. *)
Definition new_entry (now : Z) (key value : bytes) (ttl prev next : Z) : ShmKeyValue.t :=
  ShmKeyValue.set_prev prev
    (ShmKeyValue.set_next next
       (SerializationUtil.copy_to_kv now ShmKeyValue.init key value ttl)).

(** What a key-value record holds apart from its two links. *)
Definition kv_content (kv : ShmKeyValue.t) : ShmEntry.t * Z * Z * bytes :=
  (ShmKeyValue.entry kv, ShmKeyValue.key_size kv, ShmKeyValue.value_size kv,
   ShmKeyValue.data kv).

(** The record at [o] holds in [h'] what it holds in [h]. *)
Definition kv_same_content (h h' : gmap Z ShmKeyValue.t) (o : Z) : Prop :=
  kv_content <$> h' !! o = kv_content <$> h !! o.

(** ** The whole map *)

(** The record at [o], if there is one, has the key. *)
Definition matches_at (h : gmap Z ShmKeyValue.t) (key : bytes) (o : Z) : bool :=
  match h !! o with
  | Some kv => FastMap.key_matches kv key (compute_hash key)
  | None => false
  end.

(** The first of the offsets [l] whose record has the key: the record
    that [find_in_bucket] returns on the chain [l]. *)
Fixpoint first_match (h : gmap Z ShmKeyValue.t) (key : bytes) (l : list Z) : option Z :=
  match l with
  | [] => None
  | o :: l' => if matches_at h key o then Some o else first_match h key l'
  end.

(** Every record at the offsets [l] has the key. *)
Definition has_key (h : gmap Z ShmKeyValue.t) (key : bytes) (l : list Z) : Prop :=
  Forall (fun o => matches_at h key o = true) l.

(** The map as a whole: the header counts the buckets of the array, each
    bucket [idx] has the well-linked chain [chains idx], and no record is
    in two chains. *)
Definition map_shape (m : FastMap.t) (chains : Z -> list Z) : Prop :=
  HashTableHeader.bucket_count (FastMap.header m) = Z.of_nat (length (FastMap.buckets m))
  /\ 0 < HashTableHeader.bucket_count (FastMap.header m) < 2 ^ 32
  /\ (forall idx, 0 <= idx < HashTableHeader.bucket_count (FastMap.header m) ->
                  bucket_shape m idx (chains idx))
  /\ (forall i j o, 0 <= i < HashTableHeader.bucket_count (FastMap.header m) ->
                    0 <= j < HashTableHeader.bucket_count (FastMap.header m) ->
                    o ∈ chains i -> o ∈ chains j -> i = j).

(** In the chain of its bucket, the first record that has [key] holds
    [value], is Valid and never expires. *)
Definition holds_forever (m : FastMap.t) (chains : Z -> list Z) (key value : bytes) : Prop :=
  exists e rec,
    first_match (FastMap.heap m) key (chains (FastMap.get_bucket m (compute_hash key)))
    = Some e
    /\ FastMap.heap m !! e = Some rec
    /\ FastMap.read_value rec = value
    /\ ShmEntry.state (ShmKeyValue.entry rec) = ShmEntry.STATE_VALID
    /\ ShmEntry.expires_at (ShmKeyValue.entry rec) = 0.

(** [m'] has the bucket array of [m] but for the bucket [idx], and the
    records of [m] but for those of the chain [l] (and fresh ones). *)
Definition frame_outside (m m' : FastMap.t) (idx : Z) (l : list Z) : Prop :=
  length (FastMap.buckets m') = length (FastMap.buckets m)
  /\ (forall j, j <> Z.to_nat idx -> FastMap.buckets m' !! j = FastMap.buckets m !! j)
  /\ (forall o, o ∉ l -> is_Some (FastMap.heap m !! o) ->
                FastMap.heap m' !! o = FastMap.heap m !! o).

(** What an operation on [key] does to the chain [l1 ++ mid ++ l2] of
    the bucket [idx]: the records at [mid], which have the key, give way
    to the records at [mid'], which have the key and are those of [mid]
    or new ones; the other records of the chain keep what they hold, and
    the rest of the map is as it was. *)
Definition rewrites_chain (key : bytes) (m m' : FastMap.t) (idx : Z)
           (l1 mid mid' l2 : list Z) : Prop :=
  bucket_shape m' idx (l1 ++ mid' ++ l2)
  /\ HashTableHeader.bucket_count (FastMap.header m')
     = HashTableHeader.bucket_count (FastMap.header m)
  /\ frame_outside m m' idx (l1 ++ mid ++ l2)
  /\ (forall o, o ∈ l1 ++ l2 -> kv_same_content (FastMap.heap m) (FastMap.heap m') o)
  /\ (forall o, o ∈ mid' -> o ∈ mid \/ FastMap.heap m !! o = None)
  /\ has_key (FastMap.heap m) key mid
  /\ has_key (FastMap.heap m') key mid'.

(** The chains of the map once the chain of bucket [idx] is [l]. *)
Definition chains_with (chains : Z -> list Z) (idx : Z) (l : list Z) : Z -> list Z :=
  fun i => if decide (i = idx) then l else chains i.

(** [m'] differs from [m] in its counters and its modification time
    only. *)
Definition same_store (m m' : FastMap.t) : Prop :=
  FastMap.heap m' = FastMap.heap m
  /\ FastMap.buckets m' = FastMap.buckets m
  /\ HashTableHeader.bucket_count (FastMap.header m')
     = HashTableHeader.bucket_count (FastMap.header m).

(** From [m], whose chains are [chains], to [m'], whose chains are
    [chains']: the map is still well linked, and what it holds for ever
    for the keys other than [key], it still holds. *)
Definition preserves_other_keys (key : bytes) (m m' : FastMap.t)
           (chains chains' : Z -> list Z) : Prop :=
  map_shape m' chains'
  /\ forall k v, key <> k -> holds_forever m chains k v -> holds_forever m' chains' k v.

(** The operations of the map that do not mutate the key [k]: [put],
    [putIfAbsent], [replace] and the two [remove] on another key, and
    [get] on any key.  The fuel of the model exceeds the number of
    records, the allocator has a free block for the record that a [put],
    a [putIfAbsent] or a [replace] may need, and the other key is
    shorter than 2^32 bytes, the width of [key_size]. *)
Inductive other_key_operation (k : bytes) (m m' : FastMap.t) : Prop :=
| other_key_put (fuel : nat) (alloc : Z -> option Z) (now : Z) (k' v' : bytes)
                (ttl off : Z) (b : bool) :
    k' <> k -> size_of k' < 2 ^ 32 ->
    (size (FastMap.heap m) < fuel)%nat ->
    alloc (ShmKeyValue.total_size (size_of k') (size_of v')) = Some off ->
    0 <= off -> FastMap.heap m !! off = None ->
    FastMap.put fuel alloc now m (Some k') v' ttl = Ret (b, m') ->
    other_key_operation k m m'
| other_key_putIfAbsent (fuel : nat) (alloc : Z -> option Z) (now : Z) (k' v' : bytes)
                        (ttl off : Z) (b : bool) :
    k' <> k -> size_of k' < 2 ^ 32 ->
    (size (FastMap.heap m) < fuel)%nat ->
    alloc (ShmKeyValue.total_size (size_of k') (size_of v')) = Some off ->
    0 <= off -> FastMap.heap m !! off = None ->
    FastMap.putIfAbsent fuel alloc now m (Some k') v' ttl = Ret (b, m') ->
    other_key_operation k m m'
| other_key_replace (fuel : nat) (alloc : Z -> option Z) (now : Z) (k' v' : bytes)
                    (ttl off : Z) (b : bool) :
    k' <> k -> size_of k' < 2 ^ 32 ->
    (size (FastMap.heap m) < fuel)%nat ->
    alloc (ShmKeyValue.total_size (size_of k') (size_of v')) = Some off ->
    0 <= off -> FastMap.heap m !! off = None ->
    FastMap.replace fuel alloc now m (Some k') v' ttl = Ret (b, m') ->
    other_key_operation k m m'
| other_key_remove (fuel : nat) (now : Z) (k' : bytes) (out out' : option bytes)
                   (b : bool) :
    k' <> k ->
    (size (FastMap.heap m) < fuel)%nat ->
    FastMap.remove fuel now m (Some k') out = Ret (b, out', m') ->
    other_key_operation k m m'
| other_key_remove_expected (fuel : nat) (now : Z) (k' expected : bytes) (b : bool) :
    k' <> k ->
    (size (FastMap.heap m) < fuel)%nat ->
    FastMap.remove_expected fuel now m (Some k') expected = Ret (b, m') ->
    other_key_operation k m m'
| any_key_get (fuel : nat) (now : Z) (key : buffer) (out out' : bytes) (b : bool) :
    FastMap.get fuel now m key out = Ret (b, out', m') ->
    other_key_operation k m m'.

(** The number of the records at the offsets [l] that have the key. *)
Definition records_with_key (h : gmap Z ShmKeyValue.t) (key : bytes) (l : list Z) : nat :=
  length (filter (fun o => matches_at h key o = true) l).

(** No two records of a chain of the map have the same key. *)
Definition distinct_keys (m : FastMap.t) (chains : Z -> list Z) : Prop :=
  forall idx key, 0 <= idx < HashTableHeader.bucket_count (FastMap.header m) ->
                  (records_with_key (FastMap.heap m) key (chains idx) <= 1)%nat.

(** One call of an operation of the map on a key that is not null, or of
    [clear], from the map [m] to the map [m'].  The fuel of the model
    exceeds the number of records; the allocator has a free block for
    the record that [put], [putIfAbsent] or [replace] may need; a key
    written is shorter than 2^32 bytes, the width of [key_size], and a
    value put is shorter than 2^32 bytes, the width of [value_size]. *)
Inductive map_operation (m m' : FastMap.t) : Prop :=
| operation_put (fuel : nat) (alloc : Z -> option Z) (now : Z) (k v : bytes)
                (ttl off : Z) (b : bool) :
    size_of k < 2 ^ 32 -> size_of v < 2 ^ 32 ->
    (size (FastMap.heap m) < fuel)%nat ->
    alloc (ShmKeyValue.total_size (size_of k) (size_of v)) = Some off ->
    0 <= off -> FastMap.heap m !! off = None ->
    FastMap.put fuel alloc now m (Some k) v ttl = Ret (b, m') ->
    map_operation m m'
| operation_putIfAbsent (fuel : nat) (alloc : Z -> option Z) (now : Z) (k v : bytes)
                        (ttl off : Z) (b : bool) :
    size_of k < 2 ^ 32 ->
    (size (FastMap.heap m) < fuel)%nat ->
    alloc (ShmKeyValue.total_size (size_of k) (size_of v)) = Some off ->
    0 <= off -> FastMap.heap m !! off = None ->
    FastMap.putIfAbsent fuel alloc now m (Some k) v ttl = Ret (b, m') ->
    map_operation m m'
| operation_replace (fuel : nat) (alloc : Z -> option Z) (now : Z) (k v : bytes)
                    (ttl off : Z) (b : bool) :
    size_of k < 2 ^ 32 ->
    (size (FastMap.heap m) < fuel)%nat ->
    alloc (ShmKeyValue.total_size (size_of k) (size_of v)) = Some off ->
    0 <= off -> FastMap.heap m !! off = None ->
    FastMap.replace fuel alloc now m (Some k) v ttl = Ret (b, m') ->
    map_operation m m'
| operation_remove (fuel : nat) (now : Z) (k : bytes) (out out' : option bytes)
                   (b : bool) :
    (size (FastMap.heap m) < fuel)%nat ->
    FastMap.remove fuel now m (Some k) out = Ret (b, out', m') ->
    map_operation m m'
| operation_remove_expected (fuel : nat) (now : Z) (k expected : bytes) (b : bool) :
    (size (FastMap.heap m) < fuel)%nat ->
    FastMap.remove_expected fuel now m (Some k) expected = Ret (b, m') ->
    map_operation m m'
| operation_setTTL (fuel : nat) (now : Z) (k : bytes) (ttl : Z) (b : bool) :
    (size (FastMap.heap m) < fuel)%nat ->
    FastMap.setTTL fuel now m (Some k) ttl = Ret (b, m') ->
    map_operation m m'
| operation_get (fuel : nat) (now : Z) (key : buffer) (out out' : bytes) (b : bool) :
    FastMap.get fuel now m key out = Ret (b, out', m') ->
    map_operation m m'
| operation_clear (fuel : nat) (now : Z) :
    (size (FastMap.heap m) < fuel)%nat ->
    FastMap.clear fuel now m = Ret m' ->
    map_operation m m'.

(** The files in which no object is named ["header"]. *)
Definition lacks_header (d : Files.disk) (path : string) : Prop :=
  exists file, d !! path = Some file /\ file !! "header"%string = None.

(** The stores of a run of operations on the container of [path]. *)
Definition populate (d : Files.disk) (path : string)
           (stores : list (string * Files.named_object)) : Files.disk :=
  foldl (fun d' s => Files.store_object d' path s.1 s.2) d stores.

(** The callbacks that never stop an enumeration. *)
Definition always3 : bytes -> Z -> Z -> bool := fun _ _ _ => true.
Definition always2 : bytes -> Z -> bool := fun _ _ => true.
Definition always4 : bytes -> Z -> bytes -> Z -> bool := fun _ _ _ _ => true.

(* ===================================================================== *)
(** * Runs used as examples *)
(* ===================================================================== *)

Definition payload (s : string) : bytes := String.list_byte_of_string s.

(** A list created at instant 100 to which ["A"] is added with a time to
    live of 0 seconds and then ["B"] with no expiry; the blocks obtained
    are at offsets 64 and 128. *)
Definition list_A0_B : result FastList.t :=
  '(_, l1) ← FastList.add (fun _ => Some 64) 100 (FastList.create 100)
                          (Some (payload "A")) 0;
  '(_, l2) ← FastList.add (fun _ => Some 128) 100 l1 (Some (payload "B")) TTL_INFINITE;
  Ret l2.

(** A set of four buckets created at instant 100 to which ["x"] is added
    with a time to live of 0 seconds; the block obtained is at offset 64. *)
Definition set_x0 : result FastSet.t :=
  '(_, s1) ← FastSet.add 8 (fun _ => Some 64) (fun _ => 100) (FastSet.create 100 4)
                         (Some (payload "x")) 0;
  Ret s1.

(** The value of a run that returns, [d] otherwise. *)
Definition returned {A : Type} (d : A) (r : result A) : A :=
  match r with
  | Ret a => a
  | _ => d
  end.

Definition list_state : FastList.t := returned (FastList.create 0) list_A0_B.

Definition set_state : FastSet.t := returned (FastSet.create 0 4) set_x0.

(** A set of four buckets created at instant 100 to which ["x"] is added
    with no expiry; the block obtained is at offset 64. *)
Definition set_x : FastSet.t :=
  returned (FastSet.create 0 4)
    ('(_, s1) ← FastSet.add 8 (fun _ => Some 64) (fun _ => 100) (FastSet.create 100 4)
                            (Some (payload "x")) TTL_INFINITE;
     Ret s1).

(** A map of four buckets created at instant 100, in which ["k"] is then
    bound to ["v1"] with a time to live of 0 seconds. *)
Definition map_state : FastMap.t :=
  returned (FastMap.create 0 4)
    ('(_, m) ← FastMap.put 8 (fun _ => Some 64) 100 (FastMap.create 100 4)
                          (Some (payload "k")) (payload "v1") 0;
     Ret m).

(** A queue created at instant 100 to which ["t1"] is offered with a time
    to live of 0 seconds and then ["t2"] with no expiry. *)
Definition queue_state : FastQueue.t :=
  returned (FastQueue.create 0)
    ('(_, q1) ← FastQueue.offer (fun _ => Some 64) 100 (FastQueue.create 100)
                               (Some (payload "t1")) 0;
     '(_, q2) ← FastQueue.offer (fun _ => Some 128) 100 q1
                               (Some (payload "t2")) TTL_INFINITE;
     Ret q2).

(** A stack created at instant 100 on which ["A"] is pushed. *)
Definition stack_state : FastStack.t :=
  returned (FastStack.create 0)
    ('(_, s) ← FastStack.push (fun _ => Some 64) 100 (FastStack.create 100)
                             (Some (payload "A")) TTL_INFINITE;
     Ret s).

(** A map of 4 buckets in which ["k"] is put with no expiry; then ["c"],
    whose bucket is that of ["k"], is put, then ["j"], in another bucket,
    with a time to live; then ["c"] is removed; then ["k"] is put again,
    with a longer value. *)
Definition map_k : FastMap.t :=
  returned (FastMap.create 0 4)
    ('(_, m) ← FastMap.put 8 (fun _ => Some 64) 100 (FastMap.create 100 4)
                          (Some (payload "k")) (payload "v1") TTL_INFINITE;
     Ret m).

Definition map_k_c : FastMap.t :=
  returned (FastMap.create 0 4)
    ('(_, m) ← FastMap.put 8 (fun _ => Some 128) 110 map_k
                          (Some (payload "c")) (payload "w") TTL_INFINITE;
     Ret m).

Definition map_k_c_j : FastMap.t :=
  returned (FastMap.create 0 4)
    ('(_, m) ← FastMap.put 8 (fun _ => Some 192) 120 map_k_c
                          (Some (payload "j")) (payload "x") 5;
     Ret m).

Definition map_k_j : FastMap.t :=
  returned (FastMap.create 0 4)
    ('(_, m) ← FastMap.remove 8 130 map_k_c_j (Some (payload "c")) None;
     Ret m).

Definition map_k2 : FastMap.t :=
  returned (FastMap.create 0 4)
    ('(_, m) ← FastMap.put 8 (fun _ => Some 256) 150 map_k_j
                          (Some (payload "k")) (payload "value2") TTL_INFINITE;
     Ret m).

(** A Boost.Interprocess for the examples of the manager.  A mapping is
    the number of its free bytes, and a block is carved at offset 64.
    The disk is the size of the one file together with the room left on
    the device; on a device whose room is negative, growing a file
    raises.  A file that does not fit the room is not grown, which
    [grow] reports by [false]. *)
Definition boost_allocate (free : Z) (n : Z) : option (Z * Z) :=
  if n <=? free then Some (64, free - n) else None.

Definition boost_close (f : Z) (d : Z * Z) : Z * Z := d.

Definition boost_grow (d : Z * Z) (name : string) (n : Z) : option (bool * (Z * Z)) :=
  if d.2 <? 0 then None
  else if n <=? d.2 then Some (true, (d.1 + n, d.2 - n))
  else Some (false, d).

Definition boost_open_only (d : Z * Z) (name : string) : option Z := Some d.1.

(** The manager of a file of 64 bytes, all free, on a device with the
    room [room]. *)
Definition manager_on (room : Z) : @MMapFileManager.world Z (Z * Z) :=
  MMapFileManager.mkWorld
    (MMapFileManager.mk "/tmp/l.fc"%string (Some 64) DEFAULT_GROWTH_SIZE) (64, room).

Definition boost_manager_allocate :=
  MMapFileManager.allocate boost_allocate boost_close boost_grow boost_open_only.

(** A queue created at instant 100 to which ["t1"] is offered with a time
    to live of one second, so that it expires at 1000000100, and then
    ["t2"] with no expiry. *)
Definition queue_t1_t2 : FastQueue.t :=
  returned (FastQueue.create 0)
    ('(_, q1) ← FastQueue.offer (fun _ => Some 64) 100 (FastQueue.create 100)
                               (Some (payload "t1")) 1;
     '(_, q2) ← FastQueue.offer (fun _ => Some 128) 100 q1
                               (Some (payload "t2")) TTL_INFINITE;
     Ret q2).

(** A clock read [k] times before the instant 1000000100, one
    nanosecond earlier, and at that instant from then on. *)
Definition expiring_after (k : nat) : clock :=
  fun i => if (i <? k)%nat then 1000000099 else 1000000100.

(** A clock that advances by one nanosecond from a reading to the next,
    from [t] on. *)
Definition running_from (t : Z) : clock := fun i => t + Z.of_nat i.

(** The clocks of successive calls, the first from the instant 200 on,
    each call starting a second after the one before. *)
Definition a_second_apart : nat -> clock :=
  fun i => running_from (200 + 1000000000 * Z.of_nat i).

(** A set of four buckets created at instant 100 to which ["x"] is added
    with a time to live of one second, so that it expires at
    1000000100; the block obtained is at offset 64. *)
Definition set_x1 : FastSet.t :=
  returned (FastSet.create 0 4)
    ('(_, s1) ← FastSet.add 8 (fun _ => Some 64) (fun _ => 100) (FastSet.create 100 4)
                            (Some (payload "x")) 1;
     Ret s1).

(** A list created at instant 100 to which ["A"] is added with a time to
    live of one second, so that it expires at 1000000100, and then ["B"]
    with no expiry; the blocks obtained are at offsets 64 and 128. *)
Definition list_A1_B : FastList.t :=
  returned (FastList.create 0)
    ('(_, l1) ← FastList.add (fun _ => Some 64) 100 (FastList.create 100)
                            (Some (payload "A")) 1;
     '(_, l2) ← FastList.add (fun _ => Some 128) 100 l1 (Some (payload "B")) TTL_INFINITE;
     Ret l2).
(* ===================================================================== *)
(** * Properties *)
(* ===================================================================== *)

(** ** Running the embedding *)

Lemma bind_Ret {A B : Type} (a : A) (f : A -> result B) : (Ret a ≫= f) = f a.
Proof. reflexivity. Qed.

Lemma Ret_pair_inj {A B : Type} (a a' : A) (b b' : B) :
  @Ret (A * B) (a, b) = Ret (a', b') -> b = b'.
Proof. intros [= _ H]. exact H. Qed.

Lemma deref_Some {A : Type} (h : gmap Z A) (o : Z) (n : A) :
  h !! o = Some n -> deref h o = Ret n.
Proof. intros H. unfold deref. rewrite H. reflexivity. Qed.

Lemma update_Some {A : Type} (h : gmap Z A) (o : Z) (n : A) (f : A -> A) :
  h !! o = Some n -> update o f h = Ret (<[o := f n]> h).
Proof. intros H. unfold update. rewrite (deref_Some h o n H). reflexivity. Qed.

Lemma update_Ret_inv {A : Type} (h h' : gmap Z A) (o : Z) (f : A -> A) :
  update o f h = Ret h' -> exists n, h !! o = Some n /\ h' = <[o := f n]> h.
Proof.
  unfold update, deref. destruct (h !! o) as [n |]; simpl; [| discriminate].
  intros [= <-]. exists n. split; reflexivity.
Qed.

Lemma update_keeps_allocated {A : Type} (h h' : gmap Z A) (o k : Z) (f : A -> A) :
  update o f h = Ret h' -> is_Some (h !! k) -> is_Some (h' !! k).
Proof.
  intros Hu Hk. apply update_Ret_inv in Hu as (n & Hn & ->).
  destruct (decide (o = k)) as [-> | Hne].
  - rewrite lookup_insert_eq. eauto.
  - rewrite lookup_insert_ne by exact Hne. exact Hk.
Qed.

(** Lookups in a heap built by insertions and deletions. *)
Ltac heap_lookup :=
  repeat first
    [ rewrite lookup_insert_eq
    | rewrite lookup_insert_ne by (first [assumption | congruence | lia])
    | rewrite lookup_delete_eq
    | rewrite lookup_delete_ne by (first [assumption | congruence | lia]) ];
  try first [reflexivity | eassumption].

(** One store of a run, when the record stored into is known. *)
Ltac run_update :=
  erewrite update_Some by heap_lookup; rewrite ?bind_Ret.

(** ** Entries and their time to live *)

Lemma wrap64_small (z : Z) : 0 <= z < 2 ^ 64 -> wrap64 z = z.
Proof. intros H. unfold wrap64. apply Z.mod_small. exact H. Qed.

Lemma wrap32_small (z : Z) : 0 <= z < 2 ^ 32 -> wrap32 z = z.
Proof. intros H. unfold wrap32. apply Z.mod_small. exact H. Qed.

Lemma set_ttl_zero_expires_at (now : Z) (e : ShmEntry.t) :
  0 <= now < 2 ^ 64 ->
  ShmEntry.expires_at (ShmEntry.set_ttl now 0 e) = now.
Proof.
  intros H. unfold ShmEntry.set_ttl. simpl.
  change (0 * 1000000000) with 0.
  rewrite (wrap64_small 0) by lia. rewrite Z.add_0_r. apply wrap64_small, H.
Qed.

Lemma set_ttl_negative_expires_at (now ttl : Z) (e : ShmEntry.t) :
  ttl < 0 -> ShmEntry.expires_at (ShmEntry.set_ttl now ttl e) = 0.
Proof.
  intros H. unfold ShmEntry.set_ttl. simpl.
  destruct (Z.ltb_spec ttl 0); [reflexivity | lia].
Qed.

Lemma is_alive_never_expires (t : Z) (e : ShmEntry.t) :
  ShmEntry.state e = ShmEntry.STATE_VALID ->
  ShmEntry.expires_at e = 0 ->
  ShmEntry.is_alive t e = true.
Proof.
  intros Hs He. unfold ShmEntry.is_alive, ShmEntry.is_valid.
  rewrite Hs, He. reflexivity.
Qed.

Lemma is_alive_past_expiry (t : Z) (e : ShmEntry.t) :
  ShmEntry.expires_at e <> 0 ->
  ShmEntry.expires_at e <= t ->
  ShmEntry.is_alive t e = false.
Proof.
  intros Hz Hle. unfold ShmEntry.is_alive.
  destruct (negb (ShmEntry.is_valid e)); [reflexivity |].
  destruct (Z.eqb_spec (ShmEntry.expires_at e) 0); [contradiction |].
  apply Z.ltb_ge. exact Hle.
Qed.

(** A record that is alive is not expired, whatever the instant. *)
Lemma is_alive_not_expired (t : Z) (e : ShmEntry.t) :
  ShmEntry.is_alive t e = true -> ShmEntry.is_expired t e = false.
Proof.
  unfold ShmEntry.is_alive, ShmEntry.is_expired, ShmEntry.is_valid.
  destruct (Z.eqb_spec (ShmEntry.state e) ShmEntry.STATE_VALID) as [Hv | Hv]; simpl;
    [| discriminate].
  rewrite Hv. simpl.
  destruct (Z.eqb_spec (ShmEntry.expires_at e) 0); [reflexivity |].
  intros Hlt. apply Z.ltb_lt in Hlt. apply Z.leb_gt. exact Hlt.
Qed.

(** A record in state Valid is either alive or expired. *)
Lemma valid_alive_or_expired (t : Z) (e : ShmEntry.t) :
  ShmEntry.state e = ShmEntry.STATE_VALID ->
  ShmEntry.is_alive t e = negb (ShmEntry.is_expired t e).
Proof.
  intros Hv. unfold ShmEntry.is_alive, ShmEntry.is_expired, ShmEntry.is_valid.
  rewrite Hv. simpl.
  destruct (Z.eqb_spec (ShmEntry.expires_at e) 0); [reflexivity |].
  destruct (Z.ltb_spec t (ShmEntry.expires_at e)), (Z.leb_spec (ShmEntry.expires_at e) t);
    simpl; try reflexivity; lia.
Qed.

(** C5.  An entry written with [ttl_seconds = 0] at a clock reading
    [now] (a [uint64_t] past the epoch of the clock) is not alive at any
    later instant, so every read, which goes through [is_alive], reports
    it absent: a node written by [copy_to_node] is copied out as the empty
    vector, and a key-value record written by [copy_to_kv] is not alive
    either.  An entry written with [ttl_seconds = -1] is alive and not
    expired at every instant, and its remaining time to live, the value of
    [getTTL], is [-1] at every instant. *)
Theorem ttl_zero_is_expired_ttl_infinite_never_expires
        (now : Z) (node : ShmNode.t) (kv : ShmKeyValue.t) (data key value : bytes) :
  0 < now < 2 ^ 64 ->
  (forall t, now < t ->
     ShmEntry.is_alive t (ShmEntry.set_ttl now 0 (ShmNode.entry node)) = false
     /\ ShmEntry.is_alive t
          (ShmNode.entry (SerializationUtil.copy_to_node now node data 0)) = false
     /\ SerializationUtil.copy_from_node t
          (SerializationUtil.copy_to_node now node data 0) = []
     /\ ShmEntry.is_alive t
          (ShmKeyValue.entry (SerializationUtil.copy_to_kv now kv key value 0)) = false)
  /\ (forall t,
        let n := SerializationUtil.copy_to_node now node data TTL_INFINITE in
        let r := SerializationUtil.copy_to_kv now kv key value TTL_INFINITE in
        ShmEntry.is_alive t (ShmNode.entry n) = true
        /\ ShmEntry.is_expired t (ShmNode.entry n) = false
        /\ ShmEntry.remaining_ttl_seconds t (ShmNode.entry n) = -1
        /\ ShmEntry.is_alive t (ShmKeyValue.entry r) = true
        /\ ShmEntry.is_expired t (ShmKeyValue.entry r) = false
        /\ ShmEntry.remaining_ttl_seconds t (ShmKeyValue.entry r) = -1).
Proof.
  intros Hnow. split.
  - intros t Ht.
    assert (Hdead : forall e, ShmEntry.expires_at e = now -> ShmEntry.is_alive t e = false).
    { intros e He. apply is_alive_past_expiry; rewrite He; lia. }
    assert (Hnode : ShmEntry.is_alive t
              (ShmNode.entry (SerializationUtil.copy_to_node now node data 0)) = false).
    { apply Hdead. simpl. change (0 * 1000000000) with 0.
      rewrite (wrap64_small 0) by lia.
      rewrite Z.add_0_r. apply wrap64_small. lia. }
    repeat split.
    + apply Hdead. apply set_ttl_zero_expires_at. lia.
    + exact Hnode.
    + unfold SerializationUtil.copy_from_node. rewrite Hnode. reflexivity.
    + apply Hdead. simpl. change (0 * 1000000000) with 0.
      rewrite (wrap64_small 0) by lia.
      rewrite Z.add_0_r. apply wrap64_small. lia.
  - intros t n r. subst n r.
    repeat split; try reflexivity.
Qed.

Lemma ttl_zero_is_expired_ttl_infinite_never_expires_witness :
  0 < 100 < 2 ^ 64
  /\ ShmEntry.is_alive 101 (ShmEntry.set_ttl 100 0 ShmEntry.init) = false
  /\ ShmEntry.remaining_ttl_seconds 1000000
       (ShmNode.entry (SerializationUtil.copy_to_node 100 ShmNode.init [] TTL_INFINITE))
     = -1.
Proof.
  assert (H : 0 < 100 < 2 ^ 64) by lia.
  pose proof (ttl_zero_is_expired_ttl_infinite_never_expires
                100 ShmNode.init ShmKeyValue.init [] [] [] H) as [Hz Hi].
  split; [exact H |]. split.
  - apply (Hz 101). lia.
  - apply (Hi 1000000).
Defined.

(** ** The guard of the insertions *)

(** C9.  Each insertion starts with [if (!data || size == 0) return
    false;] (for the map, on the key): given a null pointer or a length
    of zero it returns [false] and the container it is given is the
    container it leaves, heap, header, buckets, statistics, cache and
    history included.  No insertion can therefore store a zero-length
    element or key. *)
Theorem insertion_of_null_or_empty_is_refused :
  forall (fuel : nat) (alloc : Z -> option Z) (now ttl index : Z) (readings : clock)
         (value : bytes),
    (forall (l : FastList.t),
        FastList.add alloc now l None ttl = Ret (false, l)
        /\ FastList.add alloc now l (Some []) ttl = Ret (false, l)
        /\ FastList.addFirst alloc now l None ttl = Ret (false, l)
        /\ FastList.addFirst alloc now l (Some []) ttl = Ret (false, l)
        /\ FastList.add_at fuel alloc now l index None ttl = Ret (false, l)
        /\ FastList.add_at fuel alloc now l index (Some []) ttl = Ret (false, l))
    /\ (forall (s : FastSet.t),
          FastSet.add fuel alloc readings s None ttl = Ret (false, s)
          /\ FastSet.add fuel alloc readings s (Some []) ttl = Ret (false, s))
    /\ (forall (m : FastMap.t),
          FastMap.put fuel alloc now m None value ttl = Ret (false, m)
          /\ FastMap.put fuel alloc now m (Some []) value ttl = Ret (false, m)
          /\ FastMap.putIfAbsent fuel alloc now m None value ttl = Ret (false, m)
          /\ FastMap.putIfAbsent fuel alloc now m (Some []) value ttl = Ret (false, m))
    /\ (forall (q : FastQueue.t),
          FastQueue.offer alloc now q None ttl = Ret (false, q)
          /\ FastQueue.offer alloc now q (Some []) ttl = Ret (false, q)
          /\ FastQueue.offerFirst alloc now q None ttl = Ret (false, q)
          /\ FastQueue.offerFirst alloc now q (Some []) ttl = Ret (false, q))
    /\ (forall (s : FastStack.t),
          FastStack.push alloc now s None ttl = Ret (false, s)
          /\ FastStack.push alloc now s (Some []) ttl = Ret (false, s)).
Proof.
  intros fuel alloc now ttl index readings value.
  repeat split; reflexivity.
Qed.

(** The same guard read the other way: an insertion that returns [true]
    was given a pointer to at least one byte. *)
Lemma accepted_insertion_has_bytes (data : buffer) :
  is_null_or_empty data = false -> exists b bs, data = Some (b :: bs).
Proof.
  destruct data as [[| b bs] |]; simpl; try discriminate.
  intros _. exists b, bs. reflexivity.
Qed.

(** ** The allocation of the manager *)

Section ManagerProperties.

Context {Mapping Disk : Type}.
Variable bip_allocate : Mapping -> Z -> option (Z * Mapping).
Variable bip_close : Mapping -> Disk -> Disk.
Variable bip_grow : Disk -> string -> Z -> option (bool * Disk).
Variable bip_open_only : Disk -> string -> option Mapping.

Local Abbreviation grow := (MMapFileManager.grow bip_close bip_grow bip_open_only).
Local Abbreviation allocate := (MMapFileManager.allocate bip_allocate bip_close bip_grow bip_open_only).
Local Abbreviation file_allocate := (MMapFileManager.file_allocate bip_allocate).

(** Whatever happens, [grow] asks Boost to grow the file exactly once. *)
Lemma grow_calls_grow_once (w : MMapFileManager.world) (n : Z) :
  filter (fun c => MMapFileManager.is_grow c = true) (grow w n).1
  = [MMapFileManager.CallGrow (MMapFileManager.filename_ (MMapFileManager.mgr w)) n].
Proof.
  unfold MMapFileManager.grow. simpl.
  destruct (bip_grow _ _ _) as [[b d'] |]; [| reflexivity].
  destruct (bip_open_only _ _); reflexivity.
Qed.


End ManagerProperties.



(** ** The validity check of a file *)

Lemma lacks_header_invalid (d : Files.disk) (path : string) :
  lacks_header d path -> Files.isValidCollectionFile d path = Ret false.
Proof.
  intros (file & Hd & Hf). unfold Files.isValidCollectionFile.
  rewrite Hd, Hf. reflexivity.
Qed.

Lemma store_object_lacks_header (d : Files.disk) (path name : string)
      (o : Files.named_object) :
  lacks_header d path -> lacks_header (Files.store_object d path name o) path.
Proof.
  intros (file & Hd & Hf). unfold Files.store_object. rewrite Hd.
  destruct (file !! name) as [old |] eqn:Hn.
  - exists (<[name := o]> file). split; [apply lookup_insert_eq |].
    rewrite lookup_insert_ne; [exact Hf |]. intros ->. congruence.
  - exists file. split; assumption.
Qed.

Lemma populate_lacks_header (stores : list (string * Files.named_object))
      (d : Files.disk) (path : string) :
  lacks_header d path -> lacks_header (populate d path stores) path.
Proof.
  revert d. induction stores as [| [name o] stores IH]; intros d H; [exact H |].
  simpl. apply IH. apply store_object_lacks_header. exact H.
Qed.

Lemma open_manager_new (d : Files.disk) (path : string) (initial_size : Z) :
  (Files.open_manager d path initial_size true).1 = ∅.
Proof.
  unfold Files.open_manager. destruct (d !! path); reflexivity.
Qed.

(** The part of the check that holds: no file, no object named
    ["header"], or a header whose magic or version differs, give [false];
    a file that does hold a valid header under that name gives [true]. *)
Lemma isValidCollectionFile_cases (d : Files.disk) (path : string)
      (file : Files.managed_mapped_file) (h : CollectionHeader.t) :
  (d !! path = None -> Files.isValidCollectionFile d path = Ret false)
  /\ (d !! path = Some file -> file !! "header"%string = None ->
      Files.isValidCollectionFile d path = Ret false)
  /\ (d !! path = Some file ->
      file !! "header"%string = Some (Files.ObjCollectionHeader h) ->
      Files.isValidCollectionFile d path
      = Ret ((CollectionHeader.magic h =? CollectionHeader.MAGIC)
             && (CollectionHeader.version h =? CollectionHeader.CURRENT_VERSION))).
Proof.
  unfold Files.isValidCollectionFile. repeat split.
  - intros ->. reflexivity.
  - intros -> ->. reflexivity.
  - intros -> ->. reflexivity.
Qed.

(** C2, as the code has it.  Each of the five constructors, creating the
    file at [path], succeeds and names its header ["list_header"],
    ["set_header"], ["map_header"], ["queue_header"] or ["stack_header"];
    [isValidCollectionFile] looks for an object named ["header"].  The
    check therefore answers [false] for the file of every container,
    whatever is stored into its objects afterwards, although their magic
    and version are the expected ones. *)
Theorem isValidCollectionFile_rejects_every_container_file
        (d : Files.disk) (now : Z) (path : string) (initial_size bucket_count : Z)
        (stores : list (string * Files.named_object)) :
  let rejected (r : result Files.disk) :=
    match r with
    | Ret d' => Files.isValidCollectionFile (populate d' path stores) path = Ret false
    | _ => False
    end in
  rejected (Files.FastList_new d now path initial_size true)
  /\ rejected (Files.FastSet_new d now path initial_size true bucket_count)
  /\ rejected (Files.FastMap_new d now path initial_size true bucket_count)
  /\ rejected (Files.FastQueue_new d now path initial_size true)
  /\ rejected (Files.FastStack_new d now path initial_size true).
Proof.
  intros rejected. subst rejected.
  pose proof (open_manager_new d path initial_size) as Hnew.
  unfold Files.FastList_new, Files.FastSet_new, Files.FastMap_new,
    Files.FastQueue_new, Files.FastStack_new.
  destruct (Files.open_manager d path initial_size true) as [file d1].
  simpl in Hnew. subst file.
  repeat split; simpl;
    apply lacks_header_invalid, populate_lacks_header;
    eexists; (split; [apply lookup_insert_eq | reflexivity]).
Qed.

(** The header the list constructor stores is a valid one. *)
Example list_file_has_valid_header :
  match Files.FastList_new ∅ 100 "/tmp/l.fc" DEFAULT_INITIAL_SIZE true with
  | Ret d =>
      exists file h,
        d !! "/tmp/l.fc"%string = Some file
        /\ file !! "list_header"%string = Some (Files.ObjListHeader h)
        /\ CollectionHeader.is_valid (ListHeader.base h) = true
        /\ Files.isValidCollectionFile d "/tmp/l.fc" = Ret false
  | _ => False
  end.
Proof.
  simpl. eexists _, _. repeat split; reflexivity.
Qed.

(** ** Positional insertion in a list *)

(** C3, as the code has it.  [add(index, ...)] compares [index] with the
    size stored in the header, which counts the expired nodes still
    linked, while [size()] counts the alive ones.  In the list holding an
    expired ["A"] and an alive ["B"], at instant 200, the visible size is
    1 and the stored size is 2: inserting ["X"] at index 1, the visible
    size, goes through the middle insertion and puts ["X"] before ["B"]
    instead of appending it, and inserting at index 2, past the visible
    size, returns [true] and appends. *)
Theorem add_at_compares_with_the_stored_size :
  match list_A0_B with
  | Ret l =>
      FastList.size 8 200 l = Ret 1
      /\ ListHeader.size (FastList.header l) = 2
      /\ FastList.forEach 8 200 l (fun _ _ _ => true) = Ret [(payload "B", 1, 0)]
      /\ match FastList.add_at 8 (fun _ => Some 192) 200 l 1
                 (Some (payload "X")) TTL_INFINITE with
         | Ret (b, l') =>
             b = true
             /\ FastList.forEach 8 200 l' (fun _ _ _ => true)
                = Ret [(payload "X", 1, 0); (payload "B", 1, 1)]
         | _ => False
         end
      /\ match FastList.add_at 8 (fun _ => Some 192) 200 l 2
                 (Some (payload "X")) TTL_INFINITE with
         | Ret (b, l') =>
             b = true
             /\ FastList.forEach 8 200 l' (fun _ _ _ => true)
                = Ret [(payload "B", 1, 0); (payload "X", 1, 1)]
         | _ => False
         end
  | _ => False
  end.
Proof. vm_compute. repeat split; reflexivity. Qed.

(** What the guard of [add(index, ...)] does decide: an index above the
    stored size is refused, whatever the chain holds. *)
Lemma add_at_above_stored_size (fuel : nat) (alloc : Z -> option Z) (now : Z)
      (l : FastList.t) (index : Z) (b : byte) (bs : bytes) (ttl : Z) :
  ListHeader.size (FastList.header l) < index ->
  FastList.add_at fuel alloc now l index (Some (b :: bs)) ttl = Ret (false, l).
Proof.
  intros Hlt. unfold FastList.add_at.
  replace (size_of (b :: bs) =? 0) with false
    by (symmetry; apply Z.eqb_neq; unfold size_of; simpl length; lia).
  destruct (Z.ltb_spec (ListHeader.size (FastList.header l)) index); [reflexivity | lia].
Qed.

(** ** Adding to a set an element whose record has expired *)

(** [find_in_bucket] of the set only ever reports a record that is alive. *)
Lemma FastSet_find_loop_alive (fuel : nat) (now : Z) (h : gmap Z ShmNode.t)
      (data : bytes) (hash current : Z) (prev p : option Z) (o : Z) :
  FastSet.find_loop fuel now h data hash current prev = Ret (Some o, p) ->
  exists node, h !! o = Some node /\ ShmEntry.is_alive now (ShmNode.entry node) = true.
Proof.
  revert current prev. induction fuel as [| fuel IH]; intros current prev; simpl;
    [discriminate |].
  destruct (current <? 0); [discriminate |].
  unfold deref. destruct (h !! current) as [node |] eqn:Hn; simpl; [| discriminate].
  destruct (ShmEntry.is_alive now (ShmNode.entry node)) eqn:Ha; simpl.
  - destruct (_ && _).
    + intros [= <- <-]. exists node. split; assumption.
    + apply IH.
  - apply IH.
Qed.

(** Hence the branch "Expired - update in place" of [add] is taken only
    for a record that expires during the call, between the test of
    [find_in_bucket] and the test of [add]: an [add] that returns [true]
    has obtained a block from the heap, or has found a record that was
    alive at the first reading of the clock and was not at the second. *)
Lemma FastSet_add_true_allocates (fuel : nat) (alloc : Z -> option Z) (now : clock)
      (s s' : FastSet.t) (bs : bytes) (ttl : Z) :
  FastSet.add fuel alloc now s (Some bs) ttl = Ret (true, s') ->
  (exists off, alloc (ShmNode.total_size (size_of bs)) = Some off
               /\ is_Some (FastSet.heap s' !! off))
  \/ (exists e node, FastSet.heap s !! e = Some node
                     /\ ShmEntry.is_alive (now O) (ShmNode.entry node) = true
                     /\ ShmEntry.is_alive (now 1%nat) (ShmNode.entry node) = false).
Proof.
  unfold FastSet.add.
  destruct (size_of bs =? 0); [discriminate |].
  destruct (FastSet.bucket_at s _) as [bucket | |]; simpl; try discriminate.
  destruct (FastSet.find_in_bucket fuel (now O) s bucket bs (compute_hash bs))
    as [[[e |] p] | |] eqn:Hfind; simpl; try discriminate.
  - apply FastSet_find_loop_alive in Hfind as (node & Hn & Ha).
    unfold deref. rewrite Hn. simpl.
    destruct (ShmEntry.is_alive (now 1%nat) (ShmNode.entry node)) eqn:Ha1;
      [discriminate |].
    intros _. right. exists e, node. auto.
  - unfold FastSet.allocate_node, manager_allocate.
    destruct (alloc _) as [off |]; [| discriminate].
    rewrite !bind_Ret. do 3 run_update.
    intros H. left. exists off. split; [reflexivity |].
    match type of H with
    | (?step ≫= _) = _ => destruct step as [h5 | |] eqn:Hstep; simpl in H;
                          try discriminate
    end.
    injection H as <-. simpl.
    destruct (0 <=? ShmBucket.head_offset bucket).
    + eapply update_keeps_allocated; [eassumption |].
      rewrite lookup_insert_eq. eauto.
    + injection Hstep as <-. rewrite lookup_insert_eq. eauto.
Qed.

(** For a record that is past its expiry at the first reading of the
    clock already, the branch is not taken whatever the later readings
    are: [find_in_bucket] reports no record,
    and an [add] of bytes that are not empty, when it returns, has
    returned [true] after obtaining a block from the heap. *)
Lemma FastSet_add_of_expired_allocates (fuel : nat) (alloc : Z -> option Z) (now : clock)
      (s s' : FastSet.t) (bs : bytes) (ttl : Z) (bucket : ShmBucket.t) (p : option Z)
      (b : bool) :
  size_of bs <> 0 ->
  FastSet.bucket_at s (FastSet.get_bucket s (compute_hash bs)) = Ret bucket ->
  FastSet.find_in_bucket fuel (now O) s bucket bs (compute_hash bs) = Ret (None, p) ->
  FastSet.add fuel alloc now s (Some bs) ttl = Ret (b, s') ->
  b = true
  /\ exists off, alloc (ShmNode.total_size (size_of bs)) = Some off
                 /\ is_Some (FastSet.heap s' !! off).
Proof.
  intros Hsize Hb Hfind. unfold FastSet.add.
  replace (size_of bs =? 0) with false by (symmetry; apply Z.eqb_neq; exact Hsize).
  rewrite Hb. simpl. rewrite Hfind. simpl.
  unfold FastSet.allocate_node, manager_allocate.
  destruct (alloc _) as [off |]; [| discriminate].
  rewrite !bind_Ret. do 3 run_update.
  intros H.
  match type of H with
  | (?step ≫= _) = _ => destruct step as [h5 | |] eqn:Hstep; simpl in H;
                        try discriminate
  end.
  injection H as <- <-. split; [reflexivity |]. exists off. split; [reflexivity |].
  simpl.
  destruct (0 <=? ShmBucket.head_offset bucket).
  - eapply update_keeps_allocated; [eassumption |].
    rewrite lookup_insert_eq. eauto.
  - injection Hstep as <-. rewrite lookup_insert_eq. eauto.
Qed.

(** C1, as the code has it.  The set holds ["x"], added at instant 100
    with a time to live of 0: at instant 200 its record, at offset 64, is
    in state Valid, holds the bytes of ["x"] and is past its expiry.
    [add("x", -1)] at instant 200 does not find it, because
    [find_in_bucket] skips the records that are not alive: it returns
    [true] after obtaining a new block at offset 128 and linking it at the
    head of the chain.  The old record keeps its entry, expiry included,
    and stays linked behind the new one; the stored size becomes 2. *)
Theorem add_of_expired_element_allocates_a_second_record :
  match set_x0 with
  | Ret s =>
      (exists old,
          FastSet.heap s !! 64 = Some old
          /\ ShmEntry.state (ShmNode.entry old) = ShmEntry.STATE_VALID
          /\ ShmNode.data old = payload "x"
          /\ ShmEntry.is_expired 200 (ShmNode.entry old) = true)
      /\ size (FastSet.heap s) = 1%nat
      /\ match FastSet.add 8 (fun _ => Some 128) (fun _ => 200) s (Some (payload "x"))
                           TTL_INFINITE with
         | Ret (b, s') =>
             b = true
             /\ size (FastSet.heap s') = 2%nat
             /\ ShmNode.entry <$> FastSet.heap s' !! 64
                = ShmNode.entry <$> FastSet.heap s !! 64
             /\ ShmEntry.is_alive 200 <$> (ShmNode.entry <$> FastSet.heap s' !! 64)
                = Some false
             /\ (ShmNode.data <$> FastSet.heap s' !! 128) = Some (payload "x")
             /\ (ShmNode.next_offset <$> FastSet.heap s' !! 128) = Some 64
             /\ HashTableHeader.size (FastSet.header s') = 2
         | _ => False
         end
  | _ => False
  end.
Proof.
  vm_compute. repeat split; try reflexivity.
  eexists. repeat split; reflexivity.
Qed.

(** ** Size and enumeration *)

(** Unfolds one round of a loop on a non-null offset whose record is known. *)
Ltac loop_round Hp Hn :=
  simpl;
  match goal with
  | |- context [?o <? 0] =>
      replace (o <? 0) with false by (symmetry; apply Z.ltb_ge; exact Hp)
  end;
  rewrite (deref_Some _ _ _ Hn), ?bind_Ret.

Ltac loop_end Hp :=
  simpl;
  match goal with
  | |- context [?o <? 0] =>
      replace (o <? 0) with true by (symmetry; apply Z.ltb_lt; exact Hp)
  end.

Lemma FastList_loops (now : Z) (h : gmap Z ShmNode.t) (l : list Z) :
  forall (fuel : nat) (p index : Z),
    chain ShmNode.next_offset h p l -> (length l < fuel)%nat ->
    exists calls,
      FastList.forEach_loop fuel now h always3 p index = Ret calls
      /\ forall acc, FastList.size_loop fuel now h p acc
                     = Ret (acc + Z.of_nat (length calls)).
Proof.
  induction l as [| o l IH]; intros fuel p index Hc Hf;
    (destruct fuel as [| fuel]; [simpl in Hf; lia |]).
  - simpl in Hc. exists []. split; [| intros acc]; loop_end Hc;
      [reflexivity | simpl; f_equal; lia].
  - destruct Hc as (-> & Hp & n & Hn & Hc). simpl in Hf.
    destruct (ShmEntry.is_alive now (ShmNode.entry n)) eqn:Ha.
    + destruct (IH fuel (ShmNode.next_offset n) (index + 1) Hc ltac:(lia))
        as (calls & Hfe & Hsz).
      exists ((ShmNode.data n, ShmEntry.data_size (ShmNode.entry n), index) :: calls).
      split; [| intros acc]; loop_round Hp Hn; rewrite Ha.
      * simpl. rewrite Hfe. reflexivity.
      * rewrite Hsz. f_equal. simpl length. lia.
    + destruct (IH fuel (ShmNode.next_offset n) index Hc ltac:(lia))
        as (calls & Hfe & Hsz).
      exists calls. split; [| intros acc]; loop_round Hp Hn; rewrite Ha.
      * exact Hfe.
      * apply Hsz.
Qed.

Lemma FastQueue_loops (now : Z) (h : gmap Z ShmNode.t) (l : list Z) :
  forall (fuel : nat) (p : Z),
    chain ShmNode.next_offset h p l -> (length l < fuel)%nat ->
    exists calls,
      FastQueue.forEach_loop fuel now h always2 p = Ret calls
      /\ forall acc, FastQueue.size_loop fuel now h p acc
                     = Ret (acc + Z.of_nat (length calls)).
Proof.
  induction l as [| o l IH]; intros fuel p Hc Hf;
    (destruct fuel as [| fuel]; [simpl in Hf; lia |]).
  - simpl in Hc. exists []. split; [| intros acc]; loop_end Hc;
      [reflexivity | simpl; f_equal; lia].
  - destruct Hc as (-> & Hp & n & Hn & Hc). simpl in Hf.
    destruct (IH fuel (ShmNode.next_offset n) Hc ltac:(lia)) as (calls & Hfe & Hsz).
    destruct (ShmEntry.is_alive now (ShmNode.entry n)) eqn:Ha.
    + exists ((ShmNode.data n, ShmEntry.data_size (ShmNode.entry n)) :: calls).
      split; [| intros acc]; loop_round Hp Hn; rewrite Ha.
      * simpl. rewrite Hfe. reflexivity.
      * rewrite Hsz. f_equal. simpl length. lia.
    + exists calls. split; [| intros acc]; loop_round Hp Hn; rewrite Ha.
      * exact Hfe.
      * apply Hsz.
Qed.

Lemma FastStack_loops (now : Z) (h : gmap Z ShmNode.t) (l : list Z) :
  forall (fuel : nat) (p : Z),
    chain ShmNode.next_offset h p l -> (length l < fuel)%nat ->
    exists calls,
      FastStack.forEach_loop fuel now h always2 p = Ret calls
      /\ forall acc, FastStack.size_loop fuel now h p acc
                     = Ret (acc + Z.of_nat (length calls)).
Proof.
  induction l as [| o l IH]; intros fuel p Hc Hf;
    (destruct fuel as [| fuel]; [simpl in Hf; lia |]).
  - simpl in Hc. exists []. split; [| intros acc]; loop_end Hc;
      [reflexivity | simpl; f_equal; lia].
  - destruct Hc as (-> & Hp & n & Hn & Hc). simpl in Hf.
    destruct (IH fuel (ShmNode.next_offset n) Hc ltac:(lia)) as (calls & Hfe & Hsz).
    destruct (ShmEntry.is_alive now (ShmNode.entry n)) eqn:Ha.
    + exists ((ShmNode.data n, ShmEntry.data_size (ShmNode.entry n)) :: calls).
      split; [| intros acc]; loop_round Hp Hn; rewrite Ha.
      * simpl. rewrite Hfe. reflexivity.
      * rewrite Hsz. f_equal. simpl length. lia.
    + exists calls. split; [| intros acc]; loop_round Hp Hn; rewrite Ha.
      * exact Hfe.
      * apply Hsz.
Qed.

Lemma FastSet_chain_loops (now : Z) (h : gmap Z ShmNode.t) (l : list Z) :
  forall (fuel : nat) (p : Z),
    chain ShmNode.next_offset h p l -> (length l < fuel)%nat ->
    exists calls,
      FastSet.forEach_chain fuel now h always2 p = Ret (calls, false)
      /\ forall acc, FastSet.size_chain fuel now h p acc
                     = Ret (acc + Z.of_nat (length calls)).
Proof.
  induction l as [| o l IH]; intros fuel p Hc Hf;
    (destruct fuel as [| fuel]; [simpl in Hf; lia |]).
  - simpl in Hc. exists []. split; [| intros acc]; loop_end Hc;
      [reflexivity | simpl; f_equal; lia].
  - destruct Hc as (-> & Hp & n & Hn & Hc). simpl in Hf.
    destruct (IH fuel (ShmNode.next_offset n) Hc ltac:(lia)) as (calls & Hfe & Hsz).
    destruct (ShmEntry.is_alive now (ShmNode.entry n)) eqn:Ha.
    + exists ((ShmNode.data n, ShmEntry.data_size (ShmNode.entry n)) :: calls).
      split; [| intros acc]; loop_round Hp Hn; rewrite Ha.
      * simpl. rewrite Hfe. reflexivity.
      * rewrite Hsz. f_equal. simpl length. lia.
    + exists calls. split; [| intros acc]; loop_round Hp Hn; rewrite Ha.
      * exact Hfe.
      * apply Hsz.
Qed.

Lemma FastMap_chain_loops (now : Z) (h : gmap Z ShmKeyValue.t) (l : list Z) :
  forall (fuel : nat) (p : Z),
    chain ShmKeyValue.next_offset h p l -> (length l < fuel)%nat ->
    exists calls,
      FastMap.forEach_chain fuel now h always4 p = Ret (calls, false)
      /\ forall acc, FastMap.size_chain fuel now h p acc
                     = Ret (acc + Z.of_nat (length calls)).
Proof.
  induction l as [| o l IH]; intros fuel p Hc Hf;
    (destruct fuel as [| fuel]; [simpl in Hf; lia |]).
  - simpl in Hc. exists []. split; [| intros acc]; loop_end Hc;
      [reflexivity | simpl; f_equal; lia].
  - destruct Hc as (-> & Hp & n & Hn & Hc). simpl in Hf.
    destruct (IH fuel (ShmKeyValue.next_offset n) Hc ltac:(lia)) as (calls & Hfe & Hsz).
    destruct (ShmEntry.is_alive now (ShmKeyValue.entry n)) eqn:Ha.
    + exists (FastMap.call_of n :: calls).
      split; [| intros acc]; loop_round Hp Hn; rewrite Ha.
      * simpl. rewrite Hfe. reflexivity.
      * rewrite Hsz. f_equal. simpl length. lia.
    + exists calls. split; [| intros acc]; loop_round Hp Hn; rewrite Ha.
      * exact Hfe.
      * apply Hsz.
Qed.

Lemma FastSet_bucket_loops (fuel : nat) (now : Z) (s : FastSet.t) :
  buckets_chained ShmNode.next_offset fuel (FastSet.heap s) (FastSet.buckets s) ->
  forall (remaining : nat) (i : Z),
    0 <= i -> (Z.to_nat i + remaining = length (FastSet.buckets s))%nat ->
    exists calls,
      FastSet.forEach_buckets remaining fuel now s always2 i = Ret calls
      /\ forall acc, FastSet.size_buckets remaining fuel now s i acc
                     = Ret (acc + Z.of_nat (length calls)).
Proof.
  intros Hwf. induction remaining as [| remaining IH]; intros i Hi Hlen.
  - exists []. split; [reflexivity |]. intros acc. simpl. f_equal. lia.
  - destruct (lookup_lt_is_Some_2 (FastSet.buckets s) (Z.to_nat i)) as [b Hb]; [lia |].
    destruct (proj1 (Forall_lookup _ _) Hwf _ _ Hb) as (l & Hc & Hf).
    destruct (FastSet_chain_loops now (FastSet.heap s) l fuel _ Hc Hf)
      as (calls & Hfe & Hsz).
    destruct (IH (i + 1)) as (rest & Hfr & Hsr); [lia | lia |].
    exists (calls ++ rest). split; [| intros acc]; simpl;
      unfold FastSet.bucket_at; rewrite Hb, bind_Ret.
    + rewrite Hfe, bind_Ret. simpl. rewrite Hfr. reflexivity.
    + rewrite Hsz, bind_Ret, Hsr. f_equal. rewrite length_app. lia.
Qed.

Lemma FastMap_bucket_loops (fuel : nat) (now : Z) (m : FastMap.t) :
  buckets_chained ShmKeyValue.next_offset fuel (FastMap.heap m) (FastMap.buckets m) ->
  forall (remaining : nat) (i : Z),
    0 <= i -> (Z.to_nat i + remaining = length (FastMap.buckets m))%nat ->
    exists calls,
      FastMap.forEach_buckets remaining fuel now m always4 i = Ret calls
      /\ forall acc, FastMap.size_buckets remaining fuel now m i acc
                     = Ret (acc + Z.of_nat (length calls)).
Proof.
  intros Hwf. induction remaining as [| remaining IH]; intros i Hi Hlen.
  - exists []. split; [reflexivity |]. intros acc. simpl. f_equal. lia.
  - destruct (lookup_lt_is_Some_2 (FastMap.buckets m) (Z.to_nat i)) as [b Hb]; [lia |].
    destruct (proj1 (Forall_lookup _ _) Hwf _ _ Hb) as (l & Hc & Hf).
    destruct (FastMap_chain_loops now (FastMap.heap m) l fuel _ Hc Hf)
      as (calls & Hfe & Hsz).
    destruct (IH (i + 1)) as (rest & Hfr & Hsr); [lia | lia |].
    exists (calls ++ rest). split; [| intros acc]; simpl;
      unfold FastMap.bucket_at; rewrite Hb, bind_Ret.
    + rewrite Hfe, bind_Ret. simpl. rewrite Hfr. reflexivity.
    + rewrite Hsz, bind_Ret, Hsr. f_equal. rewrite length_app. lia.
Qed.

(** C6.  In every state of a container whose chains end (within the
    fuel given), [size()] returns, [forEach] with a callback that never
    stops returns, and the number returned by [size()] is the number of
    records [forEach] passed to the callback; it is not negative.  The
    size stored in the header plays no part: the statement holds whatever
    it is.  For the list, the queue and the stack the chain is the one
    from the head (front) offset; for the set and the map there is one
    chain per bucket of the array, whose length is [bucket_count]. *)
Theorem size_is_the_number_of_records_forEach_enumerates (fuel : nat) (now : Z) :
  (forall (l : FastList.t) (offs : list Z),
      chain ShmNode.next_offset (FastList.heap l)
            (ListHeader.head_offset (FastList.header l)) offs ->
      (length offs < fuel)%nat ->
      exists n calls,
        FastList.size fuel now l = Ret n
        /\ FastList.forEach fuel now l always3 = Ret calls
        /\ n = Z.of_nat (length calls) /\ 0 <= n)
  /\ (forall (s : FastSet.t),
        buckets_chained ShmNode.next_offset fuel (FastSet.heap s) (FastSet.buckets s) ->
        Z.to_nat (HashTableHeader.bucket_count (FastSet.header s))
        = length (FastSet.buckets s) ->
        exists n calls,
          FastSet.size fuel now s = Ret n
          /\ FastSet.forEach fuel now s always2 = Ret calls
          /\ n = Z.of_nat (length calls) /\ 0 <= n)
  /\ (forall (m : FastMap.t),
        buckets_chained ShmKeyValue.next_offset fuel (FastMap.heap m) (FastMap.buckets m) ->
        Z.to_nat (HashTableHeader.bucket_count (FastMap.header m))
        = length (FastMap.buckets m) ->
        exists n calls,
          FastMap.size fuel now m = Ret n
          /\ FastMap.forEach fuel now m always4 = Ret calls
          /\ n = Z.of_nat (length calls) /\ 0 <= n)
  /\ (forall (q : FastQueue.t) (offs : list Z),
        chain ShmNode.next_offset (FastQueue.heap q)
              (DequeHeader.front_offset (FastQueue.header q)) offs ->
        (length offs < fuel)%nat ->
        exists n calls q1 q2,
          FastQueue.size fuel now q = Ret (n, q1)
          /\ FastQueue.forEach fuel now q always2 = Ret (calls, q2)
          /\ n = Z.of_nat (length calls) /\ 0 <= n)
  /\ (forall (s : FastStack.t) (offs : list Z),
        chain ShmNode.next_offset (FastStack.heap s)
              (DequeHeader.front_offset (FastStack.header s)) offs ->
        (length offs < fuel)%nat ->
        exists n calls,
          FastStack.size fuel now s = Ret n
          /\ FastStack.forEach fuel now s always2 = Ret calls
          /\ n = Z.of_nat (length calls) /\ 0 <= n).
Proof.
  repeat split.
  - intros l offs Hc Hf.
    destruct (FastList_loops now _ offs fuel _ 0 Hc Hf) as (calls & Hfe & Hsz).
    exists (Z.of_nat (length calls)), calls. unfold FastList.size, FastList.forEach.
    rewrite Hfe, Hsz. repeat split; lia.
  - intros s Hwf Hlen.
    destruct (FastSet_bucket_loops fuel now s Hwf
                (Z.to_nat (HashTableHeader.bucket_count (FastSet.header s))) 0)
      as (calls & Hfe & Hsz); [lia | lia |].
    exists (Z.of_nat (length calls)), calls. unfold FastSet.size, FastSet.forEach.
    rewrite Hfe, Hsz. repeat split; lia.
  - intros m Hwf Hlen.
    destruct (FastMap_bucket_loops fuel now m Hwf
                (Z.to_nat (HashTableHeader.bucket_count (FastMap.header m))) 0)
      as (calls & Hfe & Hsz); [lia | lia |].
    exists (Z.of_nat (length calls)), calls. unfold FastMap.size, FastMap.forEach.
    rewrite Hfe, Hsz. repeat split; lia.
  - intros q offs Hc Hf.
    destruct (FastQueue_loops now _ offs fuel _ Hc Hf) as (calls & Hfe & Hsz).
    exists (Z.of_nat (length calls)), calls. unfold FastQueue.size, FastQueue.forEach.
    simpl. rewrite Hfe, Hsz. simpl. eexists _, _. repeat split; lia.
  - intros s offs Hc Hf.
    destruct (FastStack_loops now _ offs fuel _ Hc Hf) as (calls & Hfe & Hsz).
    exists (Z.of_nat (length calls)), calls. unfold FastStack.size, FastStack.forEach.
    rewrite Hfe, Hsz. repeat split; lia.
Qed.

(** Proves a [chain] or a [dseg] of a heap that is given in full. *)
Ltac concrete_shape :=
  repeat (cbn [chain dseg];
          first [ split
                | eexists
                | solve [vm_compute; reflexivity]
                | solve [vm_compute; discriminate]
                | solve [simpl; lia] ]).

(** Splits [buckets_chained] over a bucket array that is given in full. *)
Ltac concrete_buckets bs :=
  unfold buckets_chained;
  let v := eval vm_compute in bs in
  change bs with v;
  repeat (apply Forall_cons; split); try (apply Forall_nil; exact I).

Lemma size_is_the_number_of_records_forEach_enumerates_witness :
  (exists n calls,
      FastList.size 8 200 list_state = Ret n
      /\ FastList.forEach 8 200 list_state always3 = Ret calls
      /\ n = Z.of_nat (length calls) /\ 0 <= n)
  /\ (exists n calls,
        FastSet.size 8 200 set_state = Ret n
        /\ FastSet.forEach 8 200 set_state always2 = Ret calls
        /\ n = Z.of_nat (length calls) /\ 0 <= n)
  /\ (exists n calls,
        FastMap.size 8 200 map_state = Ret n
        /\ FastMap.forEach 8 200 map_state always4 = Ret calls
        /\ n = Z.of_nat (length calls) /\ 0 <= n)
  /\ (exists n calls q1 q2,
        FastQueue.size 8 200 queue_state = Ret (n, q1)
        /\ FastQueue.forEach 8 200 queue_state always2 = Ret (calls, q2)
        /\ n = Z.of_nat (length calls) /\ 0 <= n)
  /\ (exists n calls,
        FastStack.size 8 200 stack_state = Ret n
        /\ FastStack.forEach 8 200 stack_state always2 = Ret calls
        /\ n = Z.of_nat (length calls) /\ 0 <= n).
Proof.
  destruct (size_is_the_number_of_records_forEach_enumerates 8 200)
    as (Hlist & Hset & Hmap & Hqueue & Hstack).
  split; [| split; [| split; [| split]]].
  - apply (Hlist list_state [64; 128]); [concrete_shape | simpl; lia].
  - apply (Hset set_state); [| reflexivity].
    concrete_buckets (FastSet.buckets set_state);
      first [ solve [exists []; concrete_shape] | solve [exists [64]; concrete_shape] ].
  - apply (Hmap map_state); [| reflexivity].
    concrete_buckets (FastMap.buckets map_state);
      first [ solve [exists []; concrete_shape] | solve [exists [64]; concrete_shape] ].
  - apply (Hqueue queue_state [64; 128]); [concrete_shape | simpl; lia].
  - apply (Hstack stack_state [64]); [concrete_shape | simpl; lia].
Defined.

(** ** Chains in a heap *)

Section ChainFacts.

Context {A : Type}.
Variable next prev : A -> Z.

Local Abbreviation chain := (chain next).
Local Abbreviation dseg := (dseg next prev).
Local Abbreviation dlist := (dlist next prev).

(** A segment that ends on a null offset is a chain. *)
Lemma dseg_chain (h : gmap Z A) (l : list Z) :
  forall pp p q qn, dseg h pp p l q qn -> qn < 0 -> chain h p l.
Proof.
  induction l as [| o l IH]; intros pp p q qn Hd Hq; simpl in *.
  - destruct Hd as [-> _]. exact Hq.
  - destruct Hd as (-> & Hp & n & Hn & _ & Hd).
    split; [reflexivity |]. split; [exact Hp |].
    exists n. split; [exact Hn |]. eapply IH; eassumption.
Qed.

Lemma dlist_chain (h : gmap Z A) (first last : Z) (l : list Z) :
  dlist h first l last -> chain h first l.
Proof.
  intros [Hd _]. eapply dseg_chain; [exact Hd |]. unfold NULL_OFFSET. lia.
Qed.

(** A chain is determined by the offset it starts from. *)
Lemma chain_unique (h : gmap Z A) (l : list Z) :
  forall p l', chain h p l -> chain h p l' -> l = l'.
Proof.
  induction l as [| o l IH]; intros p l' H H'.
  - destruct l' as [| o' l']; [reflexivity |].
    simpl in H. destruct H' as (-> & Hp & _). lia.
  - destruct H as (-> & Hp & n & Hn & Hc).
    destruct l' as [| o' l']; [simpl in H'; lia |].
    destruct H' as (<- & _ & n' & Hn' & Hc').
    rewrite Hn in Hn'. injection Hn' as <-.
    f_equal. eapply IH; eassumption.
Qed.

(** The offsets of a segment are not negative. *)
Lemma dseg_offsets_nonneg (h : gmap Z A) (l : list Z) :
  forall pp p q qn, dseg h pp p l q qn -> Forall (fun o => 0 <= o) l.
Proof.
  induction l as [| o l IH]; intros pp p q qn Hd; [constructor |].
  destruct Hd as (_ & Hp & n & _ & _ & Hd).
  constructor; [exact Hp | eapply IH; exact Hd].
Qed.

(** The offsets of a segment are allocated. *)
Lemma dseg_allocated (h : gmap Z A) (l : list Z) :
  forall pp p q qn o, dseg h pp p l q qn -> o ∈ l -> is_Some (h !! o).
Proof.
  induction l as [| x l IH]; intros pp p q qn o Hd Ho.
  - apply elem_of_nil in Ho. contradiction.
  - destruct Hd as (_ & _ & n & Hn & _ & Hd).
    apply elem_of_cons in Ho as [-> | Ho]; [eauto |].
    eapply IH; eassumption.
Qed.

(** What a segment says depends on the records at its offsets only, and
    there on their two links only. *)
Lemma dseg_ext (h h' : gmap Z A) (l : list Z) :
  forall pp p q qn,
    (forall o n, o ∈ l -> h !! o = Some n ->
                 exists n', h' !! o = Some n' /\ next n' = next n /\ prev n' = prev n) ->
    dseg h pp p l q qn -> dseg h' pp p l q qn.
Proof.
  induction l as [| o l IH]; intros pp p q qn Hext Hd; [exact Hd |].
  destruct Hd as (-> & Hp & n & Hn & Hpp & Hd).
  destruct (Hext o n) as (n' & Hn' & Hnx & Hpv); [left | exact Hn |].
  split; [reflexivity |]. split; [exact Hp |].
  exists n'. split; [exact Hn' |]. split; [congruence |].
  rewrite Hnx. apply IH; [| exact Hd].
  intros o' n0 Ho'. apply Hext. right. exact Ho'.
Qed.

Lemma dseg_frame (h h' : gmap Z A) (l : list Z) (pp p q qn : Z) :
  (forall o, o ∈ l -> h' !! o = h !! o) ->
  dseg h pp p l q qn -> dseg h' pp p l q qn.
Proof.
  intros Hsame. apply dseg_ext. intros o n Ho Hn.
  exists n. rewrite (Hsame o Ho). auto.
Qed.

(** The last offset of a segment that is not empty is its [q]. *)
Lemma dseg_last (h : gmap Z A) (l : list Z) :
  forall pp p q qn, dseg h pp p l q qn -> l <> [] -> last l = Some q.
Proof.
  induction l as [| o l IH]; intros pp p q qn Hd Hne; [contradiction |].
  destruct Hd as (-> & Hp & n & Hn & Hpp & Hd).
  destruct l as [| o2 l].
  - destruct Hd as [_ ->]. reflexivity.
  - change (last (o :: o2 :: l)) with (last (o2 :: l)).
    eapply IH; [exact Hd | discriminate].
Qed.

Lemma dseg_last_elem (h : gmap Z A) (l : list Z) (pp p q qn : Z) :
  dseg h pp p l q qn -> l <> [] -> q ∈ l.
Proof.
  intros Hd Hne. pose proof (dseg_last h l pp p q qn Hd Hne) as Hl.
  apply last_Some in Hl as [l' ->]. set_solver.
Qed.

(** Splitting and joining segments. *)
Lemma dseg_app (h : gmap Z A) (l1 l2 : list Z) :
  forall pp p q qn,
    dseg h pp p (l1 ++ l2) q qn
    <-> exists j jn, dseg h pp p l1 j jn /\ dseg h j jn l2 q qn.
Proof.
  induction l1 as [| o l1 IH]; intros pp p q qn; simpl.
  - split.
    + intros Hd. exists pp, p. auto.
    + intros (j & jn & [-> ->] & Hd). exact Hd.
  - split.
    + intros (-> & Hp & n & Hn & Hpp & Hd).
      apply IH in Hd as (j & jn & H1 & H2).
      exists j, jn. split; [| exact H2].
      split; [reflexivity |]. split; [exact Hp |]. exists n. auto.
    + intros (j & jn & (-> & Hp & n & Hn & Hpp & H1) & H2).
      split; [reflexivity |]. split; [exact Hp |].
      exists n. split; [exact Hn |]. split; [exact Hpp |].
      apply IH. exists j, jn. auto.
Qed.

(** Storing another predecessor into the first record of a segment. *)
Lemma dseg_update_first (h : gmap Z A) (pp pp' o : Z) (l : list Z) (q qn : Z) (n' : A) :
  dseg h pp o (o :: l) q qn -> o ∉ l ->
  (forall n, h !! o = Some n -> next n' = next n) ->
  prev n' = pp' ->
  dseg (<[o := n']> h) pp' o (o :: l) q qn.
Proof.
  intros (_ & Hp & n & Hn & Hpp & Hd) Hnotin Hnx Hpv.
  split; [reflexivity |]. split; [exact Hp |].
  exists n'. split; [apply lookup_insert_eq |]. split; [exact Hpv |].
  rewrite (Hnx n Hn).
  eapply dseg_frame; [| exact Hd].
  intros o' Ho'. apply lookup_insert_ne. intros ->. contradiction.
Qed.

(** Storing another successor into the last record of a segment. *)
Lemma dseg_update_last (h : gmap Z A) (l : list Z) :
  forall pp p q qn qn' n',
    dseg h pp p l q qn -> l <> [] -> NoDup l ->
    (forall n, h !! q = Some n -> prev n' = prev n) ->
    next n' = qn' ->
    dseg (<[q := n']> h) pp p l q qn'.
Proof.
  induction l as [| o l IH]; intros pp p q qn qn' n' Hd Hne Hnd Hpv Hnx;
    [contradiction |].
  destruct Hd as (-> & Hp & n & Hn & Hpp & Hd).
  apply NoDup_cons in Hnd as [Hnotin Hnd].
  destruct l as [| o2 l].
  - destruct Hd as [_ <-].
    split; [reflexivity |]. split; [exact Hp |].
    exists n'. split; [apply lookup_insert_eq |].
    split; [rewrite (Hpv n Hn); exact Hpp |].
    split; [exact Hnx | reflexivity].
  - assert (Hq : q ∈ o2 :: l) by (eapply dseg_last_elem; [exact Hd | discriminate]).
    split; [reflexivity |]. split; [exact Hp |].
    exists n. split; [| split; [exact Hpp |]].
    + rewrite lookup_insert_ne; [exact Hn |]. intros ->. contradiction.
    + eapply IH; eauto.
Qed.

End ChainFacts.

(** ** The queue: skipping the expired front *)

Lemma same_content_refl (h : gmap Z ShmNode.t) (o : Z) : same_content h h o.
Proof. split; reflexivity. Qed.

Lemma same_content_trans (h1 h2 h3 : gmap Z ShmNode.t) (o : Z) :
  same_content h1 h2 o -> same_content h2 h3 o -> same_content h1 h3 o.
Proof. intros [E1 D1] [E2 D2]. split; congruence. Qed.

Lemma all_valid_content (h h' : gmap Z ShmNode.t) (l : list Z) :
  (forall o, o ∈ l -> same_content h h' o) -> all_valid h l -> all_valid h' l.
Proof.
  intros Hsame Hv. unfold all_valid in *. rewrite Forall_forall in *.
  intros o Ho. destruct (Hv o Ho) as (n & Hn & Hst).
  destruct (Hsame o Ho) as [He _]. rewrite Hn in He. simpl in He.
  destruct (h' !! o) as [n' |]; [| discriminate].
  injection He as He. exists n'. split; [reflexivity | congruence].
Qed.

(** Projections of a queue that was built by the setters. *)
Ltac qsimpl :=
  cbn [FastQueue.heap FastQueue.header FastQueue.stats FastQueue.trace
       FastQueue.set_heap FastQueue.set_header FastQueue.set_stats FastQueue.emit
       FastQueue.free_node FastQueue.lock FastQueue.unlock
       FastQueue.header_size_sub FastQueue.header_size_add FastQueue.stamp
       FastQueue.miss FastQueue.hit
       DequeHeader.base DequeHeader.front_offset DequeHeader.back_offset
       DequeHeader.set_base DequeHeader.set_front DequeHeader.set_back DequeHeader.size
       CollectionHeader.size CollectionHeader.modified_at
       CollectionHeader.size_store CollectionHeader.size_fetch_sub
       CollectionHeader.size_fetch_add CollectionHeader.set_modified_at
       CollectionStats.size CollectionStats.size_store CollectionStats.size_fetch_sub
       CollectionStats.size_fetch_add].

Lemma same_content_set_prev (h : gmap Z ShmNode.t) (o o' p : Z) (n : ShmNode.t) :
  h !! o = Some n -> same_content h (<[o := ShmNode.set_prev p n]> h) o'.
Proof.
  intros Hn. destruct (decide (o' = o)) as [-> | Hne]; split.
  - rewrite lookup_insert_eq, Hn. reflexivity.
  - rewrite lookup_insert_eq, Hn. reflexivity.
  - rewrite lookup_insert_ne by congruence. reflexivity.
  - rewrite lookup_insert_ne by congruence. reflexivity.
Qed.

(** Freeing the record at [o], whatever was stored into it before. *)
Lemma same_content_free (h : gmap Z ShmNode.t) (o o' : Z) (n : ShmNode.t) :
  o' <> o -> same_content h (delete o (<[o := n]> h)) o'.
Proof.
  intros Hne. split; rewrite lookup_delete_ne, lookup_insert_ne by congruence;
    reflexivity.
Qed.

(** The removal of the front node of a queue: what is left is the queue
    of the other nodes. *)
Lemma remove_front_spec (q : FastQueue.t) (o : Z) (l : list Z) :
  queue_shape q (o :: l) ->
  exists q1,
    FastQueue.remove_front q o = Ret q1
    /\ queue_shape q1 l
    /\ FastQueue.trace q1 = FastQueue.trace q ++ [FastQueue.Deallocate o]
    /\ FastQueue.heap q1 !! o = None
    /\ (forall o', o' <> o -> same_content (FastQueue.heap q) (FastQueue.heap q1) o')
    /\ DequeHeader.size (FastQueue.header q1)
       = wrap64 (DequeHeader.size (FastQueue.header q) - 1)
    /\ CollectionHeader.modified_at (DequeHeader.base (FastQueue.header q1))
       = CollectionHeader.modified_at (DequeHeader.base (FastQueue.header q))
    /\ FastQueue.stats q1 = FastQueue.stats q.
Proof.
  intros [[Hd Hnd] Hv].
  destruct Hd as (Hfront & Hp & n & Hn & Hpp & Hd).
  apply NoDup_cons in Hnd as [Hnotin Hnd].
  apply Forall_cons in Hv as [_ Hv].
  unfold FastQueue.remove_front. rewrite (deref_Some _ _ _ Hn), bind_Ret.
  destruct l as [| o2 l].
  - destruct Hd as [Hnx Hback].
    replace (0 <=? ShmNode.next_offset n) with false
      by (symmetry; apply Z.leb_gt; rewrite Hnx; reflexivity).
    rewrite bind_Ret. qsimpl.
    rewrite (update_Some _ _ _ _ Hn), bind_Ret.
    eexists. split; [reflexivity |]. unfold queue_shape, dlist. qsimpl.
    split; [| split; [| split; [| split; [| split; [| split]]]]]; try reflexivity.
    + split; [split |]; [| constructor | constructor].
      split; [exact Hnx | reflexivity].
    + apply lookup_delete_eq.
    + intros o' Hne. apply same_content_free. exact Hne.
  - pose proof Hd as (Hnx & Hp2 & n2 & Hn2 & Hpp2 & Hd2).
    assert (Hne : o <> o2) by (intros ->; apply Hnotin; left).
    replace (0 <=? ShmNode.next_offset n) with true
      by (symmetry; apply Z.leb_le; rewrite Hnx; exact Hp2).
    qsimpl. rewrite Hnx. rewrite (update_Some _ _ _ _ Hn2), !bind_Ret. qsimpl.
    erewrite update_Some by (rewrite lookup_insert_ne by congruence; exact Hn).
    rewrite bind_Ret. rewrite Hnx in Hd.
    eexists. split; [reflexivity |]. unfold queue_shape, dlist. qsimpl.
    assert (Hcontent : forall o', o' <> o ->
              same_content (FastQueue.heap q)
                (delete o (<[o := FastQueue.mark_deleted n]>
                             (<[o2 := ShmNode.set_prev NULL_OFFSET n2]>
                                (FastQueue.heap q)))) o').
    { intros o' Hne'. eapply same_content_trans.
      - apply (same_content_set_prev _ o2 o' NULL_OFFSET n2 Hn2).
      - apply same_content_free. exact Hne'. }
    split; [| split; [| split; [| split; [| split; [| split]]]]]; try reflexivity.
    + split; [split |].
      * eapply dseg_frame;
          [| eapply (dseg_update_first _ _ _ o NULL_OFFSET o2 l _ _
                       (ShmNode.set_prev NULL_OFFSET n2)); [exact Hd | | |]].
        -- intros o' Ho'. rewrite lookup_delete_ne, lookup_insert_ne; [reflexivity | |];
             intros ->; contradiction.
        -- apply NoDup_cons in Hnd as [H _]. exact H.
        -- intros n0 Hn0. rewrite Hn2 in Hn0. injection Hn0 as <-. reflexivity.
        -- reflexivity.
      * exact Hnd.
      * eapply all_valid_content; [| exact Hv].
        intros o' Ho'. apply Hcontent. intros ->. contradiction.
    + apply lookup_delete_eq.
    + exact Hcontent.
Qed.

Lemma same_content_lookup (h h' : gmap Z ShmNode.t) (o : Z) (n : ShmNode.t) :
  same_content h h' o -> h !! o = Some n ->
  exists n', h' !! o = Some n'
             /\ ShmNode.entry n' = ShmNode.entry n /\ ShmNode.data n' = ShmNode.data n.
Proof.
  intros [He Hdt] Hn. rewrite Hn in He, Hdt. simpl in He, Hdt.
  destruct (h' !! o) as [n' |]; [| discriminate].
  injection He as He. injection Hdt as Hdt. exists n'. auto.
Qed.

Lemma same_content_None (h h' : gmap Z ShmNode.t) (o : Z) :
  same_content h h' o -> h !! o = None -> h' !! o = None.
Proof.
  intros [He _] Hn. rewrite Hn in He. simpl in He.
  destruct (h' !! o); [discriminate | reflexivity].
Qed.

Lemma expired_at_content (now : Z) (h h' : gmap Z ShmNode.t) (o : Z) :
  same_content h h' o -> expired_at now h o -> expired_at now h' o.
Proof.
  intros Hs (n & Hn & He).
  destruct (same_content_lookup _ _ _ _ Hs Hn) as (n' & Hn' & Hent & _).
  exists n'. split; [exact Hn' | rewrite Hent; exact He].
Qed.

Lemma expired_in_turn_content (l : list Z) :
  forall (now : clock) (h h' : gmap Z ShmNode.t),
    (forall o, o ∈ l -> same_content h h' o) ->
    expired_in_turn now h l -> expired_in_turn now h' l.
Proof.
  induction l as [| o l IH]; intros now h h' Hsame Hexp; [exact I |].
  destruct Hexp as [Ho Hexp]. split.
  - apply (expired_at_content _ h); [apply Hsame; left | exact Ho].
  - apply (IH _ h); [| exact Hexp]. intros o' Ho'. apply Hsame. right. exact Ho'.
Qed.

(** On a clock that agrees with the instant [t] on the records of [l],
    the records expired at [t] are expired when their turn comes. *)
Lemma steady_expired_in_turn (t : Z) (h : gmap Z ShmNode.t) (l : list Z) :
  forall (now : clock) (m : nat),
    steady t now m h l -> (length l <= m)%nat ->
    Forall (expired_at t h) l -> expired_in_turn now h l.
Proof.
  induction l as [| o l IH]; intros now m Hst Hm Hexp; [exact I |].
  apply Forall_cons in Hexp as [(n & Hn & He) Hexp]. simpl in Hm. split.
  - exists n. split; [exact Hn |].
    rewrite (proj1 (Hst O o n ltac:(lia) ltac:(left) Hn)). exact He.
  - apply (IH (tick now) (m - 1)%nat); [| lia | exact Hexp].
    intros k o' n' Hk Ho' Hn'.
    apply (Hst (S k) o' n'); [lia | right; exact Ho' | exact Hn'].
Qed.

Lemma steady_app (t : Z) (now : clock) (m : nat) (h : gmap Z ShmNode.t)
      (l1 l2 : list Z) :
  steady t now m h (l1 ++ l2) -> steady t now m h l1 /\ steady t now m h l2.
Proof.
  intros Hst. split; intros k o n Hk Ho Hn; apply (Hst k o n); try assumption;
    apply elem_of_app; [left | right]; exact Ho.
Qed.

Lemma steady_le (t : Z) (now : clock) (m m' : nat) (h : gmap Z ShmNode.t) (l : list Z) :
  (m' <= m)%nat -> steady t now m h l -> steady t now m' h l.
Proof. intros Hle Hst k o n Hk. apply Hst. lia. Qed.

(** [skip_expired_front] removes the prefix [l1] of the chain, whose
    nodes are expired when it tests them, node by node and in order,
    and nothing else; it has read the clock once for each of them, and
    once more for the node it stops at, if there is one. *)
Lemma skip_expired_front_spec (l1 : list Z) :
  forall (now : clock) (fuel : nat) (q : FastQueue.t) (l2 : list Z),
    queue_shape q (l1 ++ l2) ->
    expired_in_turn now (FastQueue.heap q) l1 ->
    front_not_expired (now (length l1)) (FastQueue.heap q) l2 ->
    (length l1 < fuel)%nat ->
    exists q1,
      FastQueue.skip_expired_front fuel now q
      = Ret ((length l1 + length (take 1 l2))%nat, q1)
      /\ queue_shape q1 l2
      /\ FastQueue.trace q1 = FastQueue.trace q ++ map FastQueue.Deallocate l1
      /\ (forall o, o ∈ l1 -> FastQueue.heap q1 !! o = None)
      /\ (forall o, o ∉ l1 -> same_content (FastQueue.heap q) (FastQueue.heap q1) o)
      /\ DequeHeader.size (FastQueue.header q1)
         = Nat.iter (length l1) (fun s => wrap64 (s - 1))
                    (DequeHeader.size (FastQueue.header q))
      /\ CollectionHeader.modified_at (DequeHeader.base (FastQueue.header q1))
         = CollectionHeader.modified_at (DequeHeader.base (FastQueue.header q))
      /\ FastQueue.stats q1
         = Nat.iter (length l1) (CollectionStats.size_fetch_sub 1) (FastQueue.stats q).
Proof.
  induction l1 as [| o l1 IH]; intros now fuel q l2 Hshape Hexp Hfront Hfuel;
    (destruct fuel as [| fuel]; [simpl in Hfuel; lia |]).
  - exists q. simpl in Hshape. simpl.
    rewrite app_nil_r.
    split; [| split; [exact Hshape |
                      split; [reflexivity |
                              split; [| split; [| repeat split; reflexivity]]]]].
    + destruct Hshape as [[Hd _] _]. destruct l2 as [| o2 l2].
      * destruct Hd as [-> _]. reflexivity.
      * destruct Hd as (-> & Hp & n & Hn & _).
        replace (o2 <? 0) with false by (symmetry; apply Z.ltb_ge; exact Hp).
        rewrite (deref_Some _ _ _ Hn), bind_Ret.
        destruct Hfront as (n' & Hn' & Hne). rewrite Hn in Hn'. injection Hn' as <-.
        simpl in Hne. rewrite Hne. reflexivity.
    + intros o Ho. apply elem_of_nil in Ho. contradiction.
    + intros o _. apply same_content_refl.
  - change ((o :: l1) ++ l2) with (o :: (l1 ++ l2)) in Hshape.
    pose proof Hshape as [[Hd Hnd] _].
    destruct Hd as (Hfr & Hp & n & Hn & _).
    apply NoDup_cons in Hnd as [Hnotin Hnd].
    destruct Hexp as [(n' & Hn' & Hne) Hexp].
    rewrite Hn in Hn'. injection Hn' as <-.
    destruct (remove_front_spec q o (l1 ++ l2) Hshape)
      as (qa & Hrm & Hsa & Hta & Hfree & Hca & Hsz & Hmod & Hst).
    simpl FastQueue.skip_expired_front. rewrite Hfr.
    replace (o <? 0) with false by (symmetry; apply Z.ltb_ge; exact Hp).
    rewrite (deref_Some _ _ _ Hn), bind_Ret, Hne. simpl negb. cbv iota.
    rewrite Hrm, bind_Ret.
    set (qb := FastQueue.set_stats _ qa).
    assert (Hnot1 : o ∉ l1) by (intros H; apply Hnotin, elem_of_app; left; exact H).
    destruct (IH (tick now) fuel qb l2)
      as (q1 & Hrun & Hs1 & Ht1 & Hf1 & Hc1 & Hsz1 & Hmod1 & Hst1).
    + exact Hsa.
    + apply (expired_in_turn_content _ _ (FastQueue.heap q)); [| exact Hexp].
      intros o' Ho'. apply Hca. intros ->. contradiction.
    + destruct l2 as [| o2 l2]; [exact I |].
      destruct Hfront as (n2 & Hn2 & Hne2).
      assert (Hne' : o2 <> o)
        by (intros ->; apply Hnotin, elem_of_app; right; left).
      destruct (same_content_lookup _ _ _ _ (Hca o2 Hne') Hn2) as (n2' & Hn2' & Hent & _).
      exists n2'. split; [exact Hn2' | rewrite Hent; exact Hne2].
    + simpl in Hfuel. lia.
    + exists q1. split; [rewrite Hrun; reflexivity |]. split; [exact Hs1 |].
      split; [| split; [| split; [| split; [| split]]]].
      * rewrite Ht1. subst qb. qsimpl. rewrite Hta, <- app_assoc. reflexivity.
      * intros o' Ho'. apply elem_of_cons in Ho' as [-> | Ho']; [| apply Hf1, Ho'].
        apply (same_content_None (FastQueue.heap qb)); [apply Hc1, Hnot1 | exact Hfree].
      * intros o' Ho'. apply not_elem_of_cons in Ho' as [Hne' Ho'].
        eapply same_content_trans; [apply Hca, Hne' | apply Hc1, Ho'].
      * rewrite Hsz1. subst qb. qsimpl. rewrite Hsz.
        simpl length. rewrite Nat.iter_succ_r. reflexivity.
      * rewrite Hmod1. subst qb. qsimpl. exact Hmod.
      * rewrite Hst1. subst qb. qsimpl. rewrite Hst.
        simpl length. rewrite Nat.iter_succ_r. reflexivity.
Qed.

(** What [copy_from_node] reads depends on the entry and on the bytes of
    the node only. *)
Lemma copy_from_node_content (t : Z) (n n' : ShmNode.t) :
  ShmNode.entry n' = ShmNode.entry n -> ShmNode.data n' = ShmNode.data n ->
  SerializationUtil.copy_from_node t n' = SerializationUtil.copy_from_node t n.
Proof.
  intros He Hd. unfold SerializationUtil.copy_from_node. rewrite He, Hd. reflexivity.
Qed.

(** What [peek] and [poll] do on a queue whose chain is [l1 ++ l2], when
    the nodes of [l1] are expired as the loop tests them and the first
    node of [l2], if any, is not: the lock is taken, the nodes of [l1]
    are unlinked and freed in order, the stored size going down by one
    for each, and the answer is the one that the two later readings of
    the clock give on the first node of [l2]; [poll] unlinks and frees
    that node when the answer is [true]; the lock is released last. *)
Lemma front_runs (fuel : nat) (now : clock) (q : FastQueue.t) (l1 l2 : list Z)
      (out_data : bytes) :
  queue_shape q (l1 ++ l2) ->
  expired_in_turn now (FastQueue.heap q) l1 ->
  front_not_expired (now (length l1)) (FastQueue.heap q) l2 ->
  (length l1 < fuel)%nat ->
  let answer := front_reading now (S (length l1)) (FastQueue.heap q) l2 out_data in
  let taken := if answer.1 then take 1 l2 else [] in
  (exists q',
      FastQueue.peek fuel now q out_data = Ret (answer, q')
      /\ FastQueue.trace q'
         = FastQueue.trace q ++ [FastQueue.Lock] ++ map FastQueue.Deallocate l1
           ++ [FastQueue.Unlock]
      /\ (forall o, o ∈ l1 -> FastQueue.heap q' !! o = None)
      /\ DequeHeader.size (FastQueue.header q')
         = Nat.iter (length l1) (fun s => wrap64 (s - 1))
                    (DequeHeader.size (FastQueue.header q))
      /\ queue_shape q' l2
      /\ (forall o, o ∉ l1 -> same_content (FastQueue.heap q) (FastQueue.heap q') o))
  /\ (exists q',
        FastQueue.poll fuel now q out_data = Ret (answer, q')
        /\ FastQueue.trace q'
           = FastQueue.trace q ++ [FastQueue.Lock] ++ map FastQueue.Deallocate l1
             ++ map FastQueue.Deallocate taken ++ [FastQueue.Unlock]
        /\ (forall o, o ∈ l1 ++ taken -> FastQueue.heap q' !! o = None)
        /\ DequeHeader.size (FastQueue.header q')
           = Nat.iter (length (l1 ++ taken)) (fun s => wrap64 (s - 1))
                      (DequeHeader.size (FastQueue.header q))
        /\ queue_shape q' (drop (length taken) l2)
        /\ (forall o, o ∉ l1 ++ taken ->
                      same_content (FastQueue.heap q) (FastQueue.heap q') o)).
Proof.
  intros Hshape Hexp Hfront Hfuel.
  destruct (skip_expired_front_spec l1 now fuel (FastQueue.lock q) l2)
    as (q1 & Hrun & Hs1 & Ht1 & Hf1 & Hc1 & Hsz1 & Hmod1 & Hst1);
    [exact Hshape | exact Hexp | exact Hfront | exact Hfuel |].
  change (FastQueue.heap (FastQueue.lock q)) with (FastQueue.heap q) in Hc1.
  destruct l2 as [| o l2].
  - (* nothing is left *)
    simpl take in Hrun. simpl length in Hrun. rewrite Nat.add_0_r in Hrun.
    assert (Hfr : DequeHeader.front_offset (FastQueue.header q1) < 0)
      by (destruct Hs1 as [[[-> _] _] _]; reflexivity).
    simpl. split.
    + unfold FastQueue.peek. cbv zeta. rewrite Hrun, bind_Ret.
      replace (_ <? 0) with true by (symmetry; apply Z.ltb_lt; exact Hfr).
      eexists. split; [reflexivity |]. qsimpl.
      rewrite Ht1. qsimpl. rewrite <- !app_assoc.
      split; [reflexivity |]. split; [exact Hf1 |]. split; [exact Hsz1 |].
      split; [exact Hs1 | exact Hc1].
    + unfold FastQueue.poll. cbv zeta. rewrite Hrun, bind_Ret.
      replace (_ <? 0) with true by (symmetry; apply Z.ltb_lt; exact Hfr).
      eexists. split; [reflexivity |]. qsimpl.
      rewrite Ht1. qsimpl. rewrite <- !app_assoc, !app_nil_r.
      split; [reflexivity |]. split; [exact Hf1 |]. split; [exact Hsz1 |].
      split; [exact Hs1 | exact Hc1].
  - (* the loop has stopped at [o] *)
    simpl take in Hrun. simpl length in Hrun. rewrite Nat.add_1_r in Hrun.
    pose proof Hs1 as [[Hd _] Hv1].
    destruct Hd as (Hfr & Hp & n1 & Hn1 & _).
    assert (Hnot : o ∉ l1).
    { destruct Hshape as [[_ Hnd] _]. intros Hin.
      apply NoDup_app in Hnd as (_ & Hdis & _). apply (Hdis o Hin). left. }
    destruct Hfront as (n & Hn & Hne).
    destruct (same_content_lookup _ _ _ _ (Hc1 o Hnot) Hn) as (n1' & Hn1' & Hent & Hdat).
    rewrite Hn1 in Hn1'. injection Hn1' as <-.
    unfold front_reading. rewrite Hn. rewrite <- Hent.
    rewrite <- (copy_from_node_content (now (S (S (length l1)))) n n1 Hent Hdat).
    split.
    + unfold FastQueue.peek. cbv zeta. rewrite Hrun, bind_Ret, Hfr.
      replace (o <? 0) with false by (symmetry; apply Z.ltb_ge; exact Hp).
      rewrite (deref_Some _ _ _ Hn1), bind_Ret.
      destruct (ShmEntry.is_alive (now (S (length l1))) (ShmNode.entry n1)); simpl negb;
        cbv iota;
        (eexists; split; [reflexivity |]; qsimpl;
         rewrite Ht1; qsimpl; rewrite <- !app_assoc;
         split; [reflexivity |]; split; [exact Hf1 |]; split; [exact Hsz1 |];
         split; [exact Hs1 | exact Hc1]).
    + unfold FastQueue.poll. cbv zeta. rewrite Hrun, bind_Ret, Hfr.
      replace (o <? 0) with false by (symmetry; apply Z.ltb_ge; exact Hp).
      rewrite (deref_Some _ _ _ Hn1), bind_Ret.
      destruct (ShmEntry.is_alive (now (S (length l1))) (ShmNode.entry n1)); simpl negb;
        cbv iota.
      * destruct (remove_front_spec q1 o l2 Hs1)
          as (q2 & Hrm & Hs2 & Ht2 & Hfree2 & Hc2 & Hsz2 & Hmod2 & Hst2).
        rewrite Hrm, bind_Ret.
        eexists. split; [reflexivity |]. qsimpl.
        rewrite Ht2, Ht1. qsimpl. rewrite <- !app_assoc. simpl take. simpl drop.
        split; [reflexivity |].
        split; [| split; [| split; [exact Hs2 |]]].
        -- intros o' Ho'. apply elem_of_app in Ho' as [Ho' | Ho'].
           ++ apply (same_content_None (FastQueue.heap q1)); [| apply Hf1, Ho'].
              apply Hc2. intros ->. contradiction.
           ++ apply list_elem_of_singleton in Ho' as ->. exact Hfree2.
        -- unfold DequeHeader.size in *. rewrite Hsz2, Hsz1. rewrite length_app.
           simpl length. rewrite Nat.add_1_r. reflexivity.
        -- intros o' Ho'. apply not_elem_of_app in Ho' as [Ho1 Ho2].
           eapply same_content_trans; [apply Hc1; exact Ho1 |].
           apply Hc2. intros ->. apply Ho2. left.
      * eexists. split; [reflexivity |]. qsimpl.
        rewrite Ht1. qsimpl. rewrite <- !app_assoc, !app_nil_r. simpl drop.
        split; [reflexivity |]. split; [exact Hf1 |]. split; [exact Hsz1 |].
        split; [exact Hs1 | exact Hc1].
Qed.

(** The answer on a first node that is alive at the two readings. *)
Lemma front_reading_alive (now : clock) (k : nat) (h : gmap Z ShmNode.t) (l : list Z)
      (out_data : bytes) :
  all_valid h l ->
  front_not_expired (now k) h l ->
  front_not_expired (now (S k)) h l ->
  front_reading now k h l out_data = front_answer h l out_data.
Proof.
  intros Hv H1 H2. destruct l as [| o l]; [reflexivity |].
  apply Forall_cons in Hv as [(n & Hn & Hvalid) _].
  destruct H1 as (n1 & Hn1 & He1). destruct H2 as (n2 & Hn2 & He2).
  rewrite Hn in Hn1, Hn2. injection Hn1 as <-. injection Hn2 as <-.
  unfold front_reading, front_answer, SerializationUtil.copy_from_node. rewrite Hn.
  rewrite !(valid_alive_or_expired _ _ Hvalid), He1, He2. reflexivity.
Qed.


(** Proves the shape of a container that is given in full. *)
Ltac concrete_notin :=
  let Hin := fresh "Hin" in
  intros Hin;
  repeat (apply elem_of_cons in Hin as [Hin | Hin]; [discriminate Hin |]);
  apply elem_of_nil in Hin; exact Hin.

Ltac concrete_nodup :=
  repeat (apply NoDup_cons_2; [concrete_notin |]); apply NoDup_nil_2.

Ltac concrete_forall :=
  repeat (apply Forall_cons; split); try (apply Forall_nil; exact I);
  try (eexists; split; vm_compute; reflexivity).

Lemma queue_state_shape : queue_shape queue_state [64; 128].
Proof.
  split; [split |].
  - concrete_shape.
  - concrete_nodup.
  - unfold all_valid. concrete_forall.
Qed.

Lemma queue_shape_unique (q : FastQueue.t) (l l' : list Z) :
  queue_shape q l -> queue_shape q l' -> l = l'.
Proof.
  intros [H _] [H' _].
  eapply chain_unique; eapply dlist_chain; eassumption.
Qed.


Lemma queue_t1_t2_shape : queue_shape queue_t1_t2 [64; 128].
Proof.
  split; [split |].
  - concrete_shape.
  - concrete_nodup.
  - unfold all_valid. concrete_forall.
Qed.


(** ** The map: probing a bucket chain *)

Lemma last_passed_snoc (prev : option Z) (o : Z) (l : list Z) :
  from_option Some prev (last_passed (o :: l))
  = from_option Some (Some o) (last_passed l).
Proof.
  unfold last_passed. destruct l as [| o2 l]; [reflexivity |].
  change (last (o :: o2 :: l)) with (last (o2 :: l)).
  destruct (last (o2 :: l)) eqn:Hl; [reflexivity |].
  apply last_None in Hl. discriminate.
Qed.

(** [find_in_bucket] on a chain in which no record has the key. *)
Lemma FastMap_find_loop_absent (h : gmap Z ShmKeyValue.t) (key : bytes) (l : list Z) :
  forall (fuel : nat) (p : Z) (prev : option Z),
    chain ShmKeyValue.next_offset h p l ->
    key_absent h key l ->
    (length l < fuel)%nat ->
    FastMap.find_loop fuel h key (compute_hash key) p prev
    = Ret (None, from_option Some prev (last_passed l)).
Proof.
  induction l as [| o l IH]; intros fuel p prev Hc Habs Hf;
    (destruct fuel as [| fuel]; [simpl in Hf; lia |]).
  - simpl in Hc. loop_end Hc. reflexivity.
  - destruct Hc as (-> & Hp & n & Hn & Hc).
    apply Forall_cons in Habs as [Hno Habs].
    loop_round Hp Hn. rewrite (Hno n Hn).
    rewrite (IH fuel _ (Some o) Hc Habs) by (simpl in Hf; lia).
    rewrite last_passed_snoc. reflexivity.
Qed.

(** [find_in_bucket] on a chain whose first record with the key is [e]. *)
Lemma FastMap_find_loop_found (h : gmap Z ShmKeyValue.t) (key : bytes)
      (l1 : list Z) (e : Z) (l2 : list Z) (rec : ShmKeyValue.t) :
  forall (fuel : nat) (p : Z) (prev : option Z),
    chain ShmKeyValue.next_offset h p (l1 ++ e :: l2) ->
    key_absent h key l1 ->
    h !! e = Some rec ->
    FastMap.key_matches rec key (compute_hash key) = true ->
    (length l1 < fuel)%nat ->
    FastMap.find_loop fuel h key (compute_hash key) p prev
    = Ret (Some e, from_option Some prev (last_passed l1)).
Proof.
  induction l1 as [| o l1 IH]; intros fuel p prev Hc Habs He Hm Hf;
    (destruct fuel as [| fuel]; [simpl in Hf; lia |]).
  - destruct Hc as (-> & Hp & n & Hn & Hc).
    rewrite He in Hn. injection Hn as <-.
    loop_round Hp He. rewrite Hm. reflexivity.
  - destruct Hc as (-> & Hp & n & Hn & Hc).
    apply Forall_cons in Habs as [Hno Habs].
    loop_round Hp Hn. rewrite (Hno n Hn).
    rewrite (IH fuel _ (Some o) Hc Habs He Hm) by (simpl in Hf; lia).
    rewrite last_passed_snoc. reflexivity.
Qed.

(** A chain either holds no record with the key or has a first one. *)
Lemma first_match_split (h : gmap Z ShmKeyValue.t) (key : bytes) (l : list Z) :
  forall p,
    chain ShmKeyValue.next_offset h p l ->
    key_absent h key l
    \/ exists l1 e l2 rec,
        l = l1 ++ e :: l2 /\ key_absent h key l1 /\ h !! e = Some rec
        /\ FastMap.key_matches rec key (compute_hash key) = true.
Proof.
  induction l as [| o l IH]; intros p Hc.
  - left. constructor.
  - destruct Hc as (-> & Hp & n & Hn & Hc).
    destruct (FastMap.key_matches n key (compute_hash key)) eqn:Hm.
    + right. exists [], o, l, n. repeat split; [constructor | exact Hn | exact Hm].
    + destruct (IH _ Hc) as [Habs | (l1 & e & l2 & rec & -> & Habs & He & Hme)].
      * left. constructor; [| exact Habs].
        intros kv Hkv. rewrite Hn in Hkv. injection Hkv as <-. exact Hm.
      * right. exists (o :: l1), e, l2, rec. repeat split; try assumption.
        constructor; [| exact Habs].
        intros kv Hkv. rewrite Hn in Hkv. injection Hkv as <-. exact Hm.
Qed.

(** [get] walks past the records that do not have the key and returns the
    first record that has it, when that record is alive. *)
Lemma FastMap_get_loop_found (now : Z) (h : gmap Z ShmKeyValue.t) (key : bytes)
      (l1 : list Z) (e : Z) (l2 : list Z) (rec : ShmKeyValue.t) :
  forall (fuel : nat) (p : Z),
    chain ShmKeyValue.next_offset h p (l1 ++ e :: l2) ->
    key_absent h key l1 ->
    h !! e = Some rec ->
    FastMap.key_matches rec key (compute_hash key) = true ->
    ShmEntry.is_alive now (ShmKeyValue.entry rec) = true ->
    (length l1 < fuel)%nat ->
    FastMap.get_loop fuel now h key (compute_hash key) p = Ret (Some rec).
Proof.
  induction l1 as [| o l1 IH]; intros fuel p Hc Habs He Hm Ha Hf;
    (destruct fuel as [| fuel]; [simpl in Hf; lia |]).
  - destruct Hc as (-> & Hp & n & Hn & Hc).
    rewrite He in Hn. injection Hn as <-.
    loop_round Hp He. rewrite Hm, Ha. reflexivity.
  - destruct Hc as (-> & Hp & n & Hn & Hc).
    apply Forall_cons in Habs as [Hno Habs].
    loop_round Hp Hn. rewrite (Hno n Hn), andb_false_r.
    apply (IH fuel _ Hc Habs He Hm Ha). simpl in Hf. lia.
Qed.

(** [get] on a chain in which every record with the key is not alive. *)
Lemma FastMap_get_loop_none (now : Z) (h : gmap Z ShmKeyValue.t) (key : bytes)
      (l : list Z) :
  forall (fuel : nat) (p : Z),
    chain ShmKeyValue.next_offset h p l ->
    Forall (fun o => forall kv, h !! o = Some kv ->
                     ShmEntry.is_alive now (ShmKeyValue.entry kv)
                     && FastMap.key_matches kv key (compute_hash key) = false) l ->
    (length l < fuel)%nat ->
    FastMap.get_loop fuel now h key (compute_hash key) p = Ret None.
Proof.
  induction l as [| o l IH]; intros fuel p Hc Hno Hf;
    (destruct fuel as [| fuel]; [simpl in Hf; lia |]).
  - simpl in Hc. loop_end Hc. reflexivity.
  - destruct Hc as (-> & Hp & n & Hn & Hc).
    apply Forall_cons in Hno as [Hno1 Hno].
    loop_round Hp Hn. rewrite (Hno1 n Hn).
    apply (IH fuel _ Hc Hno). simpl in Hf. lia.
Qed.

(** ** The map: the records written by [put] *)

Lemma bytes_eqb_eq (a b : bytes) : bytes_eqb a b = true <-> a = b.
Proof.
  revert b. induction a as [| x a IH]; intros [| y b]; simpl;
    try (split; [discriminate | discriminate]); [split; reflexivity |].
  rewrite andb_true_iff, IH. split.
  - intros [Hxy ->]. apply byte_dec_bl in Hxy as ->. reflexivity.
  - intros [= -> ->]. split; [apply byte_dec_lb |]; reflexivity.
Qed.

Lemma size_of_to_nat (bs : bytes) : Z.to_nat (size_of bs) = length bs.
Proof. unfold size_of. apply Nat2Z.id. Qed.

Lemma size_of_nonneg (bs : bytes) : 0 <= size_of bs.
Proof. unfold size_of. lia. Qed.

(** [memcmp(data, key, key_size) == 0] says that the record starts with
    the bytes of the key. *)
Lemma memcmp_eq_prefix (data key : bytes) :
  memcmp_eq data key (size_of key) = true <-> take (length key) data = key.
Proof.
  unfold memcmp_eq. rewrite size_of_to_nat, bytes_eqb_eq.
  rewrite firstn_all. reflexivity.
Qed.

Lemma key_matches_iff (kv : ShmKeyValue.t) (key : bytes) :
  FastMap.key_matches kv key (compute_hash key) = true
  <-> ShmEntry.hash_code (ShmKeyValue.entry kv) = compute_hash key
      /\ ShmKeyValue.key_size kv = size_of key
      /\ take (length key) (ShmKeyValue.data kv) = key.
Proof.
  unfold FastMap.key_matches.
  rewrite !andb_true_iff, !Z.eqb_eq, memcmp_eq_prefix. tauto.
Qed.

(** The record [copy_to_kv] writes has the key, holds the value, is
    Valid, and expires as [set_ttl] says. *)
Lemma copy_to_kv_written (now : Z) (kv : ShmKeyValue.t) (key value : bytes) (ttl : Z) :
  size_of key < 2 ^ 32 -> size_of value < 2 ^ 32 ->
  let r := SerializationUtil.copy_to_kv now kv key value ttl in
  FastMap.key_matches r key (compute_hash key) = true
  /\ FastMap.read_value r = value
  /\ ShmEntry.state (ShmKeyValue.entry r) = ShmEntry.STATE_VALID
  /\ ShmEntry.expires_at (ShmKeyValue.entry r)
     = (if ttl <? 0 then 0 else wrap64 (now + wrap64 (ttl * 1000000000)))
  /\ ShmKeyValue.next_offset r = ShmKeyValue.next_offset kv
  /\ ShmKeyValue.prev_offset r = ShmKeyValue.prev_offset kv.
Proof.
  intros Hk Hv r. subst r.
  pose proof (size_of_nonneg key). pose proof (size_of_nonneg value).
  split; [| split; [| repeat split]].
  - apply key_matches_iff. simpl.
    rewrite wrap32_small by lia. repeat split.
    apply take_app_length.
  - unfold FastMap.read_value, ShmKeyValue.value_data. simpl.
    rewrite !wrap32_small by lia. rewrite !size_of_to_nat.
    rewrite drop_app_length. apply firstn_all.
Qed.

Lemma update_in_place_written (now : Z) (kv : ShmKeyValue.t) (key value : bytes) (ttl : Z) :
  FastMap.key_matches kv key (compute_hash key) = true ->
  ShmKeyValue.value_size kv = size_of value ->
  let r := FastMap.update_in_place now key value ttl kv in
  FastMap.key_matches r key (compute_hash key) = true
  /\ FastMap.read_value r = value
  /\ ShmEntry.state (ShmKeyValue.entry r) = ShmEntry.STATE_VALID
  /\ ShmEntry.expires_at (ShmKeyValue.entry r)
     = (if ttl <? 0 then 0 else wrap64 (now + wrap64 (ttl * 1000000000)))
  /\ ShmKeyValue.next_offset r = ShmKeyValue.next_offset kv
  /\ ShmKeyValue.prev_offset r = ShmKeyValue.prev_offset kv.
Proof.
  intros Hm Hvs r. subst r.
  apply key_matches_iff in Hm as (Hh & Hks & Hpre).
  assert (Hlen : (length key <= length (ShmKeyValue.data kv))%nat).
  { rewrite <- Hpre at 1. rewrite length_take. lia. }
  assert (Hdata : memcpy_at (ShmKeyValue.data kv) (size_of key) value
                  = key ++ value
                    ++ drop (length key + length value) (ShmKeyValue.data kv)).
  { unfold memcpy_at. rewrite size_of_to_nat, Hpre. reflexivity. }
  split; [| split; [| repeat split]].
  - apply key_matches_iff. simpl. rewrite Hdata.
    repeat split; try assumption. apply take_app_length.
  - unfold FastMap.read_value, ShmKeyValue.value_data. simpl.
    rewrite Hdata, Hks, Hvs, !size_of_to_nat.
    rewrite drop_app_length. apply take_app_length.
Qed.

(** ** The map: [put], [get] and [remove] on a bucket chain *)

(** Projections of a map that was built by the setters. *)
Ltac msimpl :=
  cbn [FastMap.heap FastMap.header FastMap.buckets FastMap.stats
       FastMap.set_heap FastMap.set_header FastMap.set_buckets FastMap.set_stats
       FastMap.store_bucket FastMap.touch FastMap.stamp FastMap.free_kv
       HashTableHeader.base HashTableHeader.bucket_count HashTableHeader.set_base
       HashTableHeader.size
       ShmBucket.head_offset ShmBucket.set_head ShmBucket.size_store
       ShmBucket.size_fetch_add ShmBucket.size_fetch_sub
       CollectionHeader.size CollectionHeader.modified_at
       CollectionHeader.size_store CollectionHeader.size_fetch_sub
       CollectionHeader.size_fetch_add CollectionHeader.set_modified_at].

Lemma bucket_at_Some (m : FastMap.t) (idx : Z) (b : ShmBucket.t) :
  FastMap.buckets m !! Z.to_nat idx = Some b -> FastMap.bucket_at m idx = Ret b.
Proof. intros H. unfold FastMap.bucket_at. rewrite H. reflexivity. Qed.

Lemma get_bucket_same_header (m m' : FastMap.t) (hash : Z) :
  HashTableHeader.bucket_count (FastMap.header m')
  = HashTableHeader.bucket_count (FastMap.header m) ->
  FastMap.get_bucket m' hash = FastMap.get_bucket m hash.
Proof. intros H. unfold FastMap.get_bucket. rewrite H. reflexivity. Qed.

Lemma new_entry_written (now : Z) (key value : bytes) (ttl prev next : Z) :
  size_of key < 2 ^ 32 -> size_of value < 2 ^ 32 ->
  let r := new_entry now key value ttl prev next in
  FastMap.key_matches r key (compute_hash key) = true
  /\ FastMap.read_value r = value
  /\ ShmEntry.state (ShmKeyValue.entry r) = ShmEntry.STATE_VALID
  /\ ShmEntry.expires_at (ShmKeyValue.entry r)
     = (if ttl <? 0 then 0 else wrap64 (now + wrap64 (ttl * 1000000000)))
  /\ ShmKeyValue.next_offset r = next
  /\ ShmKeyValue.prev_offset r = prev.
Proof.
  intros Hk Hv r. subst r.
  destruct (copy_to_kv_written now ShmKeyValue.init key value ttl Hk Hv)
    as (Hm & Hr & Hs & He & _ & _).
  repeat split; assumption.
Qed.

(** ** The map: what the records hold *)

Lemma kv_same_content_trans (h1 h2 h3 : gmap Z ShmKeyValue.t) (o : Z) :
  kv_same_content h1 h2 o -> kv_same_content h2 h3 o -> kv_same_content h1 h3 o.
Proof. unfold kv_same_content. congruence. Qed.

Lemma kv_same_content_insert_ne (h : gmap Z ShmKeyValue.t) (o o' : Z) (kv : ShmKeyValue.t) :
  o' <> o -> kv_same_content h (<[o := kv]> h) o'.
Proof. intros Hne. unfold kv_same_content. rewrite lookup_insert_ne by congruence. reflexivity. Qed.

Lemma kv_same_content_delete_ne (h : gmap Z ShmKeyValue.t) (o o' : Z) :
  o' <> o -> kv_same_content h (delete o h) o'.
Proof. intros Hne. unfold kv_same_content. rewrite lookup_delete_ne by congruence. reflexivity. Qed.

(** Storing a link keeps the content. *)
Lemma kv_same_content_relink (h : gmap Z ShmKeyValue.t) (o o' : Z) (kv kv' : ShmKeyValue.t) :
  h !! o = Some kv -> kv_content kv' = kv_content kv ->
  kv_same_content h (<[o := kv']> h) o'.
Proof.
  intros Hkv Hc. unfold kv_same_content.
  destruct (decide (o' = o)) as [-> | Hne].
  - rewrite lookup_insert_eq, Hkv. simpl. rewrite Hc. reflexivity.
  - rewrite lookup_insert_ne by congruence. reflexivity.
Qed.

Lemma kv_same_content_lookup (h h' : gmap Z ShmKeyValue.t) (o : Z) (kv' : ShmKeyValue.t) :
  kv_same_content h h' o -> h' !! o = Some kv' ->
  exists kv, h !! o = Some kv /\ kv_content kv' = kv_content kv.
Proof.
  unfold kv_same_content. intros Hs Hkv'. rewrite Hkv' in Hs. simpl in Hs.
  destruct (h !! o) as [kv |]; [| discriminate].
  exists kv. split; [reflexivity |].
  injection Hs as H1 H2 H3 H4. unfold kv_content. congruence.
Qed.

(** The cells an operation does not write: those outside the chain it
    works on that were allocated before it. *)
Ltac solve_elem :=
  first [ assumption
        | apply elem_of_cons; left; reflexivity
        | apply elem_of_cons; right; solve_elem
        | apply elem_of_app; left; solve_elem
        | apply elem_of_app; right; solve_elem ].

Ltac frame_notin Ho Hal :=
  let Heq := fresh "Heq" in
  intros Heq;
  first [ apply Ho; rewrite <- Heq; solve_elem
        | rewrite <- Heq in Hal; destruct Hal as [? Hal]; congruence ].

Ltac frame_tac :=
  unfold frame_outside; msimpl; unfold FastMap.free_kv;
  split; [rewrite ?length_insert; reflexivity |];
  split;
    [ let j := fresh "j" in
      let Hj := fresh "Hj" in
      intros j Hj; rewrite ?list_lookup_insert_ne by congruence; reflexivity
    | let o := fresh "o" in
      let Ho := fresh "Ho" in
      let Hal := fresh "Hal" in
      intros o Ho Hal;
      repeat first [ rewrite lookup_delete_ne by frame_notin Ho Hal
                   | rewrite lookup_insert_ne by frame_notin Ho Hal ];
      reflexivity ].

(** "Add new entry": the new record is linked in front of the chain. *)
Lemma add_new_entry_spec (alloc : Z -> option Z) (now : Z) (m : FastMap.t) (idx : Z)
      (key value : bytes) (ttl : Z) (l : list Z) (bucket : ShmBucket.t) (last off : Z) :
  FastMap.buckets m !! Z.to_nat idx = Some bucket ->
  dlist ShmKeyValue.next_offset ShmKeyValue.prev_offset (FastMap.heap m)
        (ShmBucket.head_offset bucket) l last ->
  alloc (ShmKeyValue.total_size (size_of key) (size_of value)) = Some off ->
  0 <= off -> FastMap.heap m !! off = None ->
  exists m1,
    FastMap.add_new_entry alloc now m idx key value ttl = Ret m1
    /\ frame_outside m m1 idx l
    /\ (forall o, o <> off -> kv_same_content (FastMap.heap m) (FastMap.heap m1) o)
    /\ HashTableHeader.bucket_count (FastMap.header m1)
       = HashTableHeader.bucket_count (FastMap.header m)
    /\ bucket_shape m1 idx (off :: l)
    /\ FastMap.heap m1 !! off
       = Some (new_entry now key value ttl NULL_OFFSET (ShmBucket.head_offset bucket))
    /\ (forall o, o <> off -> FastMap.heap m !! o = None -> FastMap.heap m1 !! o = None).
Proof.
  intros Hb [Hd Hnd] Halloc Hoff Hfresh.
  assert (Hnotin : off ∉ l).
  { intros Hin. destruct (dseg_allocated _ _ _ _ _ _ _ _ off Hd Hin) as [x Hx].
    congruence. }
  assert (Hidx : (Z.to_nat idx < length (FastMap.buckets m))%nat)
    by (eapply lookup_lt_Some; exact Hb).
  unfold FastMap.add_new_entry.
  rewrite (bucket_at_Some _ _ _ Hb), bind_Ret.
  unfold FastMap.allocate_kv, manager_allocate. rewrite Halloc, !bind_Ret.
  do 3 run_update. rewrite !insert_insert_eq.
  fold (new_entry now key value ttl NULL_OFFSET (ShmBucket.head_offset bucket)).
  remember (ShmBucket.head_offset bucket) as hd eqn:Hhd.
  set (rec := new_entry now key value ttl NULL_OFFSET hd).
  destruct l as [| o l].
  - destruct Hd as [Hhead Hlast].
    replace (0 <=? hd) with false
      by (symmetry; apply Z.leb_gt; rewrite Hhead; reflexivity).
    rewrite bind_Ret.
    eexists. split; [reflexivity |].
    split; [frame_tac |]. msimpl.
    split; [intros o' Hno; apply kv_same_content_insert_ne; exact Hno |].
    split; [reflexivity |].
    split; [| split; [apply lookup_insert_eq |
                      intros o Hno Hnone; rewrite lookup_insert_ne by congruence;
                      exact Hnone]].
    eexists _, off. msimpl. split; [apply list_lookup_insert_eq; exact Hidx |].
    split; [| apply NoDup_cons_2; [exact Hnotin | apply NoDup_nil_2]].
    split; [reflexivity |]. split; [exact Hoff |].
    exists rec. split; [apply lookup_insert_eq |].
    split; [reflexivity |]. split; [exact Hhead | reflexivity].
  - pose proof Hd as (Hhead & Hp & n & Hn & Hpp & Hd').
    subst o.
    assert (Hne : hd <> off) by (intros ->; apply Hnotin; left).
    replace (0 <=? hd) with true by (symmetry; apply Z.leb_le; exact Hp).
    erewrite update_Some by (rewrite lookup_insert_ne by congruence; exact Hn).
    rewrite bind_Ret.
    eexists. split; [reflexivity |].
    split; [frame_tac |]. msimpl.
    split; [intros o' Hno; eapply kv_same_content_trans;
            [apply kv_same_content_insert_ne; exact Hno |
             apply (kv_same_content_relink _ _ _ n);
             [rewrite lookup_insert_ne by congruence; exact Hn | reflexivity]] |].
    split; [reflexivity |].
    split; [| split; [rewrite lookup_insert_ne by congruence; apply lookup_insert_eq |
                      intros o Hno Hnone;
                      rewrite !lookup_insert_ne by congruence; exact Hnone]].
    eexists _, last. msimpl. split; [apply list_lookup_insert_eq; exact Hidx |].
    split; [| apply NoDup_cons_2; [exact Hnotin | exact Hnd]].
    split; [reflexivity |]. split; [exact Hoff |].
    exists rec. split; [rewrite lookup_insert_ne by congruence; apply lookup_insert_eq |].
    split; [reflexivity |].
    change (ShmKeyValue.next_offset rec) with hd.
    apply NoDup_cons in Hnd as [Hnotin' _].
    apply (dseg_update_first _ _ _ NULL_OFFSET off hd l last NULL_OFFSET
             (ShmKeyValue.set_prev off n)).
    + eapply dseg_frame; [| exact Hd].
      intros o' Ho'. apply lookup_insert_ne. intros ->. contradiction.
    + exact Hnotin'.
    + intros n0 Hn0. rewrite lookup_insert_ne in Hn0 by congruence.
      rewrite Hn in Hn0. injection Hn0 as <-. reflexivity.
    + reflexivity.
Qed.

Section ChainSurgery.

Context {A : Type}.
Variable next prev : A -> Z.

Local Abbreviation dseg := (dseg next prev).

(** The segment before a record that is replaced or removed: in the new
    heap its last record points to [e'] instead; with no record in the
    segment, the segment starts at [e']. *)
Lemma dseg_retarget_last (h h' : gmap Z A) (pp p : Z) (l1 : list Z) (j e e' : Z) :
  dseg h pp p l1 j e -> NoDup l1 ->
  (forall o, o ∈ l1 -> o <> j -> h' !! o = h !! o) ->
  (l1 <> [] -> exists nj nj', h !! j = Some nj /\ h' !! j = Some nj'
                              /\ prev nj' = prev nj /\ next nj' = e') ->
  dseg h' pp (match l1 with [] => e' | _ => p end) l1 j e'.
Proof.
  intros Hd Hnd Hsame Hlast. destruct l1 as [| o l1].
  - destruct Hd as [_ ->]. split; reflexivity.
  - destruct Hlast as (nj & nj' & Hj & Hj' & Hpv & Hnx); [discriminate |].
    eapply dseg_frame;
      [| eapply (dseg_update_last next prev h (o :: l1) pp p j e e' nj');
         [exact Hd | discriminate | exact Hnd | | exact Hnx]].
    + intros o' Ho'. destruct (decide (o' = j)) as [-> | Hne].
      * rewrite lookup_insert_eq. exact Hj'.
      * rewrite lookup_insert_ne by congruence. apply Hsame; assumption.
    + intros n Hn. rewrite Hj in Hn. injection Hn as <-. exact Hpv.
Qed.

(** The segment after a record that is replaced or removed: in the new
    heap its first record has [pp'] for predecessor; with no record in
    the segment, [pp'] is the last offset before its end. *)
Lemma dseg_retarget_first (h h' : gmap Z A) (pp pp' p : Z) (l2 : list Z) (q qn : Z) :
  dseg h pp p l2 q qn -> NoDup l2 ->
  (forall o, o ∈ l2 -> o <> p -> h' !! o = h !! o) ->
  (l2 <> [] -> exists n n', h !! p = Some n /\ h' !! p = Some n'
                            /\ next n' = next n /\ prev n' = pp') ->
  dseg h' pp' p l2 (match l2 with [] => pp' | _ => q end) qn.
Proof.
  intros Hd Hnd Hsame Hfirst. destruct l2 as [| o l2].
  - destruct Hd as [-> _]. split; reflexivity.
  - destruct Hfirst as (n & n' & Hn & Hn' & Hnx & Hpv); [discriminate |].
    pose proof Hd as (-> & _).
    apply NoDup_cons in Hnd as [Hnotin Hnd].
    eapply dseg_frame;
      [| eapply (dseg_update_first next prev h pp pp' o l2 q qn n');
         [exact Hd | exact Hnotin | | exact Hpv]].
    + intros o' Ho'. destruct (decide (o' = o)) as [-> | Hne].
      * rewrite lookup_insert_eq. exact Hn'.
      * rewrite lookup_insert_ne by congruence. apply Hsame; assumption.
    + intros n0 Hn0. rewrite Hn in Hn0. injection Hn0 as <-. exact Hnx.
Qed.

(** In a chain without repetition, the record [e] between [l1] and [l2]
    is distinct from theirs, and theirs from each other. *)
Lemma NoDup_middle (l1 l2 : list Z) (e : Z) :
  NoDup (l1 ++ e :: l2) ->
  NoDup l1 /\ NoDup l2 /\ (e ∉ l1) /\ (e ∉ l2)
  /\ (forall o, o ∈ l1 -> o ∉ l2).
Proof.
  intros Hnd. apply NoDup_app in Hnd as (H1 & Hdis & H2).
  apply NoDup_cons in H2 as [He2 H2].
  repeat split; try assumption.
  - intros Hin. apply (Hdis e Hin). left.
  - intros o Ho Ho2. apply (Hdis o Ho). right. exact Ho2.
Qed.

Lemma NoDup_remove_middle (l1 l2 : list Z) (e : Z) :
  NoDup (l1 ++ e :: l2) -> NoDup (l1 ++ l2).
Proof.
  intros Hnd. destruct (NoDup_middle l1 l2 e Hnd) as (H1 & H2 & _ & _ & Hdis).
  apply NoDup_app. repeat split; assumption.
Qed.

Lemma NoDup_replace_middle (l1 l2 : list Z) (e e' : Z) :
  NoDup (l1 ++ e :: l2) -> e' ∉ l1 ++ e :: l2 -> NoDup (l1 ++ e' :: l2).
Proof.
  intros Hnd Hnew. destruct (NoDup_middle l1 l2 e Hnd) as (H1 & H2 & _ & _ & Hdis).
  apply NoDup_app. split; [exact H1 |]. split.
  - intros o Ho Hin. apply elem_of_cons in Hin as [-> | Hin].
    + apply Hnew, elem_of_app. left. exact Ho.
    + exact (Hdis o Ho Hin).
  - apply NoDup_cons. split; [| exact H2].
    intros Hin. apply Hnew, elem_of_app. right. right. exact Hin.
Qed.

End ChainSurgery.

Lemma key_matches_content (kv kv' : ShmKeyValue.t) (key : bytes) (hash : Z) :
  kv_content kv' = kv_content kv ->
  FastMap.key_matches kv' key hash = FastMap.key_matches kv key hash.
Proof.
  unfold kv_content, FastMap.key_matches. intros [= He Hk _ Hd].
  rewrite He, Hk, Hd. reflexivity.
Qed.

Lemma from_option_Some_None {A : Type} (x : option A) : from_option Some None x = x.
Proof. destruct x; reflexivity. Qed.

(** The two ends of the segment before a record, in terms of what
    [find_in_bucket] reports as its predecessor. *)
Lemma dseg_prefix_cases (h : gmap Z ShmKeyValue.t) (pp p : Z) (l1 : list Z) (j e : Z) :
  dseg ShmKeyValue.next_offset ShmKeyValue.prev_offset h pp p l1 j e ->
  (l1 = [] /\ last_passed l1 = None /\ p = e /\ j = pp)
  \/ (l1 <> [] /\ last_passed l1 = Some j /\ j ∈ l1 /\ 0 <= j
      /\ exists nj, h !! j = Some nj).
Proof.
  intros Hd. destruct l1 as [| o l1].
  - left. destruct Hd as [-> ->]. auto.
  - right. assert (Hne : o :: l1 <> []) by discriminate.
    pose proof (dseg_last _ _ _ _ _ _ _ _ Hd Hne) as Hlast.
    pose proof (dseg_last_elem _ _ _ _ _ _ _ _ Hd Hne) as Hin.
    pose proof (dseg_offsets_nonneg _ _ _ _ _ _ _ _ Hd) as Hpos.
    rewrite Forall_forall in Hpos.
    destruct (dseg_allocated _ _ _ _ _ _ _ _ j Hd Hin) as [nj Hnj].
    repeat split; eauto.
Qed.

(** The segment after a record starts at the record's successor. *)
Lemma dseg_suffix_cases (h : gmap Z ShmKeyValue.t) (pp p : Z) (l2 : list Z) (q : Z) :
  dseg ShmKeyValue.next_offset ShmKeyValue.prev_offset h pp p l2 q NULL_OFFSET ->
  (l2 = [] /\ p = NULL_OFFSET /\ q = pp)
  \/ (l2 <> [] /\ 0 <= p /\ p ∈ l2 /\ exists n, h !! p = Some n).
Proof.
  intros Hd. destruct l2 as [| o l2].
  - left. destruct Hd as [-> ->]. auto.
  - right. destruct Hd as (-> & Hp & n & Hn & _).
    repeat split; [discriminate | exact Hp | left | eauto].
Qed.

(** The removal of the record [e] of a bucket chain, as the two [remove]
    do it: what is left is the chain of the other records. *)
Lemma remove_record_spec (m : FastMap.t) (idx : Z) (l1 : list Z) (e : Z) (l2 : list Z)
      (bucket : ShmBucket.t) (last : Z) :
  FastMap.buckets m !! Z.to_nat idx = Some bucket ->
  dlist ShmKeyValue.next_offset ShmKeyValue.prev_offset (FastMap.heap m)
        (ShmBucket.head_offset bucket) (l1 ++ e :: l2) last ->
  exists m2,
    (FastMap.unlink_after m idx (last_passed l1) e ≫= fun m1 => FastMap.discard m1 idx e)
    = Ret m2
    /\ frame_outside m m2 idx (l1 ++ e :: l2)
    /\ bucket_shape m2 idx (l1 ++ l2)
    /\ FastMap.heap m2 !! e = None
    /\ (forall o, o <> e -> kv_same_content (FastMap.heap m) (FastMap.heap m2) o)
    /\ HashTableHeader.size (FastMap.header m2)
       = wrap64 (HashTableHeader.size (FastMap.header m) - 1)
    /\ HashTableHeader.bucket_count (FastMap.header m2)
       = HashTableHeader.bucket_count (FastMap.header m)
    /\ CollectionHeader.modified_at (HashTableHeader.base (FastMap.header m2))
       = CollectionHeader.modified_at (HashTableHeader.base (FastMap.header m))
    /\ FastMap.stats m2 = CollectionStats.size_fetch_sub 1 (FastMap.stats m).
Proof.
  intros Hb [Hd Hnd].
  apply dseg_app in Hd as (j & jn & Hd1 & Hd2).
  destruct Hd2 as (-> & He & rec & Hrec & Hprev & Hd2).
  destruct (NoDup_middle _ _ _ Hnd) as (Hnd1 & Hnd2 & He1 & He2 & Hdis).
  pose proof (NoDup_remove_middle _ _ _ Hnd) as Hnd'.
  assert (Hidx : (Z.to_nat idx < length (FastMap.buckets m))%nat)
    by (eapply lookup_lt_Some; exact Hb).
  unfold FastMap.unlink_after. rewrite (deref_Some _ _ _ Hrec), bind_Ret.
  destruct (dseg_prefix_cases _ _ _ _ _ _ Hd1)
    as [(-> & Hlp & Hhead & Hj) | (Hne1 & Hlp & Hjin & Hjpos & nj & Hnj)];
    rewrite Hlp;
    (destruct (dseg_suffix_cases _ _ _ _ _ Hd2)
      as [(-> & Hnx & Hlast) | (Hne2 & Hnxpos & Hnxin & n2 & Hn2)]).
  - (* the only record of the chain *)
    rewrite (bucket_at_Some _ _ _ Hb), bind_Ret. rewrite Hnx.
    change (0 <=? NULL_OFFSET) with false. cbv iota. rewrite !bind_Ret.
    unfold FastMap.discard. msimpl.
    rewrite (update_Some _ _ _ _ Hrec), bind_Ret.
    erewrite bucket_at_Some by (msimpl; apply list_lookup_insert_eq; exact Hidx).
    rewrite bind_Ret.
    eexists. split; [reflexivity |]. split; [frame_tac |].
    unfold bucket_shape, dlist. msimpl.
    split; [| split; [apply lookup_delete_eq | split; [| repeat split]]].
    + eexists _, _. split; [rewrite list_lookup_insert_eq by (rewrite length_insert; exact Hidx); reflexivity |].
      msimpl. split; [split; reflexivity | constructor].
    + intros o Hne. eapply kv_same_content_trans;
        [apply kv_same_content_insert_ne | apply kv_same_content_delete_ne]; exact Hne.
  - (* the first record of the chain *)
    rewrite (bucket_at_Some _ _ _ Hb), bind_Ret. msimpl.
    assert (Hne : ShmKeyValue.next_offset rec <> e)
      by (intros Heq; rewrite Heq in Hnxin; contradiction).
    replace (0 <=? ShmKeyValue.next_offset rec) with true
      by (symmetry; apply Z.leb_le; exact Hnxpos).
    rewrite !bind_Ret. msimpl.
    rewrite (update_Some _ _ _ _ Hn2), !bind_Ret.
    unfold FastMap.discard. msimpl.
    erewrite update_Some by (rewrite lookup_insert_ne by congruence; exact Hrec).
    rewrite bind_Ret.
    erewrite bucket_at_Some by (msimpl; apply list_lookup_insert_eq; exact Hidx).
    rewrite bind_Ret.
    eexists. split; [reflexivity |]. split; [frame_tac |].
    unfold bucket_shape, dlist. msimpl.
    split; [| split; [apply lookup_delete_eq | split; [| repeat split]]].
    + eexists _, _. split; [rewrite list_lookup_insert_eq by (rewrite length_insert; exact Hidx); reflexivity |].
      msimpl. split; [| exact Hnd'].
      pose proof (dseg_retarget_first ShmKeyValue.next_offset ShmKeyValue.prev_offset
                    (FastMap.heap m)
                    (delete e (<[e := FastMap.mark_deleted rec]>
                                 (<[ShmKeyValue.next_offset rec
                                    := ShmKeyValue.set_prev NULL_OFFSET n2]>
                                    (FastMap.heap m))))
                    e NULL_OFFSET _ l2 last NULL_OFFSET Hd2 Hnd2) as Hnew.
      destruct l2 as [| o2 l2]; [contradiction |].
      apply Hnew.
      * intros o Ho Hno. rewrite lookup_delete_ne, !lookup_insert_ne; try congruence;
          intros ->; contradiction.
      * intros _. exists n2, (ShmKeyValue.set_prev NULL_OFFSET n2).
        split; [exact Hn2 |]. split; [| split; reflexivity].
        rewrite lookup_delete_ne, lookup_insert_ne, lookup_insert_eq by congruence.
        reflexivity.
    + intros o Hne'. eapply kv_same_content_trans;
        [| eapply kv_same_content_trans;
           [apply kv_same_content_insert_ne | apply kv_same_content_delete_ne]; exact Hne'].
      apply (kv_same_content_relink _ _ _ n2); [exact Hn2 | reflexivity].
  - (* the last record of the chain, after others *)
    assert (Hje : j <> e) by (intros ->; contradiction).
    rewrite (update_Some _ _ _ _ Hnj), !bind_Ret. msimpl. rewrite Hnx.
    change (0 <=? NULL_OFFSET) with false. cbv iota. rewrite !bind_Ret.
    unfold FastMap.discard. msimpl.
    erewrite update_Some by (rewrite lookup_insert_ne by congruence; exact Hrec).
    rewrite bind_Ret. erewrite bucket_at_Some by (msimpl; exact Hb). rewrite bind_Ret.
    eexists. split; [reflexivity |]. split; [frame_tac |].
    unfold bucket_shape, dlist. msimpl.
    split; [| split; [apply lookup_delete_eq | split; [| repeat split]]].
    + eexists _, _. split; [apply list_lookup_insert_eq; exact Hidx |].
      msimpl. split; [| exact Hnd'].
      apply dseg_app. exists j, NULL_OFFSET. split; [| split; reflexivity].
      pose proof (dseg_retarget_last ShmKeyValue.next_offset ShmKeyValue.prev_offset
                    (FastMap.heap m)
                    (delete e (<[e := FastMap.mark_deleted rec]>
                                 (<[j := ShmKeyValue.set_next NULL_OFFSET nj]>
                                    (FastMap.heap m))))
                    NULL_OFFSET _ l1 j e NULL_OFFSET Hd1 Hnd1) as Hnew.
      destruct l1 as [| o1 l1]; [contradiction |].
      apply Hnew.
      * intros o Ho Hno. rewrite lookup_delete_ne, !lookup_insert_ne; try congruence;
          intros ->; contradiction.
      * intros _. exists nj, (ShmKeyValue.set_next NULL_OFFSET nj).
        split; [exact Hnj |]. split; [| split; reflexivity].
        rewrite lookup_delete_ne, lookup_insert_ne, lookup_insert_eq by congruence.
        reflexivity.
    + intros o Hne'. eapply kv_same_content_trans;
        [| eapply kv_same_content_trans;
           [apply kv_same_content_insert_ne | apply kv_same_content_delete_ne]; exact Hne'].
      apply (kv_same_content_relink _ _ _ nj); [exact Hnj | reflexivity].
  - (* a record between others *)
    assert (Hje : j <> e) by (intros ->; contradiction).
    assert (Hne : ShmKeyValue.next_offset rec <> e)
      by (intros Heq; rewrite Heq in Hnxin; contradiction).
    assert (Hnj' : ShmKeyValue.next_offset rec <> j)
      by (intros Heq; rewrite Heq in Hnxin; exact (Hdis j Hjin Hnxin)).
    rewrite (update_Some _ _ _ _ Hnj), !bind_Ret. msimpl.
    replace (0 <=? ShmKeyValue.next_offset rec) with true
      by (symmetry; apply Z.leb_le; exact Hnxpos).
    erewrite update_Some by (rewrite lookup_insert_ne by congruence; exact Hn2).
    rewrite !bind_Ret.
    unfold FastMap.discard. msimpl.
    erewrite update_Some by (rewrite !lookup_insert_ne by congruence; exact Hrec).
    rewrite bind_Ret. erewrite bucket_at_Some by (msimpl; exact Hb). rewrite bind_Ret.
    eexists. split; [reflexivity |]. split; [frame_tac |].
    unfold bucket_shape, dlist. msimpl.
    set (h' := FastMap.free_kv e _).
    assert (Hh' : forall o, o <> e -> o <> j -> o <> ShmKeyValue.next_offset rec ->
                            h' !! o = FastMap.heap m !! o).
    { intros o H1 H2 H3. subst h'. unfold FastMap.free_kv.
      rewrite lookup_delete_ne, !lookup_insert_ne by congruence. reflexivity. }
    split; [| split; [apply lookup_delete_eq | split; [| repeat split]]].
    + eexists _, _. split; [apply list_lookup_insert_eq; exact Hidx |].
      msimpl. split; [| exact Hnd'].
      apply dseg_app. exists j, (ShmKeyValue.next_offset rec). split.
      * pose proof (dseg_retarget_last ShmKeyValue.next_offset ShmKeyValue.prev_offset
                      (FastMap.heap m) h' NULL_OFFSET _ l1 j e
                      (ShmKeyValue.next_offset rec) Hd1 Hnd1) as Hnew.
        destruct l1 as [| o1 l1]; [contradiction |].
        apply Hnew.
        -- intros o Ho Hno. apply Hh'; [intros ->; contradiction | exact Hno |].
           intros ->. exact (Hdis _ Ho Hnxin).
        -- intros _. exists nj, (ShmKeyValue.set_next (ShmKeyValue.next_offset rec) nj).
           split; [exact Hnj |]. split; [| split; reflexivity].
           subst h'. unfold FastMap.free_kv.
           rewrite lookup_delete_ne, !lookup_insert_ne, lookup_insert_eq by congruence.
           reflexivity.
      * pose proof (dseg_retarget_first ShmKeyValue.next_offset ShmKeyValue.prev_offset
                      (FastMap.heap m) h' e j _ l2 last NULL_OFFSET Hd2 Hnd2) as Hnew.
        destruct l2 as [| o2 l2]; [contradiction |].
        apply Hnew.
        -- intros o Ho Hno. apply Hh'; [intros ->; contradiction | | exact Hno].
           intros ->. exact (Hdis _ Hjin Ho).
        -- intros _. exists n2, (ShmKeyValue.set_prev j n2).
           split; [exact Hn2 |]. split; [| split; reflexivity].
           subst h'. unfold FastMap.free_kv.
           rewrite lookup_delete_ne, lookup_insert_ne, lookup_insert_eq by congruence.
           reflexivity.
    + intros o Hne'. unfold FastMap.free_kv.
      set (h1 := <[j := ShmKeyValue.set_next (ShmKeyValue.next_offset rec) nj]>
                   (FastMap.heap m)).
      set (h2 := <[ShmKeyValue.next_offset rec := ShmKeyValue.set_prev j n2]> h1).
      apply kv_same_content_trans with h1;
        [apply (kv_same_content_relink _ j o nj); [exact Hnj | reflexivity] |].
      apply kv_same_content_trans with h2;
        [apply (kv_same_content_relink _ _ o n2);
         [subst h1; rewrite lookup_insert_ne by congruence; exact Hn2 | reflexivity] |].
      apply kv_same_content_trans with (<[e := FastMap.mark_deleted rec]> h2);
        [apply kv_same_content_insert_ne; exact Hne' |].
      apply kv_same_content_delete_ne; exact Hne'.
Qed.

(** A record that is Valid and past its expiry is not alive. *)
Lemma valid_expired_not_alive (now : Z) (e : ShmEntry.t) :
  ShmEntry.state e = ShmEntry.STATE_VALID ->
  ShmEntry.is_expired now e = true ->
  ShmEntry.is_alive now e = false.
Proof.
  intros Hv He. rewrite (valid_alive_or_expired now e Hv), He. reflexivity.
Qed.

(** What [find_in_bucket] reports on a chain whose first record with the
    key is [e]. *)
Lemma find_in_bucket_found (fuel : nat) (m : FastMap.t) (bucket : ShmBucket.t)
      (key : bytes) (l1 : list Z) (e : Z) (l2 : list Z) (rec : ShmKeyValue.t) (last : Z) :
  dlist ShmKeyValue.next_offset ShmKeyValue.prev_offset (FastMap.heap m)
        (ShmBucket.head_offset bucket) (l1 ++ e :: l2) last ->
  key_absent (FastMap.heap m) key l1 ->
  FastMap.heap m !! e = Some rec ->
  FastMap.key_matches rec key (compute_hash key) = true ->
  (length l1 < fuel)%nat ->
  FastMap.find_in_bucket fuel m bucket key (compute_hash key)
  = Ret (Some e, last_passed l1).
Proof.
  intros Hdl Habs Hrec Hm Hfuel. unfold FastMap.find_in_bucket.
  rewrite (FastMap_find_loop_found _ key l1 e l2 rec fuel _ None
             (dlist_chain _ _ _ _ _ _ Hdl) Habs Hrec Hm Hfuel).
  rewrite from_option_Some_None. reflexivity.
Qed.

Lemma size_of_eqb_0 (k : bytes) : size_of k <> 0 -> (size_of k =? 0) = false.
Proof. intros H. apply Z.eqb_neq. exact H. Qed.

(** C10.  The chain of the bucket of the key [k] is [l1 ++ e :: l2]; the
    record at [e] has the key, is in state Valid and is past its expiry
    at instant [now]; no other record of the chain has the key.  Then
    [remove(k, out_value)] returns [true], leaves the caller's
    [out_value] as it was (whether it is null or not), frees the record
    at [e], leaves the chain of the other records, and decrements the
    size stored in the header.  On the same map, at the same instant,
    [get(k)] returns [false] and leaves its output untouched,
    [replace(k, v)] returns [false] and [remove(k, expected_value)]
    returns [false], both leaving the map as it was. *)
Theorem remove_unlinks_an_expired_record_that_get_replace_and_conditional_remove_hide
        (fuel : nat) (now : Z) (m : FastMap.t) (k : bytes) (out_value : option bytes)
        (l1 : list Z) (e : Z) (l2 : list Z) (rec : ShmKeyValue.t) :
  size_of k <> 0 ->
  bucket_shape m (FastMap.get_bucket m (compute_hash k)) (l1 ++ e :: l2) ->
  key_absent (FastMap.heap m) k l1 ->
  key_absent (FastMap.heap m) k l2 ->
  FastMap.heap m !! e = Some rec ->
  FastMap.key_matches rec k (compute_hash k) = true ->
  ShmEntry.state (ShmKeyValue.entry rec) = ShmEntry.STATE_VALID ->
  ShmEntry.is_expired now (ShmKeyValue.entry rec) = true ->
  (length (l1 ++ e :: l2) < fuel)%nat ->
  (exists m',
      FastMap.remove fuel now m (Some k) out_value = Ret (true, out_value, m')
      /\ FastMap.heap m' !! e = None
      /\ bucket_shape m' (FastMap.get_bucket m (compute_hash k)) (l1 ++ l2)
      /\ (forall o, o <> e -> kv_same_content (FastMap.heap m) (FastMap.heap m') o)
      /\ HashTableHeader.size (FastMap.header m')
         = wrap64 (HashTableHeader.size (FastMap.header m) - 1))
  /\ (forall out, exists m',
         FastMap.get fuel now m (Some k) out = Ret (false, out, m')
         /\ FastMap.heap m' = FastMap.heap m
         /\ FastMap.header m' = FastMap.header m
         /\ FastMap.buckets m' = FastMap.buckets m)
  /\ (forall alloc v ttl, FastMap.replace fuel alloc now m (Some k) v ttl = Ret (false, m))
  /\ (forall expected_value,
         FastMap.remove_expected fuel now m (Some k) expected_value = Ret (false, m)).
Proof.
  intros Hk (bucket & last & Hb & Hdl) Habs1 Habs2 Hrec Hm Hvalid Hexp Hfuel.
  pose proof (valid_expired_not_alive now _ Hvalid Hexp) as Hdead.
  assert (Hf1 : (length l1 < fuel)%nat) by (rewrite length_app in Hfuel; lia).
  pose proof (find_in_bucket_found fuel m bucket k l1 e l2 rec last Hdl Habs1 Hrec Hm Hf1)
    as Hfind.
  split; [| split; [| split]].
  - destruct (remove_record_spec m _ l1 e l2 bucket last Hb Hdl)
      as (m2 & Hrun & _ & Hshape & Hfree & Hcont & Hsize & _).
    destruct (FastMap.unlink_after m _ (last_passed l1) e) as [m1 | |] eqn:Hu;
      try discriminate Hrun.
    rewrite bind_Ret in Hrun.
    exists (FastMap.stamp now m2). split; [| split; [| split; [| split]]].
    + unfold FastMap.remove. rewrite (size_of_eqb_0 k Hk). cbv zeta.
      rewrite (bucket_at_Some _ _ _ Hb), bind_Ret, Hfind, bind_Ret.
      cbv beta iota. rewrite (deref_Some _ _ _ Hrec), bind_Ret, Hdead, Hu, bind_Ret.
      rewrite Hrun, bind_Ret. destruct out_value; reflexivity.
    + exact Hfree.
    + destruct Hshape as (b2 & last2 & Hb2 & Hd2). exists b2, last2. split; assumption.
    + exact Hcont.
    + exact Hsize.
  - intros out.
    exists (FastMap.set_stats (CollectionStats.read_fetch_add 1
                                 (CollectionStats.miss_fetch_add 1 (FastMap.stats m))) m).
    split; [| split; [| split]; reflexivity].
    unfold FastMap.get. rewrite (size_of_eqb_0 k Hk). cbv zeta.
    rewrite (bucket_at_Some _ _ _ Hb), bind_Ret.
    rewrite (FastMap_get_loop_none now _ k (l1 ++ e :: l2) fuel _
               (dlist_chain _ _ _ _ _ _ Hdl)); [rewrite bind_Ret; reflexivity | | exact Hfuel].
    apply Forall_app. split; [| apply Forall_cons; split].
    + eapply Forall_impl; [exact Habs1 |]. intros o Ho kv Hkv. cbv beta in Ho.
      rewrite (Ho kv Hkv). apply andb_false_r.
    + intros kv Hkv. rewrite Hrec in Hkv. injection Hkv as <-. rewrite Hdead. reflexivity.
    + eapply Forall_impl; [exact Habs2 |]. intros o Ho kv Hkv. cbv beta in Ho.
      rewrite (Ho kv Hkv). apply andb_false_r.
  - intros alloc v ttl. unfold FastMap.replace. rewrite (size_of_eqb_0 k Hk). cbv zeta.
    rewrite (bucket_at_Some _ _ _ Hb), bind_Ret, Hfind, bind_Ret.
    cbv beta iota. rewrite (deref_Some _ _ _ Hrec), bind_Ret, Hdead. reflexivity.
  - intros expected_value. unfold FastMap.remove_expected.
    rewrite (size_of_eqb_0 k Hk). cbv zeta.
    rewrite (bucket_at_Some _ _ _ Hb), bind_Ret, Hfind, bind_Ret.
    cbv beta iota. rewrite (deref_Some _ _ _ Hrec), bind_Ret, Hdead. reflexivity.
Qed.

Lemma map_state_shape :
  bucket_shape map_state (FastMap.get_bucket map_state (compute_hash (payload "k"))) [64].
Proof.
  eexists _, _. split; [vm_compute; reflexivity |]. split.
  - concrete_shape.
  - concrete_nodup.
Qed.

Lemma remove_unlinks_an_expired_record_that_get_replace_and_conditional_remove_hide_witness :
  (exists m',
      FastMap.remove 8 200 map_state (Some (payload "k")) (Some (payload "old"))
      = Ret (true, Some (payload "old"), m')
      /\ FastMap.heap m' !! 64 = None
      /\ HashTableHeader.size (FastMap.header m') = 0)
  /\ (exists m', FastMap.get 8 200 map_state (Some (payload "k")) (payload "old")
                 = Ret (false, payload "old", m'))
  /\ FastMap.replace 8 (fun _ => Some 128) 200 map_state (Some (payload "k")) (payload "v2") (-1)
     = Ret (false, map_state)
  /\ FastMap.remove_expected 8 200 map_state (Some (payload "k")) (payload "v1")
     = Ret (false, map_state).
Proof.
  assert (Hk : size_of (payload "k") <> 0) by (vm_compute; discriminate).
  assert (Hshape : bucket_shape map_state
                     (FastMap.get_bucket map_state (compute_hash (payload "k")))
                     ([] ++ 64 :: []))
    by exact map_state_shape.
  assert (Habs : key_absent (FastMap.heap map_state) (payload "k") []) by apply Forall_nil_2.
  assert (Hrec : FastMap.heap map_state !! 64
                 = Some (new_entry 100 (payload "k") (payload "v1") 0 NULL_OFFSET NULL_OFFSET))
    by (vm_compute; reflexivity).
  assert (Hm : FastMap.key_matches
                 (new_entry 100 (payload "k") (payload "v1") 0 NULL_OFFSET NULL_OFFSET)
                 (payload "k") (compute_hash (payload "k")) = true)
    by (vm_compute; reflexivity).
  assert (Hvalid : ShmEntry.state
                     (ShmKeyValue.entry
                        (new_entry 100 (payload "k") (payload "v1") 0 NULL_OFFSET NULL_OFFSET))
                   = ShmEntry.STATE_VALID)
    by (vm_compute; reflexivity).
  assert (Hexp : ShmEntry.is_expired 200
                   (ShmKeyValue.entry
                      (new_entry 100 (payload "k") (payload "v1") 0 NULL_OFFSET NULL_OFFSET))
                 = true)
    by (vm_compute; reflexivity).
  assert (Hfuel : (length (@nil Z ++ [64%Z]) < 8)%nat) by (simpl; lia).
  destruct (remove_unlinks_an_expired_record_that_get_replace_and_conditional_remove_hide
              8 200 map_state (payload "k") (Some (payload "old")) [] 64 [] _
              Hk Hshape Habs Habs Hrec Hm Hvalid Hexp Hfuel)
    as ((m1 & Hremove & Hfree & _ & _ & Hsize) & Hget & Hreplace & Hcond).
  split; [| split; [| split]].
  - exists m1. split; [exact Hremove |]. split; [exact Hfree |].
    rewrite Hsize. vm_compute. reflexivity.
  - destruct (Hget (payload "old")) as (m2 & Hg & _). exists m2. exact Hg.
  - apply Hreplace.
  - apply Hcond.
Defined.

(** ** The map: a record replaced in its chain *)

Lemma set_next_set_prev (a b : Z) (r : ShmKeyValue.t) :
  ShmKeyValue.set_next a (ShmKeyValue.set_prev b r)
  = ShmKeyValue.set_prev b (ShmKeyValue.set_next a r).
Proof. reflexivity. Qed.

(** The chain once the record [new] at [off] has taken the place of the
    record at [e]: the neighbours of [e] point to [off], the other
    records are as they were. *)
Lemma replaced_chain (h h' : gmap Z ShmKeyValue.t) (head : Z) (l1 : list Z) (e : Z)
      (l2 : list Z) (last off : Z) (rec new : ShmKeyValue.t) :
  dlist ShmKeyValue.next_offset ShmKeyValue.prev_offset h head (l1 ++ e :: l2) last ->
  h !! e = Some rec ->
  0 <= off -> off ∉ l1 ++ e :: l2 ->
  h' !! off = Some new ->
  ShmKeyValue.prev_offset new = ShmKeyValue.prev_offset rec ->
  ShmKeyValue.next_offset new = ShmKeyValue.next_offset rec ->
  (forall o, o ∈ l1 ++ l2 -> o <> ShmKeyValue.prev_offset rec ->
             o <> ShmKeyValue.next_offset rec -> h' !! o = h !! o) ->
  (l1 <> [] -> exists nj, h !! ShmKeyValue.prev_offset rec = Some nj
                          /\ h' !! ShmKeyValue.prev_offset rec
                             = Some (ShmKeyValue.set_next off nj)) ->
  (l2 <> [] -> exists n2, h !! ShmKeyValue.next_offset rec = Some n2
                          /\ h' !! ShmKeyValue.next_offset rec
                             = Some (ShmKeyValue.set_prev off n2)) ->
  dlist ShmKeyValue.next_offset ShmKeyValue.prev_offset h'
        (match l1 with [] => off | _ => head end) (l1 ++ off :: l2)
        (match l2 with [] => off | _ => last end).
Proof.
  intros [Hd Hnd] Hrec Hoff Hnotin Hnew Hp Hn Hsame H1 H2.
  split; [| apply (NoDup_replace_middle _ _ e); assumption].
  destruct (NoDup_middle _ _ _ Hnd) as (Hnd1 & Hnd2 & He1 & He2 & Hdis).
  apply dseg_app in Hd as (j & jn & Hd1 & Hd2).
  destruct Hd2 as (-> & He & rec0 & Hrec0 & Hprev & Hd2).
  rewrite Hrec in Hrec0. injection Hrec0 as <-. subst j.
  pose proof (dseg_offsets_nonneg _ _ _ _ _ _ _ _ Hd1) as Hpos1.
  pose proof (dseg_offsets_nonneg _ _ _ _ _ _ _ _ Hd2) as Hpos2.
  rewrite Forall_forall in Hpos1, Hpos2.
  assert (Hnx1 : forall o, o ∈ l1 -> o <> ShmKeyValue.next_offset rec).
  { intros o Ho ->.
    destruct (dseg_suffix_cases _ _ _ _ _ Hd2) as [(_ & Hnull & _) | (_ & _ & Hin & _)].
    - specialize (Hpos1 _ Ho). rewrite Hnull in Hpos1. unfold NULL_OFFSET in Hpos1. lia.
    - exact (Hdis _ Ho Hin). }
  assert (Hpv2 : forall o, o ∈ l2 -> o <> ShmKeyValue.prev_offset rec).
  { intros o Ho ->.
    destruct (dseg_prefix_cases _ _ _ _ _ _ Hd1) as [(_ & _ & _ & Hnull) | (_ & _ & Hin & _)].
    - specialize (Hpos2 _ Ho). rewrite Hnull in Hpos2. unfold NULL_OFFSET in Hpos2. lia.
    - exact (Hdis _ Hin Ho). }
  apply dseg_app. exists (ShmKeyValue.prev_offset rec), off. split.
  - apply (dseg_retarget_last _ _ h h' NULL_OFFSET head l1 _ e off Hd1 Hnd1).
    + intros o Ho Hne. apply Hsame; [apply elem_of_app; left; exact Ho | exact Hne |].
      apply Hnx1. exact Ho.
    + intros Hne. destruct (H1 Hne) as (nj & Hj & Hj').
      exists nj, (ShmKeyValue.set_next off nj). repeat split; assumption.
  - split; [reflexivity |]. split; [exact Hoff |].
    exists new. split; [exact Hnew |]. split; [exact Hp |]. rewrite Hn.
    apply (dseg_retarget_first _ _ h h' e off _ l2 last NULL_OFFSET Hd2 Hnd2).
    + intros o Ho Hne. apply Hsame; [apply elem_of_app; right; exact Ho | | exact Hne].
      apply Hpv2. exact Ho.
    + intros Hne. destruct (H2 Hne) as (n2 & Hn2 & Hn2').
      exists n2, (ShmKeyValue.set_prev off n2). repeat split; assumption.
Qed.

(** [put] on an existing key with a value of another size: the new record
    stands where the old one stood, and the old one is freed. *)
Lemma reallocate_spec (alloc : Z -> option Z) (now : Z) (m : FastMap.t) (idx : Z)
      (l1 : list Z) (e : Z) (l2 : list Z) (bucket : ShmBucket.t) (last : Z)
      (key value : bytes) (ttl off : Z) :
  FastMap.buckets m !! Z.to_nat idx = Some bucket ->
  dlist ShmKeyValue.next_offset ShmKeyValue.prev_offset (FastMap.heap m)
        (ShmBucket.head_offset bucket) (l1 ++ e :: l2) last ->
  alloc (ShmKeyValue.total_size (size_of key) (size_of value)) = Some off ->
  0 <= off -> FastMap.heap m !! off = None ->
  exists m1 p n,
    FastMap.reallocate alloc now m idx e key value ttl = Ret m1
    /\ frame_outside m m1 idx (l1 ++ e :: l2)
    /\ bucket_shape m1 idx (l1 ++ off :: l2)
    /\ FastMap.heap m1 !! off = Some (new_entry now key value ttl p n)
    /\ FastMap.heap m1 !! e = None
    /\ (forall o, o <> e -> o <> off -> kv_same_content (FastMap.heap m) (FastMap.heap m1) o)
    /\ FastMap.header m1 = FastMap.header m
    /\ FastMap.stats m1 = FastMap.stats m.
Proof.
  intros Hb Hdl Halloc Hoff Hfresh.
  pose proof Hdl as [Hd Hnd].
  assert (Hnotin : off ∉ l1 ++ e :: l2).
  { intros Hin. destruct (dseg_allocated _ _ _ _ _ _ _ _ off Hd Hin) as [x Hx].
    congruence. }
  apply dseg_app in Hd as (j & jn & Hd1 & Hd2).
  destruct Hd2 as (-> & He & rec & Hrec & Hprev & Hd2).
  destruct (NoDup_middle _ _ _ Hnd) as (Hnd1 & Hnd2 & He1 & He2 & Hdis).
  assert (Hoe : off <> e) by (intros ->; apply Hnotin, elem_of_app; right; left).
  assert (Ho1 : off ∉ l1) by (intros Hin; apply Hnotin, elem_of_app; left; exact Hin).
  assert (Ho2 : off ∉ l2) by (intros Hin; apply Hnotin, elem_of_app; right; right; exact Hin).
  assert (Hidx : (Z.to_nat idx < length (FastMap.buckets m))%nat)
    by (eapply lookup_lt_Some; exact Hb).
  unfold FastMap.reallocate. rewrite (deref_Some _ _ _ Hrec), bind_Ret. cbv zeta.
  unfold FastMap.allocate_kv, manager_allocate. rewrite Halloc, !bind_Ret.
  do 3 run_update. rewrite !insert_insert_eq.
  rewrite set_next_set_prev.
  fold (new_entry now key value ttl (ShmKeyValue.prev_offset rec)
                  (ShmKeyValue.next_offset rec)).
  set (new := new_entry now key value ttl (ShmKeyValue.prev_offset rec)
                        (ShmKeyValue.next_offset rec)).
  subst j.
  destruct (dseg_prefix_cases _ _ _ _ _ _ Hd1)
    as [(-> & Hlp & Hhead & Hj) | (Hne1 & Hlp & Hjin & Hjpos & nj & Hnj)];
    (destruct (dseg_suffix_cases _ _ _ _ _ Hd2)
      as [(-> & Hnx & Hlast) | (Hne2 & Hnxpos & Hnxin & n2 & Hn2)]).
  - (* the only record of the chain *)
    rewrite Hj, Hnx. change (0 <=? NULL_OFFSET) with false. cbv iota.
    rewrite (bucket_at_Some _ _ _ Hb), !bind_Ret. msimpl.
    erewrite update_Some by (rewrite lookup_insert_ne by congruence; exact Hrec).
    rewrite bind_Ret.
    eexists _, _, _. split; [reflexivity |]. split; [frame_tac |].
    msimpl. unfold FastMap.free_kv.
    assert (Hat : delete e (<[e := FastMap.mark_deleted rec]>
                              (<[off := new]> (FastMap.heap m))) !! off = Some new).
    { rewrite lookup_delete_ne, lookup_insert_ne, lookup_insert_eq by congruence.
      reflexivity. }
    split; [| split; [exact Hat | split; [apply lookup_delete_eq | split; [| split; reflexivity]]]].
    + eexists _, _. split; [apply list_lookup_insert_eq; exact Hidx |]. msimpl.
      apply (replaced_chain (FastMap.heap m) _ (ShmBucket.head_offset bucket) [] e []
               last off rec new Hdl Hrec Hoff Hnotin Hat); try reflexivity.
      * intros o Ho. apply elem_of_nil in Ho. contradiction.
      * intros Hc. contradiction.
      * intros Hc. contradiction.
    + intros o H1 H2. unfold kv_same_content.
      rewrite lookup_delete_ne, !lookup_insert_ne by congruence. reflexivity.
  - (* the first record of the chain *)
    assert (Hxe : ShmKeyValue.next_offset rec <> e)
      by (intros Heq; rewrite Heq in Hnxin; contradiction).
    assert (Hxo : ShmKeyValue.next_offset rec <> off)
      by (intros Heq; rewrite Heq in Hnxin; contradiction).
    rewrite Hj. change (0 <=? NULL_OFFSET) with false. cbv iota.
    rewrite (bucket_at_Some _ _ _ Hb), !bind_Ret. msimpl.
    replace (0 <=? ShmKeyValue.next_offset rec) with true
      by (symmetry; apply Z.leb_le; exact Hnxpos).
    erewrite update_Some by (rewrite lookup_insert_ne by congruence; exact Hn2).
    rewrite bind_Ret.
    erewrite update_Some by (rewrite !lookup_insert_ne by congruence; exact Hrec).
    rewrite bind_Ret.
    eexists _, _, _. split; [reflexivity |]. split; [frame_tac |].
    msimpl. unfold FastMap.free_kv.
    set (h' := delete e _).
    assert (Hat : h' !! off = Some new).
    { subst h'. rewrite lookup_delete_ne, !lookup_insert_ne, lookup_insert_eq by congruence.
      reflexivity. }
    split; [| split; [exact Hat | split; [apply lookup_delete_eq | split; [| split; reflexivity]]]].
    + eexists _, _. split; [apply list_lookup_insert_eq; exact Hidx |]. msimpl.
      pose proof (replaced_chain (FastMap.heap m) h' (ShmBucket.head_offset bucket) [] e l2
                    last off rec new Hdl Hrec Hoff Hnotin Hat eq_refl eq_refl) as Hnew.
      destruct l2 as [| o2 l2]; [contradiction |].
      apply Hnew.
      * intros o Ho Hop Hon. subst h'.
        rewrite lookup_delete_ne, !lookup_insert_ne; try congruence;
          intros ->; contradiction.
      * intros Hc. contradiction.
      * intros _. exists n2. split; [exact Hn2 |]. subst h'.
        rewrite lookup_delete_ne, lookup_insert_ne, lookup_insert_eq by congruence.
        reflexivity.
    + intros o H1 H2. unfold kv_same_content. subst h'.
      rewrite lookup_delete_ne, lookup_insert_ne by congruence.
      destruct (decide (o = ShmKeyValue.next_offset rec)) as [-> | Hx];
        [rewrite lookup_insert_eq, Hn2; reflexivity |].
      rewrite !lookup_insert_ne by congruence. reflexivity.
  - (* the last record of the chain, after others *)
    assert (Hje : ShmKeyValue.prev_offset rec <> e) by (intros Heq; rewrite Heq in Hjin; contradiction).
    assert (Hjo : ShmKeyValue.prev_offset rec <> off)
      by (intros Heq; rewrite Heq in Hjin; contradiction).
    replace (0 <=? ShmKeyValue.prev_offset rec) with true
      by (symmetry; apply Z.leb_le; exact Hjpos).
    erewrite update_Some by (rewrite lookup_insert_ne by congruence; exact Hnj).
    rewrite !bind_Ret. msimpl.
    rewrite Hnx. change (0 <=? NULL_OFFSET) with false. cbv iota. rewrite bind_Ret.
    erewrite update_Some by (rewrite !lookup_insert_ne by congruence; exact Hrec).
    rewrite bind_Ret.
    eexists _, _, _. split; [reflexivity |]. split; [frame_tac |].
    msimpl. unfold FastMap.free_kv.
    set (h' := delete e _).
    assert (Hat : h' !! off = Some new).
    { subst h'. rewrite lookup_delete_ne, !lookup_insert_ne, lookup_insert_eq by congruence.
      reflexivity. }
    split; [| split; [exact Hat | split; [apply lookup_delete_eq | split; [| split; reflexivity]]]].
    + eexists _, _. split; [exact Hb |].
      pose proof (replaced_chain (FastMap.heap m) h' (ShmBucket.head_offset bucket) l1 e []
                    last off rec new Hdl Hrec Hoff Hnotin Hat eq_refl eq_refl) as Hnew.
      destruct l1 as [| o1 l1]; [contradiction |].
      apply Hnew.
      * intros o Ho Hop Hon. subst h'. rewrite app_nil_r in Ho.
        rewrite lookup_delete_ne, !lookup_insert_ne; try congruence;
          intros ->; contradiction.
      * intros _. exists nj. split; [exact Hnj |]. subst h'.
        rewrite lookup_delete_ne, lookup_insert_ne, lookup_insert_eq by congruence.
        reflexivity.
      * intros Hc. contradiction.
    + intros o H1 H2. unfold kv_same_content. subst h'.
      rewrite lookup_delete_ne, lookup_insert_ne by congruence.
      destruct (decide (o = ShmKeyValue.prev_offset rec)) as [-> | Hx];
        [rewrite lookup_insert_eq, Hnj; reflexivity |].
      rewrite !lookup_insert_ne by congruence. reflexivity.
  - (* a record between others *)
    assert (Hje : ShmKeyValue.prev_offset rec <> e) by (intros Heq; rewrite Heq in Hjin; contradiction).
    assert (Hjo : ShmKeyValue.prev_offset rec <> off)
      by (intros Heq; rewrite Heq in Hjin; contradiction).
    assert (Hxe : ShmKeyValue.next_offset rec <> e)
      by (intros Heq; rewrite Heq in Hnxin; contradiction).
    assert (Hxo : ShmKeyValue.next_offset rec <> off)
      by (intros Heq; rewrite Heq in Hnxin; contradiction).
    assert (Hxj : ShmKeyValue.next_offset rec <> ShmKeyValue.prev_offset rec)
      by (intros Heq; rewrite Heq in Hnxin; exact (Hdis _ Hjin Hnxin)).
    replace (0 <=? ShmKeyValue.prev_offset rec) with true
      by (symmetry; apply Z.leb_le; exact Hjpos).
    erewrite update_Some by (rewrite lookup_insert_ne by congruence; exact Hnj).
    rewrite !bind_Ret. msimpl.
    replace (0 <=? ShmKeyValue.next_offset rec) with true
      by (symmetry; apply Z.leb_le; exact Hnxpos).
    erewrite update_Some by (rewrite !lookup_insert_ne by congruence; exact Hn2).
    rewrite bind_Ret.
    erewrite update_Some by (rewrite !lookup_insert_ne by congruence; exact Hrec).
    rewrite bind_Ret.
    eexists _, _, _. split; [reflexivity |]. split; [frame_tac |].
    msimpl. unfold FastMap.free_kv.
    set (h' := delete e _).
    assert (Hat : h' !! off = Some new).
    { subst h'. rewrite lookup_delete_ne, !lookup_insert_ne, lookup_insert_eq by congruence.
      reflexivity. }
    split; [| split; [exact Hat | split; [apply lookup_delete_eq | split; [| split; reflexivity]]]].
    + eexists _, _. split; [exact Hb |].
      pose proof (replaced_chain (FastMap.heap m) h' (ShmBucket.head_offset bucket) l1 e l2
                    last off rec new Hdl Hrec Hoff Hnotin Hat eq_refl eq_refl) as Hnew.
      destruct l1 as [| o1 l1]; [contradiction |].
      destruct l2 as [| o2 l2]; [contradiction |].
      apply Hnew.
      * intros o Ho Hop Hon. subst h'.
        assert (o <> e).
        { intros ->. apply elem_of_app in Ho as [Ho | Ho]; contradiction. }
        assert (o <> off).
        { intros ->. apply elem_of_app in Ho as [Ho | Ho]; contradiction. }
        rewrite lookup_delete_ne, !lookup_insert_ne by congruence. reflexivity.
      * intros _. exists nj. split; [exact Hnj |]. subst h'.
        rewrite lookup_delete_ne, !lookup_insert_ne, lookup_insert_eq by congruence.
        reflexivity.
      * intros _. exists n2. split; [exact Hn2 |]. subst h'.
        rewrite lookup_delete_ne, lookup_insert_ne, lookup_insert_eq by congruence.
        reflexivity.
    + intros o H1 H2. unfold kv_same_content. subst h'.
      rewrite lookup_delete_ne, lookup_insert_ne by congruence.
      destruct (decide (o = ShmKeyValue.next_offset rec)) as [-> | Hx];
        [rewrite lookup_insert_eq, Hn2; reflexivity |].
      rewrite lookup_insert_ne by congruence.
      destruct (decide (o = ShmKeyValue.prev_offset rec)) as [-> | Hx'];
        [rewrite lookup_insert_eq, Hnj; reflexivity |].
      rewrite !lookup_insert_ne by congruence. reflexivity.
Qed.

(** ** The map: [get] *)

(** [get] on a chain whose first record with the key is alive: [true],
    and the value bytes of that record. *)
Lemma get_first_alive_match (fuel : nat) (now : Z) (m : FastMap.t) (k out : bytes)
      (l1 : list Z) (e : Z) (l2 : list Z) (rec : ShmKeyValue.t) :
  size_of k <> 0 ->
  bucket_shape m (FastMap.get_bucket m (compute_hash k)) (l1 ++ e :: l2) ->
  key_absent (FastMap.heap m) k l1 ->
  FastMap.heap m !! e = Some rec ->
  FastMap.key_matches rec k (compute_hash k) = true ->
  ShmEntry.is_alive now (ShmKeyValue.entry rec) = true ->
  (length l1 < fuel)%nat ->
  exists m', FastMap.get fuel now m (Some k) out = Ret (true, FastMap.read_value rec, m').
Proof.
  intros Hk (bucket & last & Hb & Hdl) Habs Hrec Hm Halive Hfuel.
  unfold FastMap.get. rewrite (size_of_eqb_0 k Hk). cbv zeta.
  rewrite (bucket_at_Some _ _ _ Hb), bind_Ret.
  rewrite (FastMap_get_loop_found now _ k l1 e l2 rec fuel _
             (dlist_chain _ _ _ _ _ _ Hdl) Habs Hrec Hm Halive Hfuel), bind_Ret.
  eexists. reflexivity.
Qed.

(** ** The map as a whole *)

Lemma land_le_r (a b : Z) : 0 <= b -> Z.land a b <= b.
Proof.
  intros Hb.
  assert (H0 : Z.land (Z.ldiff b a) (Z.land b a) = 0).
  { rewrite (Z.land_comm b a), Z.land_assoc, Z.land_ldiff. reflexivity. }
  pose proof (Z.add_nocarry_lor _ _ H0) as Hadd.
  rewrite Z.lor_ldiff_and in Hadd.
  assert (0 <= Z.ldiff b a) by (apply Z.ldiff_nonneg; left; exact Hb).
  rewrite (Z.land_comm a b). lia.
Qed.

(** The masked hash is the index of a bucket of the array. *)
Lemma get_bucket_range (m : FastMap.t) (hash : Z) :
  0 < HashTableHeader.bucket_count (FastMap.header m) < 2 ^ 32 ->
  0 <= FastMap.get_bucket m hash < HashTableHeader.bucket_count (FastMap.header m).
Proof.
  intros Hbc. unfold FastMap.get_bucket. rewrite wrap32_small by lia.
  split.
  - apply Z.land_nonneg. right. lia.
  - pose proof (land_le_r hash (HashTableHeader.bucket_count (FastMap.header m) - 1)).
    lia.
Qed.

(** A chain has no more records than the heap. *)
Lemma chain_length_le_size (h : gmap Z ShmKeyValue.t) (first last : Z) (l : list Z) :
  dlist ShmKeyValue.next_offset ShmKeyValue.prev_offset h first l last ->
  (length l <= size h)%nat.
Proof.
  intros [Hd Hnd]. rewrite <- (length_map_to_list h), <- (length_fmap fst).
  apply submseteq_length, NoDup_submseteq; [exact Hnd |].
  intros o Ho. destruct (dseg_allocated _ _ _ _ _ _ _ _ o Hd Ho) as [n Hn].
  apply list_elem_of_fmap. exists (o, n). split; [reflexivity |].
  apply elem_of_map_to_list. exact Hn.
Qed.

Lemma bucket_shape_length (m : FastMap.t) (idx : Z) (l : list Z) :
  bucket_shape m idx l -> (length l <= size (FastMap.heap m))%nat.
Proof. intros (b & last & _ & Hdl). eapply chain_length_le_size. exact Hdl. Qed.

(** ** The first record of a chain that has a key *)

Lemma matches_at_content (h h' : gmap Z ShmKeyValue.t) (key : bytes) (o : Z) :
  kv_same_content h h' o -> matches_at h' key o = matches_at h key o.
Proof.
  unfold kv_same_content, matches_at. intros Hc.
  destruct (h' !! o) as [kv' |], (h !! o) as [kv |]; simpl in Hc;
    try discriminate; [| reflexivity].
  apply key_matches_content. congruence.
Qed.

(** A record has one key only. *)
Lemma matches_at_other_key (h : gmap Z ShmKeyValue.t) (k k' : bytes) (o : Z) :
  k' <> k -> matches_at h k' o = true -> matches_at h k o = false.
Proof.
  unfold matches_at. intros Hne Hm. destruct (h !! o) as [kv |]; [| reflexivity].
  destruct (FastMap.key_matches kv k (compute_hash k)) eqn:Hk; [| reflexivity].
  apply key_matches_iff in Hm as (_ & Hs' & Ht').
  apply key_matches_iff in Hk as (_ & Hs & Ht).
  exfalso. apply Hne. rewrite <- Ht', <- Ht.
  assert (length k' = length k) as -> by (unfold size_of in *; lia).
  reflexivity.
Qed.

Lemma first_match_app (h : gmap Z ShmKeyValue.t) (key : bytes) (l1 l2 : list Z) :
  first_match h key (l1 ++ l2)
  = match first_match h key l1 with
    | Some o => Some o
    | None => first_match h key l2
    end.
Proof.
  induction l1 as [| o l1 IH]; [reflexivity |].
  simpl. destruct (matches_at h key o); [reflexivity | exact IH].
Qed.

Lemma first_match_content (h h' : gmap Z ShmKeyValue.t) (key : bytes) (l : list Z) :
  (forall o, o ∈ l -> kv_same_content h h' o) ->
  first_match h' key l = first_match h key l.
Proof.
  induction l as [| o l IH]; intros Hc; [reflexivity |].
  simpl. rewrite (matches_at_content h h' key o) by (apply Hc; left).
  rewrite IH by (intros o' Ho'; apply Hc; right; exact Ho'). reflexivity.
Qed.

Lemma first_match_has_other_key (h : gmap Z ShmKeyValue.t) (k k' : bytes) (l : list Z) :
  k' <> k -> has_key h k' l -> first_match h k l = None.
Proof.
  intros Hne Hk. induction Hk as [| o l Ho _ IH]; [reflexivity |].
  simpl. rewrite (matches_at_other_key h k k' o Hne Ho). exact IH.
Qed.

Lemma first_match_elem (h : gmap Z ShmKeyValue.t) (key : bytes) (l : list Z) (e : Z) :
  first_match h key l = Some e -> e ∈ l /\ matches_at h key e = true.
Proof.
  induction l as [| o l IH]; [discriminate |].
  simpl. destruct (matches_at h key o) eqn:Hm.
  - intros [= <-]. split; [left | exact Hm].
  - intros H. destruct (IH H) as [Hin Hme]. split; [right; exact Hin | exact Hme].
Qed.

(** The records before the first match do not have the key. *)
Lemma first_match_Some (h : gmap Z ShmKeyValue.t) (key : bytes) (l : list Z) (e : Z) :
  first_match h key l = Some e ->
  exists l1 l2 rec,
    l = l1 ++ e :: l2 /\ key_absent h key l1 /\ h !! e = Some rec
    /\ FastMap.key_matches rec key (compute_hash key) = true.
Proof.
  induction l as [| o l IH]; [discriminate |].
  simpl. destruct (matches_at h key o) eqn:Hm.
  - intros [= <-]. unfold matches_at in Hm.
    destruct (h !! o) as [rec |] eqn:Ho; [| discriminate].
    exists [], l, rec. repeat split; [apply Forall_nil_2 | exact Hm].
  - intros H. destruct (IH H) as (l1 & l2 & rec & -> & Habs & He & Hme).
    exists (o :: l1), l2, rec. repeat split; try assumption.
    apply Forall_cons. split; [| exact Habs].
    intros kv Hkv. unfold matches_at in Hm. rewrite Hkv in Hm. exact Hm.
Qed.

Lemma first_match_none (h : gmap Z ShmKeyValue.t) (key : bytes) (l : list Z) :
  first_match h key l = None <-> key_absent h key l.
Proof.
  unfold key_absent. induction l as [| o l IH]; simpl.
  - split; [intros _; apply Forall_nil_2 | reflexivity].
  - rewrite Forall_cons, <- IH. unfold matches_at.
    destruct (h !! o) as [kv |] eqn:Hkv.
    + destruct (FastMap.key_matches kv key (compute_hash key)) eqn:Hm.
      * split; [discriminate |]. intros [H _]. specialize (H kv eq_refl). congruence.
      * split; [intros H; split; [intros kv' [= <-]; exact Hm | exact H] | tauto].
    + split; [intros H; split; [discriminate | exact H] | tauto].
Qed.

(** The chain with the records at [mid] replaced by those at [mid'],
    none of which has the key [k]: the first record that has [k] is the
    same. *)
Lemma first_match_rewritten (h h' : gmap Z ShmKeyValue.t) (k : bytes)
      (l1 mid mid' l2 : list Z) :
  (forall o, o ∈ l1 ++ l2 -> kv_same_content h h' o) ->
  first_match h k mid = None -> first_match h' k mid' = None ->
  first_match h' k (l1 ++ mid' ++ l2) = first_match h k (l1 ++ mid ++ l2).
Proof.
  intros Hc Hmid Hmid'. rewrite !first_match_app, Hmid, Hmid'.
  rewrite (first_match_content h h' k l1)
    by (intros o Ho; apply Hc, elem_of_app; left; exact Ho).
  rewrite (first_match_content h h' k l2)
    by (intros o Ho; apply Hc, elem_of_app; right; exact Ho).
  reflexivity.
Qed.

(** ** What an operation on a key leaves as it was *)

Lemma kv_same_content_at (h h' : gmap Z ShmKeyValue.t) (o : Z) (kv : ShmKeyValue.t) :
  kv_same_content h h' o -> h !! o = Some kv ->
  exists kv', h' !! o = Some kv' /\ kv_content kv' = kv_content kv.
Proof.
  unfold kv_same_content. intros Hs Hkv. rewrite Hkv in Hs. simpl in Hs.
  destruct (h' !! o) as [kv' |]; [| discriminate].
  exists kv'. split; [reflexivity |]. simpl in Hs.
  injection Hs as H1 H2 H3 H4. unfold kv_content. congruence.
Qed.

Lemma read_value_content (kv kv' : ShmKeyValue.t) :
  kv_content kv' = kv_content kv -> FastMap.read_value kv' = FastMap.read_value kv.
Proof.
  unfold kv_content, FastMap.read_value, ShmKeyValue.value_data.
  intros [= _ Hk Hv Hd]. rewrite Hk, Hv, Hd. reflexivity.
Qed.

Lemma entry_content (kv kv' : ShmKeyValue.t) :
  kv_content kv' = kv_content kv -> ShmKeyValue.entry kv' = ShmKeyValue.entry kv.
Proof. unfold kv_content. intros [= He _ _ _]. exact He. Qed.

Lemma bucket_shape_allocated (m : FastMap.t) (idx : Z) (l : list Z) (o : Z) :
  bucket_shape m idx l -> o ∈ l -> is_Some (FastMap.heap m !! o).
Proof.
  intros (b & last & _ & [Hd _]) Ho. eapply dseg_allocated; eassumption.
Qed.

(** The chains of the other buckets are untouched. *)
Lemma other_chain_untouched (m m' : FastMap.t) (chains : Z -> list Z) (idx i : Z)
      (l : list Z) :
  map_shape m chains ->
  0 <= idx < HashTableHeader.bucket_count (FastMap.header m) ->
  0 <= i < HashTableHeader.bucket_count (FastMap.header m) ->
  i <> idx -> chains idx = l ->
  frame_outside m m' idx l ->
  bucket_shape m' i (chains i)
  /\ (forall o, o ∈ chains i -> FastMap.heap m' !! o = FastMap.heap m !! o).
Proof.
  intros (Hlen & Hbc & Hshapes & Hdisj) Hidx Hi Hne Hl (Hblen & Hbother & Hframe).
  assert (Hsame : forall o, o ∈ chains i -> FastMap.heap m' !! o = FastMap.heap m !! o).
  { intros o Ho. apply Hframe.
    - rewrite <- Hl. intros Hin. apply Hne. exact (Hdisj i idx o Hi Hidx Ho Hin).
    - eapply bucket_shape_allocated; [apply Hshapes; exact Hi | exact Ho]. }
  split; [| exact Hsame].
  destruct (Hshapes i Hi) as (b & last & Hb & [Hd Hnd]). exists b, last. split.
  - rewrite Hbother; [exact Hb |]. intros Heq. apply Hne. apply Z2Nat.inj; lia.
  - split; [| exact Hnd]. eapply dseg_frame; [| exact Hd]. exact Hsame.
Qed.

Lemma map_shape_rewritten (key : bytes) (m m' : FastMap.t) (chains : Z -> list Z)
      (idx : Z) (l1 mid mid' l2 : list Z) :
  map_shape m chains ->
  0 <= idx < HashTableHeader.bucket_count (FastMap.header m) ->
  chains idx = l1 ++ mid ++ l2 ->
  rewrites_chain key m m' idx l1 mid mid' l2 ->
  map_shape m' (chains_with chains idx (l1 ++ mid' ++ l2)).
Proof.
  intros Hshape Hidx Hl (Hshape' & Hbc' & Hframe & Hcont & Hnew & Hk & Hk').
  pose proof Hshape as (Hlen & Hbc & Hshapes & Hdisj).
  pose proof Hframe as (Hblen & _ & _).
  assert (Hold : forall o j, o ∈ l1 ++ mid' ++ l2 ->
                             0 <= j < HashTableHeader.bucket_count (FastMap.header m) ->
                             j <> idx -> o ∉ chains j).
  { intros o j Ho Hj Hne Hin.
    assert (Hcases : o ∈ chains idx \/ FastMap.heap m !! o = None).
    { rewrite Hl. rewrite !elem_of_app in Ho |- *.
      destruct Ho as [Ho | [Ho | Ho]]; [tauto | | tauto].
      destruct (Hnew o Ho); tauto. }
    destruct Hcases as [Hc | Hc].
    - apply Hne. exact (Hdisj j idx o Hj Hidx Hin Hc).
    - destruct (bucket_shape_allocated m j _ o (Hshapes j Hj) Hin) as [x Hx]. congruence. }
  split; [rewrite Hbc', Hblen; exact Hlen |]. split; [rewrite Hbc'; exact Hbc |]. split.
  - intros i Hi. rewrite Hbc' in Hi. unfold chains_with.
    destruct (decide (i = idx)) as [-> | Hne]; [exact Hshape' |].
    apply (other_chain_untouched m m' chains idx i _ Hshape Hidx Hi Hne Hl Hframe).
  - intros i j o Hi Hj. rewrite Hbc' in Hi, Hj. unfold chains_with.
    destruct (decide (i = idx)) as [-> | Hni], (decide (j = idx)) as [-> | Hnj];
      intros Ho1 Ho2.
    + reflexivity.
    + exfalso. exact (Hold o j Ho1 Hj Hnj Ho2).
    + exfalso. exact (Hold o i Ho2 Hi Hni Ho1).
    + exact (Hdisj i j o Hi Hj Ho1 Ho2).
Qed.

Lemma holds_forever_rewritten (k v key : bytes) (m m' : FastMap.t) (chains : Z -> list Z)
      (idx : Z) (l1 mid mid' l2 : list Z) :
  map_shape m chains ->
  0 <= idx < HashTableHeader.bucket_count (FastMap.header m) ->
  chains idx = l1 ++ mid ++ l2 ->
  rewrites_chain key m m' idx l1 mid mid' l2 ->
  key <> k ->
  holds_forever m chains k v ->
  holds_forever m' (chains_with chains idx (l1 ++ mid' ++ l2)) k v.
Proof.
  intros Hshape Hidx Hl (Hshape' & Hbc' & Hframe & Hcont & Hnew & Hk & Hk') Hne
         (e & rec & Hfm & He & Hv & Hs & Hx).
  pose proof Hshape as (Hlen & Hbc & Hshapes & Hdisj).
  destruct (first_match_elem _ _ _ _ Hfm) as [Hin Hme].
  pose proof (get_bucket_range m (compute_hash k) Hbc) as Hrange.
  assert (Hat : exists rec', FastMap.heap m' !! e = Some rec'
                             /\ kv_content rec' = kv_content rec
                             /\ first_match (FastMap.heap m') k
                                  (chains_with chains idx (l1 ++ mid' ++ l2)
                                     (FastMap.get_bucket m (compute_hash k)))
                                = Some e).
  { unfold chains_with.
    destruct (decide (FastMap.get_bucket m (compute_hash k) = idx)) as [Heq | Hnidx].
    - rewrite Heq, Hl in Hfm, Hin.
      assert (Hnot : e ∉ mid).
      { intros Hmid. unfold has_key in Hk. rewrite Forall_forall in Hk.
        rewrite (matches_at_other_key _ k key e Hne (Hk e Hmid)) in Hme. discriminate. }
      assert (Hin' : e ∈ l1 ++ l2).
      { apply elem_of_app in Hin as [Hin | Hin]; [apply elem_of_app; left; exact Hin |].
        apply elem_of_app in Hin as [Hin | Hin]; [contradiction |].
        apply elem_of_app. right. exact Hin. }
      destruct (kv_same_content_at _ _ _ _ (Hcont e Hin') He) as (rec' & He' & Hc).
      exists rec'. split; [exact He' |]. split; [exact Hc |].
      rewrite <- Hfm. apply first_match_rewritten; [exact Hcont | |];
        eapply first_match_has_other_key; eassumption.
    - destruct (other_chain_untouched m m' chains idx _ _ Hshape Hidx Hrange Hnidx Hl Hframe)
        as [_ Hsame].
      exists rec. split; [rewrite (Hsame e Hin); exact He |]. split; [reflexivity |].
      rewrite <- Hfm. apply first_match_content.
      intros o Ho. unfold kv_same_content. rewrite (Hsame o Ho). reflexivity. }
  destruct Hat as (rec' & He' & Hc & Hfm').
  exists e, rec'. rewrite (get_bucket_same_header m m' _ Hbc').
  split; [exact Hfm' |]. split; [exact He' |].
  rewrite (read_value_content _ _ Hc), (entry_content _ _ Hc). auto.
Qed.

Lemma bucket_shape_same_store (m m' : FastMap.t) (idx : Z) (l : list Z) :
  same_store m m' -> bucket_shape m idx l -> bucket_shape m' idx l.
Proof.
  intros (Hh & Hb & _) (b & last & Hbk & Hdl). exists b, last.
  rewrite Hh, Hb. split; assumption.
Qed.

Lemma map_shape_same_store (m m' : FastMap.t) (chains : Z -> list Z) :
  same_store m m' -> map_shape m chains -> map_shape m' chains.
Proof.
  intros Hsame (Hlen & Hbc & Hshapes & Hdisj). pose proof Hsame as (Hh & Hb & Hc).
  unfold map_shape. rewrite Hc, Hb. repeat split; try assumption; try lia.
  intros idx Hidx. apply (bucket_shape_same_store m m' idx _ Hsame). apply Hshapes. exact Hidx.
Qed.

Lemma holds_forever_same_store (m m' : FastMap.t) (chains : Z -> list Z) (k v : bytes) :
  same_store m m' -> holds_forever m chains k v -> holds_forever m' chains k v.
Proof.
  intros (Hh & Hb & Hc) (e & rec & Hfm & He & Hrest). exists e, rec.
  rewrite Hh, (get_bucket_same_header m m' _ Hc). auto.
Qed.

Lemma rewrites_chain_preserves (key : bytes) (m m' : FastMap.t) (chains : Z -> list Z)
      (idx : Z) (l1 mid mid' l2 : list Z) :
  map_shape m chains ->
  0 <= idx < HashTableHeader.bucket_count (FastMap.header m) ->
  chains idx = l1 ++ mid ++ l2 ->
  rewrites_chain key m m' idx l1 mid mid' l2 ->
  preserves_other_keys key m m' chains (chains_with chains idx (l1 ++ mid' ++ l2)).
Proof.
  intros Hshape Hidx Hl Hrw. split.
  - eapply map_shape_rewritten; eassumption.
  - intros k v Hne Hh. eapply holds_forever_rewritten; eassumption.
Qed.

Lemma same_store_preserves (key : bytes) (m m' : FastMap.t) (chains : Z -> list Z) :
  map_shape m chains -> same_store m m' ->
  preserves_other_keys key m m' chains chains.
Proof.
  intros Hshape Hsame. split.
  - eapply map_shape_same_store; eassumption.
  - intros k v _ Hh. eapply holds_forever_same_store; eassumption.
Qed.

Lemma preserves_other_keys_trans (key : bytes) (m1 m2 m3 : FastMap.t)
      (c1 c2 c3 : Z -> list Z) :
  preserves_other_keys key m1 m2 c1 c2 -> preserves_other_keys key m2 m3 c2 c3 ->
  preserves_other_keys key m1 m3 c1 c3.
Proof.
  intros [_ H12] [Hs H23]. split; [exact Hs |].
  intros k v Hne Hh. apply H23; [exact Hne |]. apply H12; assumption.
Qed.

Lemma same_store_refl (m : FastMap.t) : same_store m m.
Proof. repeat split. Qed.

Lemma same_store_touch (now : Z) (m : FastMap.t) : same_store m (FastMap.touch now m).
Proof. repeat split. Qed.

Lemma same_store_stamp (now : Z) (m : FastMap.t) : same_store m (FastMap.stamp now m).
Proof. repeat split. Qed.

Lemma same_store_set_stats (st : CollectionStats.t) (m : FastMap.t) :
  same_store m (FastMap.set_stats st m).
Proof. repeat split. Qed.

(** ** The four rewritings of a chain *)

Lemma new_entry_has_key (now : Z) (key value : bytes) (ttl prev next : Z) :
  size_of key < 2 ^ 32 ->
  FastMap.key_matches (new_entry now key value ttl prev next) key (compute_hash key) = true.
Proof.
  intros Hk. pose proof (size_of_nonneg key).
  apply key_matches_iff. simpl.
  split; [reflexivity |]. split; [apply wrap32_small; lia |].
  apply take_app_length.
Qed.

Lemma matches_at_Some (h : gmap Z ShmKeyValue.t) (key : bytes) (o : Z) (kv : ShmKeyValue.t) :
  h !! o = Some kv -> FastMap.key_matches kv key (compute_hash key) = true ->
  matches_at h key o = true.
Proof. intros Hkv Hm. unfold matches_at. rewrite Hkv. exact Hm. Qed.

Lemma off_not_in_chain (m : FastMap.t) (first last off : Z) (l : list Z) :
  dlist ShmKeyValue.next_offset ShmKeyValue.prev_offset (FastMap.heap m) first l last ->
  FastMap.heap m !! off = None -> off ∉ l.
Proof.
  intros [Hd _] Hfresh Hin.
  destruct (dseg_allocated _ _ _ _ _ _ _ _ off Hd Hin) as [x Hx]. congruence.
Qed.

(** A new record at the head of the chain. *)
Lemma add_new_entry_rewrites (alloc : Z -> option Z) (now : Z) (m : FastMap.t) (idx : Z)
      (key value : bytes) (ttl : Z) (l : list Z) (bucket : ShmBucket.t) (last off : Z) :
  FastMap.buckets m !! Z.to_nat idx = Some bucket ->
  dlist ShmKeyValue.next_offset ShmKeyValue.prev_offset (FastMap.heap m)
        (ShmBucket.head_offset bucket) l last ->
  alloc (ShmKeyValue.total_size (size_of key) (size_of value)) = Some off ->
  0 <= off -> FastMap.heap m !! off = None ->
  size_of key < 2 ^ 32 ->
  exists m1,
    FastMap.add_new_entry alloc now m idx key value ttl = Ret m1
    /\ rewrites_chain key m m1 idx [] [] [off] l
    /\ FastMap.heap m1 !! off
       = Some (new_entry now key value ttl NULL_OFFSET (ShmBucket.head_offset bucket))
    /\ (forall o, o <> off -> FastMap.heap m !! o = None -> FastMap.heap m1 !! o = None).
Proof.
  intros Hb Hdl Halloc Hoff Hfresh Hk32.
  destruct (add_new_entry_spec alloc now m idx key value ttl l bucket last off
              Hb Hdl Halloc Hoff Hfresh)
    as (m1 & Hrun & Hframe & Hcont & Hbc & Hshape & Hat & Hdom).
  exists m1. split; [exact Hrun |]. split; [| split; assumption].
  pose proof (off_not_in_chain m _ _ off l Hdl Hfresh) as Hnotin.
  split; [exact Hshape |]. split; [exact Hbc |]. split; [exact Hframe |].
  split; [| split; [| split]].
  - intros o Ho. apply Hcont. intros ->. contradiction.
  - intros o Ho. apply list_elem_of_singleton in Ho as ->. right. exact Hfresh.
  - apply Forall_nil_2.
  - apply Forall_singleton. eapply matches_at_Some; [exact Hat |].
    apply new_entry_has_key. exact Hk32.
Qed.

(** A record rewritten where it stands, links and key kept. *)
Lemma in_place_rewrites (key : bytes) (m : FastMap.t) (idx : Z) (l1 : list Z) (e : Z)
      (l2 : list Z) (rec rec' : ShmKeyValue.t) :
  bucket_shape m idx (l1 ++ e :: l2) ->
  FastMap.heap m !! e = Some rec ->
  FastMap.key_matches rec key (compute_hash key) = true ->
  FastMap.key_matches rec' key (compute_hash key) = true ->
  ShmKeyValue.next_offset rec' = ShmKeyValue.next_offset rec ->
  ShmKeyValue.prev_offset rec' = ShmKeyValue.prev_offset rec ->
  rewrites_chain key m (FastMap.set_heap (<[e := rec']> (FastMap.heap m)) m) idx
                 l1 [e] [e] l2.
Proof.
  intros (bucket & last & Hb & [Hd Hnd]) Hrec Hm Hm' Hnx Hpv.
  destruct (NoDup_middle _ _ _ Hnd) as (_ & _ & He1 & He2 & _).
  split; [| split; [reflexivity | split; [| split; [| split; [| split]]]]].
  - exists bucket, last. msimpl. split; [exact Hb |]. split; [| exact Hnd].
    eapply dseg_ext; [| exact Hd]. intros o n Ho Hn.
    destruct (decide (o = e)) as [-> | Hne].
    + rewrite Hrec in Hn. injection Hn as <-.
      exists rec'. split; [apply lookup_insert_eq |]. split; assumption.
    + exists n. rewrite lookup_insert_ne by congruence. auto.
  - split; [reflexivity |]. split; [reflexivity |].
    intros o Ho _. msimpl. apply lookup_insert_ne. intros <-. apply Ho.
    apply elem_of_app. right. left.
  - intros o Ho. msimpl. apply kv_same_content_insert_ne. intros ->.
    apply elem_of_app in Ho as [Ho | Ho]; contradiction.
  - intros o Ho. left. exact Ho.
  - apply Forall_singleton. eapply matches_at_Some; eassumption.
  - apply Forall_singleton. msimpl. eapply matches_at_Some; [apply lookup_insert_eq | exact Hm'].
Qed.

(** A record replaced by a new one in the same place. *)
Lemma reallocate_rewrites (alloc : Z -> option Z) (now : Z) (m : FastMap.t) (idx : Z)
      (l1 : list Z) (e : Z) (l2 : list Z) (bucket : ShmBucket.t) (last : Z)
      (key value : bytes) (ttl off : Z) (rec : ShmKeyValue.t) :
  FastMap.buckets m !! Z.to_nat idx = Some bucket ->
  dlist ShmKeyValue.next_offset ShmKeyValue.prev_offset (FastMap.heap m)
        (ShmBucket.head_offset bucket) (l1 ++ e :: l2) last ->
  alloc (ShmKeyValue.total_size (size_of key) (size_of value)) = Some off ->
  0 <= off -> FastMap.heap m !! off = None ->
  size_of key < 2 ^ 32 ->
  FastMap.heap m !! e = Some rec ->
  FastMap.key_matches rec key (compute_hash key) = true ->
  exists m1 p n,
    FastMap.reallocate alloc now m idx e key value ttl = Ret m1
    /\ rewrites_chain key m m1 idx l1 [e] [off] l2
    /\ FastMap.heap m1 !! off = Some (new_entry now key value ttl p n)
    /\ (forall o, o <> off -> FastMap.heap m !! o = None -> FastMap.heap m1 !! o = None).
Proof.
  intros Hb Hdl Halloc Hoff Hfresh Hk32 Hrec Hm.
  destruct (reallocate_spec alloc now m idx l1 e l2 bucket last key value ttl off
              Hb Hdl Halloc Hoff Hfresh)
    as (m1 & p & n & Hrun & Hframe & Hshape & Hat & Hfree & Hcont & Hhd & Hst).
  pose proof (off_not_in_chain m _ _ off _ Hdl Hfresh) as Hnotin.
  pose proof Hdl as [_ Hnd].
  destruct (NoDup_middle _ _ _ Hnd) as (_ & _ & He1 & He2 & _).
  exists m1, p, n. split; [exact Hrun |]. split; [| split; [exact Hat |]].
  - split; [exact Hshape |]. split; [rewrite Hhd; reflexivity |]. split; [exact Hframe |].
    split; [| split; [| split]].
    + intros o Ho. apply Hcont.
      * intros ->. apply elem_of_app in Ho as [Ho | Ho]; contradiction.
      * intros ->. apply Hnotin. apply elem_of_app in Ho as [Ho | Ho];
          apply elem_of_app; [left | right; right]; exact Ho.
    + intros o Ho. apply list_elem_of_singleton in Ho as ->. right. exact Hfresh.
    + apply Forall_singleton. eapply matches_at_Some; eassumption.
    + apply Forall_singleton. eapply matches_at_Some; [exact Hat |].
      apply new_entry_has_key. exact Hk32.
  - intros o Hno Hnone. destruct (decide (o = e)) as [-> | Hne]; [exact Hfree |].
    specialize (Hcont o Hne Hno). unfold kv_same_content in Hcont.
    rewrite Hnone in Hcont. simpl in Hcont.
    destruct (FastMap.heap m1 !! o); [discriminate | reflexivity].
Qed.

(** A record taken out of the chain. *)
Lemma remove_rewrites (key : bytes) (m : FastMap.t) (idx : Z) (l1 : list Z) (e : Z)
      (l2 : list Z) (bucket : ShmBucket.t) (last : Z) (rec : ShmKeyValue.t) :
  FastMap.buckets m !! Z.to_nat idx = Some bucket ->
  dlist ShmKeyValue.next_offset ShmKeyValue.prev_offset (FastMap.heap m)
        (ShmBucket.head_offset bucket) (l1 ++ e :: l2) last ->
  FastMap.heap m !! e = Some rec ->
  FastMap.key_matches rec key (compute_hash key) = true ->
  exists m2,
    (FastMap.unlink_after m idx (last_passed l1) e ≫= fun m1 => FastMap.discard m1 idx e)
    = Ret m2
    /\ rewrites_chain key m m2 idx l1 [e] [] l2
    /\ FastMap.heap m2 !! e = None
    /\ (forall o, FastMap.heap m !! o = None -> FastMap.heap m2 !! o = None).
Proof.
  intros Hb Hdl Hrec Hm.
  destruct (remove_record_spec m idx l1 e l2 bucket last Hb Hdl)
    as (m2 & Hrun & Hframe & Hshape & Hfree & Hcont & _ & Hbc & _).
  pose proof Hdl as [_ Hnd].
  destruct (NoDup_middle _ _ _ Hnd) as (_ & _ & He1 & He2 & _).
  exists m2. split; [exact Hrun |]. split; [| split; [exact Hfree |]]; cycle 1.
  { intros o Hnone. destruct (decide (o = e)) as [-> | Hne]; [exact Hfree |].
    specialize (Hcont o Hne). unfold kv_same_content in Hcont.
    rewrite Hnone in Hcont. simpl in Hcont.
    destruct (FastMap.heap m2 !! o); [discriminate | reflexivity]. }
  split; [exact Hshape |]. split; [exact Hbc |]. split; [exact Hframe |].
  split; [| split; [| split]].
  - intros o Ho. apply Hcont. intros ->.
    apply elem_of_app in Ho as [Ho | Ho]; contradiction.
  - intros o Ho. apply elem_of_nil in Ho. contradiction.
  - apply Forall_singleton. eapply matches_at_Some; eassumption.
  - apply Forall_nil_2.
Qed.

Lemma rewrites_chain_same_store (key : bytes) (m m1 m2 : FastMap.t) (idx : Z)
      (l1 mid mid' l2 : list Z) :
  rewrites_chain key m m1 idx l1 mid mid' l2 -> same_store m1 m2 ->
  rewrites_chain key m m2 idx l1 mid mid' l2.
Proof.
  intros Hrw (Hh & Hb & Hc).
  unfold rewrites_chain, frame_outside, bucket_shape in *.
  rewrite Hh, Hb, Hc. exact Hrw.
Qed.

(** After a rewriting of the chain in which the record at [o] has the
    key and no record before it has, [o] is the first match. *)
Lemma first_match_after_rewrite (h h' : gmap Z ShmKeyValue.t) (key : bytes)
      (l1 : list Z) (o : Z) (l2 : list Z) :
  (forall x, x ∈ l1 -> kv_same_content h h' x) ->
  key_absent h key l1 ->
  matches_at h' key o = true ->
  first_match h' key (l1 ++ [o] ++ l2) = Some o.
Proof.
  intros Hc Habs Hm. rewrite first_match_app.
  rewrite (first_match_content h h' key l1 Hc).
  apply first_match_none in Habs. rewrite Habs. simpl. rewrite Hm. reflexivity.
Qed.

(** The bucket of a key and its chain, in a well-linked map. *)
Lemma map_shape_bucket (m : FastMap.t) (chains : Z -> list Z) (key : bytes) :
  map_shape m chains ->
  0 <= FastMap.get_bucket m (compute_hash key)
    < HashTableHeader.bucket_count (FastMap.header m)
  /\ (length (chains (FastMap.get_bucket m (compute_hash key)))
      <= size (FastMap.heap m))%nat
  /\ exists bucket last,
      FastMap.buckets m !! Z.to_nat (FastMap.get_bucket m (compute_hash key)) = Some bucket
      /\ dlist ShmKeyValue.next_offset ShmKeyValue.prev_offset (FastMap.heap m)
               (ShmBucket.head_offset bucket)
               (chains (FastMap.get_bucket m (compute_hash key))) last.
Proof.
  intros (Hlen & Hbc & Hshapes & Hdisj).
  pose proof (get_bucket_range m (compute_hash key) Hbc) as Hidx.
  split; [exact Hidx |]. split.
  - eapply bucket_shape_length. apply Hshapes. exact Hidx.
  - exact (Hshapes _ Hidx).
Qed.

(** ** The operations of the map, on a well-linked map *)

(** [put]: the map stays well linked and keeps what it holds for the
    other keys; for its own key, the first record of the chain that has
    it holds the value put. *)
Lemma put_effect (fuel : nat) (alloc : Z -> option Z) (now : Z) (m : FastMap.t)
      (chains : Z -> list Z) (key value : bytes) (ttl off : Z) :
  map_shape m chains ->
  size_of key < 2 ^ 32 ->
  (size (FastMap.heap m) < fuel)%nat ->
  alloc (ShmKeyValue.total_size (size_of key) (size_of value)) = Some off ->
  0 <= off -> FastMap.heap m !! off = None ->
  exists b m' chains',
    FastMap.put fuel alloc now m (Some key) value ttl = Ret (b, m')
    /\ preserves_other_keys key m m' chains chains'
    /\ (forall o, o <> off -> FastMap.heap m !! o = None -> FastMap.heap m' !! o = None)
    /\ (size_of key <> 0 -> size_of value < 2 ^ 32 ->
        b = true
        /\ exists e rec,
            first_match (FastMap.heap m') key
                        (chains' (FastMap.get_bucket m' (compute_hash key))) = Some e
            /\ FastMap.heap m' !! e = Some rec
            /\ FastMap.read_value rec = value
            /\ ShmEntry.state (ShmKeyValue.entry rec) = ShmEntry.STATE_VALID
            /\ ShmEntry.expires_at (ShmKeyValue.entry rec)
               = (if ttl <? 0 then 0 else wrap64 (now + wrap64 (ttl * 1000000000)))).
Proof.
  intros Hshape Hk32 Hfuel Halloc Hoff Hfresh.
  destruct (map_shape_bucket m chains key Hshape) as (Hidx & Hlenl & bucket & last & Hb & Hdl).
  unfold FastMap.put.
  destruct (Z.eqb_spec (size_of key) 0) as [Hz | Hnz].
  { exists false, m, chains. split; [reflexivity |].
    split; [apply same_store_preserves; [exact Hshape | apply same_store_refl] |].
    split; [auto |]. intros Hc. contradiction. }
  cbv zeta. rewrite (bucket_at_Some _ _ _ Hb), bind_Ret.
  destruct (first_match_split (FastMap.heap m) key _ _ (dlist_chain _ _ _ _ _ _ Hdl))
    as [Habs | (l1 & e & l2 & rec & Hl & Habs & Hrec & Hm)].
  - (* no record has the key *)
    unfold FastMap.find_in_bucket.
    rewrite (FastMap_find_loop_absent _ key _ fuel _ None
               (dlist_chain _ _ _ _ _ _ Hdl) Habs ltac:(lia)), bind_Ret.
    cbv beta iota.
    destruct (add_new_entry_rewrites alloc now m _ key value ttl _ bucket last off
                Hb Hdl Halloc Hoff Hfresh Hk32) as (m1 & -> & Hrw & Hat & Hdom).
    rewrite bind_Ret.
    exists true, m1,
      (chains_with chains (FastMap.get_bucket m (compute_hash key))
                   ([] ++ [off] ++ chains (FastMap.get_bucket m (compute_hash key)))).
    split; [reflexivity |].
    split; [exact (rewrites_chain_preserves key m m1 chains _ [] [] [off] _
                     Hshape Hidx eq_refl Hrw) |].
    split; [exact Hdom |].
    intros _ Hv32. split; [reflexivity |].
    pose proof Hrw as (_ & Hbc' & _).
    rewrite (get_bucket_same_header m m1 _ Hbc'). unfold chains_with.
    rewrite decide_True by reflexivity.
    destruct (new_entry_written now key value ttl NULL_OFFSET (ShmBucket.head_offset bucket)
                Hk32 Hv32) as (Hm' & Hr & Hs & He & _ & _).
    eexists off, _. split; [| split; [exact Hat | repeat split; assumption]].
    simpl. rewrite (matches_at_Some _ _ _ _ Hat Hm'). reflexivity.
  - (* the record at [e] is the first that has the key *)
    rewrite Hl in Hdl, Hlenl.
    assert (Hf1 : (length l1 < fuel)%nat) by (rewrite length_app in Hlenl; lia).
    rewrite (find_in_bucket_found fuel m bucket key l1 e l2 rec last Hdl Habs Hrec Hm Hf1).
    rewrite bind_Ret. cbv beta iota.
    rewrite (deref_Some _ _ _ Hrec), bind_Ret.
    pose proof Hdl as [_ Hnd].
    destruct (NoDup_middle _ _ _ Hnd) as (_ & _ & He1 & _ & _).
    destruct (Z.eqb_spec (ShmKeyValue.value_size rec) (size_of value)) as [Hsame | Hdiff].
    + (* same size: update in place *)
      rewrite (update_Some _ _ _ _ Hrec), !bind_Ret.
      destruct (update_in_place_written now rec key value ttl Hm Hsame)
        as (Hm' & Hr & Hs & He & Hnx & Hpv).
      assert (Hrw : rewrites_chain key m
                      (FastMap.touch now
                         (FastMap.set_heap
                            (<[e := FastMap.update_in_place now key value ttl rec]>
                               (FastMap.heap m)) m))
                      (FastMap.get_bucket m (compute_hash key)) l1 [e] [e] l2).
      { eapply rewrites_chain_same_store; [| apply same_store_touch].
        apply (in_place_rewrites key m _ l1 e l2 rec); try assumption.
        exists bucket, last. split; assumption. }
      eexists true, _, (chains_with chains (FastMap.get_bucket m (compute_hash key))
                                    (l1 ++ [e] ++ l2)).
      split; [reflexivity |].
      split; [exact (rewrites_chain_preserves key m _ chains _ l1 [e] [e] l2
                       Hshape Hidx Hl Hrw) |].
      split.
      { intros o Hno Hnone. msimpl. destruct (decide (o = e)) as [-> | Hne]; [congruence |].
        rewrite lookup_insert_ne by congruence. exact Hnone. }
      intros _ Hv32. split; [reflexivity |].
      erewrite get_bucket_same_header by reflexivity. unfold chains_with.
      rewrite decide_True by reflexivity. msimpl.
      eexists e, _. split; [| split; [apply lookup_insert_eq | repeat split; assumption]].
      apply (first_match_after_rewrite (FastMap.heap m)); [| exact Habs |].
      * intros x Hx. apply kv_same_content_insert_ne. intros ->. contradiction.
      * eapply matches_at_Some; [apply lookup_insert_eq | exact Hm'].
    + (* another size: a new record in the same place *)
      destruct (reallocate_rewrites alloc now m _ l1 e l2 bucket last key value ttl off rec
                  Hb Hdl Halloc Hoff Hfresh Hk32 Hrec Hm)
        as (m1 & p & n & -> & Hrw & Hat & Hdom).
      rewrite bind_Ret.
      pose proof Hrw as (_ & Hbc' & _ & Hcont & _).
      eexists true, _, (chains_with chains (FastMap.get_bucket m (compute_hash key))
                                    (l1 ++ [off] ++ l2)).
      split; [reflexivity |].
      split; [exact (rewrites_chain_preserves key m _ chains _ l1 [e] [off] l2
                       Hshape Hidx Hl
                       (rewrites_chain_same_store key m m1 _ _ _ _ _ _ Hrw
                          (same_store_touch now m1))) |].
      split; [exact Hdom |].
      intros _ Hv32. split; [reflexivity |].
      destruct (new_entry_written now key value ttl p n Hk32 Hv32)
        as (Hm' & Hr & Hs & He & _ & _).
      erewrite (get_bucket_same_header m (FastMap.touch now m1)) by exact Hbc'.
      unfold chains_with. rewrite decide_True by reflexivity. msimpl.
      eexists off, _. split; [| split; [exact Hat | repeat split; assumption]].
      apply (first_match_after_rewrite (FastMap.heap m)); [| exact Habs |].
      * intros x Hx. apply Hcont. apply elem_of_app. left. exact Hx.
      * eapply matches_at_Some; [exact Hat | exact Hm'].
Qed.

(** On a well-linked chain, the record's own [prev_offset] is the
    predecessor that [find_in_bucket] reports: the unlinking of
    [putIfAbsent] is that of [remove]. *)
Lemma unlink_by_offsets_eq (m : FastMap.t) (idx : Z) (l1 : list Z) (e : Z) (l2 : list Z)
      (first last : Z) :
  dlist ShmKeyValue.next_offset ShmKeyValue.prev_offset (FastMap.heap m)
        first (l1 ++ e :: l2) last ->
  FastMap.unlink_by_offsets m idx e = FastMap.unlink_after m idx (last_passed l1) e.
Proof.
  intros [Hd _]. apply dseg_app in Hd as (j & jn & Hd1 & Hd2).
  destruct Hd2 as (-> & He & rec & Hrec & Hprev & Hd2).
  unfold FastMap.unlink_by_offsets, FastMap.unlink_after.
  rewrite (deref_Some _ _ _ Hrec), !bind_Ret. cbv zeta. rewrite Hprev.
  destruct (dseg_prefix_cases _ _ _ _ _ _ Hd1)
    as [(-> & Hlp & _ & ->) | (_ & Hlp & _ & Hjpos & _)]; rewrite Hlp.
  - change (0 <=? NULL_OFFSET) with false. reflexivity.
  - replace (0 <=? j) with true by (symmetry; apply Z.leb_le; exact Hjpos). reflexivity.
Qed.

Lemma replace_in_place_keeps (now : Z) (kv : ShmKeyValue.t) (key value : bytes) (ttl : Z) :
  FastMap.key_matches kv key (compute_hash key) = true ->
  let r := FastMap.replace_in_place now key value ttl kv in
  FastMap.key_matches r key (compute_hash key) = true
  /\ ShmKeyValue.next_offset r = ShmKeyValue.next_offset kv
  /\ ShmKeyValue.prev_offset r = ShmKeyValue.prev_offset kv.
Proof.
  intros Hm r. subst r.
  apply key_matches_iff in Hm as (Hh & Hks & Hpre).
  assert (Hdata : memcpy_at (ShmKeyValue.data kv) (size_of key) value
                  = key ++ value
                    ++ drop (length key + length value) (ShmKeyValue.data kv)).
  { unfold memcpy_at. rewrite size_of_to_nat, Hpre. reflexivity. }
  split; [| split; reflexivity].
  apply key_matches_iff. simpl. rewrite Hdata.
  repeat split; try assumption. apply take_app_length.
Qed.

Lemma remove_effect (fuel : nat) (now : Z) (m : FastMap.t) (chains : Z -> list Z)
      (key : bytes) (out : option bytes) :
  map_shape m chains ->
  (size (FastMap.heap m) < fuel)%nat ->
  exists b out' m' chains',
    FastMap.remove fuel now m (Some key) out = Ret (b, out', m')
    /\ preserves_other_keys key m m' chains chains'.
Proof.
  intros Hshape Hfuel.
  destruct (map_shape_bucket m chains key Hshape) as (Hidx & Hlenl & bucket & last & Hb & Hdl).
  pose proof (same_store_preserves key m m chains Hshape (same_store_refl m)) as Hnone.
  unfold FastMap.remove.
  destruct (Z.eqb_spec (size_of key) 0) as [Hz | Hnz].
  { exists false, out, m, chains. split; [reflexivity | exact Hnone]. }
  cbv zeta. rewrite (bucket_at_Some _ _ _ Hb), bind_Ret.
  destruct (first_match_split (FastMap.heap m) key _ _ (dlist_chain _ _ _ _ _ _ Hdl))
    as [Habs | (l1 & e & l2 & rec & Hl & Habs & Hrec & Hm)].
  - unfold FastMap.find_in_bucket.
    rewrite (FastMap_find_loop_absent _ key _ fuel _ None
               (dlist_chain _ _ _ _ _ _ Hdl) Habs ltac:(lia)), bind_Ret.
    cbv beta iota.
    exists false, out, m, chains. split; [reflexivity | exact Hnone].
  - rewrite Hl in Hdl, Hlenl.
    assert (Hf1 : (length l1 < fuel)%nat) by (rewrite length_app in Hlenl; lia).
    rewrite (find_in_bucket_found fuel m bucket key l1 e l2 rec last Hdl Habs Hrec Hm Hf1).
    rewrite bind_Ret. cbv beta iota.
    rewrite (deref_Some _ _ _ Hrec), bind_Ret.
    destruct (remove_rewrites key m _ l1 e l2 bucket last rec Hb Hdl Hrec Hm)
      as (m2 & Hrun & Hrw & _).
    destruct (FastMap.unlink_after m _ (last_passed l1) e) as [m1 | |] eqn:Hu;
      try discriminate Hrun.
    rewrite bind_Ret in Hrun. rewrite bind_Ret, Hrun, bind_Ret.
    eexists true, _, (FastMap.stamp now m2),
      (chains_with chains (FastMap.get_bucket m (compute_hash key)) (l1 ++ [] ++ l2)).
    split; [reflexivity |].
    exact (rewrites_chain_preserves key m _ chains _ l1 [e] [] l2 Hshape Hidx Hl
             (rewrites_chain_same_store key m m2 _ _ _ _ _ _ Hrw (same_store_stamp now m2))).
Qed.

Lemma remove_expected_effect (fuel : nat) (now : Z) (m : FastMap.t) (chains : Z -> list Z)
      (key expected : bytes) :
  map_shape m chains ->
  (size (FastMap.heap m) < fuel)%nat ->
  exists b m' chains',
    FastMap.remove_expected fuel now m (Some key) expected = Ret (b, m')
    /\ preserves_other_keys key m m' chains chains'.
Proof.
  intros Hshape Hfuel.
  destruct (map_shape_bucket m chains key Hshape) as (Hidx & Hlenl & bucket & last & Hb & Hdl).
  pose proof (same_store_preserves key m m chains Hshape (same_store_refl m)) as Hnone.
  unfold FastMap.remove_expected.
  destruct (Z.eqb_spec (size_of key) 0) as [Hz | Hnz].
  { exists false, m, chains. split; [reflexivity | exact Hnone]. }
  cbv zeta. rewrite (bucket_at_Some _ _ _ Hb), bind_Ret.
  destruct (first_match_split (FastMap.heap m) key _ _ (dlist_chain _ _ _ _ _ _ Hdl))
    as [Habs | (l1 & e & l2 & rec & Hl & Habs & Hrec & Hm)].
  - unfold FastMap.find_in_bucket.
    rewrite (FastMap_find_loop_absent _ key _ fuel _ None
               (dlist_chain _ _ _ _ _ _ Hdl) Habs ltac:(lia)), bind_Ret.
    cbv beta iota.
    exists false, m, chains. split; [reflexivity | exact Hnone].
  - rewrite Hl in Hdl, Hlenl.
    assert (Hf1 : (length l1 < fuel)%nat) by (rewrite length_app in Hlenl; lia).
    rewrite (find_in_bucket_found fuel m bucket key l1 e l2 rec last Hdl Habs Hrec Hm Hf1).
    rewrite bind_Ret. cbv beta iota.
    rewrite (deref_Some _ _ _ Hrec), bind_Ret.
    destruct (negb (ShmEntry.is_alive now (ShmKeyValue.entry rec)));
      [exists false, m, chains; split; [reflexivity | exact Hnone] |].
    destruct (negb (ShmKeyValue.value_size rec =? size_of expected)
              || negb (memcmp_eq (ShmKeyValue.value_data rec) expected (size_of expected)));
      [exists false, m, chains; split; [reflexivity | exact Hnone] |].
    destruct (remove_rewrites key m _ l1 e l2 bucket last rec Hb Hdl Hrec Hm)
      as (m2 & Hrun & Hrw & _).
    destruct (FastMap.unlink_after m _ (last_passed l1) e) as [m1 | |] eqn:Hu;
      try discriminate Hrun.
    rewrite bind_Ret in Hrun. rewrite bind_Ret, Hrun, bind_Ret.
    eexists true, (FastMap.stamp now m2),
      (chains_with chains (FastMap.get_bucket m (compute_hash key)) (l1 ++ [] ++ l2)).
    split; [reflexivity |].
    exact (rewrites_chain_preserves key m _ chains _ l1 [e] [] l2 Hshape Hidx Hl
             (rewrites_chain_same_store key m m2 _ _ _ _ _ _ Hrw (same_store_stamp now m2))).
Qed.

Lemma replace_effect (fuel : nat) (alloc : Z -> option Z) (now : Z) (m : FastMap.t)
      (chains : Z -> list Z) (key value : bytes) (ttl off : Z) :
  map_shape m chains ->
  size_of key < 2 ^ 32 ->
  (size (FastMap.heap m) < fuel)%nat ->
  alloc (ShmKeyValue.total_size (size_of key) (size_of value)) = Some off ->
  0 <= off -> FastMap.heap m !! off = None ->
  exists b m' chains',
    FastMap.replace fuel alloc now m (Some key) value ttl = Ret (b, m')
    /\ preserves_other_keys key m m' chains chains'.
Proof.
  intros Hshape Hk32 Hfuel Halloc Hoff Hfresh.
  destruct (map_shape_bucket m chains key Hshape) as (Hidx & Hlenl & bucket & last & Hb & Hdl).
  pose proof (same_store_preserves key m m chains Hshape (same_store_refl m)) as Hnone.
  unfold FastMap.replace.
  destruct (Z.eqb_spec (size_of key) 0) as [Hz | Hnz].
  { exists false, m, chains. split; [reflexivity | exact Hnone]. }
  cbv zeta. rewrite (bucket_at_Some _ _ _ Hb), bind_Ret.
  destruct (first_match_split (FastMap.heap m) key _ _ (dlist_chain _ _ _ _ _ _ Hdl))
    as [Habs | (l1 & e & l2 & rec & Hl & Habs & Hrec & Hm)].
  - unfold FastMap.find_in_bucket.
    rewrite (FastMap_find_loop_absent _ key _ fuel _ None
               (dlist_chain _ _ _ _ _ _ Hdl) Habs ltac:(lia)), bind_Ret.
    cbv beta iota.
    exists false, m, chains. split; [reflexivity | exact Hnone].
  - rewrite Hl in Hdl, Hlenl.
    assert (Hf1 : (length l1 < fuel)%nat) by (rewrite length_app in Hlenl; lia).
    rewrite (find_in_bucket_found fuel m bucket key l1 e l2 rec last Hdl Habs Hrec Hm Hf1).
    rewrite bind_Ret. cbv beta iota.
    rewrite (deref_Some _ _ _ Hrec), bind_Ret.
    destruct (negb (ShmEntry.is_alive now (ShmKeyValue.entry rec)));
      [exists false, m, chains; split; [reflexivity | exact Hnone] |].
    destruct (ShmKeyValue.value_size rec =? size_of value).
    + rewrite (update_Some _ _ _ _ Hrec), !bind_Ret.
      destruct (replace_in_place_keeps now rec key value ttl Hm) as (Hm' & Hnx & Hpv).
      eexists true, _,
        (chains_with chains (FastMap.get_bucket m (compute_hash key)) (l1 ++ [e] ++ l2)).
      split; [reflexivity |].
      refine (rewrites_chain_preserves key m _ chains _ l1 [e] [e] l2 Hshape Hidx Hl
                (rewrites_chain_same_store key m _ _ _ _ _ _ _ _ (same_store_touch now _))).
      apply (in_place_rewrites key m _ l1 e l2 rec); try assumption.
      exists bucket, last. split; assumption.
    + destruct (reallocate_rewrites alloc now m _ l1 e l2 bucket last key value ttl off rec
                  Hb Hdl Halloc Hoff Hfresh Hk32 Hrec Hm)
        as (m1 & p & n & -> & Hrw & _).
      rewrite bind_Ret.
      eexists true, _,
        (chains_with chains (FastMap.get_bucket m (compute_hash key)) (l1 ++ [off] ++ l2)).
      split; [reflexivity |].
      exact (rewrites_chain_preserves key m _ chains _ l1 [e] [off] l2 Hshape Hidx Hl
               (rewrites_chain_same_store key m m1 _ _ _ _ _ _ Hrw (same_store_touch now m1))).
Qed.

Lemma get_same_store (fuel : nat) (now : Z) (m m' : FastMap.t) (key : buffer)
      (out out' : bytes) (b : bool) :
  FastMap.get fuel now m key out = Ret (b, out', m') -> same_store m m'.
Proof.
  unfold FastMap.get.
  destruct key as [k |]; [| intros [= _ _ <-]; apply same_store_refl].
  destruct (size_of k =? 0); [intros [= _ _ <-]; apply same_store_refl |].
  cbv zeta. destruct (FastMap.bucket_at m _) as [bucket | |]; simpl; try discriminate.
  destruct (FastMap.get_loop fuel now _ k _ _) as [[kv |] | |]; simpl; try discriminate;
    intros [= _ _ <-]; apply same_store_set_stats.
Qed.

Lemma putIfAbsent_effect (fuel : nat) (alloc : Z -> option Z) (now : Z) (m : FastMap.t)
      (chains : Z -> list Z) (key value : bytes) (ttl off : Z) :
  map_shape m chains ->
  size_of key < 2 ^ 32 ->
  (size (FastMap.heap m) < fuel)%nat ->
  alloc (ShmKeyValue.total_size (size_of key) (size_of value)) = Some off ->
  0 <= off -> FastMap.heap m !! off = None ->
  exists b m' chains',
    FastMap.putIfAbsent fuel alloc now m (Some key) value ttl = Ret (b, m')
    /\ preserves_other_keys key m m' chains chains'.
Proof.
  intros Hshape Hk32 Hfuel Halloc Hoff Hfresh.
  destruct (map_shape_bucket m chains key Hshape) as (Hidx & Hlenl & bucket & last & Hb & Hdl).
  pose proof (same_store_preserves key m m chains Hshape (same_store_refl m)) as Hnone.
  unfold FastMap.putIfAbsent.
  destruct (Z.eqb_spec (size_of key) 0) as [Hz | Hnz].
  { exists false, m, chains. split; [reflexivity | exact Hnone]. }
  cbv zeta. rewrite (bucket_at_Some _ _ _ Hb), bind_Ret.
  destruct (first_match_split (FastMap.heap m) key _ _ (dlist_chain _ _ _ _ _ _ Hdl))
    as [Habs | (l1 & e & l2 & rec & Hl & Habs & Hrec & Hm)].
  - (* no record has the key *)
    unfold FastMap.find_in_bucket.
    rewrite (FastMap_find_loop_absent _ key _ fuel _ None
               (dlist_chain _ _ _ _ _ _ Hdl) Habs ltac:(lia)), bind_Ret.
    cbv beta iota. rewrite !bind_Ret. cbv iota.
    destruct (add_new_entry_rewrites alloc now m _ key value ttl _ bucket last off
                Hb Hdl Halloc Hoff Hfresh Hk32) as (m1 & -> & Hrw & _).
    rewrite bind_Ret.
    exists true, m1,
      (chains_with chains (FastMap.get_bucket m (compute_hash key))
                   ([] ++ [off] ++ chains (FastMap.get_bucket m (compute_hash key)))).
    split; [reflexivity |].
    exact (rewrites_chain_preserves key m m1 chains _ [] [] [off] _ Hshape Hidx eq_refl Hrw).
  - (* a record has the key *)
    rewrite Hl in Hdl, Hlenl.
    assert (Hf1 : (length l1 < fuel)%nat) by (rewrite length_app in Hlenl; lia).
    rewrite (find_in_bucket_found fuel m bucket key l1 e l2 rec last Hdl Habs Hrec Hm Hf1).
    rewrite bind_Ret. cbv beta iota.
    rewrite (deref_Some _ _ _ Hrec), !bind_Ret.
    destruct (ShmEntry.is_alive now (ShmKeyValue.entry rec));
      [exists false, m, chains; split; [reflexivity | exact Hnone] |].
    rewrite (unlink_by_offsets_eq m _ l1 e l2 _ last Hdl).
    destruct (remove_rewrites key m _ l1 e l2 bucket last rec Hb Hdl Hrec Hm)
      as (m2 & Hrun & Hrw & _ & Hdom).
    destruct (FastMap.unlink_after m _ (last_passed l1) e) as [m1 | |] eqn:Hu;
      try discriminate Hrun.
    rewrite bind_Ret in Hrun. rewrite bind_Ret, Hrun, bind_Ret.
    pose proof (rewrites_chain_preserves key m m2 chains _ l1 [e] [] l2 Hshape Hidx Hl Hrw)
      as Hp1.
    pose proof Hrw as ((bucket2 & last2 & Hb2 & Hdl2) & Hbc2 & _).
    destruct (add_new_entry_rewrites alloc now m2 _ key value ttl _ bucket2 last2 off
                Hb2 Hdl2 Halloc Hoff (Hdom off Hfresh) Hk32) as (m3 & -> & Hrw3 & _).
    rewrite bind_Ret.
    eexists true, m3, _. split; [reflexivity |].
    eapply preserves_other_keys_trans; [exact Hp1 |].
    refine (rewrites_chain_preserves key m2 m3 _ _ [] [] [off] _ (proj1 Hp1) _ _ Hrw3).
    + rewrite Hbc2. exact Hidx.
    + unfold chains_with. rewrite decide_True by reflexivity. reflexivity.
Qed.

(** An operation that does not mutate the key [k] leaves the map well
    linked, and what the map holds for ever for [k] it still holds. *)
Lemma other_key_operation_keeps (k v : bytes) (m m' : FastMap.t) :
  other_key_operation k m m' ->
  (exists chains, map_shape m chains /\ holds_forever m chains k v) ->
  exists chains', map_shape m' chains' /\ holds_forever m' chains' k v.
Proof.
  intros Hop (chains & Hshape & Hh).
  destruct Hop as [fuel alloc now k' v' ttl off b Hne Hk32 Hfuel Halloc Hoff Hfresh Hrun
                  | fuel alloc now k' v' ttl off b Hne Hk32 Hfuel Halloc Hoff Hfresh Hrun
                  | fuel alloc now k' v' ttl off b Hne Hk32 Hfuel Halloc Hoff Hfresh Hrun
                  | fuel now k' out out' b Hne Hfuel Hrun
                  | fuel now k' expected b Hne Hfuel Hrun
                  | fuel now key out out' b Hrun].
  - destruct (put_effect fuel alloc now m chains k' v' ttl off
                Hshape Hk32 Hfuel Halloc Hoff Hfresh)
      as (b0 & m0 & chains' & Hrun0 & [Hs Hk] & _).
    rewrite Hrun0 in Hrun. injection Hrun as <- <-.
    exists chains'. split; [exact Hs | apply Hk; assumption].
  - destruct (putIfAbsent_effect fuel alloc now m chains k' v' ttl off
                Hshape Hk32 Hfuel Halloc Hoff Hfresh)
      as (b0 & m0 & chains' & Hrun0 & [Hs Hk]).
    rewrite Hrun0 in Hrun. injection Hrun as <- <-.
    exists chains'. split; [exact Hs | apply Hk; assumption].
  - destruct (replace_effect fuel alloc now m chains k' v' ttl off
                Hshape Hk32 Hfuel Halloc Hoff Hfresh)
      as (b0 & m0 & chains' & Hrun0 & [Hs Hk]).
    rewrite Hrun0 in Hrun. injection Hrun as <- <-.
    exists chains'. split; [exact Hs | apply Hk; assumption].
  - destruct (remove_effect fuel now m chains k' out Hshape Hfuel)
      as (b0 & out0 & m0 & chains' & Hrun0 & [Hs Hk]).
    rewrite Hrun0 in Hrun. injection Hrun as <- <- <-.
    exists chains'. split; [exact Hs | apply Hk; assumption].
  - destruct (remove_expected_effect fuel now m chains k' expected Hshape Hfuel)
      as (b0 & m0 & chains' & Hrun0 & [Hs Hk]).
    rewrite Hrun0 in Hrun. injection Hrun as <- <-.
    exists chains'. split; [exact Hs | apply Hk; assumption].
  - pose proof (get_same_store _ _ _ _ _ _ _ _ Hrun) as Hsame.
    exists chains. split.
    + eapply map_shape_same_store; eassumption.
    + eapply holds_forever_same_store; eassumption.
Qed.

Lemma other_key_operations_keep (k v : bytes) (m m' : FastMap.t) :
  rtc (other_key_operation k) m m' ->
  (exists chains, map_shape m chains /\ holds_forever m chains k v) ->
  exists chains', map_shape m' chains' /\ holds_forever m' chains' k v.
Proof.
  induction 1 as [| x y z Hstep _ IH]; [auto |].
  intros Hinv. apply IH. eapply other_key_operation_keeps; eassumption.
Qed.

(** [get] of a key for which the map holds a value for ever. *)
Lemma get_of_held_value (fuel : nat) (now : Z) (m : FastMap.t) (chains : Z -> list Z)
      (k v out : bytes) :
  size_of k <> 0 ->
  map_shape m chains -> holds_forever m chains k v ->
  (size (FastMap.heap m) < fuel)%nat ->
  exists m', FastMap.get fuel now m (Some k) out = Ret (true, v, m').
Proof.
  intros Hk Hshape (e & rec & Hfm & He & Hv & Hs & Hx) Hfuel.
  destruct (map_shape_bucket m chains k Hshape) as (Hidx & Hlenl & bucket & last & Hb & Hdl).
  destruct (first_match_Some _ _ _ _ Hfm) as (l1 & l2 & rec0 & Hl & Habs & He0 & Hm).
  rewrite He in He0. injection He0 as <-.
  rewrite Hl in Hdl, Hlenl. rewrite <- Hv.
  apply (get_first_alive_match fuel now m k out l1 e l2 rec Hk); try assumption.
  - exists bucket, last. split; assumption.
  - apply is_alive_never_expires; assumption.
  - rewrite length_app in Hlenl. lia.
Qed.

(** [put] with no expiry on a well-linked map: it returns [true], and
    the map then holds the value for ever for the key. *)
Lemma put_holds_forever (fuel : nat) (alloc : Z -> option Z) (now : Z) (m : FastMap.t)
      (chains : Z -> list Z) (k v : bytes) (off : Z) :
  size_of k <> 0 -> size_of k < 2 ^ 32 -> size_of v < 2 ^ 32 ->
  map_shape m chains ->
  (size (FastMap.heap m) < fuel)%nat ->
  alloc (ShmKeyValue.total_size (size_of k) (size_of v)) = Some off ->
  0 <= off -> FastMap.heap m !! off = None ->
  exists m1,
    FastMap.put fuel alloc now m (Some k) v TTL_INFINITE = Ret (true, m1)
    /\ (forall o, o <> off -> FastMap.heap m !! o = None -> FastMap.heap m1 !! o = None)
    /\ exists chains1, map_shape m1 chains1 /\ holds_forever m1 chains1 k v.
Proof.
  intros Hk Hk32 Hv32 Hshape Hfuel Halloc Hoff Hfresh.
  destruct (put_effect fuel alloc now m chains k v TTL_INFINITE off
              Hshape Hk32 Hfuel Halloc Hoff Hfresh)
    as (b & m1 & chains1 & Hrun & [Hs _] & Hdom & Hown).
  destruct (Hown Hk Hv32) as (-> & e & rec & Hfm & He & Hr & Hst & Hx).
  exists m1. split; [exact Hrun |]. split; [exact Hdom |].
  exists chains1. split; [exact Hs |].
  exists e, rec. repeat split; assumption.
Qed.

(** A map that was just created is well linked: its chains are empty. *)
Lemma create_shape (now bucket_count : Z) :
  0 < bucket_count < 2 ^ 32 ->
  map_shape (FastMap.create now bucket_count) (fun _ => []).
Proof.
  intros Hbc. unfold FastMap.create, HashTableHeader.init, map_shape. msimpl.
  replace (0 <? bucket_count) with true by (symmetry; apply Z.ltb_lt; lia).
  rewrite length_replicate, Z2Nat.id by lia.
  split; [reflexivity |]. split; [exact Hbc |]. split.
  - intros idx Hidx. exists ShmBucket.init, NULL_OFFSET. msimpl. split.
    + apply lookup_replicate_2. lia.
    + split; [split; reflexivity | apply NoDup_nil_2].
  - intros i j o _ _ Ho. apply elem_of_nil in Ho. contradiction.
Qed.

(** C7.  On a well-linked map, with an allocator that returns a free
    block, [put(k, v)] with no expiry returns [true].  After it, and
    after any number of operations that do not mutate [k] ([put],
    [putIfAbsent], [replace] and [remove] on other keys, [get] on any
    key), [get(k)] returns [true] and the bytes [v], at any instant; and
    a second [put(k, v2)] with no expiry, whatever the length of [v2],
    returns [true], after which, and after any number of operations that
    do not mutate [k], [get(k)] returns [true] and the bytes [v2]. *)
Theorem get_returns_the_value_of_the_last_put
        (fuel : nat) (alloc : Z -> option Z) (now : Z) (m : FastMap.t)
        (chains : Z -> list Z) (k v : bytes) (off : Z) :
  size_of k <> 0 -> size_of k < 2 ^ 32 -> size_of v < 2 ^ 32 ->
  map_shape m chains ->
  (size (FastMap.heap m) < fuel)%nat ->
  alloc (ShmKeyValue.total_size (size_of k) (size_of v)) = Some off ->
  0 <= off -> FastMap.heap m !! off = None ->
  exists m1,
    FastMap.put fuel alloc now m (Some k) v TTL_INFINITE = Ret (true, m1)
    /\ forall m2,
        rtc (other_key_operation k) m1 m2 ->
        (forall fuel2 now2 out,
            (size (FastMap.heap m2) < fuel2)%nat ->
            exists m', FastMap.get fuel2 now2 m2 (Some k) out = Ret (true, v, m'))
        /\ (forall fuel2 alloc2 now2 v2 off2,
               size_of v2 < 2 ^ 32 ->
               (size (FastMap.heap m2) < fuel2)%nat ->
               alloc2 (ShmKeyValue.total_size (size_of k) (size_of v2)) = Some off2 ->
               0 <= off2 -> FastMap.heap m2 !! off2 = None ->
               exists m3,
                 FastMap.put fuel2 alloc2 now2 m2 (Some k) v2 TTL_INFINITE = Ret (true, m3)
                 /\ forall m4,
                     rtc (other_key_operation k) m3 m4 ->
                     forall fuel4 now4 out,
                       (size (FastMap.heap m4) < fuel4)%nat ->
                       exists m', FastMap.get fuel4 now4 m4 (Some k) out
                                  = Ret (true, v2, m')).
Proof.
  intros Hk Hk32 Hv32 Hshape Hfuel Halloc Hoff Hfresh.
  destruct (put_holds_forever fuel alloc now m chains k v off
              Hk Hk32 Hv32 Hshape Hfuel Halloc Hoff Hfresh)
    as (m1 & Hput & _ & Hinv1).
  exists m1. split; [exact Hput |].
  intros m2 Hsteps.
  destruct (other_key_operations_keep k v m1 m2 Hsteps Hinv1) as (chains2 & Hshape2 & Hh2).
  split.
  - intros fuel2 now2 out Hfuel2.
    exact (get_of_held_value fuel2 now2 m2 chains2 k v out Hk Hshape2 Hh2 Hfuel2).
  - intros fuel2 alloc2 now2 v2 off2 Hv2 Hfuel2 Halloc2 Hoff2 Hfresh2.
    destruct (put_holds_forever fuel2 alloc2 now2 m2 chains2 k v2 off2
                Hk Hk32 Hv2 Hshape2 Hfuel2 Halloc2 Hoff2 Hfresh2)
      as (m3 & Hput3 & _ & Hinv3).
    exists m3. split; [exact Hput3 |].
    intros m4 Hsteps4 fuel4 now4 out Hfuel4.
    destruct (other_key_operations_keep k v2 m3 m4 Hsteps4 Hinv3)
      as (chains4 & Hshape4 & Hh4).
    exact (get_of_held_value fuel4 now4 m4 chains4 k v2 out Hk Hshape4 Hh4 Hfuel4).
Qed.

Lemma get_returns_the_value_of_the_last_put_witness :
  exists m' m'',
    FastMap.put 8 (fun _ => Some 64) 100 (FastMap.create 100 4)
                (Some (payload "k")) (payload "v1") TTL_INFINITE = Ret (true, map_k)
    /\ FastMap.get 8 200 map_k_j (Some (payload "k")) [] = Ret (true, payload "v1", m')
    /\ FastMap.put 8 (fun _ => Some 256) 150 map_k_j
                   (Some (payload "k")) (payload "value2") TTL_INFINITE = Ret (true, map_k2)
    /\ FastMap.get 8 300 map_k2 (Some (payload "k")) [] = Ret (true, payload "value2", m'').
Proof.
  assert (Hk : size_of (payload "k") <> 0) by (vm_compute; discriminate).
  assert (Hk32 : size_of (payload "k") < 2 ^ 32) by (vm_compute; reflexivity).
  assert (Hv32 : size_of (payload "v1") < 2 ^ 32) by (vm_compute; reflexivity).
  assert (Hshape : map_shape (FastMap.create 100 4) (fun _ => []))
    by (apply create_shape; lia).
  assert (Hfuel : (size (FastMap.heap (FastMap.create 100 4)) < 8)%nat)
    by (vm_compute; lia).
  assert (Hfresh : FastMap.heap (FastMap.create 100 4) !! 64 = None) by reflexivity.
  destruct (get_returns_the_value_of_the_last_put
              8 (fun _ => Some 64) 100 (FastMap.create 100 4) (fun _ => [])
              (payload "k") (payload "v1") 64
              Hk Hk32 Hv32 Hshape Hfuel eq_refl ltac:(lia) Hfresh)
    as (m1 & Hput & Hafter).
  assert (Hrun : FastMap.put 8 (fun _ => Some 64) 100 (FastMap.create 100 4)
                             (Some (payload "k")) (payload "v1") TTL_INFINITE
                 = Ret (true, map_k)) by (vm_compute; reflexivity).
  rewrite Hrun in Hput. apply Ret_pair_inj in Hput. subst m1.
  assert (Hsteps : rtc (other_key_operation (payload "k")) map_k map_k_j).
  { eapply rtc_l.
    { apply (other_key_put _ map_k map_k_c 8 (fun _ => Some 128) 110
                           (payload "c") (payload "w") TTL_INFINITE 128 true);
        [ vm_compute; discriminate | vm_compute; reflexivity | vm_compute; lia
        | reflexivity | lia | vm_compute; reflexivity | vm_compute; reflexivity ]. }
    eapply rtc_l.
    { apply (other_key_put _ map_k_c map_k_c_j 8 (fun _ => Some 192) 120
                           (payload "j") (payload "x") 5 192 true);
        [ vm_compute; discriminate | vm_compute; reflexivity | vm_compute; lia
        | reflexivity | lia | vm_compute; reflexivity | vm_compute; reflexivity ]. }
    eapply rtc_l; [| apply rtc_refl].
    apply (other_key_remove _ map_k_c_j map_k_j 8 130 (payload "c") None None true);
      [ vm_compute; discriminate | vm_compute; lia | vm_compute; reflexivity ]. }
  destruct (Hafter map_k_j Hsteps) as [Hget Hagain].
  destruct (Hget 8%nat 200 [] ltac:(vm_compute; lia)) as (m' & Hg).
  assert (Hv2 : size_of (payload "value2") < 2 ^ 32) by (vm_compute; reflexivity).
  assert (Hfresh2 : FastMap.heap map_k_j !! 256 = None) by (vm_compute; reflexivity).
  destruct (Hagain 8%nat (fun _ => Some 256) 150 (payload "value2") 256 Hv2
                   ltac:(vm_compute; lia) eq_refl ltac:(lia) Hfresh2)
    as (m3 & Hput3 & Hafter3).
  assert (Hrun3 : FastMap.put 8 (fun _ => Some 256) 150 map_k_j
                              (Some (payload "k")) (payload "value2") TTL_INFINITE
                  = Ret (true, map_k2)) by (vm_compute; reflexivity).
  rewrite Hrun3 in Hput3. apply Ret_pair_inj in Hput3. subst m3.
  destruct (Hafter3 map_k2 (rtc_refl _ _) 8%nat 300 [] ltac:(vm_compute; lia)) as (m'' & Hg3).
  exists m', m''. repeat split; assumption.
Defined.

(* ===================================================================== *)
(** * Further properties of the entries and of the layout *)
(* ===================================================================== *)

(** An entry stamped with a time to live of [ttl >= 0] seconds and then
    marked Valid. *)
Lemma stamped_entry_lifetime (now ttl t : Z) (e0 : ShmEntry.t) :
  0 < now -> 0 <= ttl -> now + ttl * 1000000000 < 2 ^ 64 ->
  let e := ShmEntry.mark_valid (ShmEntry.set_ttl now ttl e0) in
  ShmEntry.is_alive t e = (t <? now + ttl * 1000000000)
  /\ ShmEntry.is_expired t e = (now + ttl * 1000000000 <=? t)
  /\ ShmEntry.remaining_ttl_seconds t e
     = (if now + ttl * 1000000000 <=? t then 0
        else (now + ttl * 1000000000 - t) / 1000000000).
Proof.
  intros Hnow Httl Hno e. subst e.
  unfold ShmEntry.is_alive, ShmEntry.is_expired, ShmEntry.remaining_ttl_seconds,
    ShmEntry.is_valid, ShmEntry.mark_valid, ShmEntry.set_state, ShmEntry.set_ttl.
  cbn [ShmEntry.state ShmEntry.expires_at ShmEntry.ttl_seconds].
  replace (ttl <? 0) with false by (symmetry; apply Z.ltb_ge; lia).
  rewrite (wrap64_small (ttl * 1000000000)) by lia.
  rewrite (wrap64_small (now + ttl * 1000000000)) by lia.
  replace (now + ttl * 1000000000 =? 0) with false by (symmetry; apply Z.eqb_neq; lia).
  change (ShmEntry.STATE_VALID =? ShmEntry.STATE_EXPIRED) with false.
  change (ShmEntry.STATE_VALID =? ShmEntry.STATE_VALID) with true.
  cbn [negb]. repeat split.
Qed.

(** X1.  A node or a key-value record written at instant [now > 0] with
    a time to live of [ttl >= 0] seconds (the sum [now + ttl * 10^9]
    fitting 64 bits) is alive at every instant before
    [now + ttl * 10^9] nanoseconds and at no instant from then on; it is
    expired exactly from that instant on; the remaining time to live read
    at the instant of the write is [ttl], and it is 0 once the record is
    expired. *)
Theorem a_record_lives_for_its_time_to_live
        (now ttl t : Z) (node : ShmNode.t) (kv : ShmKeyValue.t) (data key value : bytes) :
  0 < now -> 0 <= ttl -> now + ttl * 1000000000 < 2 ^ 64 ->
  let en := ShmNode.entry (SerializationUtil.copy_to_node now node data ttl) in
  let ek := ShmKeyValue.entry (SerializationUtil.copy_to_kv now kv key value ttl) in
  (ShmEntry.is_alive t en = true <-> t < now + ttl * 1000000000)
  /\ (ShmEntry.is_expired t en = true <-> now + ttl * 1000000000 <= t)
  /\ ShmEntry.remaining_ttl_seconds now en = ttl
  /\ (now + ttl * 1000000000 <= t -> ShmEntry.remaining_ttl_seconds t en = 0)
  /\ (ShmEntry.is_alive t ek = true <-> t < now + ttl * 1000000000)
  /\ (ShmEntry.is_expired t ek = true <-> now + ttl * 1000000000 <= t)
  /\ ShmEntry.remaining_ttl_seconds now ek = ttl
  /\ (now + ttl * 1000000000 <= t -> ShmEntry.remaining_ttl_seconds t ek = 0).
Proof.
  intros Hnow Httl Hno en ek.
  assert (Hrem : forall e0,
             ShmEntry.remaining_ttl_seconds now
               (ShmEntry.mark_valid (ShmEntry.set_ttl now ttl e0)) = ttl).
  { intros e0.
    destruct (stamped_entry_lifetime now ttl now e0 Hnow Httl Hno) as (_ & _ & ->).
    destruct (Z.leb_spec (now + ttl * 1000000000) now) as [Hle | Hgt].
    - lia.
    - replace (now + ttl * 1000000000 - now) with (ttl * 1000000000) by lia.
      apply Z.div_mul. lia. }
  assert (Hall : forall e0,
             let e := ShmEntry.mark_valid (ShmEntry.set_ttl now ttl e0) in
             (ShmEntry.is_alive t e = true <-> t < now + ttl * 1000000000)
             /\ (ShmEntry.is_expired t e = true <-> now + ttl * 1000000000 <= t)
             /\ ShmEntry.remaining_ttl_seconds now e = ttl
             /\ (now + ttl * 1000000000 <= t -> ShmEntry.remaining_ttl_seconds t e = 0)).
  { intros e0 e. subst e.
    destruct (stamped_entry_lifetime now ttl t e0 Hnow Httl Hno) as (-> & -> & ->).
    split; [apply Z.ltb_lt |]. split; [apply Z.leb_le |]. split; [apply Hrem |].
    intros Hle. apply Z.leb_le in Hle. rewrite Hle. reflexivity. }
  destruct (Hall (ShmEntry.set_hash_code (compute_hash data)
                    (ShmEntry.set_data_size (wrap32 (size_of data)) (ShmNode.entry node))))
    as (H1 & H2 & H3 & H4).
  destruct (Hall (ShmEntry.set_hash_code (compute_hash key)
                    (ShmEntry.set_data_size (wrap32 (size_of key + size_of value))
                                            (ShmKeyValue.entry kv))))
    as (H5 & H6 & H7 & H8).
  repeat split; first [apply H1 | apply H2 | apply H3 | apply H4
                      | apply H5 | apply H6 | apply H7 | apply H8].
Qed.

Lemma a_record_lives_for_its_time_to_live_witness :
  let en := ShmNode.entry (SerializationUtil.copy_to_node 100 ShmNode.init [] 5) in
  ShmEntry.is_alive 5000000099 en = true /\ ShmEntry.is_alive 5000000100 en = false.
Proof.
  intros en.
  destruct (a_record_lives_for_its_time_to_live 100 5 5000000099 ShmNode.init
              ShmKeyValue.init [] [] [] ltac:(lia) ltac:(lia) ltac:(lia))
    as (H1 & _).
  split; [apply H1; lia | reflexivity].
Defined.

(** X2.  What [copy_from_node] reads at instant [t] from a node that
    [copy_to_node] wrote at instant [now > 0] with fewer than 2^32 bytes:
    the bytes written, when the time to live is negative (no expiry) or
    [t] is before [now + ttl * 10^9]; the empty vector otherwise. *)
Theorem copy_from_node_reads_what_copy_to_node_wrote
        (now ttl t : Z) (node : ShmNode.t) (data : bytes) :
  size_of data < 2 ^ 32 ->
  0 < now -> now + ttl * 1000000000 < 2 ^ 64 ->
  SerializationUtil.copy_from_node t (SerializationUtil.copy_to_node now node data ttl)
  = if (ttl <? 0) || (t <? now + ttl * 1000000000) then data else [].
Proof.
  intros Hsz Hnow Hno.
  pose proof (size_of_nonneg data) as Hsz0.
  unfold SerializationUtil.copy_from_node.
  assert (Hd : take (Z.to_nat (ShmEntry.data_size
                                 (ShmNode.entry
                                    (SerializationUtil.copy_to_node now node data ttl))))
                    (ShmNode.data (SerializationUtil.copy_to_node now node data ttl))
               = data).
  { unfold SerializationUtil.copy_to_node. simpl.
    rewrite wrap32_small by lia. rewrite size_of_to_nat. apply firstn_all. }
  rewrite Hd.
  destruct (Z.ltb_spec ttl 0) as [Hneg | Hpos].
  - simpl.
    replace (ShmEntry.is_alive t _) with true; [reflexivity |].
    symmetry. apply is_alive_never_expires.
    + reflexivity.
    + unfold SerializationUtil.copy_to_node. simpl.
      replace (ttl <? 0) with true by (symmetry; apply Z.ltb_lt; lia). reflexivity.
  - simpl.
    destruct (stamped_entry_lifetime now ttl t
                (ShmEntry.set_hash_code (compute_hash data)
                   (ShmEntry.set_data_size (wrap32 (size_of data)) (ShmNode.entry node)))
                Hnow Hpos Hno) as (Hal & _).
    change (ShmNode.entry (SerializationUtil.copy_to_node now node data ttl))
      with (ShmEntry.mark_valid
              (ShmEntry.set_ttl now ttl
                 (ShmEntry.set_hash_code (compute_hash data)
                    (ShmEntry.set_data_size (wrap32 (size_of data)) (ShmNode.entry node))))).
    rewrite Hal. destruct (t <? now + ttl * 1000000000); reflexivity.
Qed.

Lemma copy_from_node_reads_what_copy_to_node_wrote_witness :
  SerializationUtil.copy_from_node 150
    (SerializationUtil.copy_to_node 100 ShmNode.init (payload "abc") TTL_INFINITE)
  = payload "abc".
Proof.
  exact (copy_from_node_reads_what_copy_to_node_wrote 100 TTL_INFINITE 150 ShmNode.init
           (payload "abc") ltac:(vm_compute; reflexivity) ltac:(lia)
           ltac:(vm_compute; reflexivity)).
Defined.

Lemma compute_hash_range (data : bytes) : 0 <= compute_hash data < 2 ^ 32.
Proof.
  unfold compute_hash.
  assert (H : forall acc, 0 <= acc < 2 ^ 32 ->
                0 <= fold_left (fun hash b => wrap32 (Z.lxor hash (byte_val b) * 16777619))
                               data acc < 2 ^ 32).
  { induction data as [| b data IH]; intros acc Hacc; simpl; [exact Hacc |].
    apply IH. unfold wrap32. apply Z.mod_pos_bound. lia. }
  apply H. lia.
Qed.

Lemma masked_hash (hash bucket_count : Z) :
  0 < bucket_count < 2 ^ 32 ->
  0 <= Z.land hash (wrap32 (bucket_count - 1)) < bucket_count
  /\ forall k, 0 <= k -> bucket_count = 2 ^ k ->
               Z.land hash (wrap32 (bucket_count - 1)) = hash mod bucket_count.
Proof.
  intros Hbc. rewrite wrap32_small by lia. split.
  - split; [apply Z.land_nonneg; right; lia |].
    pose proof (land_le_r hash (bucket_count - 1)). lia.
  - intros k Hk ->. rewrite <- Z.land_ones by exact Hk.
    rewrite Z.ones_equiv. reflexivity.
Qed.

(** X3.  The hash of a key fits 32 bits, and the bucket that a set or a
    map of [0 < bucket_count < 2^32] buckets chooses for it is an index
    of the bucket array; when the number of buckets is a power of two,
    it is the hash modulo the number of buckets. *)
Theorem the_bucket_of_a_key_is_in_the_array
        (key : bytes) (m : FastMap.t) (s : FastSet.t) (bucket_count : Z) :
  0 < bucket_count < 2 ^ 32 ->
  HashTableHeader.bucket_count (FastMap.header m) = bucket_count ->
  HashTableHeader.bucket_count (FastSet.header s) = bucket_count ->
  0 <= compute_hash key < 2 ^ 32
  /\ 0 <= SerializationUtil.bucket_index (compute_hash key) bucket_count < bucket_count
  /\ FastMap.get_bucket m (compute_hash key)
     = SerializationUtil.bucket_index (compute_hash key) bucket_count
  /\ FastSet.get_bucket s (compute_hash key)
     = SerializationUtil.bucket_index (compute_hash key) bucket_count
  /\ forall k, 0 <= k -> bucket_count = 2 ^ k ->
               SerializationUtil.bucket_index (compute_hash key) bucket_count
               = compute_hash key mod bucket_count.
Proof.
  intros Hbc Hm Hs.
  destruct (masked_hash (compute_hash key) bucket_count Hbc) as [Hr Hp].
  split; [apply compute_hash_range |]. split; [exact Hr |].
  split; [unfold FastMap.get_bucket; rewrite Hm; reflexivity |].
  split; [unfold FastSet.get_bucket; rewrite Hs; reflexivity |].
  exact Hp.
Qed.

Lemma the_bucket_of_a_key_is_in_the_array_witness :
  FastMap.get_bucket (FastMap.create 100 4) (compute_hash (payload "k"))
  = compute_hash (payload "k") mod 4.
Proof.
  destruct (the_bucket_of_a_key_is_in_the_array (payload "k") (FastMap.create 100 4)
              (FastSet.create 100 4) 4 ltac:(lia) eq_refl eq_refl)
    as (_ & _ & Hm & _ & Hp).
  rewrite Hm. apply (Hp 2); [lia | reflexivity].
Defined.

(** X4.  The block requested for a node of [n] payload bytes, or for a
    key-value record whose key and value have [n] bytes together, is a
    multiple of 64 bytes that holds the 128 bytes of the record header
    and the [n] bytes, with fewer than 64 bytes to spare. *)
Theorem a_block_is_aligned_and_holds_the_record (n ks vs : Z) :
  0 <= n -> n + 191 < 2 ^ 64 -> ks + vs = n ->
  ShmNode.total_size n mod 64 = 0
  /\ sizeof_ShmNode + n <= ShmNode.total_size n < sizeof_ShmNode + n + 64
  /\ ShmKeyValue.total_size ks vs = ShmNode.total_size n.
Proof.
  intros Hn Hmax Hsum.
  assert (Hal : forall b, 0 <= b -> b + 63 < 2 ^ 64 ->
                  align64 b = 64 * ((b + 63) / 64)).
  { intros b Hb Hb64. unfold align64. rewrite wrap64_small by lia.
    unfold SIZE_MAX.
    replace (Z.lxor (2 ^ 64 - 1) 63) with (Z.shiftl (Z.ones 58) 6) by reflexivity.
    replace (64 * ((b + 63) / 64)) with (Z.shiftl (Z.shiftr (b + 63) 6) 6).
    2:{ rewrite Z.shiftl_mul_pow2, Z.shiftr_div_pow2 by lia.
        change (2 ^ 6) with 64. lia. }
    apply Z.bits_inj'. intros i Hi.
    rewrite Z.land_spec, !Z.shiftl_spec by exact Hi.
    destruct (Z.ltb_spec i 6) as [Hlt | Hge].
    - rewrite !(Z.testbit_neg_r _ (i - 6)) by lia.
      apply Bool.andb_false_r.
    - rewrite Z.shiftr_spec by lia.
      replace (i - 6 + 6) with i by lia.
      destruct (Z.ltb_spec (i - 6) 58) as [Hlo | Hhi].
      + rewrite Z.ones_spec_low by lia. apply Bool.andb_true_r.
      + rewrite Z.ones_spec_high by lia. rewrite Bool.andb_false_r.
        symmetry. apply Z.bits_above_log2; [lia |].
        apply Z.log2_lt_pow2; [lia |].
        apply Z.lt_le_trans with (2 ^ 64); [lia |].
        apply Z.pow_le_mono_r; lia. }
  unfold ShmNode.total_size, ShmKeyValue.total_size, sizeof_ShmNode, sizeof_ShmKeyValue.
  rewrite (Hal (128 + n)) by lia.
  split; [| split].
  - rewrite Z.mul_comm. apply Z.mod_mul. lia.
  - pose proof (Z.div_mod (128 + n + 63) 64 ltac:(lia)) as Hdm.
    pose proof (Z.mod_pos_bound (128 + n + 63) 64 ltac:(lia)) as Hmb. lia.
  - rewrite <- Hsum, Z.add_assoc. apply Hal; lia.
Qed.

Lemma a_block_is_aligned_and_holds_the_record_witness :
  ShmNode.total_size 1 mod 64 = 0 /\ ShmKeyValue.total_size 1 0 = ShmNode.total_size 1.
Proof.
  destruct (a_block_is_aligned_and_holds_the_record 1 1 0 ltac:(lia) ltac:(lia) eq_refl)
    as (H1 & _ & H3).
  split; assumption.
Defined.

(* ===================================================================== *)
(** * Further properties of the map *)
(* ===================================================================== *)

(** The loops of [containsKey] and [getTTL] are the loop of [get]. *)
Lemma containsKey_loop_get_loop (fuel : nat) (now : Z) (h : gmap Z ShmKeyValue.t)
      (key : bytes) (hash current : Z) :
  FastMap.containsKey_loop fuel now h key hash current
  = (found ← FastMap.get_loop fuel now h key hash current;
     Ret (match found with Some _ => true | None => false end)).
Proof.
  revert current. induction fuel as [| fuel IH]; intros current; simpl; [reflexivity |].
  destruct (current <? 0); [reflexivity |].
  destruct (deref h current) as [kv | |]; simpl; try reflexivity.
  destruct (ShmEntry.is_alive now (ShmKeyValue.entry kv) && FastMap.key_matches kv key hash);
    [reflexivity | apply IH].
Qed.

Lemma getTTL_loop_get_loop (fuel : nat) (now : Z) (h : gmap Z ShmKeyValue.t)
      (key : bytes) (hash current : Z) :
  FastMap.getTTL_loop fuel now h key hash current
  = (found ← FastMap.get_loop fuel now h key hash current;
     Ret (match found with
          | Some kv => ShmEntry.remaining_ttl_seconds now (ShmKeyValue.entry kv)
          | None => 0
          end)).
Proof.
  revert current. induction fuel as [| fuel IH]; intros current; simpl; [reflexivity |].
  destruct (current <? 0); [reflexivity |].
  destruct (deref h current) as [kv | |]; simpl; try reflexivity.
  destruct (ShmEntry.is_alive now (ShmKeyValue.entry kv) && FastMap.key_matches kv key hash);
    [reflexivity | apply IH].
Qed.

(** The record that the loop of [get] returns is alive. *)
Lemma get_loop_alive (fuel : nat) (now : Z) (h : gmap Z ShmKeyValue.t)
      (key : bytes) (hash current : Z) (kv : ShmKeyValue.t) :
  FastMap.get_loop fuel now h key hash current = Ret (Some kv) ->
  ShmEntry.is_alive now (ShmKeyValue.entry kv) = true.
Proof.
  revert current. induction fuel as [| fuel IH]; intros current; simpl; [discriminate |].
  destruct (current <? 0); [discriminate |].
  destruct (deref h current) as [r | |]; simpl; try discriminate.
  destruct (ShmEntry.is_alive now (ShmKeyValue.entry r)) eqn:Hal; simpl.
  - destruct (FastMap.key_matches r key hash); [| apply IH].
    intros [= <-]. exact Hal.
  - apply IH.
Qed.

Lemma remaining_ttl_of_alive (now : Z) (e : ShmEntry.t) :
  ShmEntry.is_alive now e = true -> -1 <= ShmEntry.remaining_ttl_seconds now e.
Proof.
  unfold ShmEntry.is_alive, ShmEntry.remaining_ttl_seconds.
  destruct (negb (ShmEntry.is_valid e)); [discriminate |].
  destruct (ShmEntry.ttl_seconds e <? 0); [lia |].
  destruct (ShmEntry.expires_at e =? 0); [lia |].
  intros Hlt. apply Z.ltb_lt in Hlt.
  replace (ShmEntry.expires_at e <=? now) with false by (symmetry; apply Z.leb_gt; lia).
  assert (0 <= (ShmEntry.expires_at e - now) / 1000000000)
    by (apply Z.div_pos; lia).
  lia.
Qed.

(** X5.  On any map, at any instant and for any key, [containsKey]
    returns the flag that [get] returns (and fails when [get] fails);
    [getTTL] returns 0 when [get] does not find the key, and a number of
    seconds, or -1 for a record without expiry, when [get] finds it. *)
Theorem containsKey_and_getTTL_follow_get
        (fuel : nat) (now : Z) (m : FastMap.t) (key : buffer) (out : bytes) :
  FastMap.containsKey fuel now m key
  = ('(found, _, _) ← FastMap.get fuel now m key out; Ret found)
  /\ (forall out' m', FastMap.get fuel now m key out = Ret (false, out', m') ->
                      FastMap.getTTL fuel now m key = Ret 0)
  /\ (forall out' m', FastMap.get fuel now m key out = Ret (true, out', m') ->
                      exists ttl, FastMap.getTTL fuel now m key = Ret ttl /\ -1 <= ttl).
Proof.
  unfold FastMap.containsKey, FastMap.getTTL, FastMap.get.
  destruct key as [k |];
    [| split; [reflexivity | split; [reflexivity | discriminate]]].
  destruct (size_of k =? 0);
    [split; [reflexivity | split; [reflexivity | discriminate]] |].
  cbv zeta.
  destruct (FastMap.bucket_at m (FastMap.get_bucket m (compute_hash k))) as [bucket | |];
    simpl; try (split; [reflexivity | split; discriminate]).
  rewrite containsKey_loop_get_loop, getTTL_loop_get_loop.
  destruct (FastMap.get_loop fuel now (FastMap.heap m) k (compute_hash k)
                             (ShmBucket.head_offset bucket)) as [[kv |] | |] eqn:Hloop;
    simpl; (split; [reflexivity | split]); try discriminate; try reflexivity.
  intros _ _ _. eexists. split; [reflexivity |].
  apply remaining_ttl_of_alive. eapply get_loop_alive. exact Hloop.
Qed.

(** [get] on a chain in which no record has the key. *)
Lemma FastMap_get_loop_absent (now : Z) (h : gmap Z ShmKeyValue.t) (key : bytes)
      (l : list Z) (fuel : nat) (p : Z) :
  chain ShmKeyValue.next_offset h p l ->
  key_absent h key l ->
  (length l < fuel)%nat ->
  FastMap.get_loop fuel now h key (compute_hash key) p = Ret None.
Proof.
  intros Hc Habs Hf. apply (FastMap_get_loop_none now h key l fuel p Hc); [| exact Hf].
  eapply Forall_impl; [exact Habs |].
  intros o Ho kv Hkv. rewrite (Ho kv Hkv). apply andb_false_r.
Qed.

(** X6.  On a well-linked map, for a key that no record of the chain of
    its bucket has: [get] returns [false] and leaves the caller's vector
    as it was, [containsKey] returns [false], [getTTL] returns 0 and
    [getOrDefault] the default value; the two [remove], [replace] and
    [setTTL] return [false] and leave the map exactly as it was. *)
Theorem a_key_without_record_is_not_found
        (fuel : nat) (alloc : Z -> option Z) (now : Z) (m : FastMap.t)
        (chains : Z -> list Z) (k out expected v d : bytes) (oout : option bytes)
        (ttl : Z) :
  map_shape m chains ->
  (size (FastMap.heap m) < fuel)%nat ->
  first_match (FastMap.heap m) k (chains (FastMap.get_bucket m (compute_hash k))) = None ->
  (exists m', FastMap.get fuel now m (Some k) out = Ret (false, out, m')
              /\ same_store m m')
  /\ FastMap.containsKey fuel now m (Some k) = Ret false
  /\ FastMap.getTTL fuel now m (Some k) = Ret 0
  /\ (exists m', FastMap.getOrDefault fuel now m (Some k) d = Ret (d, m')
                 /\ same_store m m')
  /\ FastMap.remove fuel now m (Some k) oout = Ret (false, oout, m)
  /\ FastMap.remove_expected fuel now m (Some k) expected = Ret (false, m)
  /\ FastMap.replace fuel alloc now m (Some k) v ttl = Ret (false, m)
  /\ FastMap.setTTL fuel now m (Some k) ttl = Ret (false, m).
Proof.
  intros Hshape Hfuel Hnone.
  destruct (map_shape_bucket m chains k Hshape) as (Hidx & Hlenl & bucket & last & Hb & Hdl).
  apply first_match_none in Hnone.
  pose proof (dlist_chain _ _ _ _ _ _ Hdl) as Hc.
  assert (Hlen : (length (chains (FastMap.get_bucket m (compute_hash k))) < fuel)%nat)
    by lia.
  assert (Hget : forall o, exists m',
               FastMap.get fuel now m (Some k) o = Ret (false, o, m') /\ same_store m m').
  { intros o. unfold FastMap.get.
    destruct (size_of k =? 0); [exists m; split; [reflexivity | apply same_store_refl] |].
    cbv zeta. rewrite (bucket_at_Some _ _ _ Hb), bind_Ret.
    rewrite (FastMap_get_loop_absent now _ k _ fuel _ Hc Hnone Hlen), bind_Ret.
    eexists. split; [reflexivity | apply same_store_set_stats]. }
  assert (Hfind : FastMap.find_in_bucket fuel m bucket k (compute_hash k)
                  = Ret (None, last_passed
                                 (chains (FastMap.get_bucket m (compute_hash k))))).
  { unfold FastMap.find_in_bucket.
    rewrite (FastMap_find_loop_absent _ k _ fuel _ None Hc Hnone Hlen).
    rewrite from_option_Some_None. reflexivity. }
  split; [apply Hget |].
  split.
  { unfold FastMap.containsKey. destruct (size_of k =? 0); [reflexivity |].
    cbv zeta. rewrite (bucket_at_Some _ _ _ Hb), bind_Ret.
    rewrite containsKey_loop_get_loop.
    rewrite (FastMap_get_loop_absent now _ k _ fuel _ Hc Hnone Hlen). reflexivity. }
  split.
  { unfold FastMap.getTTL. destruct (size_of k =? 0); [reflexivity |].
    cbv zeta. rewrite (bucket_at_Some _ _ _ Hb), bind_Ret.
    rewrite getTTL_loop_get_loop.
    rewrite (FastMap_get_loop_absent now _ k _ fuel _ Hc Hnone Hlen). reflexivity. }
  split.
  { destruct (Hget []) as (m' & Hg & Hs). exists m'. unfold FastMap.getOrDefault.
    rewrite Hg. split; [reflexivity | exact Hs]. }
  split.
  { unfold FastMap.remove. destruct (size_of k =? 0); [reflexivity |].
    cbv zeta. rewrite (bucket_at_Some _ _ _ Hb), bind_Ret, Hfind. reflexivity. }
  split.
  { unfold FastMap.remove_expected. destruct (size_of k =? 0); [reflexivity |].
    cbv zeta. rewrite (bucket_at_Some _ _ _ Hb), bind_Ret, Hfind. reflexivity. }
  split.
  { unfold FastMap.replace. destruct (size_of k =? 0); [reflexivity |].
    cbv zeta. rewrite (bucket_at_Some _ _ _ Hb), bind_Ret, Hfind. reflexivity. }
  unfold FastMap.setTTL. destruct (size_of k =? 0); [reflexivity |].
  cbv zeta. rewrite (bucket_at_Some _ _ _ Hb), bind_Ret, Hfind. reflexivity.
Qed.

Lemma a_key_without_record_is_not_found_witness :
  FastMap.remove 8 200 (FastMap.create 100 4) (Some (payload "c")) (Some [])
  = Ret (false, Some [], FastMap.create 100 4)
  /\ FastMap.getTTL 8 200 (FastMap.create 100 4) (Some (payload "c")) = Ret 0.
Proof.
  destruct (a_key_without_record_is_not_found 8 (fun _ => None) 200 (FastMap.create 100 4)
              (fun _ => []) (payload "c") [] [] [] [] (Some []) 0
              (create_shape 100 4 ltac:(lia)) ltac:(vm_compute; lia) eq_refl)
    as (_ & _ & Httl & _ & Hrm & _).
  split; assumption.
Defined.

(** ** The records of a chain that have a key *)

Lemma records_with_key_app (h : gmap Z ShmKeyValue.t) (key : bytes) (l1 l2 : list Z) :
  records_with_key h key (l1 ++ l2)
  = (records_with_key h key l1 + records_with_key h key l2)%nat.
Proof. unfold records_with_key. rewrite filter_app, length_app. reflexivity. Qed.

Lemma records_with_key_cons (h : gmap Z ShmKeyValue.t) (key : bytes) (o : Z) (l : list Z) :
  records_with_key h key (o :: l)
  = ((if matches_at h key o then 1 else 0) + records_with_key h key l)%nat.
Proof.
  unfold records_with_key. destruct (matches_at h key o) eqn:Hm.
  - rewrite filter_cons_True by exact Hm. reflexivity.
  - rewrite filter_cons_False by (rewrite Hm; discriminate). reflexivity.
Qed.

Lemma records_with_key_absent (h : gmap Z ShmKeyValue.t) (key : bytes) (l : list Z) :
  records_with_key h key l = 0%nat <-> key_absent h key l.
Proof.
  rewrite <- first_match_none.
  induction l as [| o l IH]; [split; reflexivity |].
  rewrite records_with_key_cons. simpl.
  destruct (matches_at h key o); [split; [lia | discriminate] |].
  simpl. exact IH.
Qed.

Lemma records_with_key_has_key (h : gmap Z ShmKeyValue.t) (key : bytes) (l : list Z) :
  has_key h key l -> records_with_key h key l = length l.
Proof.
  intros Hk. induction Hk as [| o l Ho _ IH]; [reflexivity |].
  rewrite records_with_key_cons, Ho, IH. reflexivity.
Qed.

Lemma records_with_key_other (h : gmap Z ShmKeyValue.t) (k k' : bytes) (l : list Z) :
  k' <> k -> has_key h k' l -> records_with_key h k l = 0%nat.
Proof.
  intros Hne Hk. induction Hk as [| o l Ho _ IH]; [reflexivity |].
  rewrite records_with_key_cons, (matches_at_other_key h k k' o Hne Ho), IH. reflexivity.
Qed.

Lemma records_with_key_content (h h' : gmap Z ShmKeyValue.t) (key : bytes) (l : list Z) :
  (forall o, o ∈ l -> kv_same_content h h' o) ->
  records_with_key h' key l = records_with_key h key l.
Proof.
  induction l as [| o l IH]; intros Hc; [reflexivity |].
  rewrite !records_with_key_cons.
  rewrite (matches_at_content h h' key o) by (apply Hc; left).
  rewrite IH by (intros o' Ho'; apply Hc; right; exact Ho'). reflexivity.
Qed.

Lemma key_absent_content (h h' : gmap Z ShmKeyValue.t) (key : bytes) (l : list Z) :
  (forall o, o ∈ l -> kv_same_content h h' o) ->
  key_absent h key l -> key_absent h' key l.
Proof.
  intros Hc Habs. apply records_with_key_absent.
  rewrite (records_with_key_content h h' key l Hc).
  apply records_with_key_absent. exact Habs.
Qed.

(** In a chain that has one record at most with the key, the records
    around a record that has it do not have it. *)
Lemma only_record_with_key (h : gmap Z ShmKeyValue.t) (key : bytes)
      (l1 : list Z) (e : Z) (l2 : list Z) :
  (records_with_key h key (l1 ++ e :: l2) <= 1)%nat ->
  matches_at h key e = true ->
  key_absent h key l1 /\ key_absent h key l2.
Proof.
  intros Hone Hm. rewrite records_with_key_app, records_with_key_cons, Hm in Hone.
  split; apply records_with_key_absent; lia.
Qed.

(** [get] at instant [t], on the chain in which the record at [e] is the
    only one that has the key. *)
Lemma get_of_only_record (fuel : nat) (t : Z) (m : FastMap.t) (k out : bytes)
      (l1 : list Z) (e : Z) (l2 : list Z) (rec : ShmKeyValue.t) :
  size_of k <> 0 ->
  bucket_shape m (FastMap.get_bucket m (compute_hash k)) (l1 ++ e :: l2) ->
  key_absent (FastMap.heap m) k l1 ->
  key_absent (FastMap.heap m) k l2 ->
  FastMap.heap m !! e = Some rec ->
  FastMap.key_matches rec k (compute_hash k) = true ->
  (length (l1 ++ e :: l2) < fuel)%nat ->
  exists m',
    FastMap.get fuel t m (Some k) out
    = Ret (ShmEntry.is_alive t (ShmKeyValue.entry rec),
           if ShmEntry.is_alive t (ShmKeyValue.entry rec)
           then FastMap.read_value rec else out, m')
    /\ same_store m m'.
Proof.
  intros Hk Hshape Habs1 Habs2 Hrec Hm Hfuel.
  destruct (ShmEntry.is_alive t (ShmKeyValue.entry rec)) eqn:Hal.
  - rewrite length_app in Hfuel.
    destruct (get_first_alive_match fuel t m k out l1 e l2 rec Hk Hshape Habs1 Hrec Hm Hal
                ltac:(lia)) as (m' & Hg).
    exists m'. split; [exact Hg |]. eapply get_same_store. exact Hg.
  - destruct Hshape as (bucket & last & Hb & Hdl).
    unfold FastMap.get. rewrite (size_of_eqb_0 k Hk). cbv zeta.
    rewrite (bucket_at_Some _ _ _ Hb), bind_Ret.
    rewrite (FastMap_get_loop_none t _ k (l1 ++ e :: l2) fuel _
               (dlist_chain _ _ _ _ _ _ Hdl)); [| | exact Hfuel].
    + rewrite bind_Ret. eexists. split; [reflexivity | apply same_store_set_stats].
    + apply Forall_app. split; [| apply Forall_cons; split].
      * eapply Forall_impl; [exact Habs1 |].
        intros o Ho kv Hkv. rewrite (Ho kv Hkv). apply andb_false_r.
      * intros kv Hkv. rewrite Hrec in Hkv. injection Hkv as <-. rewrite Hal. reflexivity.
      * eapply Forall_impl; [exact Habs2 |].
        intros o Ho kv Hkv. rewrite (Ho kv Hkv). apply andb_false_r.
Qed.

(** [put] in full: the chain [l1 ++ mid ++ l2] of the bucket of the key,
    in which [mid] is the first record that has the key (or nothing, and
    then no record has it), becomes [l1 ++ [o] ++ l2], where the record
    at [o] holds the value put. *)
Lemma put_writes_one_record (fuel : nat) (alloc : Z -> option Z) (now : Z) (m : FastMap.t)
      (chains : Z -> list Z) (key value : bytes) (ttl off : Z) :
  map_shape m chains ->
  size_of key <> 0 -> size_of key < 2 ^ 32 -> size_of value < 2 ^ 32 ->
  (size (FastMap.heap m) < fuel)%nat ->
  alloc (ShmKeyValue.total_size (size_of key) (size_of value)) = Some off ->
  0 <= off -> FastMap.heap m !! off = None ->
  exists m' l1 mid o l2 rec,
    FastMap.put fuel alloc now m (Some key) value ttl = Ret (true, m')
    /\ chains (FastMap.get_bucket m (compute_hash key)) = l1 ++ mid ++ l2
    /\ key_absent (FastMap.heap m) key l1
    /\ (mid = [] /\ key_absent (FastMap.heap m) key l2 \/ exists e, mid = [e])
    /\ rewrites_chain key m m' (FastMap.get_bucket m (compute_hash key)) l1 mid [o] l2
    /\ FastMap.heap m' !! o = Some rec
    /\ FastMap.key_matches rec key (compute_hash key) = true
    /\ FastMap.read_value rec = value
    /\ ShmEntry.state (ShmKeyValue.entry rec) = ShmEntry.STATE_VALID
    /\ ShmEntry.expires_at (ShmKeyValue.entry rec)
       = (if ttl <? 0 then 0 else wrap64 (now + wrap64 (ttl * 1000000000)))
    /\ (forall x, x <> off -> FastMap.heap m !! x = None -> FastMap.heap m' !! x = None).
Proof.
  intros Hshape Hnz Hk32 Hv32 Hfuel Halloc Hoff Hfresh.
  destruct (map_shape_bucket m chains key Hshape) as (Hidx & Hlenl & bucket & last & Hb & Hdl).
  unfold FastMap.put. rewrite (size_of_eqb_0 key Hnz).
  cbv zeta. rewrite (bucket_at_Some _ _ _ Hb), bind_Ret.
  destruct (first_match_split (FastMap.heap m) key _ _ (dlist_chain _ _ _ _ _ _ Hdl))
    as [Habs | (l1 & e & l2 & rec & Hl & Habs & Hrec & Hm)].
  - (* no record has the key *)
    unfold FastMap.find_in_bucket.
    rewrite (FastMap_find_loop_absent _ key _ fuel _ None
               (dlist_chain _ _ _ _ _ _ Hdl) Habs ltac:(lia)), bind_Ret.
    cbv beta iota.
    destruct (add_new_entry_rewrites alloc now m _ key value ttl _ bucket last off
                Hb Hdl Halloc Hoff Hfresh Hk32) as (m1 & -> & Hrw & Hat & Hdom).
    rewrite bind_Ret.
    destruct (new_entry_written now key value ttl NULL_OFFSET (ShmBucket.head_offset bucket)
                Hk32 Hv32) as (Hm' & Hr & Hs & He & _ & _).
    eexists m1, [], [], off, (chains (FastMap.get_bucket m (compute_hash key))), _.
    split; [reflexivity |]. split; [reflexivity |]. split; [apply Forall_nil_2 |].
    split; [left; split; [reflexivity | exact Habs] |].
    split; [exact Hrw |]. split; [exact Hat |].
    repeat split; assumption.
  - (* the record at [e] is the first that has the key *)
    rewrite Hl in Hdl, Hlenl.
    assert (Hf1 : (length l1 < fuel)%nat) by (rewrite length_app in Hlenl; lia).
    rewrite (find_in_bucket_found fuel m bucket key l1 e l2 rec last Hdl Habs Hrec Hm Hf1).
    rewrite bind_Ret. cbv beta iota.
    rewrite (deref_Some _ _ _ Hrec), bind_Ret.
    destruct (Z.eqb_spec (ShmKeyValue.value_size rec) (size_of value)) as [Hsame | Hdiff].
    + (* same size: update in place *)
      rewrite (update_Some _ _ _ _ Hrec), !bind_Ret.
      destruct (update_in_place_written now rec key value ttl Hm Hsame)
        as (Hm' & Hr & Hs & He & Hnx & Hpv).
      assert (Hrw : rewrites_chain key m
                      (FastMap.touch now
                         (FastMap.set_heap
                            (<[e := FastMap.update_in_place now key value ttl rec]>
                               (FastMap.heap m)) m))
                      (FastMap.get_bucket m (compute_hash key)) l1 [e] [e] l2).
      { eapply rewrites_chain_same_store; [| apply same_store_touch].
        apply (in_place_rewrites key m _ l1 e l2 rec); try assumption.
        exists bucket, last. split; assumption. }
      eexists _, l1, [e], e, l2, _.
      split; [reflexivity |]. split; [exact Hl |]. split; [exact Habs |].
      split; [right; exists e; reflexivity |].
      split; [exact Hrw |].
      split; [msimpl; apply lookup_insert_eq |].
      split; [exact Hm' |]. split; [exact Hr |]. split; [exact Hs |]. split; [exact He |].
      intros x Hno Hnone. msimpl. destruct (decide (x = e)) as [-> | Hne]; [congruence |].
      rewrite lookup_insert_ne by congruence. exact Hnone.
    + (* another size: a new record in the same place *)
      destruct (reallocate_rewrites alloc now m _ l1 e l2 bucket last key value ttl off rec
                  Hb Hdl Halloc Hoff Hfresh Hk32 Hrec Hm)
        as (m1 & p & n & -> & Hrw & Hat & Hdom).
      rewrite bind_Ret.
      destruct (new_entry_written now key value ttl p n Hk32 Hv32)
        as (Hm' & Hr & Hs & He & _ & _).
      eexists _, l1, [e], off, l2, _.
      split; [reflexivity |]. split; [exact Hl |]. split; [exact Habs |].
      split; [right; exists e; reflexivity |].
      split; [exact (rewrites_chain_same_store key m m1 _ _ _ _ _ _ Hrw
                       (same_store_touch now m1)) |].
      split; [exact Hat |].
      split; [exact Hm' |]. split; [exact Hr |]. split; [exact Hs |]. split; [exact He |].
      exact Hdom.
Qed.

Lemma is_alive_valid (t : Z) (e : ShmEntry.t) :
  ShmEntry.state e = ShmEntry.STATE_VALID ->
  ShmEntry.is_alive t e = (ShmEntry.expires_at e =? 0) || (t <? ShmEntry.expires_at e).
Proof.
  intros Hs. unfold ShmEntry.is_alive, ShmEntry.is_valid. rewrite Hs.
  change (ShmEntry.STATE_VALID =? ShmEntry.STATE_VALID) with true. cbn [negb].
  destruct (ShmEntry.expires_at e =? 0); reflexivity.
Qed.

Lemma finite_expiry (now ttl : Z) :
  0 < now -> 0 <= ttl -> now + ttl * 1000000000 < 2 ^ 64 ->
  (if ttl <? 0 then 0 else wrap64 (now + wrap64 (ttl * 1000000000)))
  = now + ttl * 1000000000.
Proof.
  intros Hnow Httl Hno.
  replace (ttl <? 0) with false by (symmetry; apply Z.ltb_ge; lia).
  rewrite (wrap64_small (ttl * 1000000000)) by lia. apply wrap64_small. lia.
Qed.

(** The chain after a rewriting that leaves one record with the key, in
    a chain that had one at most: the record is the only one that has
    the key. *)
Lemma rewritten_chain_only_record (key : bytes) (m m' : FastMap.t) (idx : Z)
      (l1 mid : list Z) (o : Z) (l2 : list Z) :
  rewrites_chain key m m' idx l1 mid [o] l2 ->
  key_absent (FastMap.heap m) key l1 ->
  (mid = [] /\ key_absent (FastMap.heap m) key l2 \/ exists e, mid = [e]) ->
  (records_with_key (FastMap.heap m) key (l1 ++ mid ++ l2) <= 1)%nat ->
  bucket_shape m' idx (l1 ++ o :: l2)
  /\ key_absent (FastMap.heap m') key l1
  /\ key_absent (FastMap.heap m') key l2.
Proof.
  intros (Hshape' & _ & _ & Hcont & _ & Hk & _) Habs1 Hmid Hone.
  assert (Habs2 : key_absent (FastMap.heap m) key l2).
  { destruct Hmid as [[_ H] | [e ->]]; [exact H |].
    apply (only_record_with_key _ key l1 e l2 Hone).
    unfold has_key in Hk. rewrite Forall_singleton in Hk. exact Hk. }
  split; [exact Hshape' |]. split.
  - eapply key_absent_content; [| exact Habs1].
    intros x Hx. apply Hcont, elem_of_app. left. exact Hx.
  - eapply key_absent_content; [| exact Habs2].
    intros x Hx. apply Hcont, elem_of_app. right. exact Hx.
Qed.

(** X7.  On a well-linked map in which at most one record has the key
    [k], with an allocator that returns a free block, [put(k, v, ttl)]
    at instant [now > 0] with a time to live of [ttl >= 0] seconds
    returns [true].  On the map it gives, [get(k)] at instant [t]
    returns [true] and the bytes [v] when [t < now + ttl * 10^9]; from
    that instant on it returns [false] and leaves the caller's vector as
    it was. *)
Theorem put_binds_the_key_until_its_time_to_live_ends
        (fuel : nat) (alloc : Z -> option Z) (now : Z) (m : FastMap.t)
        (chains : Z -> list Z) (k v : bytes) (ttl off : Z) :
  size_of k <> 0 -> size_of k < 2 ^ 32 -> size_of v < 2 ^ 32 ->
  0 < now -> 0 <= ttl -> now + ttl * 1000000000 < 2 ^ 64 ->
  map_shape m chains ->
  (records_with_key (FastMap.heap m) k (chains (FastMap.get_bucket m (compute_hash k)))
   <= 1)%nat ->
  (size (FastMap.heap m) < fuel)%nat ->
  alloc (ShmKeyValue.total_size (size_of k) (size_of v)) = Some off ->
  0 <= off -> FastMap.heap m !! off = None ->
  exists m1,
    FastMap.put fuel alloc now m (Some k) v ttl = Ret (true, m1)
    /\ forall fuel2 t out,
        (size (FastMap.heap m1) < fuel2)%nat ->
        exists m',
          FastMap.get fuel2 t m1 (Some k) out
          = Ret (t <? now + ttl * 1000000000,
                 if t <? now + ttl * 1000000000 then v else out, m').
Proof.
  intros Hk Hk32 Hv32 Hnow Httl Hno Hshape Hone Hfuel Halloc Hoff Hfresh.
  destruct (put_writes_one_record fuel alloc now m chains k v ttl off
              Hshape Hk Hk32 Hv32 Hfuel Halloc Hoff Hfresh)
    as (m1 & l1 & mid & o & l2 & rec & Hput & Hl & Habs1 & Hmid & Hrw & Hrec & Hm & Hr
        & Hs & He & _).
  exists m1. split; [exact Hput |].
  intros fuel2 t out Hfuel2.
  rewrite Hl in Hone.
  destruct (rewritten_chain_only_record k m m1 _ l1 mid o l2 Hrw Habs1 Hmid Hone)
    as (Hshape1 & Ha1 & Ha2).
  pose proof Hrw as (_ & Hbc & _).
  rewrite <- (get_bucket_same_header m m1 _ Hbc) in Hshape1.
  pose proof (bucket_shape_length _ _ _ Hshape1) as Hlen.
  destruct (get_of_only_record fuel2 t m1 k out l1 o l2 rec Hk Hshape1 Ha1 Ha2 Hrec Hm
              ltac:(lia)) as (m' & Hg & _).
  exists m'. rewrite Hg.
  rewrite (is_alive_valid t _ Hs), He, (finite_expiry now ttl Hnow Httl Hno), Hr.
  replace (now + ttl * 1000000000 =? 0) with false by (symmetry; apply Z.eqb_neq; lia).
  reflexivity.
Qed.

Lemma put_binds_the_key_until_its_time_to_live_ends_witness :
  exists m1 m' m'',
    FastMap.put 8 (fun _ => Some 64) 100 (FastMap.create 100 4)
                (Some (payload "k")) (payload "v1") 5 = Ret (true, m1)
    /\ FastMap.get 8 5000000099 m1 (Some (payload "k")) [] = Ret (true, payload "v1", m')
    /\ FastMap.get 8 5000000100 m1 (Some (payload "k")) [] = Ret (false, [], m'').
Proof.
  destruct (put_binds_the_key_until_its_time_to_live_ends
              8 (fun _ => Some 64) 100 (FastMap.create 100 4) (fun _ => [])
              (payload "k") (payload "v1") 5 64
              ltac:(vm_compute; discriminate) ltac:(vm_compute; reflexivity)
              ltac:(vm_compute; reflexivity) ltac:(lia) ltac:(lia) ltac:(lia)
              (create_shape 100 4 ltac:(lia)) ltac:(vm_compute; lia)
              ltac:(vm_compute; lia) eq_refl ltac:(lia) eq_refl)
    as (m1 & Hput & Hget).
  assert (Hsize : (size (FastMap.heap m1) < 8)%nat).
  { assert (Hrun : FastMap.put 8 (fun _ => Some 64) 100 (FastMap.create 100 4)
                               (Some (payload "k")) (payload "v1") 5
                   = Ret (true, returned (FastMap.create 0 4)
                                  ('(_, m) ← FastMap.put 8 (fun _ => Some 64) 100
                                                 (FastMap.create 100 4)
                                                 (Some (payload "k")) (payload "v1") 5;
                                   Ret m)))
      by (vm_compute; reflexivity).
    rewrite Hrun in Hput. apply Ret_pair_inj in Hput. subst m1. vm_compute. lia. }
  destruct (Hget 8%nat 5000000099 [] Hsize) as (m' & Hg1).
  destruct (Hget 8%nat 5000000100 [] Hsize) as (m'' & Hg2).
  exists m1, m', m''. split; [exact Hput |]. split; [exact Hg1 | exact Hg2].
Defined.

(** The lookups of a key that no record of its chain has. *)
Lemma lookups_of_absent_key (fuel : nat) (t : Z) (m : FastMap.t) (chains : Z -> list Z)
      (k out : bytes) :
  map_shape m chains ->
  (size (FastMap.heap m) < fuel)%nat ->
  key_absent (FastMap.heap m) k (chains (FastMap.get_bucket m (compute_hash k))) ->
  (exists m', FastMap.get fuel t m (Some k) out = Ret (false, out, m')
              /\ same_store m m')
  /\ FastMap.containsKey fuel t m (Some k) = Ret false.
Proof.
  intros Hshape Hfuel Hnone.
  destruct (map_shape_bucket m chains k Hshape) as (Hidx & Hlenl & bucket & last & Hb & Hdl).
  pose proof (dlist_chain _ _ _ _ _ _ Hdl) as Hc.
  assert (Hlen : (length (chains (FastMap.get_bucket m (compute_hash k))) < fuel)%nat)
    by lia.
  split.
  - unfold FastMap.get.
    destruct (size_of k =? 0); [exists m; split; [reflexivity | apply same_store_refl] |].
    cbv zeta. rewrite (bucket_at_Some _ _ _ Hb), bind_Ret.
    rewrite (FastMap_get_loop_absent t _ k _ fuel _ Hc Hnone Hlen), bind_Ret.
    eexists. split; [reflexivity | apply same_store_set_stats].
  - unfold FastMap.containsKey. destruct (size_of k =? 0); [reflexivity |].
    cbv zeta. rewrite (bucket_at_Some _ _ _ Hb), bind_Ret.
    rewrite containsKey_loop_get_loop.
    rewrite (FastMap_get_loop_absent t _ k _ fuel _ Hc Hnone Hlen). reflexivity.
Qed.

Lemma chains_with_same (chains : Z -> list Z) (idx : Z) (l : list Z) :
  chains_with chains idx l idx = l.
Proof. unfold chains_with. apply decide_True. reflexivity. Qed.

(** X8.  On a well-linked map in which one record has the key [k], and
    that record is alive at instant [now], [remove(k, out_value)] with a
    vector to fill returns [true] and the value of the record, frees the
    record and decrements the size stored in the header; the map stays
    well linked, and on it [get(k)] and [containsKey(k)] return [false]
    at every instant. *)
Theorem remove_returns_the_value_and_unbinds_the_key
        (fuel : nat) (now : Z) (m : FastMap.t) (chains : Z -> list Z)
        (k out : bytes) (e : Z) (rec : ShmKeyValue.t) :
  size_of k <> 0 ->
  map_shape m chains ->
  (size (FastMap.heap m) < fuel)%nat ->
  (records_with_key (FastMap.heap m) k (chains (FastMap.get_bucket m (compute_hash k)))
   <= 1)%nat ->
  first_match (FastMap.heap m) k (chains (FastMap.get_bucket m (compute_hash k))) = Some e ->
  FastMap.heap m !! e = Some rec ->
  ShmEntry.is_alive now (ShmKeyValue.entry rec) = true ->
  exists m1 chains1,
    FastMap.remove fuel now m (Some k) (Some out)
    = Ret (true, Some (FastMap.read_value rec), m1)
    /\ map_shape m1 chains1
    /\ FastMap.heap m1 !! e = None
    /\ HashTableHeader.size (FastMap.header m1)
       = wrap64 (HashTableHeader.size (FastMap.header m) - 1)
    /\ forall fuel2 t o,
        (size (FastMap.heap m1) < fuel2)%nat ->
        (exists m', FastMap.get fuel2 t m1 (Some k) o = Ret (false, o, m'))
        /\ FastMap.containsKey fuel2 t m1 (Some k) = Ret false.
Proof.
  intros Hk Hshape Hfuel Hone Hfm Hrec Hal.
  destruct (map_shape_bucket m chains k Hshape) as (Hidx & Hlenl & bucket & last & Hb & Hdl).
  destruct (first_match_Some _ _ _ _ Hfm) as (l1 & l2 & rec0 & Hl & Habs1 & He0 & Hm).
  rewrite Hrec in He0. injection He0 as <-.
  rewrite Hl in Hdl, Hlenl, Hone.
  destruct (only_record_with_key _ k l1 e l2 Hone (matches_at_Some _ _ _ _ Hrec Hm))
    as [_ Habs2].
  assert (Hf1 : (length l1 < fuel)%nat) by (rewrite length_app in Hlenl; lia).
  unfold FastMap.remove. rewrite (size_of_eqb_0 k Hk). cbv zeta.
  rewrite (bucket_at_Some _ _ _ Hb), bind_Ret.
  rewrite (find_in_bucket_found fuel m bucket k l1 e l2 rec last Hdl Habs1 Hrec Hm Hf1).
  rewrite bind_Ret. cbv beta iota.
  rewrite (deref_Some _ _ _ Hrec), bind_Ret. cbv zeta. rewrite Hal.
  destruct (remove_rewrites k m _ l1 e l2 bucket last rec Hb Hdl Hrec Hm)
    as (m2 & Hrun & Hrw & Hfree & _).
  destruct (remove_record_spec m _ l1 e l2 bucket last Hb Hdl)
    as (m2' & Hrun' & _ & _ & _ & _ & Hsize & _).
  rewrite Hrun in Hrun'. injection Hrun' as <-.
  destruct (FastMap.unlink_after m _ (last_passed l1) e) as [m1 | |] eqn:Hu;
    try discriminate Hrun.
  rewrite bind_Ret in Hrun. rewrite bind_Ret, Hrun, bind_Ret.
  pose proof (rewrites_chain_same_store k m m2 _ _ _ _ _ _ Hrw (same_store_stamp now m2))
    as Hrw'.
  pose proof (map_shape_rewritten k m _ chains _ l1 [e] [] l2 Hshape Hidx Hl Hrw') as Hshape'.
  eexists (FastMap.stamp now m2), _.
  split; [reflexivity |]. split; [exact Hshape' |]. split; [exact Hfree |].
  split; [exact Hsize |].
  intros fuel2 t o Hfuel2.
  destruct (lookups_of_absent_key fuel2 t (FastMap.stamp now m2) _ k o Hshape' Hfuel2)
    as [(m' & Hg & _) Hc].
  - pose proof Hrw' as (_ & Hbc & _ & Hcont & _).
    rewrite (get_bucket_same_header m _ _ Hbc), chains_with_same.
    eapply key_absent_content; [exact Hcont |].
    apply Forall_app. split; assumption.
  - split; [exists m'; exact Hg | exact Hc].
Qed.

(** The example map in which ["k"] is bound: its one record is at
    offset 64, in the bucket of ["k"]. *)
Lemma map_k_shape :
  map_shape map_k
    (chains_with (fun _ => []) (FastMap.get_bucket map_k (compute_hash (payload "k"))) [64]).
Proof.
  assert (Hb : FastMap.get_bucket map_k (compute_hash (payload "k")) = 2)
    by (vm_compute; reflexivity).
  rewrite Hb.
  split; [vm_compute; reflexivity |]. split; [vm_compute; split; reflexivity |]. split.
  - intros idx Hidx.
    change (HashTableHeader.bucket_count (FastMap.header map_k)) with 4 in Hidx.
    assert (Hcases : idx = 0 \/ idx = 1 \/ idx = 2 \/ idx = 3) by lia.
    unfold chains_with.
    destruct Hcases as [-> | [-> | [-> | ->]]]; cbn [decide];
      (eexists _, _; split; [vm_compute; reflexivity |]; split;
       [concrete_shape | concrete_nodup]).
  - intros i j o _ _. unfold chains_with.
    destruct (decide (i = 2)) as [-> |];
      [| intros Hi; apply elem_of_nil in Hi; contradiction].
    destruct (decide (j = 2)) as [-> |]; [reflexivity |].
    intros _ Hj. apply elem_of_nil in Hj. contradiction.
Qed.

Lemma map_k_record :
  FastMap.heap map_k !! 64
  = Some (new_entry 100 (payload "k") (payload "v1") TTL_INFINITE NULL_OFFSET NULL_OFFSET).
Proof. vm_compute. reflexivity. Qed.

Lemma remove_returns_the_value_and_unbinds_the_key_witness :
  exists m1 m',
    FastMap.remove 8 200 map_k (Some (payload "k")) (Some [])
    = Ret (true, Some (payload "v1"), m1)
    /\ FastMap.get 8 300 m1 (Some (payload "k")) [] = Ret (false, [], m').
Proof.
  destruct (remove_returns_the_value_and_unbinds_the_key
              8 200 map_k _ (payload "k") [] 64 _
              ltac:(vm_compute; discriminate) map_k_shape ltac:(vm_compute; lia)
              ltac:(vm_compute; lia) ltac:(vm_compute; reflexivity) map_k_record
              ltac:(vm_compute; reflexivity))
    as (m1 & chains1 & Hrm & _ & Hfree & _ & Hget).
  assert (Hsize : (size (FastMap.heap m1) < 8)%nat).
  { assert (Hrun : FastMap.remove 8 200 map_k (Some (payload "k")) (Some [])
                   = Ret (true, Some (FastMap.read_value
                                        (new_entry 100 (payload "k") (payload "v1")
                                                   TTL_INFINITE NULL_OFFSET NULL_OFFSET)),
                          returned (FastMap.create 0 4)
                            ('(_, m) ← FastMap.remove 8 200 map_k (Some (payload "k"))
                                           (Some []);
                             Ret m)))
      by (vm_compute; reflexivity).
    pose proof (eq_trans (eq_sym Hrun) Hrm) as Heq.
    apply Ret_pair_inj in Heq. subst m1. vm_compute. lia. }
  destruct (Hget 8%nat 300 [] Hsize) as [(m' & Hg) _].
  exists m1, m'. split; [exact Hrm | exact Hg].
Defined.

(** Whether a Valid entry is alive depends on its expiry only: an entry
    that expires when an entry stamped at [now] with [ttl] does is alive
    when that one is. *)
Lemma is_alive_stamped (now ttl t : Z) (e : ShmEntry.t) :
  ShmEntry.state e = ShmEntry.STATE_VALID ->
  ShmEntry.expires_at e = (if ttl <? 0 then 0 else wrap64 (now + wrap64 (ttl * 1000000000))) ->
  ShmEntry.is_alive t e
  = ShmEntry.is_alive t (ShmEntry.mark_valid (ShmEntry.set_ttl now ttl ShmEntry.init)).
Proof.
  intros Hs He. rewrite (is_alive_valid t e Hs), He.
  rewrite (is_alive_valid t (ShmEntry.mark_valid _)) by reflexivity. reflexivity.
Qed.

(** A new entry for a key that no record of the chain has: the map stays
    well linked and [get] finds the new record while it is alive. *)
Lemma add_new_entry_binds (alloc : Z -> option Z) (now : Z) (m : FastMap.t)
      (chains : Z -> list Z) (k v : bytes) (ttl off : Z) :
  map_shape m chains ->
  size_of k <> 0 -> size_of k < 2 ^ 32 -> size_of v < 2 ^ 32 ->
  alloc (ShmKeyValue.total_size (size_of k) (size_of v)) = Some off ->
  0 <= off -> FastMap.heap m !! off = None ->
  key_absent (FastMap.heap m) k (chains (FastMap.get_bucket m (compute_hash k))) ->
  exists m1,
    FastMap.add_new_entry alloc now m (FastMap.get_bucket m (compute_hash k)) k v ttl
    = Ret m1
    /\ map_shape m1 (chains_with chains (FastMap.get_bucket m (compute_hash k))
                                 (off :: chains (FastMap.get_bucket m (compute_hash k))))
    /\ rewrites_chain k m m1 (FastMap.get_bucket m (compute_hash k)) [] [] [off]
                      (chains (FastMap.get_bucket m (compute_hash k)))
    /\ forall fuel2 t out,
        (size (FastMap.heap m1) < fuel2)%nat ->
        exists m',
          FastMap.get fuel2 t m1 (Some k) out
          = Ret (ShmEntry.is_alive t
                   (ShmEntry.mark_valid (ShmEntry.set_ttl now ttl ShmEntry.init)),
                 if ShmEntry.is_alive t
                      (ShmEntry.mark_valid (ShmEntry.set_ttl now ttl ShmEntry.init))
                 then v else out, m').
Proof.
  intros Hshape Hk Hk32 Hv32 Halloc Hoff Hfresh Habs.
  destruct (map_shape_bucket m chains k Hshape) as (Hidx & Hlenl & bucket & last & Hb & Hdl).
  destruct (add_new_entry_rewrites alloc now m _ k v ttl _ bucket last off
              Hb Hdl Halloc Hoff Hfresh Hk32) as (m1 & Hrun & Hrw & Hat & Hdom).
  exists m1. split; [exact Hrun |].
  pose proof (map_shape_rewritten k m m1 chains _ [] [] [off] _ Hshape Hidx eq_refl Hrw)
    as Hshape1.
  split; [exact Hshape1 |]. split; [exact Hrw |].
  intros fuel2 t out Hfuel2.
  destruct (new_entry_written now k v ttl NULL_OFFSET (ShmBucket.head_offset bucket)
              Hk32 Hv32) as (Hm' & Hr & Hs & He & _ & _).
  pose proof Hrw as (Hbs0 & Hbc & _ & Hcont & _).
  assert (Hbs : bucket_shape m1 (FastMap.get_bucket m1 (compute_hash k))
                             ([] ++ off :: chains (FastMap.get_bucket m (compute_hash k))))
    by (rewrite (get_bucket_same_header m m1 _ Hbc); exact Hbs0).
  pose proof (bucket_shape_length _ _ _ Hbs) as Hlen.
  destruct (get_of_only_record fuel2 t m1 k out [] off _ _ Hk Hbs (Forall_nil_2 _)
              (key_absent_content _ _ k _ Hcont Habs) Hat Hm' ltac:(simpl in *; lia))
    as (m' & Hg & _).
  exists m'. rewrite Hg, (is_alive_stamped now ttl t _ Hs He), Hr. reflexivity.
Qed.



Lemma is_alive_valid_state (t : Z) (e : ShmEntry.t) :
  ShmEntry.is_alive t e = true -> ShmEntry.state e = ShmEntry.STATE_VALID.
Proof.
  unfold ShmEntry.is_alive, ShmEntry.is_valid.
  destruct (Z.eqb_spec (ShmEntry.state e) ShmEntry.STATE_VALID) as [Hs | Hs];
    [intros _; exact Hs | discriminate].
Qed.

Lemma replace_in_place_written (now : Z) (kv : ShmKeyValue.t) (key value : bytes) (ttl : Z) :
  FastMap.key_matches kv key (compute_hash key) = true ->
  ShmKeyValue.value_size kv = size_of value ->
  let r := FastMap.replace_in_place now key value ttl kv in
  FastMap.read_value r = value
  /\ ShmEntry.state (ShmKeyValue.entry r) = ShmEntry.state (ShmKeyValue.entry kv)
  /\ ShmEntry.expires_at (ShmKeyValue.entry r)
     = (if ttl <? 0 then 0 else wrap64 (now + wrap64 (ttl * 1000000000))).
Proof.
  intros Hm Hvs r. subst r.
  apply key_matches_iff in Hm as (Hh & Hks & Hpre).
  assert (Hdata : memcpy_at (ShmKeyValue.data kv) (size_of key) value
                  = key ++ value
                    ++ drop (length key + length value) (ShmKeyValue.data kv)).
  { unfold memcpy_at. rewrite size_of_to_nat, Hpre. reflexivity. }
  split; [| split; reflexivity].
  unfold FastMap.read_value, ShmKeyValue.value_data. simpl.
  rewrite Hdata, Hks, Hvs, !size_of_to_nat.
  rewrite drop_app_length. apply take_app_length.
Qed.

(** X10.  On a well-linked map in which one record has the key [k], and
    that record is alive at instant [now], [replace(k, v, ttl)] returns
    [true], whether [v] has the length of the old value (it is written
    in place) or not (a new record takes the place of the old one); the
    map stays well linked, and on it [get(k)] returns [true] and [v] at
    the instants at which an entry stamped at [now] with [ttl] is alive,
    and [false] at the others. *)
Theorem replace_of_a_live_key_binds_the_new_value
        (fuel : nat) (alloc : Z -> option Z) (now : Z) (m : FastMap.t)
        (chains : Z -> list Z) (k v : bytes) (ttl off e : Z) (rec : ShmKeyValue.t) :
  size_of k <> 0 -> size_of k < 2 ^ 32 -> size_of v < 2 ^ 32 ->
  map_shape m chains ->
  (records_with_key (FastMap.heap m) k (chains (FastMap.get_bucket m (compute_hash k)))
   <= 1)%nat ->
  (size (FastMap.heap m) < fuel)%nat ->
  alloc (ShmKeyValue.total_size (size_of k) (size_of v)) = Some off ->
  0 <= off -> FastMap.heap m !! off = None ->
  first_match (FastMap.heap m) k (chains (FastMap.get_bucket m (compute_hash k))) = Some e ->
  FastMap.heap m !! e = Some rec ->
  ShmEntry.is_alive now (ShmKeyValue.entry rec) = true ->
  exists m1 chains1,
    FastMap.replace fuel alloc now m (Some k) v ttl = Ret (true, m1)
    /\ map_shape m1 chains1
    /\ forall fuel2 t out,
        (size (FastMap.heap m1) < fuel2)%nat ->
        exists m',
          FastMap.get fuel2 t m1 (Some k) out
          = Ret (ShmEntry.is_alive t
                   (ShmEntry.mark_valid (ShmEntry.set_ttl now ttl ShmEntry.init)),
                 if ShmEntry.is_alive t
                      (ShmEntry.mark_valid (ShmEntry.set_ttl now ttl ShmEntry.init))
                 then v else out, m').
Proof.
  intros Hk Hk32 Hv32 Hshape Hone Hfuel Halloc Hoff Hfresh Hfm Hrec Hal.
  destruct (map_shape_bucket m chains k Hshape) as (Hidx & Hlenl & bucket & last & Hb & Hdl).
  destruct (first_match_Some _ _ _ _ Hfm) as (l1 & l2 & rec0 & Hl & Habs1 & He0 & Hm).
  rewrite Hrec in He0. injection He0 as <-.
  rewrite Hl in Hdl, Hlenl, Hone.
  assert (Hf1 : (length l1 < fuel)%nat) by (rewrite length_app in Hlenl; lia).
  assert (Hend : forall m1 o r,
             rewrites_chain k m m1 (FastMap.get_bucket m (compute_hash k)) l1 [e] [o] l2 ->
             FastMap.heap m1 !! o = Some r ->
             FastMap.key_matches r k (compute_hash k) = true ->
             FastMap.read_value r = v ->
             ShmEntry.state (ShmKeyValue.entry r) = ShmEntry.STATE_VALID ->
             ShmEntry.expires_at (ShmKeyValue.entry r)
             = (if ttl <? 0 then 0 else wrap64 (now + wrap64 (ttl * 1000000000))) ->
             map_shape m1 (chains_with chains (FastMap.get_bucket m (compute_hash k))
                                       (l1 ++ [o] ++ l2))
             /\ forall fuel2 t out,
                 (size (FastMap.heap m1) < fuel2)%nat ->
                 exists m',
                   FastMap.get fuel2 t m1 (Some k) out
                   = Ret (ShmEntry.is_alive t
                            (ShmEntry.mark_valid (ShmEntry.set_ttl now ttl ShmEntry.init)),
                          if ShmEntry.is_alive t
                               (ShmEntry.mark_valid (ShmEntry.set_ttl now ttl ShmEntry.init))
                          then v else out, m')).
  { intros m1 o r Hrw Hor Hmr Hrv Hsr Her.
    split; [exact (map_shape_rewritten k m m1 chains _ l1 [e] [o] l2 Hshape Hidx Hl Hrw) |].
    intros fuel2 t out Hfuel2.
    destruct (rewritten_chain_only_record k m m1 _ l1 [e] o l2 Hrw Habs1
                ltac:(right; exists e; reflexivity) Hone) as (Hbs0 & Ha1 & Ha2).
    pose proof Hrw as (_ & Hbc & _).
    assert (Hbs : bucket_shape m1 (FastMap.get_bucket m1 (compute_hash k)) (l1 ++ o :: l2))
      by (rewrite (get_bucket_same_header m m1 _ Hbc); exact Hbs0).
    pose proof (bucket_shape_length _ _ _ Hbs) as Hlen.
    destruct (get_of_only_record fuel2 t m1 k out l1 o l2 r Hk Hbs Ha1 Ha2 Hor Hmr
                ltac:(lia)) as (m' & Hg & _).
    exists m'. rewrite Hg, (is_alive_stamped now ttl t _ Hsr Her), Hrv. reflexivity. }
  unfold FastMap.replace. rewrite (size_of_eqb_0 k Hk). cbv zeta.
  rewrite (bucket_at_Some _ _ _ Hb), bind_Ret.
  rewrite (find_in_bucket_found fuel m bucket k l1 e l2 rec last Hdl Habs1 Hrec Hm Hf1).
  rewrite bind_Ret. cbv beta iota.
  rewrite (deref_Some _ _ _ Hrec), bind_Ret, Hal. cbn [negb].
  destruct (Z.eqb_spec (ShmKeyValue.value_size rec) (size_of v)) as [Hsame | Hdiff].
  - (* same size: in place *)
    rewrite (update_Some _ _ _ _ Hrec), !bind_Ret.
    destruct (replace_in_place_keeps now rec k v ttl Hm) as (Hm' & Hnx & Hpv).
    destruct (replace_in_place_written now rec k v ttl Hm Hsame) as (Hr & Hs & He).
    rewrite (is_alive_valid_state now _ Hal) in Hs.
    assert (Hrw : rewrites_chain k m
                    (FastMap.touch now
                       (FastMap.set_heap
                          (<[e := FastMap.replace_in_place now k v ttl rec]>
                             (FastMap.heap m)) m))
                    (FastMap.get_bucket m (compute_hash k)) l1 [e] [e] l2).
    { eapply rewrites_chain_same_store; [| apply same_store_touch].
      apply (in_place_rewrites k m _ l1 e l2 rec); try assumption.
      exists bucket, last. split; assumption. }
    destruct (Hend _ e _ Hrw ltac:(msimpl; apply lookup_insert_eq) Hm' Hr Hs He)
      as [Hshape1 Hget].
    eexists _, _. split; [reflexivity |]. split; [exact Hshape1 | exact Hget].
  - (* another size: a new record *)
    destruct (reallocate_rewrites alloc now m _ l1 e l2 bucket last k v ttl off rec
                Hb Hdl Halloc Hoff Hfresh Hk32 Hrec Hm)
      as (m1 & p & n & -> & Hrw & Hat & Hdom).
    rewrite bind_Ret.
    destruct (new_entry_written now k v ttl p n Hk32 Hv32)
      as (Hm' & Hr & Hs & He & _ & _).
    destruct (Hend (FastMap.touch now m1) off _
                (rewrites_chain_same_store k m m1 _ _ _ _ _ _ Hrw (same_store_touch now m1))
                Hat Hm' Hr Hs He) as [Hshape1 Hget].
    eexists _, _. split; [reflexivity |]. split; [exact Hshape1 | exact Hget].
Qed.

Lemma replace_of_a_live_key_binds_the_new_value_witness :
  exists m1 m',
    FastMap.replace 8 (fun _ => Some 128) 200 map_k (Some (payload "k")) (payload "longer")
                    TTL_INFINITE = Ret (true, m1)
    /\ FastMap.get 8 300 m1 (Some (payload "k")) [] = Ret (true, payload "longer", m').
Proof.
  destruct (replace_of_a_live_key_binds_the_new_value
              8 (fun _ => Some 128) 200 map_k _ (payload "k") (payload "longer")
              TTL_INFINITE 128 64 _
              ltac:(vm_compute; discriminate) ltac:(vm_compute; reflexivity)
              ltac:(vm_compute; reflexivity) map_k_shape ltac:(vm_compute; lia)
              ltac:(vm_compute; lia) eq_refl ltac:(lia) ltac:(vm_compute; reflexivity)
              ltac:(vm_compute; reflexivity) map_k_record ltac:(vm_compute; reflexivity))
    as (m1 & chains1 & Hrun & _ & Hget).
  assert (Hsize : (size (FastMap.heap m1) < 8)%nat).
  { assert (Hc : FastMap.replace 8 (fun _ => Some 128) 200 map_k (Some (payload "k"))
                                 (payload "longer") TTL_INFINITE
                 = Ret (true, returned (FastMap.create 0 4)
                                ('(_, m) ← FastMap.replace 8 (fun _ => Some 128) 200 map_k
                                               (Some (payload "k")) (payload "longer")
                                               TTL_INFINITE;
                                 Ret m)))
      by (vm_compute; reflexivity).
    pose proof (eq_trans (eq_sym Hc) Hrun) as Heq.
    apply Ret_pair_inj in Heq. subst m1. vm_compute. lia. }
  destruct (Hget 8%nat 300 [] Hsize) as (m' & Hg).
  exists m1, m'. split; [exact Hrun | exact Hg].
Defined.

(** The loop of [get] at instant [t], on the chain in which the record at
    [e] is the only one that has the key. *)
Lemma get_loop_of_only_record (fuel : nat) (t : Z) (h : gmap Z ShmKeyValue.t) (k : bytes)
      (p : Z) (l1 : list Z) (e : Z) (l2 : list Z) (rec : ShmKeyValue.t) :
  chain ShmKeyValue.next_offset h p (l1 ++ e :: l2) ->
  key_absent h k l1 -> key_absent h k l2 ->
  h !! e = Some rec ->
  FastMap.key_matches rec k (compute_hash k) = true ->
  (length (l1 ++ e :: l2) < fuel)%nat ->
  FastMap.get_loop fuel t h k (compute_hash k) p
  = Ret (if ShmEntry.is_alive t (ShmKeyValue.entry rec) then Some rec else None).
Proof.
  intros Hc Habs1 Habs2 Hrec Hm Hfuel.
  destruct (ShmEntry.is_alive t (ShmKeyValue.entry rec)) eqn:Hal.
  - apply (FastMap_get_loop_found t h k l1 e l2 rec fuel p Hc Habs1 Hrec Hm Hal).
    rewrite length_app in Hfuel. lia.
  - apply (FastMap_get_loop_none t h k (l1 ++ e :: l2) fuel p Hc); [| exact Hfuel].
    apply Forall_app. split; [| apply Forall_cons; split].
    + eapply Forall_impl; [exact Habs1 |].
      intros o Ho kv Hkv. rewrite (Ho kv Hkv). apply andb_false_r.
    + intros kv Hkv. rewrite Hrec in Hkv. injection Hkv as <-. rewrite Hal. reflexivity.
    + eapply Forall_impl; [exact Habs2 |].
      intros o Ho kv Hkv. rewrite (Ho kv Hkv). apply andb_false_r.
Qed.

(** X11.  On a well-linked map in which one record has the key [k]: when
    that record is alive at instant [now], [setTTL(k, ttl)] returns
    [true] and keeps the chains of the map; afterwards [get(k)] returns
    the value the record had, at the instants at which an entry stamped
    at [now] with [ttl] is alive, and [false] at the others, and
    [getTTL(k)] returns the remaining time to live of such an entry (0
    once it is not alive).  When the record is not alive, [setTTL]
    returns [false] and leaves the map exactly as it was: it does not
    revive an expired record. *)
Theorem setTTL_restarts_the_life_of_a_live_record_only
        (fuel : nat) (now : Z) (m : FastMap.t) (chains : Z -> list Z)
        (k : bytes) (ttl e : Z) (rec : ShmKeyValue.t) :
  size_of k <> 0 ->
  map_shape m chains ->
  (records_with_key (FastMap.heap m) k (chains (FastMap.get_bucket m (compute_hash k)))
   <= 1)%nat ->
  (size (FastMap.heap m) < fuel)%nat ->
  first_match (FastMap.heap m) k (chains (FastMap.get_bucket m (compute_hash k))) = Some e ->
  FastMap.heap m !! e = Some rec ->
  (ShmEntry.is_alive now (ShmKeyValue.entry rec) = false ->
   FastMap.setTTL fuel now m (Some k) ttl = Ret (false, m))
  /\ (ShmEntry.is_alive now (ShmKeyValue.entry rec) = true ->
      exists m1,
        FastMap.setTTL fuel now m (Some k) ttl = Ret (true, m1)
        /\ map_shape m1 chains
        /\ forall fuel2 t out,
            (size (FastMap.heap m1) < fuel2)%nat ->
            let stamped := ShmEntry.mark_valid (ShmEntry.set_ttl now ttl ShmEntry.init) in
            (exists m',
                FastMap.get fuel2 t m1 (Some k) out
                = Ret (ShmEntry.is_alive t stamped,
                       if ShmEntry.is_alive t stamped then FastMap.read_value rec else out,
                       m'))
            /\ FastMap.getTTL fuel2 t m1 (Some k)
               = Ret (if ShmEntry.is_alive t stamped
                      then ShmEntry.remaining_ttl_seconds t stamped else 0)).
Proof.
  intros Hk Hshape Hone Hfuel Hfm Hrec.
  destruct (map_shape_bucket m chains k Hshape) as (Hidx & Hlenl & bucket & last & Hb & Hdl).
  destruct (first_match_Some _ _ _ _ Hfm) as (l1 & l2 & rec0 & Hl & Habs1 & He0 & Hm).
  rewrite Hrec in He0. injection He0 as <-.
  rewrite Hl in Hdl, Hlenl, Hone.
  assert (Hf1 : (length l1 < fuel)%nat) by (rewrite length_app in Hlenl; lia).
  assert (Hrun : forall b, ShmEntry.is_alive now (ShmKeyValue.entry rec) = b ->
             FastMap.setTTL fuel now m (Some k) ttl
             = if b
               then Ret (true,
                         FastMap.stamp now
                           (FastMap.set_heap
                              (<[e := ShmKeyValue.set_entry
                                        (ShmEntry.set_ttl now ttl (ShmKeyValue.entry rec))
                                        rec]> (FastMap.heap m)) m))
               else Ret (false, m)).
  { intros b Hal. unfold FastMap.setTTL. rewrite (size_of_eqb_0 k Hk). cbv zeta.
    rewrite (bucket_at_Some _ _ _ Hb), bind_Ret.
    rewrite (find_in_bucket_found fuel m bucket k l1 e l2 rec last Hdl Habs1 Hrec Hm Hf1).
    rewrite bind_Ret. cbv beta iota.
    rewrite (deref_Some _ _ _ Hrec), bind_Ret, Hal.
    destruct b; [| reflexivity]. cbn [negb].
    rewrite (update_Some _ _ _ _ Hrec), bind_Ret. reflexivity. }
  split; [intros Hal; exact (Hrun false Hal) |].
  intros Hal. eexists. split; [exact (Hrun true Hal) |].
  set (rec' := ShmKeyValue.set_entry (ShmEntry.set_ttl now ttl (ShmKeyValue.entry rec)) rec).
  assert (Hm' : FastMap.key_matches rec' k (compute_hash k) = true) by exact Hm.
  assert (Hrw : rewrites_chain k m
                  (FastMap.stamp now (FastMap.set_heap (<[e := rec']> (FastMap.heap m)) m))
                  (FastMap.get_bucket m (compute_hash k)) l1 [e] [e] l2).
  { eapply rewrites_chain_same_store; [| apply same_store_stamp].
    apply (in_place_rewrites k m _ l1 e l2 rec rec'); try assumption; try reflexivity.
    exists bucket, last. split; assumption. }
  set (m1 := FastMap.stamp now (FastMap.set_heap (<[e := rec']> (FastMap.heap m)) m))
    in *.
  assert (Hshape1 : map_shape m1 chains).
  { pose proof (map_shape_rewritten k m m1 chains _ l1 [e] [e] l2 Hshape Hidx Hl Hrw) as H.
    destruct H as (H1 & H2 & H3 & H4). split; [exact H1 |]. split; [exact H2 |]. split.
    - intros idx Hi. specialize (H3 idx Hi). unfold chains_with in H3.
      destruct (decide (idx = FastMap.get_bucket m (compute_hash k))) as [-> |];
        [rewrite Hl |]; exact H3.
    - intros i j o Hi Hj Hoi Hoj. apply (H4 i j o Hi Hj); unfold chains_with.
      + destruct (decide (i = FastMap.get_bucket m (compute_hash k))) as [-> |];
          [rewrite Hl in Hoi |]; exact Hoi.
      + destruct (decide (j = FastMap.get_bucket m (compute_hash k))) as [-> |];
          [rewrite Hl in Hoj |]; exact Hoj. }
  split; [exact Hshape1 |].
  intros fuel2 t out Hfuel2 stamped.
  destruct (rewritten_chain_only_record k m m1 _ l1 [e] e l2 Hrw Habs1
              ltac:(right; exists e; reflexivity) Hone) as (Hbs0 & Ha1 & Ha2).
  assert (Hbs : bucket_shape m1 (FastMap.get_bucket m1 (compute_hash k)) (l1 ++ e :: l2))
    by exact Hbs0.
  pose proof (bucket_shape_length _ _ _ Hbs) as Hlen.
  assert (Hat : FastMap.heap m1 !! e = Some rec') by apply lookup_insert_eq.
  assert (Hst : ShmEntry.state (ShmKeyValue.entry rec') = ShmEntry.STATE_VALID)
    by exact (is_alive_valid_state now _ Hal).
  assert (Hlive : ShmEntry.is_alive t (ShmKeyValue.entry rec') = ShmEntry.is_alive t stamped)
    by (apply (is_alive_stamped now ttl t _ Hst); reflexivity).
  split.
  - destruct (get_of_only_record fuel2 t m1 k out l1 e l2 rec' Hk Hbs Ha1 Ha2 Hat Hm'
                ltac:(lia)) as (m' & Hg & _).
    exists m'. rewrite Hg, Hlive. reflexivity.
  - destruct Hbs as (bucket1 & last1 & Hb1 & Hdl1).
    unfold FastMap.getTTL. rewrite (size_of_eqb_0 k Hk). cbv zeta.
    rewrite (bucket_at_Some _ _ _ Hb1), bind_Ret, getTTL_loop_get_loop.
    rewrite (get_loop_of_only_record fuel2 t _ k _ l1 e l2 rec'
               (dlist_chain _ _ _ _ _ _ Hdl1) Ha1 Ha2 Hat Hm' ltac:(lia)).
    rewrite bind_Ret, Hlive. destruct (ShmEntry.is_alive t stamped); reflexivity.
Qed.

Lemma setTTL_restarts_the_life_of_a_live_record_only_witness :
  exists m1 m',
    FastMap.setTTL 8 200 map_k (Some (payload "k")) 5 = Ret (true, m1)
    /\ FastMap.get 8 5000000200 m1 (Some (payload "k")) [] = Ret (false, [], m')
    /\ FastMap.getTTL 8 200 m1 (Some (payload "k")) = Ret 5.
Proof.
  destruct (setTTL_restarts_the_life_of_a_live_record_only
              8 200 map_k _ (payload "k") 5 64 _
              ltac:(vm_compute; discriminate) map_k_shape ltac:(vm_compute; lia)
              ltac:(vm_compute; lia) ltac:(vm_compute; reflexivity) map_k_record)
    as [_ Hlive].
  destruct (Hlive ltac:(vm_compute; reflexivity)) as (m1 & Hrun & _ & Hafter).
  assert (Hsize : (size (FastMap.heap m1) < 8)%nat).
  { assert (Hc : FastMap.setTTL 8 200 map_k (Some (payload "k")) 5
                 = Ret (true, returned (FastMap.create 0 4)
                                ('(_, m) ← FastMap.setTTL 8 200 map_k (Some (payload "k")) 5;
                                 Ret m)))
      by (vm_compute; reflexivity).
    pose proof (eq_trans (eq_sym Hc) Hrun) as Heq.
    apply Ret_pair_inj in Heq. subst m1. vm_compute. lia. }
  destruct (Hafter 8%nat 5000000200 [] Hsize) as [(m' & Hg) _].
  destruct (Hafter 8%nat 200 [] Hsize) as [_ Httl].
  exists m1, m'. split; [exact Hrun |]. split; [exact Hg | exact Httl].
Defined.

(** ** [clear] *)

Lemma chain_frame {A : Type} (next : A -> Z) (h h' : gmap Z A) (l : list Z) :
  forall p, (forall o, o ∈ l -> h' !! o = h !! o) ->
            chain next h p l -> chain next h' p l.
Proof.
  induction l as [| o l IH]; intros p Hsame Hc; [exact Hc |].
  destruct Hc as (-> & Hp & n & Hn & Hc).
  split; [reflexivity |]. split; [exact Hp |].
  exists n. split; [rewrite Hsame by left; exact Hn |].
  apply IH; [| exact Hc]. intros o' Ho'. apply Hsame. right. exact Ho'.
Qed.

(** The inner loop of [clear] frees the records of the chain and no
    other. *)
Lemma FastMap_clear_chain_spec (l : list Z) :
  forall (fuel : nat) (h : gmap Z ShmKeyValue.t) (p : Z),
    chain ShmKeyValue.next_offset h p l -> NoDup l -> (length l < fuel)%nat ->
    exists h',
      FastMap.clear_chain fuel h p = Ret h'
      /\ (forall o, o ∈ l -> h' !! o = None)
      /\ (forall o, o ∉ l -> h' !! o = h !! o).
Proof.
  induction l as [| o l IH]; intros fuel h p Hc Hnd Hf;
    (destruct fuel as [| fuel]; [simpl in Hf; lia |]).
  - simpl in Hc. exists h. split; [| split].
    + loop_end Hc. reflexivity.
    + intros o Ho. apply elem_of_nil in Ho. contradiction.
    + reflexivity.
  - destruct Hc as (-> & Hp & n & Hn & Hc).
    apply NoDup_cons in Hnd as [Hno Hnd].
    destruct (IH fuel (delete o h) (ShmKeyValue.next_offset n)) as (h' & Hrun & Hin & Hout).
    + apply (chain_frame _ h); [| exact Hc].
      intros x Hx. apply lookup_delete_ne. intros ->. contradiction.
    + exact Hnd.
    + simpl in Hf. lia.
    + exists h'. split; [| split].
      * loop_round Hp Hn. unfold update. rewrite (deref_Some _ _ _ Hn), !bind_Ret.
        unfold FastMap.free_kv. rewrite delete_insert_eq. exact Hrun.
      * intros x Hx. apply elem_of_cons in Hx as [-> | Hx]; [| apply Hin; exact Hx].
        rewrite (Hout o Hno). apply lookup_delete_eq.
      * intros x Hx. rewrite Hout by (intros Hin'; apply Hx; right; exact Hin').
        apply lookup_delete_ne. intros ->. apply Hx. left.
Qed.

(** The outer loop of [clear], from bucket [i] on: the chains of these
    buckets are freed and their heads reset; nothing else changes. *)
Lemma FastMap_clear_buckets_spec (fuel : nat) (chains : Z -> list Z) :
  forall (remaining : nat) (m : FastMap.t) (i : Z),
    0 <= i ->
    Z.of_nat remaining + i = Z.of_nat (length (FastMap.buckets m)) ->
    (forall idx, i <= idx < Z.of_nat (length (FastMap.buckets m)) ->
                 bucket_shape m idx (chains idx)) ->
    (forall a b o, i <= a < Z.of_nat (length (FastMap.buckets m)) ->
                   i <= b < Z.of_nat (length (FastMap.buckets m)) ->
                   o ∈ chains a -> o ∈ chains b -> a = b) ->
    (forall idx, i <= idx < Z.of_nat (length (FastMap.buckets m)) ->
                 (length (chains idx) < fuel)%nat) ->
    exists m',
      FastMap.clear_buckets remaining fuel m i = Ret m'
      /\ FastMap.header m' = FastMap.header m
      /\ FastMap.stats m' = FastMap.stats m
      /\ length (FastMap.buckets m') = length (FastMap.buckets m)
      /\ (forall idx, i <= idx < Z.of_nat (length (FastMap.buckets m)) ->
                      exists b, FastMap.buckets m' !! Z.to_nat idx = Some b
                                /\ ShmBucket.head_offset b = NULL_OFFSET
                                /\ ShmBucket.size b = 0)
      /\ (forall idx, 0 <= idx < i ->
                      FastMap.buckets m' !! Z.to_nat idx = FastMap.buckets m !! Z.to_nat idx)
      /\ (forall o idx, i <= idx < Z.of_nat (length (FastMap.buckets m)) ->
                        o ∈ chains idx -> FastMap.heap m' !! o = None)
      /\ (forall o, (forall idx, i <= idx < Z.of_nat (length (FastMap.buckets m)) ->
                                 o ∉ chains idx) ->
                    FastMap.heap m' !! o = FastMap.heap m !! o).
Proof.
  induction remaining as [| r IH]; intros m i Hi Hlen Hshapes Hdisj Hfuel.
  - exists m. split; [reflexivity |]. split; [reflexivity |]. split; [reflexivity |].
    split; [reflexivity |]. split; [intros idx Hidx; lia |]. split; [reflexivity |].
    split; [intros o idx Hidx; lia | reflexivity].
  - assert (Hin : i <= i < Z.of_nat (length (FastMap.buckets m))) by lia.
    destruct (Hshapes i Hin) as (bucket & last & Hb & Hdl).
    pose proof Hdl as [Hd Hnd].
    destruct (FastMap_clear_chain_spec (chains i) fuel (FastMap.heap m)
                (ShmBucket.head_offset bucket) (dlist_chain _ _ _ _ _ _ Hdl) Hnd
                (Hfuel i Hin)) as (h1 & Hrun & Hfreed & Hkept).
    set (m1 := FastMap.store_bucket i
                 (ShmBucket.size_store 0 (ShmBucket.set_head NULL_OFFSET bucket))
                 (FastMap.set_heap h1 m)).
    assert (Hlen1 : length (FastMap.buckets m1) = length (FastMap.buckets m))
      by (subst m1; msimpl; apply length_insert).
    destruct (IH m1 (i + 1)) as (m' & Hrun' & Hhd & Hst & Hl' & Hheads & Hbefore & Hnone & Hrest).
    + lia.
    + rewrite Hlen1. lia.
    + rewrite Hlen1. intros idx Hidx.
      destruct (Hshapes idx ltac:(lia)) as (b & lst & Hbi & [Hdi Hndi]).
      exists b, lst. split.
      * subst m1. msimpl. rewrite list_lookup_insert_ne; [exact Hbi |].
        intros Heq. apply Z2Nat.inj in Heq; lia.
      * split; [| exact Hndi]. subst m1. msimpl.
        eapply dseg_frame; [| exact Hdi].
        intros o Ho. apply Hkept. intros Hoi.
        assert (idx = i) by (apply (Hdisj idx i o); [lia | lia | exact Ho | exact Hoi]).
        lia.
    + rewrite Hlen1. intros a b o Ha Hb'. apply Hdisj; lia.
    + rewrite Hlen1. intros idx Hidx. apply Hfuel. lia.
    + rewrite Hlen1 in *. exists m'.
      split.
      { simpl. rewrite (bucket_at_Some _ _ _ Hb), bind_Ret, Hrun, bind_Ret. exact Hrun'. }
      split; [rewrite Hhd; reflexivity |]. split; [rewrite Hst; reflexivity |].
      split; [rewrite Hl'; reflexivity |].
      split.
      { intros idx Hidx. destruct (decide (idx = i)) as [-> | Hne].
        - rewrite Hbefore by lia. subst m1. msimpl.
          eexists. split; [apply list_lookup_insert_eq; eapply lookup_lt_Some; exact Hb |].
          split; reflexivity.
        - apply Hheads. lia. }
      split.
      { intros idx Hidx. rewrite Hbefore by lia. subst m1. msimpl.
        apply list_lookup_insert_ne. intros Heq. apply Z2Nat.inj in Heq; lia. }
      split.
      { intros o idx Hidx Ho. destruct (decide (idx = i)) as [-> | Hne].
        - rewrite Hrest; [subst m1; msimpl; apply Hfreed; exact Ho |].
          intros j Hj Hoj.
          assert (i = j) by (apply (Hdisj i j o); [lia | lia | exact Ho | exact Hoj]).
          lia.
        - apply (Hnone o idx); [lia | exact Ho]. }
      intros o Ho. rewrite Hrest by (intros idx Hidx; apply Ho; lia).
      subst m1. msimpl. apply Hkept. apply Ho. lia.
Qed.

(** [size] on a map whose buckets, from [i] on, have no chain. *)
Lemma FastMap_size_of_empty_buckets (fuel : nat) (now : Z) (m : FastMap.t) :
  forall (remaining : nat) (i alive : Z),
    0 <= i ->
    (forall idx, i <= idx < i + Z.of_nat remaining ->
                 exists b, FastMap.buckets m !! Z.to_nat idx = Some b
                           /\ ShmBucket.head_offset b = NULL_OFFSET) ->
    FastMap.size_buckets remaining (S fuel) now m i alive = Ret alive.
Proof.
  induction remaining as [| r IH]; intros i alive Hi Hheads; [reflexivity |].
  destruct (Hheads i ltac:(lia)) as (b & Hb & Hhead).
  cbn [FastMap.size_buckets]. rewrite (bucket_at_Some _ _ _ Hb), bind_Ret.
  cbn [FastMap.size_chain]. rewrite Hhead. change (NULL_OFFSET <? 0) with true.
  cbv iota. rewrite bind_Ret. apply IH; [lia |]. intros idx Hidx. apply Hheads. lia.
Qed.

(** [clear] on a well-linked map. *)
Lemma FastMap_clear_spec (fuel : nat) (now : Z) (m : FastMap.t) (chains : Z -> list Z) :
  map_shape m chains ->
  (size (FastMap.heap m) < fuel)%nat ->
  exists m1,
    FastMap.clear fuel now m = Ret m1
    /\ map_shape m1 (fun _ => [])
    /\ (forall idx, 0 <= idx < HashTableHeader.bucket_count (FastMap.header m1) ->
                    exists b, FastMap.buckets m1 !! Z.to_nat idx = Some b
                              /\ ShmBucket.head_offset b = NULL_OFFSET)
    /\ HashTableHeader.size (FastMap.header m1) = 0
    /\ CollectionStats.size (FastMap.stats m1) = 0
    /\ (forall idx o, 0 <= idx < HashTableHeader.bucket_count (FastMap.header m) ->
                      o ∈ chains idx -> FastMap.heap m1 !! o = None)
    /\ (forall o, (forall idx, 0 <= idx < HashTableHeader.bucket_count (FastMap.header m) ->
                               o ∉ chains idx) ->
                  FastMap.heap m1 !! o = FastMap.heap m !! o).
Proof.
  intros Hshape Hfuel. pose proof Hshape as (Hlen & Hbc & Hshapes & Hdisj).
  destruct (FastMap_clear_buckets_spec fuel chains
              (Z.to_nat (HashTableHeader.bucket_count (FastMap.header m))) m 0)
    as (m' & Hrun & Hhd & Hst & Hl' & Hheads & _ & Hnone & Hrest).
  - lia.
  - lia.
  - intros idx Hidx. apply Hshapes. lia.
  - intros a b o Ha Hb. apply Hdisj; lia.
  - intros idx Hidx. pose proof (bucket_shape_length m idx _ (Hshapes idx ltac:(lia))). lia.
  - rewrite <- Hlen in Hheads, Hnone, Hrest.
    unfold FastMap.clear. rewrite Hrun, bind_Ret.
    eexists. split; [reflexivity |].
    split.
    { unfold map_shape. msimpl. rewrite Hhd, Hl'.
      split; [exact Hlen |]. split; [exact Hbc |]. split.
      - intros idx Hidx. destruct (Hheads idx Hidx) as (b & Hb & Hh & _).
        exists b, NULL_OFFSET. msimpl. split; [exact Hb |].
        split; [split; [exact Hh | reflexivity] | apply NoDup_nil_2].
      - intros i j o _ _ Ho. apply elem_of_nil in Ho. contradiction. }
    split.
    { msimpl. rewrite Hhd. intros idx Hidx.
      destruct (Hheads idx Hidx) as (b & Hb & Hh & _). exists b. split; assumption. }
    split; [reflexivity |]. split; [reflexivity |].
    split; [intros idx o Hidx Ho; msimpl; exact (Hnone o idx Hidx Ho) |].
    intros o Ho. msimpl. apply Hrest. exact Ho.
Qed.

(** X12.  On a well-linked map, [clear] frees every record of every
    chain and no other record, resets every bucket, and stores a size of
    0 in the header and in the statistics; the map it leaves is well
    linked with empty chains, and on it [get] and [containsKey] return
    [false] for every key, [size] returns 0 and [isEmpty] returns
    [true]. *)
Theorem clear_empties_the_map
        (fuel : nat) (now : Z) (m : FastMap.t) (chains : Z -> list Z) :
  map_shape m chains ->
  (size (FastMap.heap m) < fuel)%nat ->
  exists m1,
    FastMap.clear fuel now m = Ret m1
    /\ map_shape m1 (fun _ => [])
    /\ HashTableHeader.size (FastMap.header m1) = 0
    /\ CollectionStats.size (FastMap.stats m1) = 0
    /\ (forall idx o, 0 <= idx < HashTableHeader.bucket_count (FastMap.header m) ->
                      o ∈ chains idx -> FastMap.heap m1 !! o = None)
    /\ (forall o, (forall idx, 0 <= idx < HashTableHeader.bucket_count (FastMap.header m) ->
                               o ∉ chains idx) ->
                  FastMap.heap m1 !! o = FastMap.heap m !! o)
    /\ forall (fuel2 : nat) (t : Z) (key : buffer) (out : bytes),
        (0 < fuel2)%nat ->
        (exists m', FastMap.get fuel2 t m1 key out = Ret (false, out, m'))
        /\ FastMap.containsKey fuel2 t m1 key = Ret false
        /\ FastMap.size fuel2 t m1 = Ret 0
        /\ FastMap.isEmpty fuel2 t m1 = Ret true.
Proof.
  intros Hshape Hfuel.
  destruct (FastMap_clear_spec fuel now m chains Hshape Hfuel)
    as (m1 & Hrun & Hshape1 & Hheads & Hsz & Hst & Hfreed & Hkept).
  exists m1. split; [exact Hrun |]. split; [exact Hshape1 |].
  split; [exact Hsz |]. split; [exact Hst |]. split; [exact Hfreed |].
  split; [exact Hkept |].
  pose proof Hshape1 as (_ & Hbc1 & _).
  assert (Hhead : forall k, exists b,
             FastMap.buckets m1 !! Z.to_nat (FastMap.get_bucket m1 (compute_hash k))
             = Some b /\ ShmBucket.head_offset b = NULL_OFFSET)
    by (intros k; apply Hheads, get_bucket_range; exact Hbc1).
  intros fuel2 t key out Hf2. destruct fuel2 as [| f2]; [lia |].
  split; [| split; [| split]].
  - unfold FastMap.get. destruct key as [k |]; [| eexists; reflexivity].
    destruct (size_of k =? 0); [eexists; reflexivity |].
    cbv zeta. destruct (Hhead k) as (b & Hb & Hh).
    rewrite (bucket_at_Some _ (FastMap.get_bucket _ (compute_hash k)) b) by exact Hb.
    rewrite bind_Ret. cbn [FastMap.get_loop]. rewrite Hh.
    change (NULL_OFFSET <? 0) with true. cbv iota. rewrite bind_Ret.
    eexists. reflexivity.
  - unfold FastMap.containsKey. destruct key as [k |]; [| reflexivity].
    destruct (size_of k =? 0); [reflexivity |].
    cbv zeta. destruct (Hhead k) as (b & Hb & Hh).
    rewrite (bucket_at_Some _ (FastMap.get_bucket _ (compute_hash k)) b) by exact Hb.
    rewrite bind_Ret. cbn [FastMap.containsKey_loop]. rewrite Hh. reflexivity.
  - unfold FastMap.size. apply FastMap_size_of_empty_buckets; [lia |].
    intros idx Hidx. apply Hheads. lia.
  - unfold FastMap.isEmpty, FastMap.size.
    rewrite FastMap_size_of_empty_buckets; [reflexivity | lia |].
    intros idx Hidx. apply Hheads. lia.
Qed.

Lemma clear_empties_the_map_witness :
  exists m1 m',
    FastMap.clear 8 200 map_k = Ret m1
    /\ FastMap.heap m1 !! 64 = None
    /\ FastMap.get 8 300 m1 (Some (payload "k")) [] = Ret (false, [], m')
    /\ FastMap.isEmpty 8 300 m1 = Ret true.
Proof.
  destruct (clear_empties_the_map 8 200 map_k _ map_k_shape ltac:(vm_compute; lia))
    as (m1 & Hrun & _ & _ & _ & Hfreed & _ & Hafter).
  destruct (Hafter 8%nat 300 (Some (payload "k")) [] ltac:(lia))
    as ((m' & Hg) & _ & _ & Hempty).
  exists m1, m'. split; [exact Hrun |]. split; [| split; [exact Hg | exact Hempty]].
  apply (Hfreed 2 64); [vm_compute; split; [discriminate | reflexivity] |].
  unfold chains_with. rewrite decide_True by (vm_compute; reflexivity). left.
Defined.

(** ** One record for each key *)

Lemma distinct_keys_same_store (m m' : FastMap.t) (chains : Z -> list Z) :
  same_store m m' -> distinct_keys m chains -> distinct_keys m' chains.
Proof.
  intros (Hh & _ & Hc) Hd idx key Hidx. rewrite Hh. apply Hd. rewrite <- Hc. exact Hidx.
Qed.

(** A rewriting of the chain of a key that leaves one record at most
    with the key keeps the keys of every chain distinct. *)
Lemma rewrites_chain_distinct (key : bytes) (m m' : FastMap.t) (chains : Z -> list Z)
      (idx : Z) (l1 mid mid' l2 : list Z) :
  map_shape m chains -> distinct_keys m chains ->
  0 <= idx < HashTableHeader.bucket_count (FastMap.header m) ->
  chains idx = l1 ++ mid ++ l2 ->
  rewrites_chain key m m' idx l1 mid mid' l2 ->
  (records_with_key (FastMap.heap m) key (l1 ++ l2) + length mid' <= 1)%nat ->
  map_shape m' (chains_with chains idx (l1 ++ mid' ++ l2))
  /\ distinct_keys m' (chains_with chains idx (l1 ++ mid' ++ l2)).
Proof.
  intros Hshape Hdist Hidx Hl Hrw Hone.
  split; [eapply map_shape_rewritten; eassumption |].
  pose proof Hrw as (_ & Hbc & Hframe & Hcont & _ & Hk & Hk').
  intros i key' Hi. rewrite Hbc in Hi. unfold chains_with.
  destruct (decide (i = idx)) as [-> | Hne].
  - assert (Hc1 : forall o, o ∈ l1 -> kv_same_content (FastMap.heap m) (FastMap.heap m') o)
      by (intros o Ho; apply Hcont, elem_of_app; left; exact Ho).
    assert (Hc2 : forall o, o ∈ l2 -> kv_same_content (FastMap.heap m) (FastMap.heap m') o)
      by (intros o Ho; apply Hcont, elem_of_app; right; exact Ho).
    rewrite !records_with_key_app.
    rewrite (records_with_key_content _ _ key' l1 Hc1),
      (records_with_key_content _ _ key' l2 Hc2).
    assert (Hdec : key' = key \/ key' <> key).
    { destruct (bytes_eqb key' key) eqn:Heq; [left; apply bytes_eqb_eq; exact Heq |].
      right. intros Hc. apply bytes_eqb_eq in Hc. congruence. }
    destruct Hdec as [-> | Hk'ne].
    + rewrite (records_with_key_has_key _ key mid' Hk').
      rewrite records_with_key_app in Hone. lia.
    + rewrite (records_with_key_other _ key' key mid' (not_eq_sym Hk'ne) Hk').
      pose proof (Hdist idx key' Hidx) as Hd. rewrite Hl, !records_with_key_app in Hd. lia.
  - destruct (other_chain_untouched m m' chains idx i _ Hshape Hidx Hi Hne Hl Hframe)
      as [_ Hsame].
    rewrite (records_with_key_content (FastMap.heap m) (FastMap.heap m') key' (chains i)).
    + apply Hdist. exact Hi.
    + intros o Ho. unfold kv_same_content. rewrite (Hsame o Ho). reflexivity.
Qed.

(** The records around the first record that has the key, in a chain
    whose keys are distinct. *)
Lemma distinct_keys_around (m : FastMap.t) (chains : Z -> list Z) (idx : Z) (key : bytes)
      (l1 : list Z) (e : Z) (l2 : list Z) :
  distinct_keys m chains ->
  0 <= idx < HashTableHeader.bucket_count (FastMap.header m) ->
  chains idx = l1 ++ [e] ++ l2 ->
  has_key (FastMap.heap m) key [e] ->
  records_with_key (FastMap.heap m) key (l1 ++ l2) = 0%nat.
Proof.
  intros Hdist Hidx Hl Hk. pose proof (Hdist idx key Hidx) as Hd.
  rewrite Hl, !records_with_key_app, (records_with_key_has_key _ key [e] Hk) in Hd.
  rewrite records_with_key_app. simpl in Hd. lia.
Qed.

Lemma put_keeps_distinct_keys (fuel : nat) (alloc : Z -> option Z) (now : Z)
      (m m' : FastMap.t) (chains : Z -> list Z) (key value : bytes) (ttl off : Z)
      (b : bool) :
  map_shape m chains -> distinct_keys m chains ->
  size_of key < 2 ^ 32 -> size_of value < 2 ^ 32 ->
  (size (FastMap.heap m) < fuel)%nat ->
  alloc (ShmKeyValue.total_size (size_of key) (size_of value)) = Some off ->
  0 <= off -> FastMap.heap m !! off = None ->
  FastMap.put fuel alloc now m (Some key) value ttl = Ret (b, m') ->
  exists chains', map_shape m' chains' /\ distinct_keys m' chains'.
Proof.
  intros Hshape Hdist Hk32 Hv32 Hfuel Halloc Hoff Hfresh Hrun.
  destruct (Z.eq_dec (size_of key) 0) as [Hz | Hnz].
  { unfold FastMap.put in Hrun. rewrite Hz in Hrun. injection Hrun as _ <-.
    exists chains. split; assumption. }
  destruct (put_writes_one_record fuel alloc now m chains key value ttl off
              Hshape Hnz Hk32 Hv32 Hfuel Halloc Hoff Hfresh)
    as (m1 & l1 & mid & o & l2 & rec & Hput & Hl & Habs1 & Hmid & Hrw & _).
  rewrite Hput in Hrun. injection Hrun as _ <-.
  destruct (map_shape_bucket m chains key Hshape) as (Hidx & _).
  eexists. apply (rewrites_chain_distinct key m m1 chains _ l1 mid [o] l2
                    Hshape Hdist Hidx Hl Hrw).
  destruct Hmid as [[-> Habs2] | [e ->]].
  - rewrite records_with_key_app.
    apply records_with_key_absent in Habs1, Habs2. rewrite Habs1, Habs2. simpl. lia.
  - pose proof Hrw as (_ & _ & _ & _ & _ & Hk & _).
    rewrite (distinct_keys_around m chains _ key l1 e l2 Hdist Hidx Hl Hk). simpl. lia.
Qed.

(** The record that [find_in_bucket] returns is unlinked and freed. *)
Lemma unlinking_keeps_distinct_keys (now : Z) (m m2 : FastMap.t) (chains : Z -> list Z)
      (key : bytes) (l1 : list Z) (e : Z) (l2 : list Z) :
  map_shape m chains -> distinct_keys m chains ->
  chains (FastMap.get_bucket m (compute_hash key)) = l1 ++ [e] ++ l2 ->
  rewrites_chain key m m2 (FastMap.get_bucket m (compute_hash key)) l1 [e] [] l2 ->
  map_shape m2 (chains_with chains (FastMap.get_bucket m (compute_hash key))
                            (l1 ++ [] ++ l2))
  /\ distinct_keys m2 (chains_with chains (FastMap.get_bucket m (compute_hash key))
                                   (l1 ++ [] ++ l2)).
Proof.
  intros Hshape Hdist Hl Hrw.
  destruct (map_shape_bucket m chains key Hshape) as (Hidx & _).
  apply (rewrites_chain_distinct key m m2 chains _ l1 [e] [] l2 Hshape Hdist Hidx Hl Hrw).
  pose proof Hrw as (_ & _ & _ & _ & _ & Hk & _).
  rewrite (distinct_keys_around m chains _ key l1 e l2 Hdist Hidx Hl Hk). simpl. lia.
Qed.

(** The record that [find_in_bucket] returns gives way to one record
    that has the key. *)
Lemma rewriting_keeps_distinct_keys (m m1 : FastMap.t) (chains : Z -> list Z)
      (key : bytes) (l1 : list Z) (e o : Z) (l2 : list Z) :
  map_shape m chains -> distinct_keys m chains ->
  chains (FastMap.get_bucket m (compute_hash key)) = l1 ++ [e] ++ l2 ->
  rewrites_chain key m m1 (FastMap.get_bucket m (compute_hash key)) l1 [e] [o] l2 ->
  exists chains', map_shape m1 chains' /\ distinct_keys m1 chains'.
Proof.
  intros Hshape Hdist Hl Hrw.
  destruct (map_shape_bucket m chains key Hshape) as (Hidx & _).
  eexists.
  apply (rewrites_chain_distinct key m m1 chains _ l1 [e] [o] l2 Hshape Hdist Hidx Hl Hrw).
  pose proof Hrw as (_ & _ & _ & _ & _ & Hk & _).
  rewrite (distinct_keys_around m chains _ key l1 e l2 Hdist Hidx Hl Hk). simpl. lia.
Qed.

Lemma remove_keeps_distinct_keys (fuel : nat) (now : Z) (m m' : FastMap.t)
      (chains : Z -> list Z) (key : bytes) (out out' : option bytes) (b : bool) :
  map_shape m chains -> distinct_keys m chains ->
  (size (FastMap.heap m) < fuel)%nat ->
  FastMap.remove fuel now m (Some key) out = Ret (b, out', m') ->
  exists chains', map_shape m' chains' /\ distinct_keys m' chains'.
Proof.
  intros Hshape Hdist Hfuel.
  destruct (map_shape_bucket m chains key Hshape) as (Hidx & Hlenl & bucket & last & Hb & Hdl).
  unfold FastMap.remove.
  destruct (Z.eqb_spec (size_of key) 0) as [Hz | Hnz];
    [intros [= _ _ <-]; exists chains; split; assumption |].
  cbv zeta. rewrite (bucket_at_Some _ _ _ Hb), bind_Ret.
  destruct (first_match_split (FastMap.heap m) key _ _ (dlist_chain _ _ _ _ _ _ Hdl))
    as [Habs | (l1 & e & l2 & rec & Hl & Habs & Hrec & Hm)].
  - unfold FastMap.find_in_bucket.
    rewrite (FastMap_find_loop_absent _ key _ fuel _ None
               (dlist_chain _ _ _ _ _ _ Hdl) Habs ltac:(lia)), bind_Ret.
    cbv beta iota. intros [= _ _ <-]. exists chains. split; assumption.
  - rewrite Hl in Hdl, Hlenl.
    assert (Hf1 : (length l1 < fuel)%nat) by (rewrite length_app in Hlenl; lia).
    rewrite (find_in_bucket_found fuel m bucket key l1 e l2 rec last Hdl Habs Hrec Hm Hf1).
    rewrite bind_Ret. cbv beta iota.
    rewrite (deref_Some _ _ _ Hrec), bind_Ret.
    destruct (remove_rewrites key m _ l1 e l2 bucket last rec Hb Hdl Hrec Hm)
      as (m2 & Hrun & Hrw & _).
    destruct (FastMap.unlink_after m _ (last_passed l1) e) as [m1 | |] eqn:Hu;
      try discriminate Hrun.
    rewrite bind_Ret in Hrun. rewrite bind_Ret, Hrun, bind_Ret.
    intros [= _ _ <-]. eexists.
    exact (unlinking_keeps_distinct_keys now m _ chains key l1 e l2 Hshape Hdist Hl
             (rewrites_chain_same_store key m m2 _ _ _ _ _ _ Hrw (same_store_stamp now m2))).
Qed.

Lemma remove_expected_keeps_distinct_keys (fuel : nat) (now : Z) (m m' : FastMap.t)
      (chains : Z -> list Z) (key expected : bytes) (b : bool) :
  map_shape m chains -> distinct_keys m chains ->
  (size (FastMap.heap m) < fuel)%nat ->
  FastMap.remove_expected fuel now m (Some key) expected = Ret (b, m') ->
  exists chains', map_shape m' chains' /\ distinct_keys m' chains'.
Proof.
  intros Hshape Hdist Hfuel.
  destruct (map_shape_bucket m chains key Hshape) as (Hidx & Hlenl & bucket & last & Hb & Hdl).
  unfold FastMap.remove_expected.
  destruct (Z.eqb_spec (size_of key) 0) as [Hz | Hnz];
    [intros [= _ <-]; exists chains; split; assumption |].
  cbv zeta. rewrite (bucket_at_Some _ _ _ Hb), bind_Ret.
  destruct (first_match_split (FastMap.heap m) key _ _ (dlist_chain _ _ _ _ _ _ Hdl))
    as [Habs | (l1 & e & l2 & rec & Hl & Habs & Hrec & Hm)].
  - unfold FastMap.find_in_bucket.
    rewrite (FastMap_find_loop_absent _ key _ fuel _ None
               (dlist_chain _ _ _ _ _ _ Hdl) Habs ltac:(lia)), bind_Ret.
    cbv beta iota. intros [= _ <-]. exists chains. split; assumption.
  - rewrite Hl in Hdl, Hlenl.
    assert (Hf1 : (length l1 < fuel)%nat) by (rewrite length_app in Hlenl; lia).
    rewrite (find_in_bucket_found fuel m bucket key l1 e l2 rec last Hdl Habs Hrec Hm Hf1).
    rewrite bind_Ret. cbv beta iota.
    rewrite (deref_Some _ _ _ Hrec), bind_Ret.
    destruct (negb (ShmEntry.is_alive now (ShmKeyValue.entry rec)));
      [intros [= _ <-]; exists chains; split; assumption |].
    destruct (negb (ShmKeyValue.value_size rec =? size_of expected)
              || negb (memcmp_eq (ShmKeyValue.value_data rec) expected (size_of expected)));
      [intros [= _ <-]; exists chains; split; assumption |].
    destruct (remove_rewrites key m _ l1 e l2 bucket last rec Hb Hdl Hrec Hm)
      as (m2 & Hrun & Hrw & _).
    destruct (FastMap.unlink_after m _ (last_passed l1) e) as [m1 | |] eqn:Hu;
      try discriminate Hrun.
    rewrite bind_Ret in Hrun. rewrite bind_Ret, Hrun, bind_Ret.
    intros [= _ <-]. eexists.
    exact (unlinking_keeps_distinct_keys now m _ chains key l1 e l2 Hshape Hdist Hl
             (rewrites_chain_same_store key m m2 _ _ _ _ _ _ Hrw (same_store_stamp now m2))).
Qed.

Lemma replace_keeps_distinct_keys (fuel : nat) (alloc : Z -> option Z) (now : Z)
      (m m' : FastMap.t) (chains : Z -> list Z) (key value : bytes) (ttl off : Z)
      (b : bool) :
  map_shape m chains -> distinct_keys m chains ->
  size_of key < 2 ^ 32 ->
  (size (FastMap.heap m) < fuel)%nat ->
  alloc (ShmKeyValue.total_size (size_of key) (size_of value)) = Some off ->
  0 <= off -> FastMap.heap m !! off = None ->
  FastMap.replace fuel alloc now m (Some key) value ttl = Ret (b, m') ->
  exists chains', map_shape m' chains' /\ distinct_keys m' chains'.
Proof.
  intros Hshape Hdist Hk32 Hfuel Halloc Hoff Hfresh.
  destruct (map_shape_bucket m chains key Hshape) as (Hidx & Hlenl & bucket & last & Hb & Hdl).
  unfold FastMap.replace.
  destruct (Z.eqb_spec (size_of key) 0) as [Hz | Hnz];
    [intros [= _ <-]; exists chains; split; assumption |].
  cbv zeta. rewrite (bucket_at_Some _ _ _ Hb), bind_Ret.
  destruct (first_match_split (FastMap.heap m) key _ _ (dlist_chain _ _ _ _ _ _ Hdl))
    as [Habs | (l1 & e & l2 & rec & Hl & Habs & Hrec & Hm)].
  - unfold FastMap.find_in_bucket.
    rewrite (FastMap_find_loop_absent _ key _ fuel _ None
               (dlist_chain _ _ _ _ _ _ Hdl) Habs ltac:(lia)), bind_Ret.
    cbv beta iota. intros [= _ <-]. exists chains. split; assumption.
  - pose proof Hl as Hl0. rewrite Hl in Hdl, Hlenl.
    assert (Hf1 : (length l1 < fuel)%nat) by (rewrite length_app in Hlenl; lia).
    rewrite (find_in_bucket_found fuel m bucket key l1 e l2 rec last Hdl Habs Hrec Hm Hf1).
    rewrite bind_Ret. cbv beta iota.
    rewrite (deref_Some _ _ _ Hrec), bind_Ret.
    destruct (negb (ShmEntry.is_alive now (ShmKeyValue.entry rec)));
      [intros [= _ <-]; exists chains; split; assumption |].
    destruct (ShmKeyValue.value_size rec =? size_of value).
    + rewrite (update_Some _ _ _ _ Hrec), !bind_Ret.
      destruct (replace_in_place_keeps now rec key value ttl Hm) as (Hm' & Hnx & Hpv).
      intros [= _ <-].
      apply (rewriting_keeps_distinct_keys m _ chains key l1 e e l2 Hshape Hdist Hl0).
      eapply rewrites_chain_same_store; [| apply same_store_touch].
      apply (in_place_rewrites key m _ l1 e l2 rec); try assumption.
      exists bucket, last. split; assumption.
    + destruct (reallocate_rewrites alloc now m _ l1 e l2 bucket last key value ttl off rec
                  Hb Hdl Halloc Hoff Hfresh Hk32 Hrec Hm)
        as (m1 & p & n & -> & Hrw & _).
      rewrite bind_Ret. intros [= _ <-].
      apply (rewriting_keeps_distinct_keys m _ chains key l1 e off l2 Hshape Hdist Hl0).
      exact (rewrites_chain_same_store key m m1 _ _ _ _ _ _ Hrw (same_store_touch now m1)).
Qed.

Lemma setTTL_keeps_distinct_keys (fuel : nat) (now : Z) (m m' : FastMap.t)
      (chains : Z -> list Z) (key : bytes) (ttl : Z) (b : bool) :
  map_shape m chains -> distinct_keys m chains ->
  (size (FastMap.heap m) < fuel)%nat ->
  FastMap.setTTL fuel now m (Some key) ttl = Ret (b, m') ->
  exists chains', map_shape m' chains' /\ distinct_keys m' chains'.
Proof.
  intros Hshape Hdist Hfuel.
  destruct (map_shape_bucket m chains key Hshape) as (Hidx & Hlenl & bucket & last & Hb & Hdl).
  unfold FastMap.setTTL.
  destruct (Z.eqb_spec (size_of key) 0) as [Hz | Hnz];
    [intros [= _ <-]; exists chains; split; assumption |].
  cbv zeta. rewrite (bucket_at_Some _ _ _ Hb), bind_Ret.
  destruct (first_match_split (FastMap.heap m) key _ _ (dlist_chain _ _ _ _ _ _ Hdl))
    as [Habs | (l1 & e & l2 & rec & Hl & Habs & Hrec & Hm)].
  - unfold FastMap.find_in_bucket.
    rewrite (FastMap_find_loop_absent _ key _ fuel _ None
               (dlist_chain _ _ _ _ _ _ Hdl) Habs ltac:(lia)), bind_Ret.
    cbv beta iota. intros [= _ <-]. exists chains. split; assumption.
  - pose proof Hl as Hl0. rewrite Hl in Hdl, Hlenl.
    assert (Hf1 : (length l1 < fuel)%nat) by (rewrite length_app in Hlenl; lia).
    rewrite (find_in_bucket_found fuel m bucket key l1 e l2 rec last Hdl Habs Hrec Hm Hf1).
    rewrite bind_Ret. cbv beta iota.
    rewrite (deref_Some _ _ _ Hrec), bind_Ret.
    destruct (negb (ShmEntry.is_alive now (ShmKeyValue.entry rec)));
      [intros [= _ <-]; exists chains; split; assumption |].
    rewrite (update_Some _ _ _ _ Hrec), !bind_Ret.
    intros [= _ <-].
    apply (rewriting_keeps_distinct_keys m _ chains key l1 e e l2 Hshape Hdist Hl0).
    eapply rewrites_chain_same_store; [| apply same_store_stamp].
    apply (in_place_rewrites key m _ l1 e l2 rec); try assumption; try reflexivity.
    exists bucket, last. split; assumption.
Qed.

Lemma putIfAbsent_keeps_distinct_keys (fuel : nat) (alloc : Z -> option Z) (now : Z)
      (m m' : FastMap.t) (chains : Z -> list Z) (key value : bytes) (ttl off : Z)
      (b : bool) :
  map_shape m chains -> distinct_keys m chains ->
  size_of key < 2 ^ 32 ->
  (size (FastMap.heap m) < fuel)%nat ->
  alloc (ShmKeyValue.total_size (size_of key) (size_of value)) = Some off ->
  0 <= off -> FastMap.heap m !! off = None ->
  FastMap.putIfAbsent fuel alloc now m (Some key) value ttl = Ret (b, m') ->
  exists chains', map_shape m' chains' /\ distinct_keys m' chains'.
Proof.
  intros Hshape Hdist Hk32 Hfuel Halloc Hoff Hfresh.
  destruct (map_shape_bucket m chains key Hshape) as (Hidx & Hlenl & bucket & last & Hb & Hdl).
  unfold FastMap.putIfAbsent.
  destruct (Z.eqb_spec (size_of key) 0) as [Hz | Hnz];
    [intros [= _ <-]; exists chains; split; assumption |].
  cbv zeta. rewrite (bucket_at_Some _ _ _ Hb), bind_Ret.
  destruct (first_match_split (FastMap.heap m) key _ _ (dlist_chain _ _ _ _ _ _ Hdl))
    as [Habs | (l1 & e & l2 & rec & Hl & Habs & Hrec & Hm)].
  - (* no record has the key *)
    unfold FastMap.find_in_bucket.
    rewrite (FastMap_find_loop_absent _ key _ fuel _ None
               (dlist_chain _ _ _ _ _ _ Hdl) Habs ltac:(lia)), bind_Ret.
    cbv beta iota. rewrite !bind_Ret. cbv iota.
    destruct (add_new_entry_rewrites alloc now m _ key value ttl _ bucket last off
                Hb Hdl Halloc Hoff Hfresh Hk32) as (m1 & -> & Hrw & _).
    rewrite bind_Ret. intros [= _ <-]. eexists.
    apply (rewrites_chain_distinct key m m1 chains _ [] [] [off] _
             Hshape Hdist Hidx eq_refl Hrw).
    apply records_with_key_absent in Habs. simpl. rewrite Habs. simpl. lia.
  - (* a record has the key *)
    pose proof Hl as Hl0. rewrite Hl in Hdl, Hlenl.
    assert (Hf1 : (length l1 < fuel)%nat) by (rewrite length_app in Hlenl; lia).
    rewrite (find_in_bucket_found fuel m bucket key l1 e l2 rec last Hdl Habs Hrec Hm Hf1).
    rewrite bind_Ret. cbv beta iota.
    rewrite (deref_Some _ _ _ Hrec), !bind_Ret.
    destruct (ShmEntry.is_alive now (ShmKeyValue.entry rec));
      [intros [= _ <-]; exists chains; split; assumption |].
    rewrite (unlink_by_offsets_eq m _ l1 e l2 _ last Hdl).
    destruct (remove_rewrites key m _ l1 e l2 bucket last rec Hb Hdl Hrec Hm)
      as (m2 & Hrun & Hrw & _ & Hdom).
    destruct (FastMap.unlink_after m _ (last_passed l1) e) as [m1 | |] eqn:Hu;
      try discriminate Hrun.
    rewrite bind_Ret in Hrun. rewrite bind_Ret, Hrun, bind_Ret.
    destruct (unlinking_keeps_distinct_keys now m m2 chains key l1 e l2 Hshape Hdist Hl0 Hrw)
      as [Hshape2 Hdist2].
    pose proof Hrw as ((bucket2 & last2 & Hb2 & Hdl2) & Hbc2 & _ & Hcont2 & _ & Hk & _).
    destruct (add_new_entry_rewrites alloc now m2 _ key value ttl _ bucket2 last2 off
                Hb2 Hdl2 Halloc Hoff (Hdom off Hfresh) Hk32) as (m3 & -> & Hrw3 & _).
    rewrite bind_Ret. intros [= _ <-]. eexists.
    refine (rewrites_chain_distinct key m2 m3 _ _ [] [] [off] _ Hshape2 Hdist2 _ _ Hrw3 _).
    + rewrite Hbc2. exact Hidx.
    + rewrite chains_with_same. reflexivity.
    + simpl. rewrite (records_with_key_content (FastMap.heap m) (FastMap.heap m2) key
                        (l1 ++ l2) Hcont2).
      rewrite (distinct_keys_around m chains _ key l1 e l2 Hdist Hidx Hl0 Hk). simpl. lia.
Qed.


Lemma map_operation_keeps_distinct_keys (m m' : FastMap.t) (chains : Z -> list Z) :
  map_shape m chains -> distinct_keys m chains ->
  map_operation m m' ->
  exists chains', map_shape m' chains' /\ distinct_keys m' chains'.
Proof.
  intros Hshape Hdist
         [ fuel alloc now k v ttl off b Hk32 Hv32 Hfuel Halloc Hoff Hfresh Hrun
         | fuel alloc now k v ttl off b Hk32 Hfuel Halloc Hoff Hfresh Hrun
         | fuel alloc now k v ttl off b Hk32 Hfuel Halloc Hoff Hfresh Hrun
         | fuel now k out out' b Hfuel Hrun
         | fuel now k expected b Hfuel Hrun
         | fuel now k ttl b Hfuel Hrun
         | fuel now key out out' b Hrun
         | fuel now Hfuel Hrun ].
  - exact (put_keeps_distinct_keys fuel alloc now m m' chains k v ttl off b
             Hshape Hdist Hk32 Hv32 Hfuel Halloc Hoff Hfresh Hrun).
  - exact (putIfAbsent_keeps_distinct_keys fuel alloc now m m' chains k v ttl off b
             Hshape Hdist Hk32 Hfuel Halloc Hoff Hfresh Hrun).
  - exact (replace_keeps_distinct_keys fuel alloc now m m' chains k v ttl off b
             Hshape Hdist Hk32 Hfuel Halloc Hoff Hfresh Hrun).
  - exact (remove_keeps_distinct_keys fuel now m m' chains k out out' b
             Hshape Hdist Hfuel Hrun).
  - exact (remove_expected_keeps_distinct_keys fuel now m m' chains k expected b
             Hshape Hdist Hfuel Hrun).
  - exact (setTTL_keeps_distinct_keys fuel now m m' chains k ttl b
             Hshape Hdist Hfuel Hrun).
  - pose proof (get_same_store _ _ _ _ _ _ _ _ Hrun) as Hsame.
    exists chains. split; [eapply map_shape_same_store | eapply distinct_keys_same_store];
      eassumption.
  - destruct (FastMap_clear_spec fuel now m chains Hshape Hfuel) as (m1 & Hrun1 & Hs1 & _).
    rewrite Hrun1 in Hrun. injection Hrun as <-.
    exists (fun _ => []). split; [exact Hs1 |].
    intros idx key _. unfold records_with_key. simpl. lia.
Qed.

(** X13.  Every map that calls of [put], [putIfAbsent], [replace], the
    two [remove], [setTTL], [get] and [clear] make of a new map is well
    linked (every bucket heads a doubly-linked chain of allocated
    records, and no record is in two chains) and holds one record at
    most for each key in each chain. *)
Theorem a_map_holds_one_record_at_most_for_a_key
        (now bucket_count : Z) (m : FastMap.t) :
  0 < bucket_count < 2 ^ 32 ->
  rtc map_operation (FastMap.create now bucket_count) m ->
  exists chains, map_shape m chains /\ distinct_keys m chains.
Proof.
  intros Hbc Hsteps.
  assert (Hgen : forall m0, rtc map_operation m0 m ->
                            forall chains0, map_shape m0 chains0 -> distinct_keys m0 chains0 ->
                                            exists chains, map_shape m chains
                                                           /\ distinct_keys m chains).
  { clear. intros m0 Hsteps. induction Hsteps as [m0 | m0 m1 m2 Hop _ IH].
    - intros chains0 Hs Hd. exists chains0. split; assumption.
    - intros chains0 Hs Hd.
      destruct (map_operation_keeps_distinct_keys m0 m1 chains0 Hs Hd Hop)
        as (chains1 & Hs1 & Hd1).
      exact (IH chains1 Hs1 Hd1). }
  apply (Hgen _ Hsteps (fun _ => [])).
  - apply create_shape. exact Hbc.
  - intros idx key _. unfold records_with_key. simpl. lia.
Qed.

Lemma a_map_holds_one_record_at_most_for_a_key_witness :
  exists chains, map_shape map_k_j chains /\ distinct_keys map_k_j chains.
Proof.
  apply (a_map_holds_one_record_at_most_for_a_key 100 4 map_k_j ltac:(lia)).
  eapply rtc_l.
  { apply (operation_put _ map_k 8 (fun _ => Some 64) 100 (payload "k") (payload "v1")
                         TTL_INFINITE 64 true);
      [ vm_compute; reflexivity | vm_compute; reflexivity | vm_compute; lia
      | reflexivity | lia | reflexivity | vm_compute; reflexivity ]. }
  eapply rtc_l.
  { apply (operation_put _ map_k_c 8 (fun _ => Some 128) 110 (payload "c") (payload "w")
                         TTL_INFINITE 128 true);
      [ vm_compute; reflexivity | vm_compute; reflexivity | vm_compute; lia
      | reflexivity | lia | vm_compute; reflexivity | vm_compute; reflexivity ]. }
  eapply rtc_l.
  { apply (operation_put _ map_k_c_j 8 (fun _ => Some 192) 120 (payload "j") (payload "x")
                         5 192 true);
      [ vm_compute; reflexivity | vm_compute; reflexivity | vm_compute; lia
      | reflexivity | lia | vm_compute; reflexivity | vm_compute; reflexivity ]. }
  eapply rtc_l; [| apply rtc_refl].
  apply (operation_remove _ map_k_j 8 130 (payload "c") None None true);
    [ vm_compute; lia | vm_compute; reflexivity ].
Defined.

(* ===================================================================== *)
(** * Further properties of the queue, the stack and the list *)
(* ===================================================================== *)

(** ** A record linked at an end of a chain *)

Section ChainGrowth.

Context {A : Type}.
Variable next prev : A -> Z.

Local Abbreviation dseg := (dseg next prev).
Local Abbreviation dlist := (dlist next prev).

(** A new record [off] linked after the last record of the chain. *)
Lemma dlist_snoc (h h' : gmap Z A) (first last off : Z) (l : list Z) (n : A) :
  dlist h first l last ->
  0 <= off -> off ∉ l ->
  h' !! off = Some n -> prev n = last -> next n = NULL_OFFSET ->
  (forall o, o ∈ l -> o <> last -> h' !! o = h !! o) ->
  (l <> [] -> exists nl nl', h !! last = Some nl /\ h' !! last = Some nl'
                             /\ prev nl' = prev nl /\ next nl' = off) ->
  dlist h' (match l with [] => off | _ => first end) (l ++ [off]) off.
Proof.
  intros [Hd Hnd] Hoff Hnotin Hn Hpv Hnx Hsame Hlast. split.
  - apply dseg_app. exists last, off. split.
    + exact (dseg_retarget_last next prev h h' NULL_OFFSET first l last NULL_OFFSET off
               Hd Hnd Hsame Hlast).
    + split; [reflexivity |]. split; [exact Hoff |].
      exists n. split; [exact Hn |]. split; [exact Hpv |].
      split; [exact Hnx | reflexivity].
  - apply NoDup_app. split; [exact Hnd |]. split.
    + intros o Ho Hin. apply list_elem_of_singleton in Hin as ->. contradiction.
    + apply NoDup_singleton.
Qed.

(** A new record [off] linked before the first record of the chain. *)
Lemma dlist_cons (h h' : gmap Z A) (first last off : Z) (l : list Z) (n : A) :
  dlist h first l last ->
  0 <= off -> off ∉ l ->
  h' !! off = Some n -> prev n = NULL_OFFSET -> next n = first ->
  (forall o, o ∈ l -> o <> first -> h' !! o = h !! o) ->
  (l <> [] -> exists nf nf', h !! first = Some nf /\ h' !! first = Some nf'
                             /\ next nf' = next nf /\ prev nf' = off) ->
  dlist h' off (off :: l) (match l with [] => off | _ => last end).
Proof.
  intros [Hd Hnd] Hoff Hnotin Hn Hpv Hnx Hsame Hfirst. split.
  - split; [reflexivity |]. split; [exact Hoff |].
    exists n. split; [exact Hn |]. split; [exact Hpv |]. rewrite Hnx.
    exact (dseg_retarget_first next prev h h' NULL_OFFSET off first l last NULL_OFFSET
             Hd Hnd Hsame Hfirst).
  - apply NoDup_cons. split; assumption.
Qed.

(** The two ends of a chain. *)
Lemma dlist_ends (h : gmap Z A) (first last : Z) (l : list Z) :
  dlist h first l last ->
  match l with
  | [] => first = NULL_OFFSET /\ last = NULL_OFFSET
  | o :: _ => first = o /\ 0 <= first /\ 0 <= last /\ last ∈ l
              /\ is_Some (h !! first) /\ is_Some (h !! last)
  end.
Proof.
  intros [Hd _]. destruct l as [| o l].
  - destruct Hd as [-> <-]. split; reflexivity.
  - assert (Hne : o :: l <> []) by discriminate.
    pose proof (dseg_last_elem next prev _ _ _ _ _ _ Hd Hne) as Hin.
    pose proof (dseg_offsets_nonneg next prev _ _ _ _ _ _ Hd) as Hpos.
    rewrite Forall_forall in Hpos.
    pose proof (dseg_allocated next prev _ _ _ _ _ _ last Hd Hin) as Hal.
    destruct Hd as (-> & Hp & n & Hn & _).
    repeat split; eauto.
Qed.

End ChainGrowth.

(** ** The queue: [offer] and [offerFirst] *)

Lemma same_content_insert_ne (h : gmap Z ShmNode.t) (o o' : Z) (n : ShmNode.t) :
  o' <> o -> same_content h (<[o := n]> h) o'.
Proof. intros Hne. split; rewrite lookup_insert_ne by congruence; reflexivity. Qed.

Lemma same_content_relink (h : gmap Z ShmNode.t) (o o' : Z) (n n' : ShmNode.t) :
  h !! o = Some n ->
  ShmNode.entry n' = ShmNode.entry n -> ShmNode.data n' = ShmNode.data n ->
  same_content h (<[o := n']> h) o'.
Proof.
  intros Hn He Hd. destruct (decide (o' = o)) as [-> | Hne].
  - split; rewrite lookup_insert_eq, Hn; simpl; congruence.
  - apply same_content_insert_ne. exact Hne.
Qed.

Lemma all_valid_snoc (h : gmap Z ShmNode.t) (l : list Z) (o : Z) (n : ShmNode.t) :
  all_valid h l -> h !! o = Some n ->
  ShmEntry.state (ShmNode.entry n) = ShmEntry.STATE_VALID ->
  all_valid h (l ++ [o]).
Proof.
  intros Hv Hn Hs. apply Forall_app. split; [exact Hv |].
  apply Forall_singleton. exists n. split; assumption.
Qed.

(** [offer] links the new node after the back of the queue. *)
Lemma offer_spec (alloc : Z -> option Z) (now : Z) (q : FastQueue.t) (l : list Z)
      (data : bytes) (ttl off : Z) :
  queue_shape q l -> size_of data <> 0 ->
  alloc (ShmNode.total_size (size_of data)) = Some off ->
  0 <= off -> FastQueue.heap q !! off = None ->
  exists q',
    FastQueue.offer alloc now q (Some data) ttl = Ret (true, q')
    /\ queue_shape q' (l ++ [off])
    /\ FastQueue.heap q' !! off
       = Some (new_node now data ttl (DequeHeader.back_offset (FastQueue.header q))
                        NULL_OFFSET)
    /\ (forall o, o <> off -> same_content (FastQueue.heap q) (FastQueue.heap q') o)
    /\ DequeHeader.size (FastQueue.header q')
       = wrap64 (DequeHeader.size (FastQueue.header q) + 1)
    /\ FastQueue.trace q' = FastQueue.trace q ++ [FastQueue.Lock; FastQueue.Unlock].
Proof.
  intros [Hdl Hv] Hsz Halloc Hoff Hfresh.
  pose proof Hdl as [Hd Hnd].
  assert (Hnotin : off ∉ l).
  { intros Hin. destruct (dseg_allocated _ _ _ _ _ _ _ _ off Hd Hin) as [x Hx].
    congruence. }
  pose proof (dlist_ends _ _ _ _ _ l Hdl) as Hends.
  unfold FastQueue.offer. rewrite (size_of_eqb_0 data Hsz). cbv zeta.
  unfold FastQueue.allocate_node, manager_allocate. qsimpl. rewrite Halloc, !bind_Ret.
  do 3 run_update. rewrite !insert_insert_eq.
  set (back := DequeHeader.back_offset (FastQueue.header q)) in *.
  change (ShmNode.set_next NULL_OFFSET
            (ShmNode.set_prev back
               (SerializationUtil.copy_to_node now ShmNode.init data ttl)))
    with (new_node now data ttl back NULL_OFFSET).
  set (node := new_node now data ttl back NULL_OFFSET).
  assert (Hvalid : ShmEntry.state (ShmNode.entry node) = ShmEntry.STATE_VALID)
    by reflexivity.
  destruct l as [| o0 l0].
  - destruct Hends as [Hfront Hback].
    replace (0 <=? back) with false
      by (symmetry; apply Z.leb_gt; rewrite Hback; reflexivity).
    rewrite bind_Ret. eexists. split; [reflexivity |]. unfold queue_shape. qsimpl.
    split; [| split; [apply lookup_insert_eq |
                      split; [intros o Hne; apply same_content_insert_ne; exact Hne |
                              split; [reflexivity |]]]].
    + split.
      * apply (dlist_snoc _ _ (FastQueue.heap q) _ _ _ off [] node Hdl Hoff Hnotin
                 (lookup_insert_eq _ _ _) eq_refl eq_refl).
        -- intros o Ho. apply elem_of_nil in Ho. contradiction.
        -- intros Hc. contradiction.
      * apply (all_valid_snoc _ [] off node); [apply Forall_nil_2 | apply lookup_insert_eq
                                                | exact Hvalid].
    + rewrite <- !app_assoc. reflexivity.
  - destruct Hends as (Hfront & Hf0 & Hb0 & Hbin & _ & [nb Hnb]).
    fold back in Hb0, Hbin, Hnb.
    assert (Hne : back <> off) by (intros Heq; apply Hnotin; rewrite <- Heq; exact Hbin).
    replace (0 <=? back) with true by (symmetry; apply Z.leb_le; exact Hb0).
    erewrite update_Some by (rewrite lookup_insert_ne by congruence; exact Hnb).
    rewrite bind_Ret. eexists. split; [reflexivity |]. unfold queue_shape. qsimpl.
    split; [| split; [rewrite lookup_insert_ne by congruence; apply lookup_insert_eq |
                      split; [| split; [reflexivity |]]]].
    + split.
      * apply (dlist_snoc _ _ (FastQueue.heap q) _ _ _ off (o0 :: l0) node Hdl Hoff Hnotin).
        -- rewrite lookup_insert_ne by congruence. apply lookup_insert_eq.
        -- reflexivity.
        -- reflexivity.
        -- intros o Ho Hob. fold back in Hob.
           rewrite !lookup_insert_ne; [reflexivity | | congruence].
           intros ->. contradiction.
        -- intros _. fold back. exists nb, (ShmNode.set_next off nb).
           split; [exact Hnb |]. split; [apply lookup_insert_eq |].
           split; reflexivity.
      * apply (all_valid_snoc _ (o0 :: l0) off node).
        -- eapply all_valid_content; [| exact Hv].
           intros o Ho. eapply same_content_trans.
           ++ apply (same_content_insert_ne _ off o node). intros ->. contradiction.
           ++ apply (same_content_relink _ back o nb);
                [rewrite lookup_insert_ne by congruence; exact Hnb | reflexivity
                 | reflexivity].
        -- rewrite lookup_insert_ne by congruence. apply lookup_insert_eq.
        -- exact Hvalid.
    + intros o Ho. eapply same_content_trans.
      * apply (same_content_insert_ne _ off o node). exact Ho.
      * apply (same_content_relink _ back o nb);
          [rewrite lookup_insert_ne by congruence; exact Hnb | reflexivity | reflexivity].
    + rewrite <- !app_assoc. reflexivity.
Qed.

Lemma all_valid_cons (h : gmap Z ShmNode.t) (l : list Z) (o : Z) (n : ShmNode.t) :
  all_valid h l -> h !! o = Some n ->
  ShmEntry.state (ShmNode.entry n) = ShmEntry.STATE_VALID ->
  all_valid h (o :: l).
Proof.
  intros Hv Hn Hs. apply Forall_cons. split; [| exact Hv].
  exists n. split; assumption.
Qed.

(** [offerFirst] links the new node before the front of the queue. *)
Lemma offerFirst_spec (alloc : Z -> option Z) (now : Z) (q : FastQueue.t) (l : list Z)
      (data : bytes) (ttl off : Z) :
  queue_shape q l -> size_of data <> 0 ->
  alloc (ShmNode.total_size (size_of data)) = Some off ->
  0 <= off -> FastQueue.heap q !! off = None ->
  exists q',
    FastQueue.offerFirst alloc now q (Some data) ttl = Ret (true, q')
    /\ queue_shape q' (off :: l)
    /\ FastQueue.heap q' !! off
       = Some (new_node now data ttl NULL_OFFSET
                        (DequeHeader.front_offset (FastQueue.header q)))
    /\ (forall o, o <> off -> same_content (FastQueue.heap q) (FastQueue.heap q') o)
    /\ DequeHeader.size (FastQueue.header q')
       = wrap64 (DequeHeader.size (FastQueue.header q) + 1)
    /\ FastQueue.trace q' = FastQueue.trace q ++ [FastQueue.Lock; FastQueue.Unlock].
Proof.
  intros [Hdl Hv] Hsz Halloc Hoff Hfresh.
  pose proof Hdl as [Hd Hnd].
  assert (Hnotin : off ∉ l).
  { intros Hin. destruct (dseg_allocated _ _ _ _ _ _ _ _ off Hd Hin) as [x Hx].
    congruence. }
  pose proof (dlist_ends _ _ _ _ _ l Hdl) as Hends.
  unfold FastQueue.offerFirst. rewrite (size_of_eqb_0 data Hsz). cbv zeta.
  unfold FastQueue.allocate_node, manager_allocate. qsimpl. rewrite Halloc, !bind_Ret.
  do 3 run_update. rewrite !insert_insert_eq.
  set (front := DequeHeader.front_offset (FastQueue.header q)) in *.
  change (ShmNode.set_prev NULL_OFFSET
            (ShmNode.set_next front
               (SerializationUtil.copy_to_node now ShmNode.init data ttl)))
    with (new_node now data ttl NULL_OFFSET front).
  set (node := new_node now data ttl NULL_OFFSET front).
  assert (Hvalid : ShmEntry.state (ShmNode.entry node) = ShmEntry.STATE_VALID)
    by reflexivity.
  destruct l as [| o0 l0].
  - destruct Hends as [Hfront Hback].
    replace (0 <=? front) with false
      by (symmetry; apply Z.leb_gt; rewrite Hfront; reflexivity).
    rewrite bind_Ret. eexists. split; [reflexivity |]. unfold queue_shape. qsimpl.
    split; [| split; [apply lookup_insert_eq |
                      split; [intros o Hne; apply same_content_insert_ne; exact Hne |
                              split; [reflexivity |]]]].
    + split.
      * apply (dlist_cons _ _ (FastQueue.heap q) _ _ _ off [] node Hdl Hoff Hnotin
                 (lookup_insert_eq _ _ _) eq_refl eq_refl).
        -- intros o Ho. apply elem_of_nil in Ho. contradiction.
        -- intros Hc. contradiction.
      * apply (all_valid_cons _ [] off node); [apply Forall_nil_2 | apply lookup_insert_eq
                                               | exact Hvalid].
    + rewrite <- !app_assoc. reflexivity.
  - destruct Hends as (Hfront & Hf0 & Hb0 & Hbin & [nf Hnf] & _).
    fold front in Hf0, Hnf, Hfront.
    assert (Hfin : front ∈ o0 :: l0) by (rewrite Hfront; left).
    assert (Hne : front <> off) by (intros Heq; apply Hnotin; rewrite <- Heq; exact Hfin).
    replace (0 <=? front) with true by (symmetry; apply Z.leb_le; exact Hf0).
    erewrite update_Some by (rewrite lookup_insert_ne by congruence; exact Hnf).
    rewrite bind_Ret. eexists. split; [reflexivity |]. unfold queue_shape. qsimpl.
    split; [| split; [rewrite lookup_insert_ne by congruence; apply lookup_insert_eq |
                      split; [| split; [reflexivity |]]]].
    + split.
      * apply (dlist_cons _ _ (FastQueue.heap q) _ _ _ off (o0 :: l0) node Hdl Hoff Hnotin).
        -- rewrite lookup_insert_ne by congruence. apply lookup_insert_eq.
        -- reflexivity.
        -- reflexivity.
        -- intros o Ho Hob. fold front in Hob.
           rewrite !lookup_insert_ne; [reflexivity | | congruence].
           intros ->. contradiction.
        -- intros _. fold front. exists nf, (ShmNode.set_prev off nf).
           split; [exact Hnf |]. split; [apply lookup_insert_eq |].
           split; reflexivity.
      * apply (all_valid_cons _ (o0 :: l0) off node).
        -- eapply all_valid_content; [| exact Hv].
           intros o Ho. eapply same_content_trans.
           ++ apply (same_content_insert_ne _ off o node). intros ->. contradiction.
           ++ apply (same_content_relink _ front o nf);
                [rewrite lookup_insert_ne by congruence; exact Hnf | reflexivity
                 | reflexivity].
        -- rewrite lookup_insert_ne by congruence. apply lookup_insert_eq.
        -- exact Hvalid.
    + intros o Ho. eapply same_content_trans.
      * apply (same_content_insert_ne _ off o node). exact Ho.
      * apply (same_content_relink _ front o nf);
          [rewrite lookup_insert_ne by congruence; exact Hnf | reflexivity | reflexivity].
    + rewrite <- !app_assoc. reflexivity.
Qed.

(** ** The nodes that an enumeration visits *)

Lemma alive_calls_app (now : Z) (h : gmap Z ShmNode.t) (l1 l2 : list Z) :
  alive_calls now h (l1 ++ l2) = alive_calls now h l1 ++ alive_calls now h l2.
Proof. unfold alive_calls. apply omap_app. Qed.

Lemma alive_calls_content (now : Z) (h h' : gmap Z ShmNode.t) (l : list Z) :
  (forall o, o ∈ l -> same_content h h' o) ->
  alive_calls now h' l = alive_calls now h l.
Proof.
  induction l as [| o l IH]; intros Hc; [reflexivity |].
  change (o :: l) with ([o] ++ l). rewrite !alive_calls_app.
  rewrite IH by (intros o' Ho'; apply Hc; right; exact Ho').
  f_equal. destruct (Hc o ltac:(left)) as [He Hd].
  unfold alive_calls. simpl.
  destruct (h' !! o) as [n' |], (h !! o) as [n |]; simpl in He, Hd; try discriminate;
    [| reflexivity].
  injection He as He. injection Hd as Hd. rewrite He, Hd. reflexivity.
Qed.

Lemma alive_calls_new_node (t now : Z) (h : gmap Z ShmNode.t) (off : Z)
      (data : bytes) (ttl prev next : Z) :
  h !! off = Some (new_node now data ttl prev next) ->
  alive_calls t h [off]
  = if ShmEntry.is_alive t
         (ShmNode.entry (SerializationUtil.copy_to_node now ShmNode.init data ttl))
    then [(data, wrap32 (size_of data))] else [].
Proof.
  intros Hn. unfold alive_calls. simpl. rewrite Hn.
  change (ShmNode.entry (new_node now data ttl prev next))
    with (ShmNode.entry (SerializationUtil.copy_to_node now ShmNode.init data ttl)).
  destruct (ShmEntry.is_alive t _); reflexivity.
Qed.

(** The enumeration of a queue visits the alive nodes of its chain. *)
Lemma FastQueue_forEach_calls (now : Z) (h : gmap Z ShmNode.t) (l : list Z) :
  forall (fuel : nat) (p : Z),
    chain ShmNode.next_offset h p l -> (length l < fuel)%nat ->
    FastQueue.forEach_loop fuel now h always2 p = Ret (alive_calls now h l).
Proof.
  induction l as [| o l IH]; intros fuel p Hc Hf;
    (destruct fuel as [| fuel]; [simpl in Hf; lia |]).
  - simpl in Hc. loop_end Hc. reflexivity.
  - destruct Hc as (-> & Hp & n & Hn & Hc). simpl in Hf.
    loop_round Hp Hn. rewrite (IH fuel _ Hc) by lia. rewrite Hn.
    destruct (ShmEntry.is_alive now (ShmNode.entry n)); reflexivity.
Qed.

Lemma FastQueue_forEach_shape (fuel : nat) (now : Z) (q : FastQueue.t) (l : list Z) :
  queue_shape q l -> (length l < fuel)%nat ->
  FastQueue.forEach fuel now q always2
  = Ret (alive_calls now (FastQueue.heap q) l, FastQueue.unlock (FastQueue.lock q)).
Proof.
  intros [Hdl _] Hf. unfold FastQueue.forEach. cbv zeta. qsimpl.
  rewrite (FastQueue_forEach_calls now _ l fuel _ (dlist_chain _ _ _ _ _ _ Hdl) Hf).
  reflexivity.
Qed.

(** X14.  On a well-linked queue, with an allocator that returns a free
    block, [offer] and [offerFirst] of [data] return [true], add one to
    the size stored in the header and leave a well-linked queue.  An
    enumeration with a callback that never stops it, at any instant [t],
    then makes the calls it made on the queue before, followed (for
    [offer]) or preceded (for [offerFirst]) by one call with [data] if
    the new node is alive at [t]. *)
Theorem offer_enqueues_at_the_back_and_offerFirst_at_the_front
        (alloc : Z -> option Z) (now : Z) (q : FastQueue.t) (l : list Z)
        (data : bytes) (ttl off : Z) :
  queue_shape q l -> size_of data <> 0 ->
  alloc (ShmNode.total_size (size_of data)) = Some off ->
  0 <= off -> FastQueue.heap q !! off = None ->
  let added (t : Z) :=
    if ShmEntry.is_alive t
         (ShmNode.entry (SerializationUtil.copy_to_node now ShmNode.init data ttl))
    then [(data, wrap32 (size_of data))] else [] in
  (exists q',
      FastQueue.offer alloc now q (Some data) ttl = Ret (true, q')
      /\ queue_shape q' (l ++ [off])
      /\ DequeHeader.size (FastQueue.header q')
         = wrap64 (DequeHeader.size (FastQueue.header q) + 1)
      /\ forall fuel t,
          (length l + 1 < fuel)%nat ->
          exists calls q0 q1,
            FastQueue.forEach fuel t q always2 = Ret (calls, q0)
            /\ FastQueue.forEach fuel t q' always2 = Ret (calls ++ added t, q1))
  /\ (exists q',
        FastQueue.offerFirst alloc now q (Some data) ttl = Ret (true, q')
        /\ queue_shape q' (off :: l)
        /\ DequeHeader.size (FastQueue.header q')
           = wrap64 (DequeHeader.size (FastQueue.header q) + 1)
        /\ forall fuel t,
            (length l + 1 < fuel)%nat ->
            exists calls q0 q1,
              FastQueue.forEach fuel t q always2 = Ret (calls, q0)
              /\ FastQueue.forEach fuel t q' always2 = Ret (added t ++ calls, q1)).
Proof.
  intros Hshape Hsz Halloc Hoff Hfresh added.
  assert (Hnotin : off ∉ l).
  { intros Hin. destruct Hshape as [[Hd _] _].
    destruct (dseg_allocated _ _ _ _ _ _ _ _ off Hd Hin) as [x Hx]. congruence. }
  split.
  - destruct (offer_spec alloc now q l data ttl off Hshape Hsz Halloc Hoff Hfresh)
      as (q' & Hrun & Hshape' & Hat & Hcont & Hsize & _).
    exists q'. split; [exact Hrun |]. split; [exact Hshape' |]. split; [exact Hsize |].
    intros fuel t Hfuel. eexists _, _, _.
    split; [apply (FastQueue_forEach_shape fuel t q l Hshape); lia |].
    rewrite (FastQueue_forEach_shape fuel t q' _ Hshape') by (rewrite length_app; simpl; lia).
    rewrite alive_calls_app, (alive_calls_new_node t now _ off data ttl _ _ Hat).
    rewrite (alive_calls_content t (FastQueue.heap q) (FastQueue.heap q') l); [reflexivity |].
    intros o Ho. apply Hcont. intros ->. contradiction.
  - destruct (offerFirst_spec alloc now q l data ttl off Hshape Hsz Halloc Hoff Hfresh)
      as (q' & Hrun & Hshape' & Hat & Hcont & Hsize & _).
    exists q'. split; [exact Hrun |]. split; [exact Hshape' |]. split; [exact Hsize |].
    intros fuel t Hfuel. eexists _, _, _.
    split; [apply (FastQueue_forEach_shape fuel t q l Hshape); lia |].
    rewrite (FastQueue_forEach_shape fuel t q' _ Hshape') by (simpl; lia).
    change (off :: l) with ([off] ++ l).
    rewrite alive_calls_app, (alive_calls_new_node t now _ off data ttl _ _ Hat).
    rewrite (alive_calls_content t (FastQueue.heap q) (FastQueue.heap q') l); [reflexivity |].
    intros o Ho. apply Hcont. intros ->. contradiction.
Qed.

Lemma offer_enqueues_at_the_back_and_offerFirst_at_the_front_witness :
  exists q' q1,
    FastQueue.offer (fun _ => Some 192) 150 queue_state (Some (payload "t3")) TTL_INFINITE
    = Ret (true, q')
    /\ FastQueue.forEach 8 200 q' always2
       = Ret ([(payload "t2", 2); (payload "t3", 2)], q1).
Proof.
  destruct (offer_enqueues_at_the_back_and_offerFirst_at_the_front
              (fun _ => Some 192) 150 queue_state [64; 128] (payload "t3") TTL_INFINITE 192
              queue_state_shape ltac:(vm_compute; discriminate) eq_refl ltac:(lia)
              ltac:(vm_compute; reflexivity))
    as [(q' & Hrun & _ & _ & Hcalls) _].
  destruct (Hcalls 8%nat 200 ltac:(simpl; lia)) as (calls & q0 & q1 & Hbefore & Hafter).
  assert (Hc : FastQueue.forEach 8 200 queue_state always2
               = Ret ([(payload "t2", 2)],
                      FastQueue.unlock (FastQueue.lock queue_state)))
    by (vm_compute; reflexivity).
  pose proof (eq_trans (eq_sym Hc) Hbefore) as Heq.
  injection Heq as <- _.
  exists q', q1. split; [exact Hrun | exact Hafter].
Defined.

(** ** The queue: the two ends *)

(** The chain of a queue is a prefix of expired nodes followed by nodes
    of which the first is not expired. *)
Lemma expired_prefix_split (now : Z) (h : gmap Z ShmNode.t) (l : list Z) :
  all_valid h l ->
  exists l1 l2, l = l1 ++ l2 /\ Forall (expired_at now h) l1 /\ front_not_expired now h l2.
Proof.
  induction l as [| o l IH]; intros Hv.
  - exists [], []. split; [reflexivity |]. split; [apply Forall_nil_2 | exact I].
  - apply Forall_cons in Hv as [(n & Hn & Hs) Hv].
    destruct (ShmEntry.is_expired now (ShmNode.entry n)) eqn:He.
    + destruct (IH Hv) as (l1 & l2 & -> & H1 & H2).
      exists (o :: l1), l2. split; [reflexivity |]. split; [| exact H2].
      apply Forall_cons. split; [| exact H1]. exists n. split; assumption.
    + exists [], (o :: l). split; [reflexivity |]. split; [apply Forall_nil_2 |].
      exists n. split; assumption.
Qed.

(** The first record of a chain, on a clock that agrees with the instant
    [t] on it. *)
Lemma steady_front_not_expired (t : Z) (now : clock) (m : nat) (h : gmap Z ShmNode.t)
      (l : list Z) (k : nat) :
  (k < m)%nat ->
  steady t now m h l -> front_not_expired t h l -> front_not_expired (now k) h l.
Proof.
  intros Hk Hst Hf. destruct l as [| o l]; [exact I |].
  destruct Hf as (n & Hn & He). exists n. split; [exact Hn |].
  rewrite (proj1 (Hst k o n Hk ltac:(left) Hn)). exact He.
Qed.

(** What [peek] and [poll] do, and what they leave in the nodes, when no
    node of the queue expires during the call: the readings of the
    clock, one for each node of [l1] and three more, agree with the
    instant [t] on every node. *)
Lemma front_runs_steady (fuel : nat) (t : Z) (now : clock) (q : FastQueue.t)
      (l1 l2 : list Z) (out_data : bytes) :
  queue_shape q (l1 ++ l2) ->
  steady t now (length l1 + 3) (FastQueue.heap q) (l1 ++ l2) ->
  Forall (expired_at t (FastQueue.heap q)) l1 ->
  front_not_expired t (FastQueue.heap q) l2 ->
  (length l1 < fuel)%nat ->
  (exists q',
      FastQueue.peek fuel now q out_data
      = Ret (front_answer (FastQueue.heap q) l2 out_data, q')
      /\ queue_shape q' l2
      /\ (forall o, o ∉ l1 -> same_content (FastQueue.heap q) (FastQueue.heap q') o))
  /\ (exists q',
        FastQueue.poll fuel now q out_data
        = Ret (front_answer (FastQueue.heap q) l2 out_data, q')
        /\ queue_shape q' (drop 1 l2)
        /\ (forall o, o ∉ l1 ++ take 1 l2 ->
                      same_content (FastQueue.heap q) (FastQueue.heap q') o)).
Proof.
  intros Hshape Hst Hexp Hfront Hfuel.
  destruct (steady_app _ _ _ _ _ _ Hst) as [Hst1 Hst2].
  assert (Hturn : expired_in_turn now (FastQueue.heap q) l1)
    by (apply (steady_expired_in_turn t _ l1 now _ Hst1); [lia | exact Hexp]).
  assert (Hfr : forall k, (k < length l1 + 3)%nat ->
                          front_not_expired (now k) (FastQueue.heap q) l2)
    by (intros k Hk; exact (steady_front_not_expired t now _ _ l2 k Hk Hst2 Hfront)).
  pose proof (front_runs fuel now q l1 l2 out_data Hshape Hturn
                (Hfr (length l1) ltac:(lia)) Hfuel)
    as Hruns.
  assert (Hv2 : all_valid (FastQueue.heap q) l2)
    by (destruct Hshape as [_ Hv]; apply Forall_app in Hv as [_ Hv]; exact Hv).
  rewrite (front_reading_alive now _ _ l2 out_data Hv2
             (Hfr (S (length l1)) ltac:(lia)) (Hfr (S (S (length l1))) ltac:(lia)))
    in Hruns.
  assert (Htaken : (if (front_answer (FastQueue.heap q) l2 out_data).1
                    then take 1 l2 else []) = take 1 l2)
    by (destruct l2; reflexivity).
  cbv zeta in Hruns. rewrite Htaken in Hruns.
  assert (Hdrop : drop (length (take 1 l2)) l2 = drop 1 l2) by (destruct l2; reflexivity).
  rewrite Hdrop in Hruns.
  destruct Hruns as [(qa & Hpeek & _ & _ & _ & Hqa & Hca)
                       (qb & Hpoll & _ & _ & _ & Hqb & Hcb)].
  split.
  - exists qa. exact (conj Hpeek (conj Hqa Hca)).
  - exists qb. exact (conj Hpoll (conj Hqb Hcb)).
Qed.

(** The calls of an enumeration, on a chain that starts with expired
    nodes. *)
Lemma alive_calls_expired_prefix (now : Z) (h : gmap Z ShmNode.t) (l1 l2 : list Z) :
  Forall (expired_at now h) l1 ->
  alive_calls now h (l1 ++ l2) = alive_calls now h l2.
Proof.
  intros Hexp. rewrite alive_calls_app.
  replace (alive_calls now h l1) with (@nil (bytes * Z)); [reflexivity |].
  symmetry. induction Hexp as [| o l (n & Hn & He) _ IH]; [reflexivity |].
  change (o :: l) with ([o] ++ l). rewrite alive_calls_app, IH, app_nil_r.
  unfold alive_calls. simpl. rewrite Hn.
  destruct (ShmEntry.is_alive now (ShmNode.entry n)) eqn:Ha; [| reflexivity].
  rewrite (is_alive_not_expired now _ Ha) in He. discriminate.
Qed.

(** X15.  On a well-linked queue, let [calls] be the calls that an
    enumeration with a callback that never stops it makes at the instant
    [t], and take a call of [peek], [poll], [element()] or [remove()]
    during which no node of the queue expires: each reading of its
    clock (there are three more than nodes at most) agrees with [t] on
    every node.  If there is no call, [peek] and [poll] return [false]
    and leave the caller's vector as it was, and [element()] and
    [remove()] raise [NOT_FOUND].  Otherwise [peek] and [element()]
    give the bytes of the first call and leave a queue with the same
    enumeration, and [poll] and [remove()] give the bytes of the first
    call and leave a queue whose enumeration is the rest of the calls:
    the first element out is the first that is enumerated. *)
Theorem poll_takes_the_first_element_of_the_enumeration
        (fuel : nat) (t : Z) (now : clock) (q : FastQueue.t) (l : list Z) (out : bytes) :
  queue_shape q l -> (length l < fuel)%nat ->
  steady t now (length l + 3) (FastQueue.heap q) l ->
  exists calls q0,
    FastQueue.forEach fuel t q always2 = Ret (calls, q0)
    /\ match calls with
       | [] =>
           (exists q', FastQueue.peek fuel now q out = Ret (false, out, q'))
           /\ (exists q', FastQueue.poll fuel now q out = Ret (false, out, q'))
           /\ (exists q', FastQueue.element fuel now q
                          = Ret (inl (FastCollectionException NOT_FOUND), q'))
           /\ (exists q', FastQueue.remove fuel now q
                          = Ret (inl (FastCollectionException NOT_FOUND), q'))
       | (d, n) :: rest =>
           (exists q' q1,
               FastQueue.peek fuel now q out = Ret (true, take (Z.to_nat n) d, q')
               /\ FastQueue.forEach fuel t q' always2 = Ret (calls, q1))
           /\ (exists q' q1,
                  FastQueue.poll fuel now q out = Ret (true, take (Z.to_nat n) d, q')
                  /\ FastQueue.forEach fuel t q' always2 = Ret (rest, q1))
           /\ (exists q', FastQueue.element fuel now q
                          = Ret (inr (take (Z.to_nat n) d), q'))
           /\ (exists q', FastQueue.remove fuel now q
                          = Ret (inr (take (Z.to_nat n) d), q'))
       end.
Proof.
  intros Hshape Hfuel Hsteady.
  destruct (expired_prefix_split t (FastQueue.heap q) l (proj2 Hshape))
    as (l1 & l2 & -> & Hexp & Hfront).
  rewrite length_app in Hfuel, Hsteady.
  apply (steady_le _ _ _ (length l1 + 3)) in Hsteady; [| lia].
  pose proof Hshape as [[_ Hnd] Hv].
  apply NoDup_app in Hnd as (_ & Hdis & Hnd2).
  rewrite (FastQueue_forEach_shape fuel t q _ Hshape) by (rewrite length_app; lia).
  rewrite (alive_calls_expired_prefix t _ l1 l2 Hexp).
  eexists _, _. split; [reflexivity |].
  destruct (front_runs_steady fuel t now q l1 l2 out Hshape Hsteady Hexp Hfront ltac:(lia))
    as [(qa & Hpeek & Hsa & Hca) (qb & Hpoll & Hsb & Hcb)].
  destruct (front_runs_steady fuel t now q l1 l2 [] Hshape Hsteady Hexp Hfront ltac:(lia))
    as [(qc & Hpeek0 & _) (qd & Hpoll0 & _)].
  destruct l2 as [| o l2].
  - simpl. split; [exists qa; exact Hpeek |]. split; [exists qb; exact Hpoll |].
    unfold FastQueue.element, FastQueue.remove. rewrite Hpeek0, Hpoll0.
    split; eexists; reflexivity.
  - destruct Hfront as (n & Hn & Hne).
    apply Forall_app in Hv as [_ Hv2].
    apply Forall_cons in Hv2 as [(n' & Hn' & Hvalid) _].
    rewrite Hn in Hn'. injection Hn' as <-.
    assert (Halive : ShmEntry.is_alive t (ShmNode.entry n) = true)
      by (rewrite (valid_alive_or_expired t _ Hvalid), Hne; reflexivity).
    apply NoDup_cons in Hnd2 as [Hno2 Hnd2].
    assert (Hcalls : alive_calls t (FastQueue.heap q) (o :: l2)
                     = (ShmNode.data n, ShmEntry.data_size (ShmNode.entry n))
                         :: alive_calls t (FastQueue.heap q) l2).
    { change (o :: l2) with ([o] ++ l2). rewrite alive_calls_app.
      unfold alive_calls at 1. simpl omap. rewrite Hn, Halive. reflexivity. }
    rewrite Hcalls.
    assert (Hf2 : (S (length l2) < fuel)%nat) by (simpl in Hfuel; lia).
    simpl in Hpeek, Hpoll, Hpeek0, Hpoll0.
    rewrite Hn in Hpeek, Hpoll, Hpeek0, Hpoll0.
    split; [| split].
    + exists qa. eexists. split; [exact Hpeek |].
      rewrite (FastQueue_forEach_shape fuel t qa _ Hsa) by exact Hf2.
      rewrite (alive_calls_content t (FastQueue.heap q) (FastQueue.heap qa) (o :: l2)).
      * rewrite Hcalls. reflexivity.
      * intros x Hx. apply Hca. intros Hin. exact (Hdis x Hin Hx).
    + exists qb. eexists. split; [exact Hpoll |].
      change (drop 1 (o :: l2)) with l2 in Hsb.
      rewrite (FastQueue_forEach_shape fuel t qb _ Hsb) by lia.
      rewrite (alive_calls_content t (FastQueue.heap q) (FastQueue.heap qb) l2);
        [reflexivity |].
      intros x Hx. apply Hcb. simpl take. intros Hin.
      apply elem_of_app in Hin as [Hin | Hin].
      * apply (Hdis x Hin). right. exact Hx.
      * apply list_elem_of_singleton in Hin as ->. contradiction.
    + unfold FastQueue.element, FastQueue.remove. rewrite Hpeek0, Hpoll0.
      split; eexists; reflexivity.
Qed.

(** The clock advances by a nanosecond at each reading, from 200 on: the
    node of ["t1"], expired since 100, stays expired, and the node of
    ["t2"] never expires. *)
Lemma queue_state_steady (m : nat) :
  steady 200 (running_from 200) m (FastQueue.heap queue_state) [64; 128].
Proof.
  intros k o n _ Ho Hn.
  apply elem_of_cons in Ho as [-> | Ho];
    [| apply list_elem_of_singleton in Ho as ->];
    vm_compute in Hn; injection Hn as <-;
    unfold ShmEntry.is_expired, ShmEntry.is_alive, running_from; simpl;
    split; try reflexivity.
  - apply Z.leb_le. lia.
  - apply Z.ltb_ge. lia.
Qed.

Lemma poll_takes_the_first_element_of_the_enumeration_witness :
  exists q' q1,
    FastQueue.poll 8 (running_from 200) queue_state [] = Ret (true, payload "t2", q')
    /\ FastQueue.forEach 8 200 q' always2 = Ret ([], q1).
Proof.
  destruct (poll_takes_the_first_element_of_the_enumeration
              8 200 (running_from 200) queue_state [64; 128] []
              queue_state_shape ltac:(simpl; lia) (queue_state_steady _))
    as (calls & q0 & Hcalls & Hcases).
  assert (Hc : FastQueue.forEach 8 200 queue_state always2
               = Ret ([(payload "t2", 2)],
                      FastQueue.unlock (FastQueue.lock queue_state)))
    by (vm_compute; reflexivity).
  pose proof (eq_trans (eq_sym Hc) Hcalls) as Heq.
  injection Heq as <- _.
  destruct Hcases as (_ & (q' & q1 & Hpoll & Hrest) & _).
  exists q', q1. split; [exact Hpoll | exact Hrest].
Defined.

Lemma same_content_set_next (h : gmap Z ShmNode.t) (o o' p : Z) (n : ShmNode.t) :
  h !! o = Some n -> same_content h (<[o := ShmNode.set_next p n]> h) o'.
Proof. intros Hn. apply (same_content_relink h o o' n); [exact Hn | |]; reflexivity. Qed.

(** The removal of the back node of a queue: what is left is the queue
    of the other nodes. *)
Lemma remove_back_spec (q : FastQueue.t) (l : list Z) (o : Z) :
  queue_shape q (l ++ [o]) ->
  exists q1 n,
    FastQueue.heap q !! o = Some n
    /\ FastQueue.remove_back q o = Ret q1
    /\ queue_shape q1 l
    /\ DequeHeader.back_offset (FastQueue.header q1) = ShmNode.prev_offset n
    /\ FastQueue.heap q1 !! o = None
    /\ (forall o', o' <> o -> same_content (FastQueue.heap q) (FastQueue.heap q1) o')
    /\ DequeHeader.size (FastQueue.header q1)
       = wrap64 (DequeHeader.size (FastQueue.header q) - 1)
    /\ FastQueue.stats q1 = FastQueue.stats q.
Proof.
  intros [[Hd Hnd] Hv].
  apply dseg_app in Hd as (j & jn & Hd1 & Hd2).
  destruct Hd2 as (-> & Hp & n & Hn & Hpp & Hnx & Hback).
  apply NoDup_app in Hnd as (Hnd1 & Hdis & _).
  assert (Hnotin : o ∉ l) by (intros Hin; apply (Hdis o Hin); left).
  apply Forall_app in Hv as [Hv _].
  unfold FastQueue.remove_back. rewrite (deref_Some _ _ _ Hn), bind_Ret.
  destruct l as [| o1 l1].
  - destruct Hd1 as [Hfront Hj].
    replace (0 <=? ShmNode.prev_offset n) with false
      by (symmetry; apply Z.leb_gt; rewrite Hpp, <- Hj; reflexivity).
    rewrite bind_Ret. qsimpl.
    rewrite (update_Some _ _ _ _ Hn), bind_Ret.
    eexists. exists n. split; [exact Hn |]. split; [reflexivity |].
    unfold queue_shape, dlist. qsimpl.
    split; [| split; [| split; [| split; [| split]]]]; try reflexivity.
    + split; [split |]; [| constructor | constructor].
      split; [reflexivity | rewrite Hpp, <- Hj; reflexivity].
    + apply lookup_delete_eq.
    + intros o' Hne. apply same_content_free. exact Hne.
  - assert (Hne1 : o1 :: l1 <> []) by discriminate.
    pose proof (dseg_last_elem _ _ _ _ _ _ _ _ Hd1 Hne1) as Hjin.
    pose proof (dseg_offsets_nonneg _ _ _ _ _ _ _ _ Hd1) as Hpos.
    rewrite Forall_forall in Hpos. pose proof (Hpos j Hjin) as Hj0.
    destruct (dseg_allocated _ _ _ _ _ _ _ _ j Hd1 Hjin) as [nj Hnj].
    assert (Hjo : j <> o) by (intros ->; contradiction).
    replace (0 <=? ShmNode.prev_offset n) with true
      by (symmetry; apply Z.leb_le; rewrite Hpp; exact Hj0).
    qsimpl. rewrite Hpp. rewrite (update_Some _ _ _ _ Hnj), !bind_Ret. qsimpl.
    erewrite update_Some by (rewrite lookup_insert_ne by congruence; exact Hn).
    rewrite bind_Ret.
    eexists. exists n. split; [exact Hn |]. split; [reflexivity |].
    unfold queue_shape, dlist. qsimpl.
    assert (Hcontent : forall o', o' <> o ->
              same_content (FastQueue.heap q)
                (delete o (<[o := FastQueue.mark_deleted n]>
                             (<[j := ShmNode.set_next NULL_OFFSET nj]>
                                (FastQueue.heap q)))) o').
    { intros o' Hne'. eapply same_content_trans.
      - apply (same_content_set_next _ j o' NULL_OFFSET nj Hnj).
      - apply same_content_free. exact Hne'. }
    split; [| split; [| split; [| split; [| split]]]]; try reflexivity;
      try (symmetry; exact Hpp).
    + split; [split |].
      * apply (dseg_retarget_last _ _ (FastQueue.heap q) _ NULL_OFFSET _ (o1 :: l1) j o
                 NULL_OFFSET Hd1 Hnd1).
        -- intros o' Ho' Hne'. rewrite lookup_delete_ne, !lookup_insert_ne;
             [reflexivity | congruence | | ]; intros ->; contradiction.
        -- intros _. exists nj, (ShmNode.set_next NULL_OFFSET nj).
           split; [exact Hnj |]. split; [| split; reflexivity].
           rewrite lookup_delete_ne, lookup_insert_ne by congruence.
           apply lookup_insert_eq.
      * exact Hnd1.
      * eapply all_valid_content; [| exact Hv].
        intros o' Ho'. apply Hcontent. intros ->. contradiction.
    + apply lookup_delete_eq.
    + exact Hcontent.
Qed.

Lemma expired_not_alive (t : Z) (e : ShmEntry.t) :
  ShmEntry.is_expired t e = true -> ShmEntry.is_alive t e = false.
Proof.
  intros He. destruct (ShmEntry.is_alive t e) eqn:Ha; [| reflexivity].
  rewrite (is_alive_not_expired t e Ha) in He. discriminate.
Qed.

(** The back offset of a queue is its last node. *)
Lemma queue_shape_back (q : FastQueue.t) (l : list Z) (o : Z) :
  queue_shape q (l ++ [o]) ->
  DequeHeader.back_offset (FastQueue.header q) = o /\ 0 <= o
  /\ exists n, FastQueue.heap q !! o = Some n
               /\ ShmEntry.state (ShmNode.entry n) = ShmEntry.STATE_VALID.
Proof.
  intros [[Hd _] Hv].
  apply dseg_app in Hd as (j & jn & _ & Hd2).
  destruct Hd2 as (-> & Hp & n & Hn & _ & _ & Hback).
  apply Forall_app in Hv as [_ Hv]. apply Forall_cons in Hv as [(n' & Hn' & Hs) _].
  split; [symmetry; exact Hback |]. split; [exact Hp |].
  exists n'. split; assumption.
Qed.

Lemma expired_suffix_split (now : Z) (h : gmap Z ShmNode.t) (l : list Z) :
  all_valid h l ->
  exists l1 l2, l = l1 ++ l2 /\ back_not_expired now h l1 /\ Forall (expired_at now h) l2.
Proof.
  induction l as [| o l IH] using rev_ind; intros Hv.
  - exists [], []. split; [reflexivity |]. split; [left; reflexivity | apply Forall_nil_2].
  - apply Forall_app in Hv as [Hv Ho]. apply Forall_cons in Ho as [(n & Hn & Hs) _].
    destruct (ShmEntry.is_expired now (ShmNode.entry n)) eqn:He.
    + destruct (IH Hv) as (l1 & l2 & -> & H1 & H2).
      exists l1, (l2 ++ [o]). split; [rewrite app_assoc; reflexivity |].
      split; [exact H1 |]. apply Forall_app. split; [exact H2 |].
      apply Forall_cons. split; [| apply Forall_nil_2]. exists n. split; assumption.
    + exists (l ++ [o]), []. split; [rewrite app_nil_r; reflexivity |].
      split; [| apply Forall_nil_2]. right. exists l, o, n. repeat split; assumption.
Qed.

(** The loop of [pollLast] removes the suffix [l2] of the chain, whose
    nodes are expired when it tests them, from the last to the first,
    and stops with the back offset of the queue it leaves; it has read
    the clock once for each of them, and once more for the node it
    stops at, if there is one. *)
Lemma skip_dead_back_spec (l2 : list Z) :
  forall (now : clock) (fuel : nat) (q : FastQueue.t) (l1 : list Z),
    queue_shape q (l1 ++ l2) ->
    expired_in_turn now (FastQueue.heap q) (reverse l2) ->
    back_not_expired (now (length l2)) (FastQueue.heap q) l1 ->
    (length l2 < fuel)%nat ->
    exists q1,
      FastQueue.skip_dead_back fuel now q (DequeHeader.back_offset (FastQueue.header q))
      = Ret ((length l2 + length (take 1 l1))%nat,
             DequeHeader.back_offset (FastQueue.header q1), q1)
      /\ queue_shape q1 l1
      /\ (forall o, o ∉ l2 -> same_content (FastQueue.heap q) (FastQueue.heap q1) o).
Proof.
  induction l2 as [| o l2 IH] using rev_ind;
    intros now fuel q l1 Hshape Hexp Hback Hfuel;
    (destruct fuel as [| fuel]; [simpl in Hfuel; lia |]).
  - exists q. rewrite app_nil_r in Hshape.
    split; [| split; [exact Hshape | intros o _; apply same_content_refl]].
    simpl. destruct Hback as [-> | (l0 & o & n & -> & Hn & Hne)].
    + destruct Hshape as [[[_ <-] _] _]. reflexivity.
    + destruct (queue_shape_back q l0 o Hshape) as (-> & Hp & n' & Hn' & Hvalid).
      rewrite Hn in Hn'. injection Hn' as <-.
      replace (o <? 0) with false by (symmetry; apply Z.ltb_ge; exact Hp).
      rewrite (deref_Some _ _ _ Hn), bind_Ret.
      simpl in Hne. rewrite (valid_alive_or_expired _ _ Hvalid), Hne.
      destruct l0; reflexivity.
  - rewrite app_assoc in Hshape.
    destruct (queue_shape_back q _ o Hshape) as (Hbk & Hp & n' & Hn' & Hvalid).
    destruct (remove_back_spec q (l1 ++ l2) o Hshape)
      as (qa & n & Hn & Hrm & Hsa & Hbka & Hfree & Hca & _).
    rewrite Hn in Hn'. injection Hn' as <-.
    rewrite reverse_snoc in Hexp. destruct Hexp as [(n' & Hn' & He) Hexp].
    rewrite Hn in Hn'. injection Hn' as <-.
    pose proof Hshape as [[_ Hnd] _].
    apply NoDup_app in Hnd as (_ & Hdis & _).
    assert (Hnotin : o ∉ l1 ++ l2) by (intros Hin; apply (Hdis o Hin); left).
    simpl FastQueue.skip_dead_back. rewrite Hbk.
    replace (o <? 0) with false by (symmetry; apply Z.ltb_ge; exact Hp).
    rewrite (deref_Some _ _ _ Hn), bind_Ret, (expired_not_alive _ _ He).
    cbv iota zeta. rewrite Hrm, bind_Ret. rewrite <- Hbka.
    set (qb := FastQueue.set_stats _ qa).
    rewrite length_app in Hback, Hfuel. simpl length in Hback, Hfuel.
    rewrite Nat.add_1_r in Hback.
    destruct (IH (tick now) fuel qb l1) as (q1 & Hrun & Hs1 & Hc1).
    + exact Hsa.
    + apply (expired_in_turn_content _ _ (FastQueue.heap q)); [| exact Hexp].
      intros o' Ho'. apply Hca. intros ->. apply Hnotin, elem_of_app. right.
      apply elem_of_reverse. exact Ho'.
    + destruct Hback as [-> | (l0 & o1 & n1 & -> & Hn1 & Hne1)]; [left; reflexivity |].
      assert (Hne' : o1 <> o).
      { intros ->. apply Hnotin. rewrite !elem_of_app. left. right. left. }
      destruct (same_content_lookup _ _ _ _ (Hca o1 Hne') Hn1) as (n1' & Hn1' & Hent & _).
      right. exists l0, o1, n1'. split; [reflexivity |].
      split; [exact Hn1' | rewrite Hent; exact Hne1].
    + lia.
    + exists q1. split; [| split; [exact Hs1 |]].
      * change (FastQueue.header qb) with (FastQueue.header qa) in Hrun.
        rewrite Hrun, bind_Ret. rewrite length_app. simpl length.
        replace (length l2 + 1 + length (take 1 l1))%nat
          with (S (length l2 + length (take 1 l1))) by lia.
        reflexivity.
      * intros o' Ho'. apply not_elem_of_app in Ho' as [Ho' Hne'].
        eapply same_content_trans; [apply Hca | apply Hc1, Ho'].
        intros ->. apply Hne'. left.
Qed.

(** The loop of [peekLast] walks over the suffix [l2] of a chain, whose
    nodes are expired when it tests them, and stops at the node before
    it. *)
Lemma last_alive_spec (h : gmap Z ShmNode.t) (l2 : list Z) :
  forall (now : clock) (fuel : nat) (j jn q qn : Z),
    dseg ShmNode.next_offset ShmNode.prev_offset h j jn l2 q qn ->
    expired_in_turn now h (reverse l2) ->
    (length l2 < fuel)%nat ->
    (j < 0 \/ exists n, h !! j = Some n
                        /\ ShmEntry.is_alive (now (length l2)) (ShmNode.entry n) = true) ->
    FastQueue.last_alive fuel now h q
    = Ret ((length l2 + (if (j <? 0)%Z then 0 else 1))%nat, j).
Proof.
  induction l2 as [| o l2 IH] using rev_ind; intros now fuel j jn q qn Hd Hexp Hfuel Hj;
    (destruct fuel as [| fuel]; [simpl in Hfuel; lia |]).
  - destruct Hd as [_ <-]. simpl.
    destruct (Z.ltb_spec j 0) as [Hlt | Hge]; [reflexivity |].
    destruct Hj as [Hj | (n & Hn & Ha)]; [lia |].
    simpl in Ha. rewrite (deref_Some _ _ _ Hn), bind_Ret, Ha. reflexivity.
  - apply dseg_app in Hd as (j' & jn' & Hd1 & Hd2).
    destruct Hd2 as (-> & Hp & n & Hn & Hpp & _ & Hq). subst q.
    rewrite reverse_snoc in Hexp. destruct Hexp as [(n' & Hn' & He) Hexp].
    rewrite Hn in Hn'. injection Hn' as <-.
    simpl FastQueue.last_alive.
    replace (o <? 0) with false by (symmetry; apply Z.ltb_ge; exact Hp).
    rewrite (deref_Some _ _ _ Hn), bind_Ret, (expired_not_alive _ _ He).
    cbv iota. rewrite Hpp.
    rewrite length_app in Hj, Hfuel. simpl length in Hj, Hfuel.
    rewrite Nat.add_1_r in Hj.
    rewrite (IH (tick now) fuel j jn j' o Hd1 Hexp); [| lia | exact Hj].
    rewrite bind_Ret, length_app. simpl length.
    replace (length l2 + 1 + (if (j <? 0)%Z then 0 else 1))%nat
      with (S (length l2 + (if (j <? 0)%Z then 0 else 1))) by lia.
    reflexivity.
Qed.

(** [peekLast] and [pollLast] on a queue whose nodes are all expired
    when the loop tests them. *)
Lemma back_runs_none (fuel : nat) (now : clock) (q : FastQueue.t) (l2 : list Z)
      (out_data : bytes) :
  queue_shape q l2 ->
  expired_in_turn now (FastQueue.heap q) (reverse l2) ->
  (length l2 < fuel)%nat ->
  (exists q', FastQueue.peekLast fuel now q out_data = Ret (false, out_data, q'))
  /\ (exists q', FastQueue.pollLast fuel now q out_data = Ret (false, out_data, q')).
Proof.
  intros Hshape Hexp Hfuel. split.
  - unfold FastQueue.peekLast. cbv zeta. qsimpl.
    destruct Hshape as [[Hd _] _].
    rewrite (last_alive_spec _ l2 now fuel NULL_OFFSET _ _ _ Hd Hexp Hfuel)
      by (left; reflexivity).
    rewrite bind_Ret. change (NULL_OFFSET <? 0) with true. cbv iota.
    eexists. reflexivity.
  - unfold FastQueue.pollLast. cbv zeta.
    destruct (skip_dead_back_spec l2 now fuel (FastQueue.lock q) [])
      as (q1 & Hrun & Hs1 & _);
      [exact Hshape | exact Hexp | left; reflexivity | exact Hfuel |].
    rewrite Hrun, bind_Ret.
    destruct Hs1 as [[[_ <-] _] _]. change (NULL_OFFSET <? 0) with true. cbv iota.
    eexists. reflexivity.
Qed.

(** [peekLast] and [pollLast] on a queue whose nodes [l2] at the back
    are expired when the loop tests them, and whose node [o] before
    them is not: the answer is the one that the two later readings of
    the clock give on [o], and [pollLast] unlinks and frees [o] when the
    answer is [true]. *)
Lemma back_runs_some (fuel : nat) (now : clock) (q : FastQueue.t) (l0 l2 : list Z) (o : Z)
      (n : ShmNode.t) (out_data : bytes) :
  queue_shape q ((l0 ++ [o]) ++ l2) ->
  expired_in_turn now (FastQueue.heap q) (reverse l2) ->
  FastQueue.heap q !! o = Some n ->
  ShmEntry.is_expired (now (length l2)) (ShmNode.entry n) = false ->
  (length l2 < fuel)%nat ->
  let alive := ShmEntry.is_alive (now (S (length l2))) (ShmNode.entry n) in
  let answer := if alive
                then (true, SerializationUtil.copy_from_node (now (S (S (length l2)))) n)
                else (false, out_data) in
  (exists q',
      FastQueue.peekLast fuel now q out_data = Ret (answer, q')
      /\ queue_shape q' ((l0 ++ [o]) ++ l2)
      /\ FastQueue.heap q' = FastQueue.heap q)
  /\ (exists q',
         FastQueue.pollLast fuel now q out_data = Ret (answer, q')
         /\ queue_shape q' (if alive then l0 else l0 ++ [o])
         /\ (forall o', o' ∉ (if alive then o :: l2 else l2) ->
                        same_content (FastQueue.heap q) (FastQueue.heap q') o')).
Proof.
  intros Hshape Hexp Hn Hne Hfuel alive answer.
  pose proof Hshape as [[Hd Hnd] Hv].
  apply Forall_app in Hv as [Hv1 _]. apply Forall_app in Hv1 as [_ Hvo].
  apply Forall_cons in Hvo as [(n' & Hn' & Hvalid) _].
  rewrite Hn in Hn'. injection Hn' as <-.
  assert (Hloop : ShmEntry.is_alive (now (length l2)) (ShmNode.entry n) = true)
    by (rewrite (valid_alive_or_expired _ _ Hvalid), Hne; reflexivity).
  apply NoDup_app in Hnd as (_ & Hdis & _).
  split.
  - unfold FastQueue.peekLast. cbv zeta. qsimpl.
    apply dseg_app in Hd as (j & jn & Hd1 & Hd2).
    apply dseg_app in Hd1 as (j0 & jn0 & _ & Hdo).
    destruct Hdo as (_ & Hp & _ & _ & _ & _ & Hj). subst j.
    rewrite (last_alive_spec _ l2 now fuel o _ _ _ Hd2 Hexp Hfuel)
      by (right; exists n; split; assumption).
    rewrite bind_Ret.
    replace (o <? 0) with false by (symmetry; apply Z.ltb_ge; exact Hp).
    rewrite Nat.add_1_r.
    rewrite (deref_Some _ _ _ Hn), bind_Ret. subst answer alive.
    destruct (ShmEntry.is_alive (now (S (length l2))) (ShmNode.entry n));
      simpl negb; cbv iota;
      (eexists; split; [reflexivity |]; split; [exact Hshape | reflexivity]).
  - unfold FastQueue.pollLast. cbv zeta.
    destruct (skip_dead_back_spec l2 now fuel (FastQueue.lock q) (l0 ++ [o]))
      as (q1 & Hrun & Hs1 & Hc1);
      [exact Hshape | exact Hexp | | exact Hfuel |].
    { right. exists l0, o, n. repeat split; assumption. }
    change (FastQueue.heap (FastQueue.lock q)) with (FastQueue.heap q) in Hc1.
    replace (length (take 1 (l0 ++ [o]))) with 1%nat in Hrun
      by (destruct l0; reflexivity).
    rewrite Nat.add_1_r in Hrun.
    rewrite Hrun, bind_Ret.
    destruct (queue_shape_back q1 l0 o Hs1) as (Hbk & Hp & _).
    rewrite Hbk.
    replace (o <? 0) with false by (symmetry; apply Z.ltb_ge; exact Hp).
    assert (Hnot : o ∉ l2).
    { intros Hin. apply (Hdis o); [| exact Hin]. apply elem_of_app. right. left. }
    destruct (same_content_lookup _ _ _ _ (Hc1 o Hnot) Hn) as (n1 & Hn1 & Hent & Hdat).
    rewrite (deref_Some _ _ _ Hn1), bind_Ret, Hent.
    rewrite (copy_from_node_content _ n n1 Hent Hdat).
    subst answer alive.
    destruct (ShmEntry.is_alive (now (S (length l2))) (ShmNode.entry n));
      simpl negb; cbv iota.
    + destruct (remove_back_spec q1 l0 o Hs1)
        as (q2 & n2 & _ & Hrm & Hs2 & _ & _ & Hc2 & _).
      rewrite Hrm, bind_Ret.
      eexists. split; [reflexivity |]. split; [exact Hs2 |].
      intros o' Ho'. apply not_elem_of_cons in Ho' as [Hne' Ho'].
      eapply same_content_trans; [apply Hc1, Ho' | apply Hc2, Hne'].
    + eexists. split; [reflexivity |]. split; [exact Hs1 | exact Hc1].
Qed.

(** The last records of a chain, on a clock that agrees with the instant
    [t] on them. *)
Lemma steady_expired_in_turn_reverse (t : Z) (now : clock) (m : nat)
      (h : gmap Z ShmNode.t) (l : list Z) :
  steady t now m h l -> (length l <= m)%nat ->
  Forall (expired_at t h) l -> expired_in_turn now h (reverse l).
Proof.
  intros Hst Hm Hexp. apply (steady_expired_in_turn t _ _ _ m).
  - intros k o n Hk Ho Hn. apply (Hst k o n); [exact Hk | | exact Hn].
    apply elem_of_reverse. exact Ho.
  - rewrite length_reverse. exact Hm.
  - apply Forall_reverse. exact Hexp.
Qed.

(** The calls of an enumeration, on a chain that ends with expired
    nodes. *)
Lemma alive_calls_expired_suffix (now : Z) (h : gmap Z ShmNode.t) (l1 l2 : list Z) :
  Forall (expired_at now h) l2 ->
  alive_calls now h (l1 ++ l2) = alive_calls now h l1.
Proof.
  intros Hexp. rewrite alive_calls_app.
  pose proof (alive_calls_expired_prefix now h l2 [] Hexp) as H.
  rewrite app_nil_r in H. rewrite H. apply app_nil_r.
Qed.

(** X16.  On a well-linked queue, let [calls] be the calls that an
    enumeration with a callback that never stops it makes at the instant
    [t], and take a call of [peekLast] or [pollLast] during which no
    node of the queue expires: each reading of its clock (there are
    three more than nodes at most) agrees with [t] on every node.  If
    there is no call, [peekLast] and [pollLast] return [false] and
    leave the caller's vector as it was.  Otherwise [peekLast] gives
    the bytes of the last call and leaves a queue with the same
    enumeration, and [pollLast] gives the bytes of the last call and
    leaves a queue whose enumeration is the calls before it. *)
Theorem pollLast_takes_the_last_element_of_the_enumeration
        (fuel : nat) (t : Z) (now : clock) (q : FastQueue.t) (l : list Z) (out : bytes) :
  queue_shape q l -> (length l < fuel)%nat ->
  steady t now (length l + 3) (FastQueue.heap q) l ->
  exists calls q0,
    FastQueue.forEach fuel t q always2 = Ret (calls, q0)
    /\ match reverse calls with
       | [] =>
           (exists q', FastQueue.peekLast fuel now q out = Ret (false, out, q'))
           /\ (exists q', FastQueue.pollLast fuel now q out = Ret (false, out, q'))
       | (d, n) :: before =>
           (exists q' q1,
               FastQueue.peekLast fuel now q out = Ret (true, take (Z.to_nat n) d, q')
               /\ FastQueue.forEach fuel t q' always2 = Ret (calls, q1))
           /\ (exists q' q1,
                  FastQueue.pollLast fuel now q out = Ret (true, take (Z.to_nat n) d, q')
                  /\ FastQueue.forEach fuel t q' always2 = Ret (reverse before, q1))
       end.
Proof.
  intros Hshape Hfuel Hsteady.
  destruct (expired_suffix_split t (FastQueue.heap q) l (proj2 Hshape))
    as (l1 & l2 & -> & Hback & Hexp).
  pose proof Hshape as [[_ Hnd] _].
  apply NoDup_app in Hnd as (Hnd1 & Hdis & _).
  rewrite (FastQueue_forEach_shape fuel t q _ Hshape Hfuel).
  rewrite (alive_calls_expired_suffix t _ l1 l2 Hexp).
  rewrite length_app in Hfuel, Hsteady.
  destruct (steady_app _ _ _ _ _ _ Hsteady) as [Hst1 Hst2].
  assert (Hturn : expired_in_turn now (FastQueue.heap q) (reverse l2))
    by (apply (steady_expired_in_turn_reverse t now _ _ l2 Hst2); [lia | exact Hexp]).
  eexists _, _. split; [reflexivity |].
  destruct Hback as [-> | (l0 & o & n & -> & Hn & Hne)].
  - simpl. apply (back_runs_none fuel now q l2 out Hshape Hturn). simpl in Hfuel. lia.
  - assert (Ho : o ∈ l0 ++ [o]) by (apply elem_of_app; right; left).
    pose proof (valid_alive_or_expired t (ShmNode.entry n)) as Hval.
    assert (Hvalid : ShmEntry.state (ShmNode.entry n) = ShmEntry.STATE_VALID).
    { destruct Hshape as [_ Hv]. apply Forall_app in Hv as [Hv _].
      rewrite Forall_forall in Hv. destruct (Hv o Ho) as (n' & Hn' & Hs).
      rewrite Hn in Hn'. injection Hn' as <-. exact Hs. }
    assert (Halive : ShmEntry.is_alive t (ShmNode.entry n) = true)
      by (rewrite (Hval Hvalid), Hne; reflexivity).
    assert (Hsame : forall k, (k < length l2 + 3)%nat ->
                      ShmEntry.is_expired (now k) (ShmNode.entry n)
                      = ShmEntry.is_expired t (ShmNode.entry n)
                      /\ ShmEntry.is_alive (now k) (ShmNode.entry n)
                         = ShmEntry.is_alive t (ShmNode.entry n))
      by (intros k Hk; apply (Hst1 k o n); [lia | exact Ho | exact Hn]).
    assert (Hne' : ShmEntry.is_expired (now (length l2)) (ShmNode.entry n) = false)
      by (rewrite (proj1 (Hsame (length l2) ltac:(lia))); exact Hne).
    assert (Hfuel' : (length l0 + 1 + length l2 < fuel)%nat)
      by (rewrite length_app in Hfuel; simpl in Hfuel; lia).
    destruct (back_runs_some fuel now q l0 l2 o n out Hshape Hturn Hn Hne' ltac:(lia))
      as ((qa & Hpeek & Hsa & Hha) & (qb & Hpoll & Hsb & Hcb)).
    rewrite (proj2 (Hsame (S (length l2)) ltac:(lia))), Halive in Hpeek, Hpoll, Hsb, Hcb.
    unfold SerializationUtil.copy_from_node in Hpeek, Hpoll.
    rewrite (proj2 (Hsame (S (S (length l2))) ltac:(lia))), Halive in Hpeek, Hpoll.
    simpl negb in Hpeek, Hpoll. cbv iota in Hpeek, Hpoll.
    assert (Hcalls : alive_calls t (FastQueue.heap q) (l0 ++ [o])
                     = alive_calls t (FastQueue.heap q) l0
                         ++ [(ShmNode.data n, ShmEntry.data_size (ShmNode.entry n))]).
    { rewrite alive_calls_app. f_equal.
      unfold alive_calls. simpl omap. rewrite Hn, Halive. reflexivity. }
    rewrite Hcalls, reverse_snoc.
    rewrite !length_app in Hfuel. simpl in Hfuel.
    split.
    + exists qa. eexists. split; [exact Hpeek |].
      rewrite (FastQueue_forEach_shape fuel t qa _ Hsa)
        by (rewrite !length_app; simpl; lia).
      rewrite Hha, (alive_calls_expired_suffix t _ _ l2 Hexp), Hcalls. reflexivity.
    + exists qb. eexists. split; [exact Hpoll |].
      rewrite (FastQueue_forEach_shape fuel t qb _ Hsb) by lia.
      rewrite reverse_involutive.
      rewrite (alive_calls_content t (FastQueue.heap q) (FastQueue.heap qb) l0);
        [reflexivity |].
      intros x Hx. apply Hcb. intros Hin.
      apply elem_of_cons in Hin as [-> | Hin].
      * apply NoDup_app in Hnd1 as (_ & Hd0 & _). apply (Hd0 o Hx). left.
      * apply (Hdis x); [| exact Hin]. apply elem_of_app. left. exact Hx.
Qed.

Lemma pollLast_takes_the_last_element_of_the_enumeration_witness :
  exists q' q1,
    FastQueue.pollLast 8 (running_from 200) queue_state [] = Ret (true, payload "t2", q')
    /\ FastQueue.forEach 8 200 q' always2 = Ret ([], q1).
Proof.
  destruct (pollLast_takes_the_last_element_of_the_enumeration
              8 200 (running_from 200) queue_state
              [64; 128] [] queue_state_shape ltac:(simpl; lia) (queue_state_steady _))
    as (calls & q0 & Hcalls & Hcases).
  assert (Hc : FastQueue.forEach 8 200 queue_state always2
               = Ret ([(payload "t2", 2)],
                      FastQueue.unlock (FastQueue.lock queue_state)))
    by (vm_compute; reflexivity).
  pose proof (eq_trans (eq_sym Hc) Hcalls) as Heq.
  injection Heq as <- _.
  destruct Hcases as (_ & (q' & q1 & Hpoll & Hrest)).
  exists q', q1. split; [exact Hpoll | exact Hrest].
Defined.

(** The loop of the queue's [clear] frees the nodes of the chain and no
    other, and leaves the header and the statistics as they were. *)
Lemma FastQueue_clear_loop_spec (l : list Z) :
  forall (fuel : nat) (q : FastQueue.t) (p : Z),
    chain ShmNode.next_offset (FastQueue.heap q) p l -> NoDup l ->
    (length l < fuel)%nat ->
    exists q',
      FastQueue.clear_loop fuel q p = Ret q'
      /\ (forall o, o ∈ l -> FastQueue.heap q' !! o = None)
      /\ (forall o, o ∉ l -> FastQueue.heap q' !! o = FastQueue.heap q !! o)
      /\ FastQueue.header q' = FastQueue.header q
      /\ FastQueue.stats q' = FastQueue.stats q
      /\ FastQueue.trace q' = FastQueue.trace q ++ map FastQueue.Deallocate l.
Proof.
  induction l as [| o l IH]; intros fuel q p Hc Hnd Hf;
    (destruct fuel as [| fuel]; [simpl in Hf; lia |]).
  - simpl in Hc. exists q. split; [loop_end Hc; reflexivity |].
    split; [intros o Ho; apply elem_of_nil in Ho; contradiction |].
    split; [reflexivity |]. split; [reflexivity |]. split; [reflexivity |].
    simpl. rewrite app_nil_r. reflexivity.
  - destruct Hc as (-> & Hp & n & Hn & Hc).
    apply NoDup_cons in Hnd as [Hno Hnd].
    set (qa := FastQueue.free_node o
                 (FastQueue.set_heap (<[o := FastQueue.mark_deleted n]> (FastQueue.heap q)) q)).
    destruct (IH fuel qa (ShmNode.next_offset n))
      as (q' & Hrun & Hin & Hout & Hhd & Hst & Htr).
    + apply (chain_frame _ (FastQueue.heap q)); [| exact Hc].
      intros x Hx. subst qa. qsimpl.
      rewrite lookup_delete_ne, lookup_insert_ne; [reflexivity | |];
        intros ->; contradiction.
    + exact Hnd.
    + simpl in Hf. lia.
    + exists q'. split; [| split; [| split; [| split; [| split]]]].
      * loop_round Hp Hn. rewrite (update_Some _ _ _ _ Hn), bind_Ret. exact Hrun.
      * intros x Hx. apply elem_of_cons in Hx as [-> | Hx]; [| apply Hin; exact Hx].
        rewrite (Hout o Hno). subst qa. qsimpl. apply lookup_delete_eq.
      * intros x Hx. apply not_elem_of_cons in Hx as [Hne Hx].
        rewrite (Hout x Hx). subst qa. qsimpl.
        rewrite lookup_delete_ne, lookup_insert_ne by congruence. reflexivity.
      * rewrite Hhd. reflexivity.
      * rewrite Hst. reflexivity.
      * rewrite Htr. subst qa. qsimpl. rewrite <- app_assoc. reflexivity.
Qed.

(** X17.  On a well-linked queue, [clear] frees every node of the chain
    and no other, sets the front and the back to the null offset and
    stores 0 as the size in the header and in the statistics.  On the
    queue it leaves, [poll], [peek], [pollLast] and [peekLast] return
    [false], an enumeration makes no call, the size is 0 and [isEmpty]
    is [true], at every instant and whatever the clock reads. *)
Theorem clear_empties_the_queue
        (fuel : nat) (now : Z) (q : FastQueue.t) (l : list Z) :
  queue_shape q l -> (length l < fuel)%nat ->
  exists q',
    FastQueue.clear fuel now q = Ret q'
    /\ queue_shape q' []
    /\ (forall o, o ∈ l -> FastQueue.heap q' !! o = None)
    /\ (forall o, o ∉ l -> FastQueue.heap q' !! o = FastQueue.heap q !! o)
    /\ DequeHeader.size (FastQueue.header q') = 0
    /\ CollectionStats.size (FastQueue.stats q') = 0
    /\ forall (fuel2 : nat) (t : Z) (readings : clock) (out : bytes),
        (0 < fuel2)%nat ->
        (exists q1, FastQueue.poll fuel2 readings q' out = Ret (false, out, q1))
        /\ (exists q1, FastQueue.peek fuel2 readings q' out = Ret (false, out, q1))
        /\ (exists q1, FastQueue.pollLast fuel2 readings q' out = Ret (false, out, q1))
        /\ (exists q1, FastQueue.peekLast fuel2 readings q' out = Ret (false, out, q1))
        /\ (exists q1, FastQueue.forEach fuel2 t q' always2 = Ret ([], q1))
        /\ (exists q1, FastQueue.size fuel2 t q' = Ret (0, q1))
        /\ (exists q1, FastQueue.isEmpty fuel2 t q' = Ret (true, q1)).
Proof.
  intros [[Hd Hnd] _] Hfuel.
  destruct (FastQueue_clear_loop_spec l fuel (FastQueue.lock q)
              (DequeHeader.front_offset (FastQueue.header q)))
    as (q1 & Hrun & Hin & Hout & Hhd & Hst & _);
    [exact (dlist_chain _ _ _ _ _ _ (conj Hd Hnd)) | exact Hnd | exact Hfuel |].
  unfold FastQueue.clear. cbv zeta.
  change (FastQueue.header (FastQueue.lock q)) with (FastQueue.header q).
  rewrite Hrun, bind_Ret.
  eexists. split; [reflexivity |].
  assert (Hempty : forall q2, DequeHeader.front_offset (FastQueue.header q2) = NULL_OFFSET ->
                              DequeHeader.back_offset (FastQueue.header q2) = NULL_OFFSET ->
                              queue_shape q2 []).
  { intros q2 Hf Hb. split; [split |]; [| constructor | constructor].
    split; [exact Hf | symmetry; exact Hb]. }
  match goal with |- queue_shape ?q2 [] /\ _ => set (qc := q2) end.
  assert (Hshape : queue_shape qc []) by (apply Hempty; reflexivity).
  split; [exact Hshape |].
  split; [exact Hin |]. split; [exact Hout |].
  split; [reflexivity |]. split; [reflexivity |].
  intros fuel2 t readings out Hf2.
  destruct (front_runs fuel2 readings qc [] [] out Hshape I I Hf2)
    as [(qa & Hpeek & _) (qb & Hpoll & _)].
  destruct (back_runs_none fuel2 readings qc [] out Hshape I Hf2)
    as [(qd & HpeekL) (qe & HpollL)].
  split; [exists qb; exact Hpoll |]. split; [exists qa; exact Hpeek |].
  split; [exists qe; exact HpollL |]. split; [exists qd; exact HpeekL |].
  split; [eexists; apply (FastQueue_forEach_shape fuel2 t qc [] Hshape Hf2) |].
  destruct fuel2 as [| f2]; [lia |].
  split; eexists; reflexivity.
Qed.

Lemma clear_empties_the_queue_witness :
  exists q',
    FastQueue.clear 8 300 queue_state = Ret q'
    /\ FastQueue.heap q' !! 64 = None /\ FastQueue.heap q' !! 128 = None
    /\ exists q1, FastQueue.poll 1 (running_from 300) q' [] = Ret (false, [], q1).
Proof.
  destruct (clear_empties_the_queue 8 300 queue_state [64; 128]
              queue_state_shape ltac:(simpl; lia))
    as (q' & Hrun & _ & Hfreed & _ & _ & _ & Hafter).
  exists q'. split; [exact Hrun |].
  split; [apply Hfreed; left |]. split; [apply Hfreed; right; left |].
  destruct (Hafter 1%nat 300 (running_from 300) [] ltac:(lia)) as [Hpoll _]. exact Hpoll.
Defined.

(** The loop of [contains] over a chain. *)
Lemma FastQueue_contains_loop_spec (now : Z) (h : gmap Z ShmNode.t) (data : bytes)
      (l : list Z) :
  forall (fuel : nat) (p : Z),
    chain ShmNode.next_offset h p l -> (length l < fuel)%nat ->
    FastQueue.contains_loop fuel now h data (compute_hash data) p
    = Ret (some_node_matches now h data l).
Proof.
  induction l as [| o l IH]; intros fuel p Hc Hf;
    (destruct fuel as [| fuel]; [simpl in Hf; lia |]).
  - simpl in Hc. loop_end Hc. reflexivity.
  - destruct Hc as (-> & Hp & n & Hn & Hc). simpl in Hf.
    loop_round Hp Hn. rewrite Hn.
    destruct (FastQueue.node_matches now n data (compute_hash data)); [reflexivity |].
    rewrite (IH fuel _ Hc) by lia. reflexivity.
Qed.

Lemma FastQueue_contains_shape (fuel : nat) (now : Z) (q : FastQueue.t) (l : list Z)
      (data : bytes) :
  queue_shape q l -> (length l < fuel)%nat -> size_of data <> 0 ->
  FastQueue.contains fuel now q (Some data)
  = Ret (some_node_matches now (FastQueue.heap q) data l,
         FastQueue.unlock (FastQueue.lock q)).
Proof.
  intros [Hdl _] Hf Hsz. unfold FastQueue.contains.
  rewrite (size_of_eqb_0 data Hsz). cbv zeta. qsimpl.
  rewrite (FastQueue_contains_loop_spec now _ data l fuel _
             (dlist_chain _ _ _ _ _ _ Hdl) Hf).
  reflexivity.
Qed.

Lemma memcmp_eq_same_size (a b : bytes) :
  size_of a = size_of b -> memcmp_eq a b (size_of b) = true -> a = b.
Proof.
  intros Hsz Hm. unfold memcmp_eq in Hm. apply bytes_eqb_eq in Hm.
  rewrite <- Hsz in Hm at 1. rewrite !size_of_to_nat in Hm.
  rewrite !firstn_all in Hm. exact Hm.
Qed.

Lemma memcmp_eq_refl (a : bytes) (n : Z) : memcmp_eq a a n = true.
Proof. unfold memcmp_eq. apply bytes_eqb_eq. reflexivity. Qed.

(** On records that hold the size and the hash of their bytes, the
    comparison of [contains] succeeds on the records that an enumeration
    visits with these bytes. *)
Lemma some_node_matches_calls (now : Z) (h : gmap Z ShmNode.t) (data : bytes)
      (l : list Z) :
  nodes_hashed h l ->
  some_node_matches now h data l = true
  <-> (data, size_of data) ∈ alive_calls now h l.
Proof.
  induction 1 as [| o l (n & Hn & Hsz & Hh) _ IH].
  - simpl. split; [discriminate |]. intros Hin. apply elem_of_nil in Hin. contradiction.
  - change (o :: l) with ([o] ++ l). rewrite alive_calls_app, elem_of_app.
    unfold some_node_matches in *. rewrite existsb_app, orb_true_iff, IH.
    apply or_iff_compat_r. unfold alive_calls. simpl. rewrite Hn, orb_false_r.
    unfold FastQueue.node_matches.
    destruct (ShmEntry.is_alive now (ShmNode.entry n)); simpl.
    + rewrite list_elem_of_singleton, Hsz, Hh. split.
      * intros Hm. apply andb_true_iff in Hm as [Hm Hcmp].
        apply andb_true_iff in Hm as [_ Hs]. apply Z.eqb_eq in Hs.
        rewrite (memcmp_eq_same_size _ _ Hs Hcmp). reflexivity.
      * intros [= <-]. rewrite !Z.eqb_refl, memcmp_eq_refl. reflexivity.
    + split; [discriminate |]. intros Hin. apply elem_of_nil in Hin. contradiction.
Qed.

(** X18.  On a well-linked queue whose nodes record the size and the
    hash of the bytes they hold, [contains] of a payload that is not
    empty returns [true] exactly when an enumeration, with a callback
    that never stops it, makes a call with this payload: an expired
    element is not contained. *)
Theorem contains_finds_what_the_enumeration_visits
        (fuel : nat) (now : Z) (q : FastQueue.t) (l : list Z) (data : bytes) :
  queue_shape q l -> nodes_hashed (FastQueue.heap q) l ->
  (length l < fuel)%nat -> size_of data <> 0 ->
  exists calls q0 found q1,
    FastQueue.forEach fuel now q always2 = Ret (calls, q0)
    /\ FastQueue.contains fuel now q (Some data) = Ret (found, q1)
    /\ (found = true <-> (data, size_of data) ∈ calls).
Proof.
  intros Hshape Hhashed Hfuel Hsz.
  rewrite (FastQueue_forEach_shape fuel now q l Hshape Hfuel).
  rewrite (FastQueue_contains_shape fuel now q l data Hshape Hfuel Hsz).
  eexists _, _, _, _. split; [reflexivity |]. split; [reflexivity |].
  apply some_node_matches_calls. exact Hhashed.
Qed.

Lemma queue_state_hashed : nodes_hashed (FastQueue.heap queue_state) [64; 128].
Proof.
  unfold nodes_hashed. repeat (apply Forall_cons; split); [| | apply Forall_nil; exact I];
    (eexists; split; [vm_compute; reflexivity | split; vm_compute; reflexivity]).
Qed.

Lemma contains_finds_what_the_enumeration_visits_witness :
  exists q1, FastQueue.contains 8 200 queue_state (Some (payload "t1")) = Ret (false, q1).
Proof.
  destruct (contains_finds_what_the_enumeration_visits 8 200 queue_state [64; 128]
              (payload "t1") queue_state_shape queue_state_hashed ltac:(simpl; lia)
              ltac:(vm_compute; discriminate))
    as (calls & q0 & found & q1 & Hcalls & Hrun & Hiff).
  assert (Hc : FastQueue.forEach 8 200 queue_state always2
               = Ret ([(payload "t2", 2)],
                      FastQueue.unlock (FastQueue.lock queue_state)))
    by (vm_compute; reflexivity).
  pose proof (eq_trans (eq_sym Hc) Hcalls) as Heq.
  injection Heq as <- _.
  exists q1. destruct found; [| exact Hrun].
  destruct Hiff as [Hin _]. specialize (Hin eq_refl).
  apply list_elem_of_singleton in Hin. discriminate.
Defined.

Lemma nodes_hashed_content (h h' : gmap Z ShmNode.t) (l : list Z) :
  (forall o, o ∈ l -> same_content h h' o) -> nodes_hashed h l -> nodes_hashed h' l.
Proof.
  intros Hc Hh. unfold nodes_hashed in *. rewrite Forall_forall in *.
  intros o Ho. destruct (Hh o Ho) as (n & Hn & Hsz & Hhash).
  destruct (same_content_lookup _ _ _ _ (Hc o Ho) Hn) as (n' & Hn' & Hent & Hdat).
  exists n'. split; [exact Hn' |]. rewrite Hent, Hdat. split; assumption.
Qed.

(** The node that an insertion writes passes the comparison of
    [contains] with its payload while it is alive. *)
Lemma new_node_matches (t now : Z) (data : bytes) (ttl prev next : Z) :
  size_of data < 2 ^ 32 ->
  FastQueue.node_matches t (new_node now data ttl prev next) data (compute_hash data)
  = ShmEntry.is_alive t
      (ShmNode.entry (SerializationUtil.copy_to_node now ShmNode.init data ttl)).
Proof.
  intros Hsz. unfold FastQueue.node_matches.
  change (ShmNode.entry (new_node now data ttl prev next))
    with (ShmNode.entry (SerializationUtil.copy_to_node now ShmNode.init data ttl)).
  change (ShmNode.data (new_node now data ttl prev next)) with data.
  change (ShmEntry.hash_code
            (ShmNode.entry (SerializationUtil.copy_to_node now ShmNode.init data ttl)))
    with (compute_hash data).
  change (ShmEntry.data_size
            (ShmNode.entry (SerializationUtil.copy_to_node now ShmNode.init data ttl)))
    with (wrap32 (size_of data)).
  rewrite (wrap32_small (size_of data)) by (pose proof (size_of_nonneg data); lia).
  rewrite !Z.eqb_refl, memcmp_eq_refl, !andb_true_r. reflexivity.
Qed.

Lemma new_node_hashed (now : Z) (data : bytes) (ttl prev next : Z) :
  size_of data < 2 ^ 32 ->
  ShmEntry.data_size (ShmNode.entry (new_node now data ttl prev next))
  = size_of (ShmNode.data (new_node now data ttl prev next))
  /\ ShmEntry.hash_code (ShmNode.entry (new_node now data ttl prev next))
     = compute_hash (ShmNode.data (new_node now data ttl prev next)).
Proof.
  intros Hsz. split; [| reflexivity].
  change (wrap32 (size_of data) = size_of data).
  apply wrap32_small. pose proof (size_of_nonneg data). lia.
Qed.

Lemma some_node_matches_app (now : Z) (h : gmap Z ShmNode.t) (data : bytes)
      (l1 l2 : list Z) :
  some_node_matches now h data (l1 ++ l2)
  = some_node_matches now h data l1 || some_node_matches now h data l2.
Proof. unfold some_node_matches. apply existsb_app. Qed.

(** X19.  On a well-linked queue whose nodes record the size and the
    hash of their bytes, [offer] and [offerFirst] of a payload that is
    not empty and has less than 2^32 bytes, with an allocator that
    returns a free block, leave a queue of the same kind on which
    [contains] of this payload returns [true] at every instant at which
    the new node is alive. *)
Theorem an_offered_payload_is_contained_while_it_is_alive
        (alloc : Z -> option Z) (now : Z) (q : FastQueue.t) (l : list Z)
        (data : bytes) (ttl off : Z) :
  queue_shape q l -> nodes_hashed (FastQueue.heap q) l ->
  size_of data <> 0 -> size_of data < 2 ^ 32 ->
  alloc (ShmNode.total_size (size_of data)) = Some off ->
  0 <= off -> FastQueue.heap q !! off = None ->
  (exists q',
      FastQueue.offer alloc now q (Some data) ttl = Ret (true, q')
      /\ queue_shape q' (l ++ [off])
      /\ nodes_hashed (FastQueue.heap q') (l ++ [off])
      /\ forall fuel t,
          (length l + 1 < fuel)%nat ->
          ShmEntry.is_alive t
            (ShmNode.entry (SerializationUtil.copy_to_node now ShmNode.init data ttl))
          = true ->
          exists q1, FastQueue.contains fuel t q' (Some data) = Ret (true, q1))
  /\ (exists q',
         FastQueue.offerFirst alloc now q (Some data) ttl = Ret (true, q')
         /\ queue_shape q' (off :: l)
         /\ nodes_hashed (FastQueue.heap q') (off :: l)
         /\ forall fuel t,
             (length l + 1 < fuel)%nat ->
             ShmEntry.is_alive t
               (ShmNode.entry (SerializationUtil.copy_to_node now ShmNode.init data ttl))
             = true ->
             exists q1, FastQueue.contains fuel t q' (Some data) = Ret (true, q1)).
Proof.
  intros Hshape Hhashed Hsz Hlt Halloc Hoff Hfree.
  assert (Hnotin : off ∉ l).
  { intros Hin. destruct Hshape as [[Hd _] _].
    destruct (dseg_allocated _ _ _ _ _ _ _ _ off Hd Hin) as [n Hn].
    rewrite Hfree in Hn. discriminate. }
  split.
  - destruct (offer_spec alloc now q l data ttl off Hshape Hsz Halloc Hoff Hfree)
      as (q' & Hrun & Hs' & Hnew & Hc & _).
    exists q'. split; [exact Hrun |]. split; [exact Hs' |]. split.
    + apply Forall_app. split.
      * apply (nodes_hashed_content (FastQueue.heap q)); [| exact Hhashed].
        intros o Ho. apply Hc. intros ->. contradiction.
      * apply Forall_cons. split; [| apply Forall_nil_2].
        eexists. split; [exact Hnew |]. apply new_node_hashed. exact Hlt.
    + intros fuel t Hf Halive.
      rewrite (FastQueue_contains_shape fuel t q' _ data Hs')
        by (rewrite ?length_app; simpl; lia || exact Hsz).
      rewrite some_node_matches_app.
      replace (some_node_matches t (FastQueue.heap q') data [off]) with true;
        [rewrite orb_true_r; eexists; reflexivity |].
      unfold some_node_matches. simpl. rewrite Hnew, orb_false_r.
      rewrite new_node_matches by exact Hlt. symmetry. exact Halive.
  - destruct (offerFirst_spec alloc now q l data ttl off Hshape Hsz Halloc Hoff Hfree)
      as (q' & Hrun & Hs' & Hnew & Hc & _).
    exists q'. split; [exact Hrun |]. split; [exact Hs' |]. split.
    + apply Forall_cons. split.
      * eexists. split; [exact Hnew |]. apply new_node_hashed. exact Hlt.
      * apply (nodes_hashed_content (FastQueue.heap q)); [| exact Hhashed].
        intros o Ho. apply Hc. intros ->. contradiction.
    + intros fuel t Hf Halive.
      rewrite (FastQueue_contains_shape fuel t q' _ data Hs')
        by (simpl; lia || exact Hsz).
      change (off :: l) with ([off] ++ l). rewrite some_node_matches_app.
      replace (some_node_matches t (FastQueue.heap q') data [off]) with true;
        [eexists; reflexivity |].
      unfold some_node_matches. simpl. rewrite Hnew, orb_false_r.
      rewrite new_node_matches by exact Hlt. symmetry. exact Halive.
Qed.

Lemma an_offered_payload_is_contained_while_it_is_alive_witness :
  exists q' q1,
    FastQueue.offer (fun _ => Some 192) 150 queue_state (Some (payload "t3")) 60
    = Ret (true, q')
    /\ FastQueue.contains 8 200 q' (Some (payload "t3")) = Ret (true, q1).
Proof.
  destruct (an_offered_payload_is_contained_while_it_is_alive
              (fun _ => Some 192) 150 queue_state [64; 128] (payload "t3") 60 192
              queue_state_shape queue_state_hashed
              ltac:(vm_compute; discriminate) ltac:(vm_compute; reflexivity)
              eq_refl ltac:(lia) ltac:(vm_compute; reflexivity))
    as [(q' & Hrun & _ & _ & Hcontains) _].
  destruct (Hcontains 8%nat 200 ltac:(simpl; lia) ltac:(vm_compute; reflexivity))
    as (q1 & Hfound).
  exists q', q1. split; [exact Hrun | exact Hfound].
Defined.

(** * The stack *)

Ltac ssimpl :=
  cbn [FastStack.heap FastStack.header FastStack.stats FastStack.aba_tag
       FastStack.set_heap FastStack.set_header FastStack.set_stats FastStack.set_aba_tag
       FastStack.free_node FastStack.miss FastStack.hit
       DequeHeader.base DequeHeader.front_offset DequeHeader.back_offset
       DequeHeader.set_base DequeHeader.set_front DequeHeader.set_back DequeHeader.size
       CollectionHeader.size CollectionHeader.modified_at
       CollectionHeader.size_store CollectionHeader.size_fetch_sub
       CollectionHeader.size_fetch_add CollectionHeader.set_modified_at
       CollectionStats.size CollectionStats.size_store CollectionStats.size_fetch_sub
       CollectionStats.size_fetch_add].

(** A chain is kept by stores that leave the [next] fields of its
    records as they are. *)
Lemma chain_same_next {A : Type} (next : A -> Z) (h h' : gmap Z A) (l : list Z) :
  forall p, (forall o, o ∈ l -> next <$> h' !! o = next <$> h !! o) ->
            chain next h p l -> chain next h' p l.
Proof.
  induction l as [| o l IH]; intros p Hsame Hc; [exact Hc |].
  destruct Hc as (-> & Hp & n & Hn & Hc).
  split; [reflexivity |]. split; [exact Hp |].
  pose proof (Hsame o ltac:(left)) as Ho. rewrite Hn in Ho. simpl in Ho.
  destruct (h' !! o) as [n' |] eqn:Hn'; [| discriminate].
  injection Ho as Ho. exists n'. split; [reflexivity |]. rewrite Ho.
  apply IH; [| exact Hc]. intros o' Ho'. apply Hsame. right. exact Ho'.
Qed.

Lemma chain_allocated {A : Type} (next : A -> Z) (h : gmap Z A) (l : list Z) :
  forall p o, chain next h p l -> o ∈ l -> is_Some (h !! o).
Proof.
  induction l as [| x l IH]; intros p o Hc Ho; [apply elem_of_nil in Ho; contradiction |].
  destruct Hc as (-> & Hp & n & Hn & Hc).
  apply elem_of_cons in Ho as [-> | Ho]; [exists n; exact Hn |].
  exact (IH _ o Hc Ho).
Qed.

(** [push] links the node it writes before the nodes of the stack. *)
Lemma push_spec (alloc : Z -> option Z) (now : Z) (s : FastStack.t) (l : list Z)
      (data : bytes) (ttl off : Z) :
  stack_shape s l -> size_of data <> 0 ->
  alloc (ShmNode.total_size (size_of data)) = Some off ->
  0 <= off -> FastStack.heap s !! off = None ->
  exists s',
    FastStack.push alloc now s (Some data) ttl = Ret (true, s')
    /\ stack_shape s' (off :: l)
    /\ FastStack.heap s' !! off
       = Some (new_node now data ttl NULL_OFFSET
                        (DequeHeader.front_offset (FastStack.header s)))
    /\ (forall o, o <> off -> same_content (FastStack.heap s) (FastStack.heap s') o)
    /\ DequeHeader.size (FastStack.header s')
       = wrap64 (DequeHeader.size (FastStack.header s) + 1).
Proof.
  intros (Hc & Hnd & Hv) Hsz Halloc Hoff Hfree.
  assert (Hnotin : off ∉ l).
  { intros Hin. destruct (chain_allocated _ _ _ _ off Hc Hin) as [n Hn]. congruence. }
  set (nn := new_node now data ttl NULL_OFFSET
                      (DequeHeader.front_offset (FastStack.header s))).
  assert (Hrun : forall h5,
             (if 0 <=? DequeHeader.front_offset (FastStack.header s)
              then update (DequeHeader.front_offset (FastStack.header s))
                          (ShmNode.set_prev off) (<[off := nn]> (FastStack.heap s))
              else Ret (<[off := nn]> (FastStack.heap s))) = Ret h5 ->
             FastStack.push alloc now s (Some data) ttl
             = Ret (true,
                    FastStack.set_stats
                      (CollectionStats.write_fetch_add 1
                         (CollectionStats.size_fetch_add 1 (FastStack.stats s)))
                      (FastStack.set_aba_tag (wrap64 (FastStack.aba_tag s + 1))
                         (FastStack.set_header
                            (DequeHeader.set_base
                               (CollectionHeader.set_modified_at now
                                  (CollectionHeader.size_fetch_add 1
                                     (DequeHeader.base
                                        (DequeHeader.set_front off (FastStack.header s)))))
                               (DequeHeader.set_front off (FastStack.header s)))
                            (FastStack.set_heap h5 s))))).
  { intros h5 Hh5. unfold FastStack.push. rewrite (size_of_eqb_0 data Hsz).
    unfold FastStack.allocate_node, manager_allocate. rewrite Halloc, !bind_Ret.
    rewrite (update_Some _ _ _ _ (lookup_insert_eq _ off _)), bind_Ret.
    rewrite (update_Some _ _ _ _ (lookup_insert_eq _ off _)), bind_Ret.
    rewrite (update_Some _ _ _ _ (lookup_insert_eq _ off _)), bind_Ret.
    rewrite !insert_insert_eq.
    change (ShmNode.set_prev NULL_OFFSET
              (ShmNode.set_next (DequeHeader.front_offset (FastStack.header s))
                 (SerializationUtil.copy_to_node now ShmNode.init data ttl)))
      with nn.
    rewrite Hh5, bind_Ret. reflexivity. }
  destruct l as [| o1 l1].
  - simpl in Hc.
    eexists. split.
    { apply Hrun.
      replace (0 <=? _) with false by (symmetry; apply Z.leb_gt; exact Hc).
      reflexivity. }
    unfold stack_shape. ssimpl.
    split; [| split; [apply lookup_insert_eq |
                      split; [| reflexivity]]].
    + split; [| split].
      * split; [reflexivity |]. split; [exact Hoff |].
        exists nn. split; [apply lookup_insert_eq | exact Hc].
      * apply NoDup_cons. split; [exact Hnotin | exact Hnd].
      * apply Forall_cons. split; [| apply Forall_nil_2].
        exists nn. split; [apply lookup_insert_eq | reflexivity].
    + intros o Hne. split; rewrite lookup_insert_ne by congruence; reflexivity.
  - pose proof Hc as (Hfr & Hp & n1 & Hn1 & Hc1).
    assert (Hne1 : o1 <> off) by (intros ->; apply Hnotin; left).
    eexists. split.
    { apply Hrun. rewrite Hfr.
      replace (0 <=? o1) with true by (symmetry; apply Z.leb_le; exact Hp).
      apply update_Some. rewrite lookup_insert_ne by congruence. exact Hn1. }
    unfold stack_shape. ssimpl.
    assert (Hcontent : forall o, o <> off ->
              same_content (FastStack.heap s)
                (<[o1 := ShmNode.set_prev off n1]> (<[off := nn]> (FastStack.heap s))) o).
    { intros o Hne. destruct (decide (o = o1)) as [-> | Hno].
      - split; rewrite lookup_insert_eq, Hn1; reflexivity.
      - split; rewrite !lookup_insert_ne by congruence; reflexivity. }
    split; [| split; [rewrite lookup_insert_ne by congruence; apply lookup_insert_eq |
                      split; [exact Hcontent | reflexivity]]].
    split; [| split].
    + split; [reflexivity |]. split; [exact Hoff |].
      exists nn. split; [rewrite lookup_insert_ne by congruence; apply lookup_insert_eq |].
      change (ShmNode.next_offset nn) with (DequeHeader.front_offset (FastStack.header s)).
      apply (chain_same_next _ (FastStack.heap s)); [| exact Hc].
      intros o Ho. destruct (decide (o = o1)) as [-> | Hno].
      * rewrite lookup_insert_eq, Hn1. reflexivity.
      * rewrite !lookup_insert_ne; [reflexivity | | congruence].
        intros <-. contradiction.
    + apply NoDup_cons. split; [exact Hnotin | exact Hnd].
    + apply Forall_cons. split.
      * exists nn. split; [| reflexivity].
        rewrite lookup_insert_ne by congruence. apply lookup_insert_eq.
      * eapply all_valid_content; [| exact Hv].
        intros o Ho. apply Hcontent. intros ->. contradiction.
Qed.

(** The calls of an enumeration of the stack over a chain. *)
Lemma FastStack_forEach_calls (now : Z) (h : gmap Z ShmNode.t) (l : list Z) :
  forall (fuel : nat) (p : Z),
    chain ShmNode.next_offset h p l -> (length l < fuel)%nat ->
    FastStack.forEach_loop fuel now h always2 p = Ret (alive_calls now h l).
Proof.
  induction l as [| o l IH]; intros fuel p Hc Hf;
    (destruct fuel as [| fuel]; [simpl in Hf; lia |]).
  - simpl in Hc. loop_end Hc. reflexivity.
  - destruct Hc as (-> & Hp & n & Hn & Hc). simpl in Hf.
    loop_round Hp Hn. rewrite (IH fuel _ Hc) by lia. rewrite Hn.
    destruct (ShmEntry.is_alive now (ShmNode.entry n)); reflexivity.
Qed.

Lemma FastStack_forEach_shape (fuel : nat) (now : Z) (s : FastStack.t) (l : list Z) :
  stack_shape s l -> (length l < fuel)%nat ->
  FastStack.forEach fuel now s always2 = Ret (alive_calls now (FastStack.heap s) l).
Proof.
  intros (Hc & _) Hf. unfold FastStack.forEach.
  apply (FastStack_forEach_calls now _ l fuel _ Hc Hf).
Qed.

(** X20.  On a well-linked stack, with an allocator that returns a free
    block, [push] of [data] returns [true], adds one to the size stored
    in the header and leaves a well-linked stack.  An enumeration with a
    callback that never stops it, at any instant [t], then makes one
    call with [data], if the new node is alive at [t], followed by the
    calls it made on the stack before: the last element pushed is the
    first enumerated. *)
Theorem push_puts_the_element_on_top
        (alloc : Z -> option Z) (now : Z) (s : FastStack.t) (l : list Z)
        (data : bytes) (ttl off : Z) :
  stack_shape s l -> size_of data <> 0 ->
  alloc (ShmNode.total_size (size_of data)) = Some off ->
  0 <= off -> FastStack.heap s !! off = None ->
  exists s',
    FastStack.push alloc now s (Some data) ttl = Ret (true, s')
    /\ stack_shape s' (off :: l)
    /\ DequeHeader.size (FastStack.header s')
       = wrap64 (DequeHeader.size (FastStack.header s) + 1)
    /\ forall fuel t,
        (length l + 1 < fuel)%nat ->
        exists calls,
          FastStack.forEach fuel t s always2 = Ret calls
          /\ FastStack.forEach fuel t s' always2
             = Ret ((if ShmEntry.is_alive t
                          (ShmNode.entry
                             (SerializationUtil.copy_to_node now ShmNode.init data ttl))
                     then [(data, wrap32 (size_of data))] else []) ++ calls).
Proof.
  intros Hshape Hsz Halloc Hoff Hfree.
  destruct (push_spec alloc now s l data ttl off Hshape Hsz Halloc Hoff Hfree)
    as (s' & Hrun & Hs' & Hnew & Hc & Hsize).
  exists s'. split; [exact Hrun |]. split; [exact Hs' |]. split; [exact Hsize |].
  intros fuel t Hf.
  exists (alive_calls t (FastStack.heap s) l).
  split; [apply FastStack_forEach_shape; [exact Hshape | lia] |].
  rewrite (FastStack_forEach_shape fuel t s' _ Hs') by (simpl; lia).
  change (off :: l) with ([off] ++ l). rewrite alive_calls_app.
  rewrite (alive_calls_new_node t now _ off data ttl _ _ Hnew).
  rewrite (alive_calls_content t (FastStack.heap s) (FastStack.heap s') l); [reflexivity |].
  intros o Ho. apply Hc. intros ->.
  destruct Hs' as (_ & Hnd & _). apply NoDup_cons in Hnd as [Hno _]. contradiction.
Qed.

Lemma stack_state_shape : stack_shape stack_state [64].
Proof.
  split; [| split].
  - concrete_shape.
  - concrete_nodup.
  - unfold all_valid. concrete_forall.
Qed.

Lemma push_puts_the_element_on_top_witness :
  exists s',
    FastStack.push (fun _ => Some 128) 150 stack_state (Some (payload "B")) TTL_INFINITE
    = Ret (true, s')
    /\ FastStack.forEach 8 200 s' always2 = Ret [(payload "B", 1); (payload "A", 1)].
Proof.
  destruct (push_puts_the_element_on_top
              (fun _ => Some 128) 150 stack_state [64] (payload "B") TTL_INFINITE 128
              stack_state_shape ltac:(vm_compute; discriminate) eq_refl ltac:(lia)
              ltac:(vm_compute; reflexivity))
    as (s' & Hrun & _ & _ & Hcalls).
  destruct (Hcalls 8%nat 200 ltac:(simpl; lia)) as (calls & Hbefore & Hafter).
  assert (Hc : FastStack.forEach 8 200 stack_state always2 = Ret [(payload "A", 1)])
    by (vm_compute; reflexivity).
  pose proof (eq_trans (eq_sym Hc) Hbefore) as Heq.
  injection Heq as <-.
  exists s'. split; [exact Hrun | exact Hafter].
Defined.

(** The removal of the top node of a stack: what is left is the stack of
    the other nodes. *)
Lemma unlink_top_spec (s : FastStack.t) (o : Z) (l : list Z) (n : ShmNode.t) :
  stack_shape s (o :: l) -> FastStack.heap s !! o = Some n ->
  exists s1,
    FastStack.unlink_top s o n = Ret s1
    /\ stack_shape s1 l
    /\ FastStack.heap s1 !! o = None
    /\ (forall o', o' <> o -> same_content (FastStack.heap s) (FastStack.heap s1) o')
    /\ DequeHeader.size (FastStack.header s1)
       = wrap64 (DequeHeader.size (FastStack.header s) - 1)
    /\ FastStack.stats s1 = FastStack.stats s.
Proof.
  intros (Hc & Hnd & Hv) Hn.
  destruct Hc as (Hfr & Hp & n' & Hn' & Hc).
  rewrite Hn in Hn'. injection Hn' as <-.
  apply NoDup_cons in Hnd as [Hnotin Hnd].
  apply Forall_cons in Hv as [_ Hv].
  unfold FastStack.unlink_top. cbv zeta. ssimpl.
  destruct l as [| o2 l].
  - simpl in Hc.
    replace (0 <=? ShmNode.next_offset n) with false
      by (symmetry; apply Z.leb_gt; exact Hc).
    rewrite bind_Ret, (update_Some _ _ _ _ Hn), bind_Ret.
    eexists. split; [reflexivity |]. unfold stack_shape. ssimpl.
    split; [| split; [apply lookup_delete_eq |
                      split; [| split; reflexivity]]].
    + split; [exact Hc |]. split; constructor.
    + intros o' Hne. apply same_content_free. exact Hne.
  - pose proof Hc as (Hnx & Hp2 & n2 & Hn2 & Hc2).
    assert (Hne : o <> o2) by (intros ->; apply Hnotin; left).
    replace (0 <=? ShmNode.next_offset n) with true
      by (symmetry; apply Z.leb_le; rewrite Hnx; exact Hp2).
    rewrite Hnx, (update_Some _ _ _ _ Hn2), bind_Ret.
    erewrite update_Some by (rewrite lookup_insert_ne by congruence; exact Hn).
    rewrite bind_Ret.
    eexists. split; [reflexivity |]. unfold stack_shape. ssimpl.
    assert (Hcontent : forall o', o' <> o ->
              same_content (FastStack.heap s)
                (delete o (<[o := FastStack.mark_deleted n]>
                             (<[o2 := ShmNode.set_prev NULL_OFFSET n2]>
                                (FastStack.heap s)))) o').
    { intros o' Hne'. eapply same_content_trans.
      - apply (same_content_set_prev _ o2 o' NULL_OFFSET n2 Hn2).
      - apply same_content_free. exact Hne'. }
    split; [| split; [apply lookup_delete_eq |
                      split; [exact Hcontent | split; reflexivity]]].
    split; [| split].
    + rewrite Hnx in Hc.
      apply (chain_same_next _ (FastStack.heap s)); [| exact Hc].
      intros x Hx. assert (Hxo : x <> o) by (intros ->; contradiction).
      rewrite lookup_delete_ne, lookup_insert_ne by congruence.
      destruct (decide (x = o2)) as [-> | Hx2].
      * rewrite lookup_insert_eq, Hn2. reflexivity.
      * rewrite lookup_insert_ne by congruence. reflexivity.
    + exact Hnd.
    + eapply all_valid_content; [| exact Hv].
      intros o' Ho'. apply Hcontent. intros ->. contradiction.
Qed.

(** [pop] removes the prefix [l1] of the chain, whose nodes are expired
    when it tests them, then the first node of [l2], which is not; it
    gives what [copy_from_node()] reads from that node at the next
    reading of the clock. *)
Lemma pop_spec (l1 : list Z) :
  forall (now : clock) (fuel : nat) (s : FastStack.t) (l2 : list Z) (out_data : bytes),
    stack_shape s (l1 ++ l2) ->
    expired_in_turn now (FastStack.heap s) l1 ->
    front_not_expired (now (length l1)) (FastStack.heap s) l2 ->
    (length l1 < fuel)%nat ->
    exists s',
      FastStack.pop fuel now s out_data
      = Ret (top_reading now (S (length l1)) (FastStack.heap s) l2 out_data, s')
      /\ stack_shape s' (drop 1 l2)
      /\ (forall o, o ∉ l1 ++ take 1 l2 ->
                    same_content (FastStack.heap s) (FastStack.heap s') o)
      /\ DequeHeader.size (FastStack.header s')
         = Nat.iter (length (l1 ++ take 1 l2)) (fun z => wrap64 (z - 1))
                    (DequeHeader.size (FastStack.header s))
      /\ (forall o, o ∈ l1 ++ take 1 l2 -> FastStack.heap s' !! o = None).
Proof.
  induction l1 as [| o l1 IH]; intros now fuel s l2 out_data Hshape Hexp Hfront Hfuel;
    (destruct fuel as [| fuel]; [simpl in Hfuel; lia |]).
  - simpl in Hshape. simpl app. destruct l2 as [| o2 l2].
    + exists (FastStack.miss s). pose proof Hshape as (Hc & _). simpl in Hc.
      split; [| split; [exact Hshape |
                        split; [intros o _; apply same_content_refl |
                                split; [reflexivity |]]]].
      * loop_end Hc. reflexivity.
      * intros o Ho. apply elem_of_nil in Ho. contradiction.
    + pose proof Hshape as ((Hfr & Hp & n & Hn & _) & _ & Hv).
      destruct Hfront as (n' & Hn' & Hne). rewrite Hn in Hn'. injection Hn' as <-.
      simpl in Hne.
      destruct (unlink_top_spec s o2 l2 n Hshape Hn)
        as (s1 & Hrun & Hs1 & Hfree & Hc1 & Hsz1 & Hst1).
      eexists. split; [| split; [| split; [| split]]].
      * simpl FastStack.pop. rewrite Hfr.
        replace (o2 <? 0) with false by (symmetry; apply Z.ltb_ge; exact Hp).
        rewrite (deref_Some _ _ _ Hn), bind_Ret, Hne, Hrun, bind_Ret.
        simpl top_reading. rewrite Hn. reflexivity.
      * unfold stack_shape. ssimpl. exact Hs1.
      * ssimpl. intros o Ho. apply Hc1. intros ->. apply Ho. left.
      * ssimpl. exact Hsz1.
      * ssimpl. intros o Ho. apply list_elem_of_singleton in Ho as ->. exact Hfree.
  - change ((o :: l1) ++ l2) with (o :: (l1 ++ l2)) in Hshape.
    pose proof Hshape as ((Hfr & Hp & n & Hn & _) & Hnd & _).
    apply NoDup_cons in Hnd as [Hnotin Hnd].
    destruct Hexp as [(n' & Hn' & He) Hexp].
    rewrite Hn in Hn'. injection Hn' as <-.
    destruct (unlink_top_spec s o (l1 ++ l2) n Hshape Hn)
      as (s1 & Hrun & Hs1 & Hfree & Hc1 & Hsz1 & Hst1).
    set (sb := FastStack.set_stats (CollectionStats.size_fetch_sub 1 (FastStack.stats s1)) s1).
    destruct (IH (tick now) fuel sb l2 out_data) as (s' & Hpop & Hs' & Hc' & Hsz' & Hfreed').
    + exact Hs1.
    + apply (expired_in_turn_content _ _ (FastStack.heap s)); [| exact Hexp].
      intros o' Ho'. apply Hc1. intros ->. apply Hnotin, elem_of_app. left. exact Ho'.
    + destruct l2 as [| o2 l2]; [exact I |].
      destruct Hfront as (n2 & Hn2 & Hne2).
      assert (Hne' : o2 <> o)
        by (intros ->; apply Hnotin, elem_of_app; right; left).
      destruct (same_content_lookup _ _ _ _ (Hc1 o2 Hne') Hn2) as (n2' & Hn2' & Hent & _).
      exists n2'. split; [exact Hn2' | rewrite Hent; exact Hne2].
    + simpl in Hfuel. lia.
    + exists s'. split; [| split; [exact Hs' | split; [| split]]].
      * simpl FastStack.pop. rewrite Hfr.
        replace (o <? 0) with false by (symmetry; apply Z.ltb_ge; exact Hp).
        rewrite (deref_Some _ _ _ Hn), bind_Ret, He, Hrun, bind_Ret.
        fold sb. rewrite Hpop. f_equal. f_equal.
        destruct l2 as [| o2 l2]; [reflexivity |]. simpl.
        assert (Hne' : o2 <> o)
          by (intros ->; apply Hnotin, elem_of_app; right; left).
        destruct (Hc1 o2 Hne') as [Hent Hdat]. change (FastStack.heap sb) with (FastStack.heap s1).
        destruct (FastStack.heap s !! o2) as [a |], (FastStack.heap s1 !! o2) as [b |];
          simpl in Hent, Hdat; try discriminate; try reflexivity.
        injection Hent as Hent. injection Hdat as Hdat.
        rewrite (copy_from_node_content _ a b Hent Hdat). reflexivity.
      * intros x Hx. change ((o :: l1) ++ take 1 l2) with (o :: (l1 ++ take 1 l2)) in Hx.
        apply not_elem_of_cons in Hx as [Hne' Hx].
        eapply same_content_trans; [apply Hc1, Hne' | apply Hc', Hx].
      * rewrite Hsz'. subst sb. ssimpl. rewrite Hsz1.
        change (length ((o :: l1) ++ take 1 l2)) with (S (length (l1 ++ take 1 l2))).
        rewrite Nat.iter_succ_r. reflexivity.
      * intros x Hx. change ((o :: l1) ++ take 1 l2) with (o :: (l1 ++ take 1 l2)) in Hx.
        apply elem_of_cons in Hx as [-> | Hx]; [| apply Hfreed', Hx].
        apply (same_content_None (FastStack.heap sb)); [| exact Hfree].
        apply Hc'. intros Hin. apply Hnotin.
        apply elem_of_app in Hin as [Hin | Hin]; apply elem_of_app; [left; exact Hin |].
        right. destruct l2 as [| o2 l2]; [apply elem_of_nil in Hin; contradiction |].
        simpl in Hin. apply list_elem_of_singleton in Hin as ->. left.
Qed.

(** The loop of [peek] walks over the prefix [l1] of a chain of valid
    nodes, which are expired when it tests them, and gives what
    [copy_from_node()] reads from the next node at the next reading of
    the clock. *)
Lemma peek_loop_spec (h : gmap Z ShmNode.t) (l1 : list Z) :
  forall (now : clock) (fuel : nat) (p : Z) (l2 : list Z),
    chain ShmNode.next_offset h p (l1 ++ l2) ->
    all_valid h (l1 ++ l2) ->
    expired_in_turn now h l1 ->
    front_not_expired (now (length l1)) h l2 ->
    (length l1 < fuel)%nat ->
    FastStack.peek_loop fuel now h p
    = Ret (match l2 with
           | [] => None
           | _ :: _ => Some (top_reading now (S (length l1)) h l2 []).2
           end).
Proof.
  induction l1 as [| o l1 IH]; intros now fuel p l2 Hc Hv Hexp Hfront Hfuel;
    (destruct fuel as [| fuel]; [simpl in Hfuel; lia |]).
  - simpl in Hc. destruct l2 as [| o2 l2].
    + simpl in Hc. loop_end Hc. reflexivity.
    + destruct Hc as (-> & Hp & n & Hn & _).
      destruct Hfront as (n' & Hn' & Hne). rewrite Hn in Hn'. injection Hn' as <-.
      apply Forall_cons in Hv as [(n' & Hn' & Hvalid) _].
      rewrite Hn in Hn'. injection Hn' as <-.
      simpl in Hne.
      assert (Halive : ShmEntry.is_alive (now O) (ShmNode.entry n) = true)
        by (rewrite (valid_alive_or_expired _ _ Hvalid), Hne; reflexivity).
      loop_round Hp Hn. rewrite Halive, Hn. reflexivity.
  - destruct Hc as (-> & Hp & n & Hn & Hc).
    apply Forall_cons in Hv as [_ Hv].
    destruct Hexp as [(n' & Hn' & He) Hexp].
    rewrite Hn in Hn'. injection Hn' as <-.
    simpl FastStack.peek_loop.
    replace (o <? 0) with false by (symmetry; apply Z.ltb_ge; exact Hp).
    rewrite (deref_Some _ _ _ Hn), bind_Ret, (expired_not_alive _ _ He).
    apply (IH (tick now)); try assumption. simpl in Hfuel. lia.
Qed.

(** What [copy_from_node()] reads from the first record of a chain that
    is not expired at the reading. *)
Lemma top_reading_alive (now : clock) (k : nat) (h : gmap Z ShmNode.t) (l : list Z)
      (out_data : bytes) :
  all_valid h l ->
  front_not_expired (now k) h l ->
  top_reading now k h l out_data = front_answer h l out_data.
Proof.
  intros Hv H1. destruct l as [| o l]; [reflexivity |].
  apply Forall_cons in Hv as [(n & Hn & Hvalid) _].
  destruct H1 as (n1 & Hn1 & He1). rewrite Hn in Hn1. injection Hn1 as <-.
  unfold top_reading, front_answer, SerializationUtil.copy_from_node. rewrite Hn.
  rewrite (valid_alive_or_expired _ _ Hvalid), He1. reflexivity.
Qed.

(** [pop] and the loop of [peek] when no node of the stack expires
    during the call: the readings of the clock, one for each node of
    [l1] and two more, agree with the instant [t] on every node. *)
Lemma top_runs_steady (fuel : nat) (t : Z) (now : clock) (s : FastStack.t)
      (l1 l2 : list Z) (out_data : bytes) :
  stack_shape s (l1 ++ l2) ->
  steady t now (length l1 + 2) (FastStack.heap s) (l1 ++ l2) ->
  Forall (expired_at t (FastStack.heap s)) l1 ->
  front_not_expired t (FastStack.heap s) l2 ->
  (length l1 < fuel)%nat ->
  (exists s',
      FastStack.pop fuel now s out_data
      = Ret (front_answer (FastStack.heap s) l2 out_data, s')
      /\ stack_shape s' (drop 1 l2)
      /\ (forall o, o ∉ l1 ++ take 1 l2 ->
                    same_content (FastStack.heap s) (FastStack.heap s') o))
  /\ FastStack.peek_loop fuel now (FastStack.heap s)
                         (DequeHeader.front_offset (FastStack.header s))
     = Ret (match l2 with
            | [] => None
            | _ :: _ => Some (front_answer (FastStack.heap s) l2 []).2
            end).
Proof.
  intros Hshape Hst Hexp Hfront Hfuel.
  destruct (steady_app _ _ _ _ _ _ Hst) as [Hst1 Hst2].
  pose proof Hshape as (Hc & _ & Hv).
  assert (Hv2 : all_valid (FastStack.heap s) l2)
    by (apply Forall_app in Hv as [_ Hv2]; exact Hv2).
  assert (Hturn : expired_in_turn now (FastStack.heap s) l1)
    by (apply (steady_expired_in_turn t _ l1 now _ Hst1); [lia | exact Hexp]).
  assert (Hfr : forall k, (k < length l1 + 2)%nat ->
                          front_not_expired (now k) (FastStack.heap s) l2)
    by (intros k Hk; exact (steady_front_not_expired t now _ _ l2 k Hk Hst2 Hfront)).
  pose proof (Hfr (length l1) ltac:(lia)) as Hf0.
  pose proof (Hfr (S (length l1)) ltac:(lia)) as Hf1.
  split.
  - destruct (pop_spec l1 now fuel s l2 out_data Hshape Hturn Hf0 Hfuel)
      as (s' & Hpop & Hs' & Hc' & _).
    rewrite (top_reading_alive now _ _ l2 out_data Hv2 Hf1) in Hpop.
    exists s'. exact (conj Hpop (conj Hs' Hc')).
  - rewrite (peek_loop_spec _ l1 now fuel _ l2 Hc Hv Hturn Hf0 Hfuel).
    rewrite (top_reading_alive now _ _ l2 [] Hv2 Hf1). reflexivity.
Qed.

(** X21.  On a well-linked stack, let [calls] be the calls that an
    enumeration with a callback that never stops it makes at the instant
    [t], and take a call of [peek], [pop], [peekOrThrow] or
    [popOrThrow] during which no node of the stack expires: each
    reading of its clock (there are two more than nodes at most) agrees
    with [t] on every node.  If there is no call, [peek] and [pop]
    return [false] and leave the caller's vector as it was, and
    [peekOrThrow] and [popOrThrow] raise [NOT_FOUND].  Otherwise [peek]
    and [peekOrThrow] give the bytes of the first call and leave a
    stack with the same enumeration, and [pop] and [popOrThrow] give
    the bytes of the first call and leave a stack whose enumeration is
    the rest of the calls. *)
Theorem pop_takes_the_first_element_of_the_stack
        (fuel : nat) (t : Z) (now : clock) (s : FastStack.t) (l : list Z) (out : bytes) :
  stack_shape s l -> (length l < fuel)%nat ->
  steady t now (length l + 2) (FastStack.heap s) l ->
  exists calls,
    FastStack.forEach fuel t s always2 = Ret calls
    /\ match calls with
       | [] =>
           (exists s', FastStack.peek fuel now s out = Ret (false, out, s'))
           /\ (exists s', FastStack.pop fuel now s out = Ret (false, out, s'))
           /\ (exists s', FastStack.peekOrThrow fuel now s
                          = Ret (inl (FastCollectionException NOT_FOUND), s'))
           /\ (exists s', FastStack.popOrThrow fuel now s
                          = Ret (inl (FastCollectionException NOT_FOUND), s'))
       | (d, n) :: rest =>
           (exists s',
               FastStack.peek fuel now s out = Ret (true, take (Z.to_nat n) d, s')
               /\ FastStack.forEach fuel t s' always2 = Ret calls)
           /\ (exists s',
                  FastStack.pop fuel now s out = Ret (true, take (Z.to_nat n) d, s')
                  /\ FastStack.forEach fuel t s' always2 = Ret rest)
           /\ (exists s', FastStack.peekOrThrow fuel now s
                          = Ret (inr (take (Z.to_nat n) d), s'))
           /\ (exists s', FastStack.popOrThrow fuel now s
                          = Ret (inr (take (Z.to_nat n) d), s'))
       end.
Proof.
  intros Hshape Hfuel Hsteady.
  pose proof Hshape as (Hc & Hnd & Hv).
  destruct (expired_prefix_split t (FastStack.heap s) l Hv)
    as (l1 & l2 & -> & Hexp & Hfront).
  rewrite length_app in Hfuel, Hsteady.
  apply (steady_le _ _ _ (length l1 + 2)) in Hsteady; [| lia].
  apply NoDup_app in Hnd as (_ & Hdis & Hnd2).
  rewrite (FastStack_forEach_shape fuel t s _ Hshape) by (rewrite length_app; lia).
  rewrite (alive_calls_expired_prefix t _ l1 l2 Hexp).
  eexists. split; [reflexivity |].
  destruct (top_runs_steady fuel t now s l1 l2 out Hshape Hsteady Hexp Hfront ltac:(lia))
    as ((sb & Hpop & Hsb & Hcb) & Hpeek).
  destruct (top_runs_steady fuel t now s l1 l2 [] Hshape Hsteady Hexp Hfront ltac:(lia))
    as ((sd & Hpop0 & _) & _).
  destruct l2 as [| o l2].
  - simpl. unfold FastStack.peekOrThrow, FastStack.popOrThrow, FastStack.peek.
    rewrite Hpeek, Hpop0, !bind_Ret.
    split; [eexists; reflexivity |]. split; [exists sb; exact Hpop |].
    split; eexists; reflexivity.
  - destruct Hfront as (n & Hn & Hne).
    apply Forall_app in Hv as [_ Hv2].
    apply Forall_cons in Hv2 as [(n' & Hn' & Hvalid) _].
    rewrite Hn in Hn'. injection Hn' as <-.
    assert (Halive : ShmEntry.is_alive t (ShmNode.entry n) = true)
      by (rewrite (valid_alive_or_expired t _ Hvalid), Hne; reflexivity).
    apply NoDup_cons in Hnd2 as [Hno2 Hnd2].
    assert (Hcalls : alive_calls t (FastStack.heap s) (o :: l2)
                     = (ShmNode.data n, ShmEntry.data_size (ShmNode.entry n))
                         :: alive_calls t (FastStack.heap s) l2).
    { change (o :: l2) with ([o] ++ l2). rewrite alive_calls_app.
      unfold alive_calls at 1. simpl omap. rewrite Hn, Halive. reflexivity. }
    rewrite Hcalls.
    simpl length in Hfuel.
    assert (Hf2 : (S (length l2) < fuel)%nat) by lia.
    simpl in Hpop, Hpop0, Hpeek. rewrite Hn in Hpop, Hpop0, Hpeek.
    unfold FastStack.peekOrThrow, FastStack.popOrThrow, FastStack.peek.
    rewrite Hpeek, Hpop0, !bind_Ret.
    split; [| split; [| split; eexists; reflexivity]].
    + eexists. split; [reflexivity |].
      unfold FastStack.forEach. ssimpl.
      rewrite (FastStack_forEach_calls t _ _ fuel _ Hc)
        by (rewrite length_app; simpl; lia).
      rewrite (alive_calls_expired_prefix t _ l1 _ Hexp), Hcalls. reflexivity.
    + exists sb. split; [exact Hpop |].
      change (drop 1 (o :: l2)) with l2 in Hsb.
      rewrite (FastStack_forEach_shape fuel t sb _ Hsb) by lia.
      rewrite (alive_calls_content t (FastStack.heap s) (FastStack.heap sb) l2);
        [reflexivity |].
      intros x Hx. apply Hcb. simpl take. intros Hin.
      apply elem_of_app in Hin as [Hin | Hin].
      * apply (Hdis x Hin). right. exact Hx.
      * apply list_elem_of_singleton in Hin as ->. contradiction.
Qed.

(** The clock advances by a nanosecond at each reading, from [t] on: the
    node of ["A"] never expires. *)
Lemma stack_state_steady (t : Z) (m : nat) :
  steady t (running_from t) m (FastStack.heap stack_state) [64].
Proof.
  intros k o n _ Ho Hn. apply list_elem_of_singleton in Ho as ->.
  vm_compute in Hn. injection Hn as <-. split; reflexivity.
Qed.

Lemma pop_takes_the_first_element_of_the_stack_witness :
  exists s',
    FastStack.pop 8 (running_from 200) stack_state [] = Ret (true, payload "A", s')
    /\ FastStack.forEach 8 200 s' always2 = Ret [].
Proof.
  destruct (pop_takes_the_first_element_of_the_stack
              8 200 (running_from 200) stack_state [64] []
              stack_state_shape ltac:(simpl; lia) (stack_state_steady 200 _))
    as (calls & Hcalls & Hcases).
  assert (Hc : FastStack.forEach 8 200 stack_state always2 = Ret [(payload "A", 1)])
    by (vm_compute; reflexivity).
  pose proof (eq_trans (eq_sym Hc) Hcalls) as Heq.
  injection Heq as <-.
  destruct Hcases as (_ & (s' & Hpop & Hrest) & _).
  exists s'. split; [exact Hpop | exact Hrest].
Defined.

(** X22.  On a well-linked stack, [push] of a payload that is not empty
    and has less than 2^32 bytes, followed by a [pop] whose first
    reading of the clock, in [is_expired()], finds the node pushed
    alive.  [pop] returns [true] and gives the payload back when the
    node is still alive at the second reading, in [copy_from_node()];
    it returns [true] with an empty vector when the node has expired
    between the two.  In both cases the node is unlinked and freed, and
    what is left is a well-linked stack of the nodes that were there
    before the [push], with their entries and bytes, whose enumeration
    is the one of the stack before the [push]. *)
Theorem pop_gives_back_what_push_put
        (alloc : Z -> option Z) (now : Z) (s : FastStack.t) (l : list Z)
        (data : bytes) (ttl off : Z) (fuel : nat) (readings : clock) (t : Z)
        (out : bytes) :
  stack_shape s l -> size_of data <> 0 -> size_of data < 2 ^ 32 ->
  alloc (ShmNode.total_size (size_of data)) = Some off ->
  0 <= off -> FastStack.heap s !! off = None ->
  (length l < fuel)%nat ->
  let pushed := ShmNode.entry (SerializationUtil.copy_to_node now ShmNode.init data ttl) in
  ShmEntry.is_alive (readings O) pushed = true ->
  exists s' s'',
    FastStack.push alloc now s (Some data) ttl = Ret (true, s')
    /\ FastStack.pop fuel readings s' out
       = Ret (true, if ShmEntry.is_alive (readings 1%nat) pushed then data else [], s'')
    /\ stack_shape s'' l
    /\ FastStack.heap s'' !! off = None
    /\ (forall o, o <> off -> same_content (FastStack.heap s) (FastStack.heap s'') o)
    /\ FastStack.forEach fuel t s'' always2 = FastStack.forEach fuel t s always2.
Proof.
  intros Hshape Hsz Hlt Halloc Hoff Hfree Hfuel pushed Halive.
  destruct (push_spec alloc now s l data ttl off Hshape Hsz Halloc Hoff Hfree)
    as (s' & Hrun & Hs' & Hnew & Hc & _).
  assert (Hfront : front_not_expired (readings O) (FastStack.heap s') (off :: l)).
  { eexists. split; [exact Hnew |]. apply is_alive_not_expired. exact Halive. }
  destruct (pop_spec [] readings fuel s' (off :: l) out Hs' I Hfront ltac:(simpl; lia))
    as (s'' & Hpop & Hs'' & Hc' & _ & Hfreed).
  change (drop 1 (off :: l)) with l in Hs''.
  exists s', s''. split; [exact Hrun |].
  assert (Hcontent : forall o, o <> off ->
            same_content (FastStack.heap s) (FastStack.heap s'') o).
  { intros o Hne. eapply same_content_trans; [apply Hc, Hne |].
    apply Hc'. simpl. intros Hin. apply list_elem_of_singleton in Hin. contradiction. }
  assert (Hnotin : off ∉ l).
  { destruct Hs' as (_ & Hnd & _). apply NoDup_cons in Hnd as [Hno _]. exact Hno. }
  split; [| split; [exact Hs'' | split; [| split; [exact Hcontent |]]]].
  - rewrite Hpop. simpl top_reading. rewrite Hnew.
    unfold SerializationUtil.copy_from_node.
    change (ShmNode.entry (new_node now data ttl NULL_OFFSET
              (DequeHeader.front_offset (FastStack.header s)))) with pushed.
    destruct (ShmEntry.is_alive (readings 1%nat) pushed); simpl negb; cbv iota;
      [| reflexivity].
    change (ShmEntry.data_size pushed) with (wrap32 (size_of data)).
    change (ShmNode.data (new_node now data ttl NULL_OFFSET
              (DequeHeader.front_offset (FastStack.header s)))) with data.
    rewrite (wrap32_small (size_of data)) by (pose proof (size_of_nonneg data); lia).
    rewrite size_of_to_nat, firstn_all. reflexivity.
  - apply Hfreed. left.
  - rewrite (FastStack_forEach_shape fuel t s'' l Hs'' Hfuel).
    rewrite (FastStack_forEach_shape fuel t s l Hshape Hfuel).
    f_equal. apply alive_calls_content.
    intros o Ho. apply Hcontent. intros ->. contradiction.
Qed.

(** ["B"] is pushed at 150 for 60 seconds.  A [pop] that starts at 200
    gives it back; a [pop] whose first reading of the clock is one
    nanosecond before the expiry and whose second reading is the expiry
    returns [true] with an empty vector. *)
Lemma pop_gives_back_what_push_put_witness :
  (exists s' s'',
      FastStack.push (fun _ => Some 128) 150 stack_state (Some (payload "B")) 60
      = Ret (true, s')
      /\ FastStack.pop 8 (running_from 200) s' [] = Ret (true, payload "B", s'')
      /\ FastStack.forEach 8 200 s'' always2 = Ret [(payload "A", 1)])
  /\ (exists s' s'',
         FastStack.push (fun _ => Some 128) 150 stack_state (Some (payload "B")) 60
         = Ret (true, s')
         /\ FastStack.pop 8 (running_from 60000000149) s' [] = Ret (true, [], s'')
         /\ FastStack.heap s'' !! 128 = None
         /\ FastStack.forEach 8 200 s'' always2 = Ret [(payload "A", 1)]).
Proof.
  split.
  - destruct (pop_gives_back_what_push_put
                (fun _ => Some 128) 150 stack_state [64] (payload "B") 60 128 8
                (running_from 200) 200 []
                stack_state_shape ltac:(vm_compute; discriminate)
                ltac:(vm_compute; reflexivity) eq_refl ltac:(lia)
                ltac:(vm_compute; reflexivity) ltac:(simpl; lia)
                ltac:(vm_compute; reflexivity))
      as (s' & s'' & Hpush & Hpop & _ & _ & _ & Hcalls).
    exists s', s''. split; [exact Hpush |]. split; [exact Hpop |].
    rewrite Hcalls. vm_compute. reflexivity.
  - destruct (pop_gives_back_what_push_put
                (fun _ => Some 128) 150 stack_state [64] (payload "B") 60 128 8
                (running_from 60000000149) 200 []
                stack_state_shape ltac:(vm_compute; discriminate)
                ltac:(vm_compute; reflexivity) eq_refl ltac:(lia)
                ltac:(vm_compute; reflexivity) ltac:(simpl; lia)
                ltac:(vm_compute; reflexivity))
      as (s' & s'' & Hpush & Hpop & _ & Hfreed & _ & Hcalls).
    exists s', s''. split; [exact Hpush |]. split; [exact Hpop |].
    split; [exact Hfreed |].
    rewrite Hcalls. vm_compute. reflexivity.
Defined.

(** On a record that holds the size and the hash of its bytes, the
    comparison of [search] succeeds when its bytes are [data]. *)
Lemma hashed_node_matches (n : ShmNode.t) (data : bytes) :
  ShmEntry.data_size (ShmNode.entry n) = size_of (ShmNode.data n) ->
  ShmEntry.hash_code (ShmNode.entry n) = compute_hash (ShmNode.data n) ->
  (ShmEntry.hash_code (ShmNode.entry n) =? compute_hash data)
  && (ShmEntry.data_size (ShmNode.entry n) =? size_of data)
  && memcmp_eq (ShmNode.data n) data (size_of data) = true
  <-> (ShmNode.data n, ShmEntry.data_size (ShmNode.entry n)) = (data, size_of data).
Proof.
  intros Hsz Hh. rewrite Hsz, Hh. split.
  - intros Hm. apply andb_true_iff in Hm as [Hm Hcmp].
    apply andb_true_iff in Hm as [_ Hs]. apply Z.eqb_eq in Hs.
    rewrite (memcmp_eq_same_size _ _ Hs Hcmp). reflexivity.
  - intros [= <-]. rewrite !Z.eqb_refl, memcmp_eq_refl. reflexivity.
Qed.

Lemma FastStack_search_loop_spec (now : Z) (h : gmap Z ShmNode.t) (data : bytes)
      (l : list Z) :
  forall (fuel : nat) (p d : Z),
    chain ShmNode.next_offset h p l -> nodes_hashed h l -> (length l < fuel)%nat ->
    0 <= d ->
    exists r,
      FastStack.search_loop fuel now h data (compute_hash data) p d = Ret r
      /\ search_answer (alive_calls now h l) data d r.
Proof.
  induction l as [| o l IH]; intros fuel p d Hc Hh Hf Hd;
    (destruct fuel as [| fuel]; [simpl in Hf; lia |]).
  - simpl in Hc. exists (-1). split; [loop_end Hc; reflexivity |].
    left. split; [reflexivity |]. intros Hin. apply elem_of_nil in Hin. contradiction.
  - destruct Hc as (-> & Hp & n & Hn & Hc). simpl in Hf.
    apply Forall_cons in Hh as [(n' & Hn' & Hsz & Hhash) Hh].
    rewrite Hn in Hn'. injection Hn' as <-.
    change (o :: l) with ([o] ++ l). rewrite alive_calls_app.
    unfold alive_calls at 1. simpl omap. rewrite Hn.
    simpl FastStack.search_loop.
    replace (o <? 0) with false by (symmetry; apply Z.ltb_ge; exact Hp).
    rewrite (deref_Some _ _ _ Hn), bind_Ret.
    destruct (ShmEntry.is_alive now (ShmNode.entry n)).
    + pose proof (hashed_node_matches n data Hsz Hhash) as Hm.
      destruct (_ && _ && _).
      * exists d. split; [reflexivity |]. right. split; [lia |].
        rewrite Z.sub_diag. simpl. split; [f_equal; apply Hm; reflexivity |].
        intros i Hi. lia.
      * assert (Hneq : (ShmNode.data n, ShmEntry.data_size (ShmNode.entry n))
                       <> (data, size_of data))
          by (intros Heq; apply Hm in Heq; discriminate).
        destruct (IH fuel _ (d + 1) Hc Hh ltac:(lia) ltac:(lia)) as (r & Hrun & Hans).
        exists r. split; [exact Hrun |].
        destruct Hans as [[-> Hnot] | (Hle & Hat & Hbefore)].
        -- left. split; [reflexivity |]. simpl. intros Hin.
           apply elem_of_cons in Hin as [Heq | Hin]; [| contradiction].
           apply Hneq. symmetry. exact Heq.
        -- right. split; [lia |].
           replace (Z.to_nat (r - d)) with (S (Z.to_nat (r - (d + 1)))) by lia.
           simpl. split; [exact Hat |].
           intros [| i] Hi; simpl; [intros Heq; apply Hneq; congruence |].
           apply Hbefore. lia.
    + simpl app. apply IH; assumption || lia.
Qed.

(** X23.  On a well-linked stack whose nodes record the size and the
    hash of the bytes they hold, [search] of a payload that is not empty
    returns -1 when no call of an enumeration (with a callback that
    never stops it) is made with this payload, and else the position,
    counted from 1 at the top, of the first call made with it. *)
Theorem search_gives_the_position_in_the_enumeration
        (fuel : nat) (now : Z) (s : FastStack.t) (l : list Z) (data : bytes) :
  stack_shape s l -> nodes_hashed (FastStack.heap s) l ->
  (length l < fuel)%nat -> size_of data <> 0 ->
  exists calls r,
    FastStack.forEach fuel now s always2 = Ret calls
    /\ FastStack.search fuel now s (Some data) = Ret r
    /\ ((r = -1 /\ (data, size_of data) ∉ calls)
        \/ (1 <= r
            /\ calls !! Z.to_nat (r - 1) = Some (data, size_of data)
            /\ forall i, (i < Z.to_nat (r - 1))%nat ->
                         calls !! i <> Some (data, size_of data))).
Proof.
  intros Hshape Hhashed Hfuel Hsz.
  rewrite (FastStack_forEach_shape fuel now s l Hshape Hfuel).
  destruct Hshape as (Hc & _).
  destruct (FastStack_search_loop_spec now _ data l fuel _ 1 Hc Hhashed Hfuel ltac:(lia))
    as (r & Hrun & Hans).
  eexists _, r. split; [reflexivity |]. split; [| exact Hans].
  unfold FastStack.search. rewrite (size_of_eqb_0 data Hsz). exact Hrun.
Qed.

Lemma stack_state_hashed : nodes_hashed (FastStack.heap stack_state) [64].
Proof.
  unfold nodes_hashed. repeat (apply Forall_cons; split); [| apply Forall_nil; exact I];
    (eexists; split; [vm_compute; reflexivity | split; vm_compute; reflexivity]).
Qed.

Lemma search_gives_the_position_in_the_enumeration_witness :
  exists calls r,
    FastStack.forEach 8 200 stack_state always2 = Ret calls
    /\ FastStack.search 8 200 stack_state (Some (payload "A")) = Ret r
    /\ ((r = -1 /\ (payload "A", size_of (payload "A")) ∉ calls)
        \/ (1 <= r
            /\ calls !! Z.to_nat (r - 1) = Some (payload "A", size_of (payload "A"))
            /\ forall i, (i < Z.to_nat (r - 1))%nat ->
                         calls !! i <> Some (payload "A", size_of (payload "A")))).
Proof.
  exact (search_gives_the_position_in_the_enumeration 8 200 stack_state [64]
           (payload "A") stack_state_shape stack_state_hashed ltac:(simpl; lia)
           ltac:(vm_compute; discriminate)).
Defined.

Lemma alive_calls_length (now : Z) (h : gmap Z ShmNode.t) (l : list Z) :
  (length (alive_calls now h l) <= length l)%nat.
Proof.
  induction l as [| o l IH]; [reflexivity |].
  change (o :: l) with ([o] ++ l). rewrite alive_calls_app, length_app.
  unfold alive_calls at 1. simpl.
  destruct (h !! o) as [n |]; [destruct (ShmEntry.is_alive now (ShmNode.entry n)) |];
    simpl; lia.
Qed.

Lemma steady_content (t : Z) (now : clock) (m : nat) (h h' : gmap Z ShmNode.t)
      (l l' : list Z) :
  (forall o, o ∈ l' -> o ∈ l /\ same_content h h' o) ->
  steady t now m h l -> steady t now m h' l'.
Proof.
  intros Hsub Hst k o n' Hk Ho Hn'. destruct (Hsub o Ho) as [Hin [He _]].
  rewrite Hn' in He. simpl in He.
  destruct (h !! o) as [n |] eqn:Hn; [| discriminate]. injection He as He.
  rewrite He. apply (Hst k o n Hk Hin Hn).
Qed.

(** [pop] with respect to the calls of an enumeration at the instant
    [t], when no node of the stack expires during the call. *)
Lemma pop_calls (fuel : nat) (t : Z) (now : clock) (s : FastStack.t) (l : list Z)
      (out : bytes) :
  stack_shape s l -> (length l < fuel)%nat ->
  steady t now (length l + 2) (FastStack.heap s) l ->
  exists s' l',
    FastStack.pop fuel now s out
    = Ret (match alive_calls t (FastStack.heap s) l with
           | [] => (false, out)
           | (d, n) :: _ => (true, take (Z.to_nat n) d)
           end, s')
    /\ stack_shape s' l'
    /\ (length l' <= length l)%nat
    /\ (forall o, o ∈ l' -> o ∈ l /\ same_content (FastStack.heap s) (FastStack.heap s') o)
    /\ alive_calls t (FastStack.heap s') l'
       = drop 1 (alive_calls t (FastStack.heap s) l).
Proof.
  intros Hshape Hfuel Hsteady.
  pose proof Hshape as (Hc & Hnd & Hv).
  destruct (expired_prefix_split t (FastStack.heap s) l Hv)
    as (l1 & l2 & -> & Hexp & Hfront).
  rewrite length_app in Hfuel, Hsteady.
  apply (steady_le _ _ _ (length l1 + 2)) in Hsteady; [| lia].
  apply NoDup_app in Hnd as (_ & Hdis & Hnd2).
  rewrite (alive_calls_expired_prefix t _ l1 l2 Hexp).
  destruct (top_runs_steady fuel t now s l1 l2 out Hshape Hsteady Hexp Hfront ltac:(lia))
    as ((sb & Hpop & Hsb & Hcb) & _).
  exists sb, (drop 1 l2). rewrite Hpop.
  assert (Hsub : forall o, o ∈ drop 1 l2 ->
            o ∈ l1 ++ l2 /\ same_content (FastStack.heap s) (FastStack.heap sb) o).
  { intros x Hx. split.
    - apply elem_of_app. right. destruct l2 as [| o l2]; [exact Hx | right; exact Hx].
    - apply Hcb. intros Hin. apply elem_of_app in Hin as [Hin | Hin].
      + apply (Hdis x Hin). destruct l2 as [| o l2]; [exact Hx | right; exact Hx].
      + destruct l2 as [| o l2]; [apply elem_of_nil in Hin; exact Hin |].
        simpl in Hin, Hx. apply list_elem_of_singleton in Hin as ->.
        apply NoDup_cons in Hnd2 as [Hno _]. contradiction. }
  destruct l2 as [| o l2].
  - split; [reflexivity |]. split; [exact Hsb |]. split; [simpl; lia |].
    split; [exact Hsub | reflexivity].
  - destruct Hfront as (n & Hn & Hne).
    apply Forall_app in Hv as [_ Hv2].
    apply Forall_cons in Hv2 as [(n' & Hn' & Hvalid) _].
    rewrite Hn in Hn'. injection Hn' as <-.
    assert (Halive : ShmEntry.is_alive t (ShmNode.entry n) = true)
      by (rewrite (valid_alive_or_expired t _ Hvalid), Hne; reflexivity).
    assert (Hcalls : alive_calls t (FastStack.heap s) (o :: l2)
                     = (ShmNode.data n, ShmEntry.data_size (ShmNode.entry n))
                         :: alive_calls t (FastStack.heap s) l2).
    { change (o :: l2) with ([o] ++ l2). rewrite alive_calls_app.
      unfold alive_calls at 1. simpl omap. rewrite Hn, Halive. reflexivity. }
    rewrite Hcalls. simpl front_answer. rewrite Hn.
    change (drop 1 (o :: l2)) with l2 in *.
    split; [reflexivity |]. split; [exact Hsb |].
    split; [rewrite length_app; simpl; lia |]. split; [exact Hsub |].
    change (drop 1 (?c :: ?r)) with r.
    apply alive_calls_content.
    intros x Hx. apply Hsub. exact Hx.
Qed.

(** The loop of [popAll] pops the first calls of the enumeration, as
    long as it has popped less than [max_count] elements, when no node
    of the stack expires during a call of [pop]. *)
Lemma popAll_loop_spec (fuel : nat) (t : Z) (max_count : Z) :
  forall (rounds : nat) (now : nat -> clock) (s : FastStack.t) (l : list Z)
         (out_data : list bytes) (popped : Z) (item : bytes),
    stack_shape s l -> (length l < fuel)%nat ->
    (forall i, steady t (now i) (length l + 2) (FastStack.heap s) l) ->
    (length (alive_calls t (FastStack.heap s) l) < rounds)%nat ->
    let calls := alive_calls t (FastStack.heap s) l in
    let k := Nat.min (Z.to_nat (max_count - popped)) (length calls) in
    exists s' l',
      FastStack.popAll_loop rounds fuel now s out_data max_count popped item
      = Ret (popped + Z.of_nat k,
             out_data ++ map (fun c => take (Z.to_nat c.2) c.1) (take k calls), s')
      /\ stack_shape s' l'
      /\ (length l' <= length l)%nat
      /\ alive_calls t (FastStack.heap s') l' = drop k calls.
Proof.
  induction rounds as [| rounds IH];
    intros now s l out_data popped item Hshape Hfuel Hsteady Hr;
    [simpl in Hr; lia |].
  cbv zeta. simpl FastStack.popAll_loop.
  destruct (Z.ltb_spec popped max_count) as [Hlt | Hge].
  - destruct (pop_calls fuel t (now O) s l item Hshape Hfuel (Hsteady O))
      as (s1 & l1 & Hpop & Hs1 & Hlen & Hsub & Hcalls).
    rewrite Hpop, bind_Ret.
    destruct (alive_calls t (FastStack.heap s) l) as [| [d n] rest] eqn:Hc.
    + exists s1, l1. rewrite Nat.min_0_r. simpl. rewrite Z.add_0_r, app_nil_r.
      split; [reflexivity |]. split; [exact Hs1 |]. split; [exact Hlen | exact Hcalls].
    + simpl in Hcalls, Hr. rewrite drop_0 in Hcalls.
      assert (Hsteady1 : forall i, steady t (tick now i) (length l1 + 2)
                                          (FastStack.heap s1) l1).
      { intros i. apply (steady_content t _ _ (FastStack.heap s) _ l l1 Hsub).
        apply (steady_le t _ (length l + 2)); [lia | exact (Hsteady (S i))]. }
      destruct (IH (tick now) s1 l1 (out_data ++ [take (Z.to_nat n) d]) (popped + 1) []
                  Hs1 ltac:(lia) Hsteady1 ltac:(rewrite Hcalls; lia))
        as (s' & l' & Hrun & Hs' & Hlen' & Hcalls').
      cbv zeta in Hrun, Hcalls'. rewrite Hcalls in Hrun, Hcalls'.
      exists s', l'.
      replace (Nat.min (Z.to_nat (max_count - popped)) (length ((d, n) :: rest)))
        with (S (Nat.min (Z.to_nat (max_count - (popped + 1))) (length rest)))
        by (simpl length; lia).
      split; [| split; [exact Hs' | split; [lia | exact Hcalls']]].
      refine (eq_trans Hrun _).
      f_equal. f_equal. f_equal; [lia |].
      simpl. rewrite <- app_assoc. reflexivity.
  - exists s, l. replace (Z.to_nat (max_count - popped)) with 0%nat by lia.
    simpl. rewrite Z.add_0_r, app_nil_r.
    split; [reflexivity |]. split; [exact Hshape |]. split; [lia | reflexivity].
Qed.

(** X24.  On a well-linked stack, let [calls] be the calls that an
    enumeration with a callback that never stops it makes at the instant
    [t] and [k] the least of [max_count] and their number, and take a
    call of [popAll] during which no node of the stack expires: each
    reading of the clock, in each of its calls of [pop] (which reads it
    at most twice more than there are nodes), agrees with [t] on every
    node.  [popAll] returns [k], appends to the caller's vector the
    bytes of the first [k] calls, in the order of the calls (the top of
    the stack first), and leaves a stack whose enumeration is the rest
    of the calls. *)
Theorem popAll_pops_the_first_elements_of_the_enumeration
        (rounds fuel : nat) (t : Z) (now : nat -> clock) (s : FastStack.t) (l : list Z)
        (out_data : list bytes) (max_count : Z) :
  stack_shape s l -> (length l < fuel)%nat -> (length l < rounds)%nat ->
  (forall i, steady t (now i) (length l + 2) (FastStack.heap s) l) ->
  exists calls s',
    FastStack.forEach fuel t s always2 = Ret calls
    /\ let k := Nat.min (Z.to_nat max_count) (length calls) in
       FastStack.popAll rounds fuel now s out_data max_count
       = Ret (Z.of_nat k,
              out_data ++ map (fun c => take (Z.to_nat c.2) c.1) (take k calls), s')
       /\ FastStack.forEach fuel t s' always2 = Ret (drop k calls).
Proof.
  intros Hshape Hfuel Hrounds Hsteady.
  rewrite (FastStack_forEach_shape fuel t s l Hshape Hfuel).
  pose proof (alive_calls_length t (FastStack.heap s) l) as Hlen.
  destruct (popAll_loop_spec fuel t max_count rounds now s l out_data 0 []
              Hshape Hfuel Hsteady ltac:(lia))
    as (s' & l' & Hrun & Hs' & Hlen' & Hcalls').
  cbv zeta in Hrun, Hcalls'. rewrite Z.sub_0_r, Z.add_0_l in Hrun.
  rewrite Z.sub_0_r in Hcalls'.
  eexists _, s'. split; [reflexivity |]. cbv zeta.
  split; [exact Hrun |].
  rewrite (FastStack_forEach_shape fuel t s' l' Hs') by lia.
  rewrite Hcalls'. reflexivity.
Qed.

(** Each call of [pop] starts a second after the one before, and its
    clock advances by a nanosecond at each reading. *)
Lemma popAll_pops_the_first_elements_of_the_enumeration_witness :
  exists calls s',
    FastStack.forEach 8 200 stack_state always2 = Ret calls
    /\ let k := Nat.min (Z.to_nat 5) (length calls) in
       FastStack.popAll 4 8 a_second_apart stack_state [] 5
       = Ret (Z.of_nat k,
              [] ++ map (fun c => take (Z.to_nat c.2) c.1) (take k calls), s')
       /\ FastStack.forEach 8 200 s' always2 = Ret (drop k calls).
Proof.
  assert (Hst : forall i, steady 200 (a_second_apart i) (length [64] + 2)
                                 (FastStack.heap stack_state) [64]).
  { intros i k o n _ Ho Hn. apply list_elem_of_singleton in Ho as ->.
    vm_compute in Hn. injection Hn as <-. split; reflexivity. }
  exact (popAll_pops_the_first_elements_of_the_enumeration
           4 8 200 a_second_apart stack_state [64] [] 5
           stack_state_shape ltac:(simpl; lia) ltac:(simpl; lia) Hst).
Defined.

(** The loop of the stack's [clear] frees the nodes of the chain and no
    other, and leaves the header, the tag and the statistics as they
    were. *)
Lemma FastStack_clear_loop_spec (l : list Z) :
  forall (fuel : nat) (s : FastStack.t) (p : Z),
    chain ShmNode.next_offset (FastStack.heap s) p l -> NoDup l ->
    (length l < fuel)%nat ->
    exists s',
      FastStack.clear_loop fuel s p = Ret s'
      /\ (forall o, o ∈ l -> FastStack.heap s' !! o = None)
      /\ (forall o, o ∉ l -> FastStack.heap s' !! o = FastStack.heap s !! o)
      /\ FastStack.header s' = FastStack.header s
      /\ FastStack.stats s' = FastStack.stats s
      /\ FastStack.aba_tag s' = FastStack.aba_tag s.
Proof.
  induction l as [| o l IH]; intros fuel s p Hc Hnd Hf;
    (destruct fuel as [| fuel]; [simpl in Hf; lia |]).
  - simpl in Hc. exists s. split; [loop_end Hc; reflexivity |].
    split; [intros o Ho; apply elem_of_nil in Ho; contradiction |].
    repeat split; reflexivity.
  - destruct Hc as (-> & Hp & n & Hn & Hc).
    apply NoDup_cons in Hnd as [Hno Hnd].
    set (sa := FastStack.free_node o
                 (FastStack.set_heap (<[o := FastStack.mark_deleted n]> (FastStack.heap s)) s)).
    destruct (IH fuel sa (ShmNode.next_offset n))
      as (s' & Hrun & Hin & Hout & Hhd & Hst & Htag).
    + apply (chain_frame _ (FastStack.heap s)); [| exact Hc].
      intros x Hx. subst sa. ssimpl.
      rewrite lookup_delete_ne, lookup_insert_ne; [reflexivity | |];
        intros ->; contradiction.
    + exact Hnd.
    + simpl in Hf. lia.
    + exists s'. split; [| split; [| split; [| split; [| split]]]].
      * loop_round Hp Hn. rewrite (update_Some _ _ _ _ Hn), bind_Ret. exact Hrun.
      * intros x Hx. apply elem_of_cons in Hx as [-> | Hx]; [| apply Hin; exact Hx].
        rewrite (Hout o Hno). subst sa. ssimpl. apply lookup_delete_eq.
      * intros x Hx. apply not_elem_of_cons in Hx as [Hne Hx].
        rewrite (Hout x Hx). subst sa. ssimpl.
        rewrite lookup_delete_ne, lookup_insert_ne by congruence. reflexivity.
      * rewrite Hhd. reflexivity.
      * rewrite Hst. reflexivity.
      * rewrite Htag. reflexivity.
Qed.

(** X25.  On a well-linked stack, [clear] frees every node of the chain
    and no other, sets the top to the null offset, stores 0 as the size
    in the header and in the statistics and adds one to the tag.  On the
    stack it leaves, [pop] and [peek] return [false], [search] returns
    -1, an enumeration makes no call, the size is 0 and [isEmpty] is
    [true], at every instant and whatever the clock reads. *)
Theorem clear_empties_the_stack
        (fuel : nat) (now : Z) (s : FastStack.t) (l : list Z) :
  stack_shape s l -> (length l < fuel)%nat ->
  exists s',
    FastStack.clear fuel now s = Ret s'
    /\ stack_shape s' []
    /\ (forall o, o ∈ l -> FastStack.heap s' !! o = None)
    /\ (forall o, o ∉ l -> FastStack.heap s' !! o = FastStack.heap s !! o)
    /\ DequeHeader.size (FastStack.header s') = 0
    /\ CollectionStats.size (FastStack.stats s') = 0
    /\ FastStack.aba_tag s' = wrap64 (FastStack.aba_tag s + 1)
    /\ forall (fuel2 : nat) (t : Z) (readings : clock) (out : bytes) (data : buffer),
        (0 < fuel2)%nat ->
        (exists s1, FastStack.pop fuel2 readings s' out = Ret (false, out, s1))
        /\ (exists s1, FastStack.peek fuel2 readings s' out = Ret (false, out, s1))
        /\ FastStack.search fuel2 t s' data = Ret (-1)
        /\ FastStack.forEach fuel2 t s' always2 = Ret []
        /\ FastStack.size fuel2 t s' = Ret 0
        /\ FastStack.isEmpty fuel2 t s' = Ret true.
Proof.
  intros (Hc & Hnd & _) Hfuel.
  destruct (FastStack_clear_loop_spec l fuel s _ Hc Hnd Hfuel)
    as (s1 & Hrun & Hin & Hout & Hhd & Hst & Htag).
  unfold FastStack.clear. rewrite Hrun, bind_Ret.
  eexists. split; [reflexivity |]. unfold stack_shape. ssimpl.
  split; [split; [reflexivity | split; constructor] |].
  split; [exact Hin |]. split; [exact Hout |].
  split; [reflexivity |]. split; [reflexivity |].
  split; [rewrite Htag; reflexivity |].
  intros fuel2 t readings out data Hf2. destruct fuel2 as [| f2]; [lia |].
  split; [eexists; reflexivity |]. split; [eexists; reflexivity |].
  split; [| repeat split; reflexivity].
  unfold FastStack.search. destruct data as [bs |]; [| reflexivity].
  destruct (size_of bs =? 0); reflexivity.
Qed.

Lemma clear_empties_the_stack_witness :
  exists s',
    FastStack.clear 8 300 stack_state = Ret s'
    /\ FastStack.heap s' !! 64 = None
    /\ exists s1, FastStack.pop 1 (running_from 300) s' [] = Ret (false, [], s1).
Proof.
  destruct (clear_empties_the_stack 8 300 stack_state [64]
              stack_state_shape ltac:(simpl; lia))
    as (s' & Hrun & _ & Hfreed & _ & _ & _ & _ & Hafter).
  exists s'. split; [exact Hrun |].
  split; [apply Hfreed; left |].
  destruct (Hafter 1%nat 300 (running_from 300) [] None ltac:(lia)) as [Hpop _].
  exact Hpop.
Defined.

(** * The set *)

Ltac tsimpl :=
  cbn [FastSet.heap FastSet.header FastSet.buckets FastSet.stats
       FastSet.set_heap FastSet.set_header FastSet.set_buckets FastSet.set_stats
       FastSet.store_bucket
       HashTableHeader.base HashTableHeader.bucket_count HashTableHeader.set_base
       HashTableHeader.size
       ShmBucket.head_offset ShmBucket.set_head ShmBucket.size_fetch_add
       ShmBucket.size_fetch_sub ShmBucket.size_store
       CollectionHeader.size CollectionHeader.modified_at
       CollectionHeader.size_store CollectionHeader.size_fetch_sub
       CollectionHeader.size_fetch_add CollectionHeader.set_modified_at].

(** The loop of the set's [contains] over a chain. *)
Lemma FastSet_contains_loop_spec (now : Z) (h : gmap Z ShmNode.t) (data : bytes)
      (l : list Z) :
  forall (fuel : nat) (p : Z),
    chain ShmNode.next_offset h p l -> (length l < fuel)%nat ->
    FastSet.contains_loop fuel now h data (compute_hash data) p
    = Ret (some_node_matches now h data l).
Proof.
  induction l as [| o l IH]; intros fuel p Hc Hf;
    (destruct fuel as [| fuel]; [simpl in Hf; lia |]).
  - simpl in Hc. loop_end Hc. reflexivity.
  - destruct Hc as (-> & Hp & n & Hn & Hc). simpl in Hf.
    loop_round Hp Hn. rewrite Hn. unfold FastQueue.node_matches.
    destruct (_ && _ && _ && _); [reflexivity |].
    rewrite (IH fuel _ Hc) by lia. reflexivity.
Qed.

(** [contains] answers whether a record of the chain of the bucket of
    [data] passes the comparison. *)
Lemma FastSet_contains_chain (fuel : nat) (now : Z) (s : FastSet.t) (l : list Z)
      (data : bytes) :
  set_chain s (FastSet.get_bucket s (compute_hash data)) l ->
  (length l < fuel)%nat -> size_of data <> 0 ->
  exists s', FastSet.contains fuel now s (Some data)
             = Ret (some_node_matches now (FastSet.heap s) data l, s').
Proof.
  intros (b & Hb & Hc & _) Hf Hsz. unfold FastSet.contains.
  rewrite (size_of_eqb_0 data Hsz). cbv zeta.
  unfold FastSet.bucket_at. rewrite Hb, bind_Ret.
  rewrite (FastSet_contains_loop_spec now _ data l fuel _ Hc Hf), bind_Ret.
  destruct (some_node_matches now (FastSet.heap s) data l); eexists; reflexivity.
Qed.

(** [find_in_bucket] on a chain in which no record passes the
    comparison. *)
Lemma FastSet_find_loop_absent (now : Z) (h : gmap Z ShmNode.t) (data : bytes)
      (l : list Z) :
  forall (fuel : nat) (p : Z) (prev : option Z),
    chain ShmNode.next_offset h p l ->
    some_node_matches now h data l = false ->
    (length l < fuel)%nat ->
    FastSet.find_loop fuel now h data (compute_hash data) p prev
    = Ret (None, from_option Some prev (last_passed l)).
Proof.
  induction l as [| o l IH]; intros fuel p prev Hc Habs Hf;
    (destruct fuel as [| fuel]; [simpl in Hf; lia |]).
  - simpl in Hc. loop_end Hc. reflexivity.
  - destruct Hc as (-> & Hp & n & Hn & Hc).
    simpl in Habs. rewrite Hn in Habs. apply orb_false_iff in Habs as [Hno Habs].
    unfold FastQueue.node_matches in Hno.
    loop_round Hp Hn. rewrite Hno.
    rewrite (IH fuel _ (Some o) Hc Habs) by (simpl in Hf; lia).
    rewrite last_passed_snoc. reflexivity.
Qed.

(** [find_in_bucket] on a chain whose first record that passes the
    comparison is at [e]. *)
Lemma FastSet_find_loop_found (now : Z) (h : gmap Z ShmNode.t) (data : bytes)
      (l1 : list Z) (e : Z) (l2 : list Z) (n : ShmNode.t) :
  forall (fuel : nat) (p : Z) (prev : option Z),
    chain ShmNode.next_offset h p (l1 ++ e :: l2) ->
    some_node_matches now h data l1 = false ->
    h !! e = Some n ->
    FastQueue.node_matches now n data (compute_hash data) = true ->
    (length l1 < fuel)%nat ->
    FastSet.find_loop fuel now h data (compute_hash data) p prev
    = Ret (Some e, from_option Some prev (last_passed l1)).
Proof.
  induction l1 as [| o l1 IH]; intros fuel p prev Hc Habs He Hm Hf;
    (destruct fuel as [| fuel]; [simpl in Hf; lia |]).
  - destruct Hc as (-> & Hp & n' & Hn & Hc).
    unfold FastQueue.node_matches in Hm.
    loop_round Hp He. rewrite Hm. reflexivity.
  - destruct Hc as (-> & Hp & n' & Hn & Hc).
    simpl in Habs. rewrite Hn in Habs. apply orb_false_iff in Habs as [Hno Habs].
    unfold FastQueue.node_matches in Hno.
    loop_round Hp Hn. rewrite Hno.
    rewrite (IH fuel _ (Some o) Hc Habs He Hm) by (simpl in Hf; lia).
    rewrite last_passed_snoc. reflexivity.
Qed.

(** A chain holds no record that passes the comparison, or has a first
    one. *)
Lemma first_node_match_split (now : Z) (h : gmap Z ShmNode.t) (data : bytes)
      (p : Z) (l : list Z) :
  chain ShmNode.next_offset h p l ->
  some_node_matches now h data l = false
  \/ exists l1 e l2 n,
       l = l1 ++ e :: l2
       /\ some_node_matches now h data l1 = false
       /\ h !! e = Some n
       /\ FastQueue.node_matches now n data (compute_hash data) = true.
Proof.
  revert p. induction l as [| o l IH]; intros p Hc; [left; reflexivity |].
  destruct Hc as (-> & Hp & n & Hn & Hc).
  destruct (FastQueue.node_matches now n data (compute_hash data)) eqn:Hm.
  - right. exists [], o, l, n. repeat split; assumption.
  - destruct (IH _ Hc) as [Habs | (l1 & e & l2 & ne & -> & Habs & He & Hme)].
    + left. simpl. rewrite Hn, Hm. exact Habs.
    + right. exists (o :: l1), e, l2, ne. split; [reflexivity |].
      split; [simpl; rewrite Hn, Hm; exact Habs |]. split; assumption.
Qed.

Lemma some_node_matches_content (now : Z) (h h' : gmap Z ShmNode.t) (data : bytes)
      (l : list Z) :
  (forall o, o ∈ l -> same_content h h' o) ->
  some_node_matches now h' data l = some_node_matches now h data l.
Proof.
  induction l as [| o l IH]; intros Hc; [reflexivity |].
  simpl. rewrite IH by (intros o' Ho'; apply Hc; right; exact Ho').
  f_equal. destruct (Hc o ltac:(left)) as [He Hd].
  destruct (h !! o) as [n |], (h' !! o) as [n' |]; simpl in He, Hd;
    try discriminate; try reflexivity.
  injection He as He. injection Hd as Hd.
  unfold FastQueue.node_matches. rewrite He, Hd. reflexivity.
Qed.

(** X26.  On a set whose bucket for [data] heads a chain of records,
    with an allocator that returns a free block, [add] of a payload that
    is not empty and has less than 2^32 bytes.  Let [contained] be the
    answer of [contains] at the first reading of the clock, at which
    [find_in_bucket] makes its tests.  When it is [false], [add]
    obtains a block, links the new node at the head of the chain, adds
    one to the stored size and returns [true], and [contains] of the
    payload returns [true] at every instant at which the new node is
    alive.  When it is [true], [find_in_bucket] returns the first
    record [e] of the chain that holds the payload and is alive at that
    reading, and [add] tests it again at the second reading: if it is
    still alive, [add] returns [false] and leaves the set as it was; if
    it has expired in between, [add] returns [true] after giving the
    record the new time to live, counted from the third reading, in
    place: no block is obtained, and the chains and the header are as
    they were. *)
Theorem add_returns_true_when_the_element_was_not_contained
        (fuel : nat) (alloc : Z -> option Z) (now : clock) (s : FastSet.t) (l : list Z)
        (data : bytes) (ttl off : Z) :
  set_chain s (FastSet.get_bucket s (compute_hash data)) l ->
  (length l + 1 < fuel)%nat ->
  size_of data <> 0 -> size_of data < 2 ^ 32 ->
  alloc (ShmNode.total_size (size_of data)) = Some off ->
  0 <= off -> FastSet.heap s !! off = None ->
  exists contained s0,
    FastSet.contains fuel (now O) s (Some data) = Ret (contained, s0)
    /\ if contained then
         exists l1 e l2 n,
           l = l1 ++ e :: l2
           /\ some_node_matches (now O) (FastSet.heap s) data l1 = false
           /\ FastSet.heap s !! e = Some n
           /\ FastQueue.node_matches (now O) n data (compute_hash data) = true
           /\ FastSet.add fuel alloc now s (Some data) ttl
              = Ret (if ShmEntry.is_alive (now 1%nat) (ShmNode.entry n)
                     then (false, s)
                     else (true,
                           FastSet.set_stats
                             (CollectionStats.write_fetch_add 1 (FastSet.stats s))
                             (FastSet.set_heap
                                (<[e := ShmNode.set_entry
                                          (ShmEntry.mark_valid
                                             (ShmEntry.set_ttl (now 2%nat) ttl
                                                               (ShmNode.entry n))) n]>
                                   (FastSet.heap s)) s)))
       else
         exists s',
           FastSet.add fuel alloc now s (Some data) ttl = Ret (true, s')
           /\ set_chain s' (FastSet.get_bucket s' (compute_hash data)) (off :: l)
           /\ HashTableHeader.size (FastSet.header s')
              = wrap64 (HashTableHeader.size (FastSet.header s) + 1)
           /\ forall t,
               ShmEntry.is_alive t
                 (ShmNode.entry
                    (SerializationUtil.copy_to_node (now 2%nat) ShmNode.init data ttl))
               = true ->
               exists s1, FastSet.contains fuel t s' (Some data) = Ret (true, s1).
Proof.
  intros Hchain Hfuel Hsz Hlt Halloc Hoff Hfree.
  destruct (FastSet_contains_chain fuel (now O) s l data Hchain ltac:(lia) Hsz)
    as (s0 & Hcont).
  pose proof Hchain as (b & Hb & Hc & Hnd).
  assert (Hnotin : off ∉ l).
  { intros Hin. destruct (chain_allocated _ _ _ _ off Hc Hin) as [n Hn]. congruence. }
  exists (some_node_matches (now O) (FastSet.heap s) data l), s0.
  split; [exact Hcont |].
  unfold FastSet.add. rewrite (size_of_eqb_0 data Hsz). cbv zeta.
  unfold FastSet.bucket_at. rewrite Hb, bind_Ret. unfold FastSet.find_in_bucket.
  destruct (first_node_match_split (now O) _ data _ l Hc)
    as [Habs | (l1 & e & l2 & n & -> & Habs & He & Hm)].
  - rewrite (FastSet_find_loop_absent (now O) _ data l fuel _ None Hc Habs) by lia.
    rewrite bind_Ret, Habs.
    unfold FastSet.allocate_node, manager_allocate. rewrite Halloc, !bind_Ret.
    rewrite (update_Some _ _ _ _ (lookup_insert_eq _ off _)), bind_Ret.
    rewrite (update_Some _ _ _ _ (lookup_insert_eq _ off _)), bind_Ret.
    rewrite (update_Some _ _ _ _ (lookup_insert_eq _ off _)), bind_Ret.
    rewrite !insert_insert_eq.
    set (nn := ShmNode.set_prev NULL_OFFSET _).
    assert (Hnn : nn = new_node (now 2%nat) data ttl NULL_OFFSET (ShmBucket.head_offset b))
      by reflexivity.
    assert (Hh5 : exists h5,
               (if 0 <=? ShmBucket.head_offset b
                then update (ShmBucket.head_offset b) (ShmNode.set_prev off)
                            (<[off := nn]> (FastSet.heap s))
                else Ret (<[off := nn]> (FastSet.heap s))) = Ret h5
               /\ h5 !! off = Some nn
               /\ (forall o, o <> off -> same_content (FastSet.heap s) h5 o)
               /\ (forall o, o <> off ->
                             ShmNode.next_offset <$> h5 !! o
                             = ShmNode.next_offset <$> FastSet.heap s !! o)).
    { destruct l as [| o1 l1].
      - simpl in Hc.
        replace (0 <=? _) with false by (symmetry; apply Z.leb_gt; exact Hc).
        eexists. split; [reflexivity |]. split; [apply lookup_insert_eq |].
        split; intros o Hne; [split |]; rewrite lookup_insert_ne by congruence;
          reflexivity.
      - destruct Hc as (Hhd & Hp & n1 & Hn1 & _).
        assert (Hne1 : o1 <> off) by (intros ->; apply Hnotin; left).
        rewrite Hhd.
        replace (0 <=? o1) with true by (symmetry; apply Z.leb_le; exact Hp).
        erewrite update_Some by (rewrite lookup_insert_ne by congruence; exact Hn1).
        eexists. split; [reflexivity |].
        split; [rewrite lookup_insert_ne by congruence; apply lookup_insert_eq |].
        split; intros o Hne; [split |];
          (destruct (decide (o = o1)) as [-> | Hno];
           [rewrite lookup_insert_eq, Hn1; reflexivity
           | rewrite !lookup_insert_ne by congruence; reflexivity]). }
    destruct Hh5 as (h5 & Hrun5 & Hoff5 & Hcont5 & Hnext5).
    rewrite Hrun5, bind_Ret.
    eexists. split; [reflexivity |].
    assert (Hshape' : set_chain
              (FastSet.store_bucket (FastSet.get_bucket s (compute_hash data))
                 (ShmBucket.size_fetch_add 1 (ShmBucket.set_head off b))
                 (FastSet.set_heap h5 s))
              (FastSet.get_bucket s (compute_hash data)) (off :: l)).
    { exists (ShmBucket.size_fetch_add 1 (ShmBucket.set_head off b)). tsimpl.
      split; [apply list_lookup_insert_eq; apply (lookup_lt_Some _ _ _ Hb) |].
      split; [| apply NoDup_cons; split; assumption].
      split; [reflexivity |]. split; [exact Hoff |].
      exists nn. split; [exact Hoff5 |].
      rewrite Hnn. change (ShmNode.next_offset (new_node (now 2%nat) data ttl NULL_OFFSET _))
        with (ShmBucket.head_offset b).
      apply (chain_same_next _ (FastSet.heap s)); [| exact Hc].
      intros o Ho. apply Hnext5. intros ->. contradiction. }
    split; [exact Hshape' |]. split; [reflexivity |].
    intros t Halive.
    match goal with
    | |- exists s1, FastSet.contains fuel t ?s' _ = _ =>
        destruct (FastSet_contains_chain fuel t s' (off :: l) data) as (s1 & Hrun1);
          [exact Hshape' | simpl; lia | exact Hsz |]; exists s1; rewrite Hrun1
    end.
    tsimpl. f_equal. f_equal.
    change (off :: l) with ([off] ++ l). rewrite some_node_matches_app.
    replace (some_node_matches t h5 data [off]) with true; [reflexivity |].
    unfold some_node_matches. simpl. rewrite Hoff5, orb_false_r, Hnn.
    rewrite new_node_matches by exact Hlt. symmetry. exact Halive.
  - assert (Hall : some_node_matches (now O) (FastSet.heap s) data (l1 ++ e :: l2) = true).
    { rewrite some_node_matches_app, Habs. simpl. rewrite He, Hm. reflexivity. }
    rewrite (FastSet_find_loop_found (now O) _ data l1 e l2 n fuel _ None Hc Habs He Hm)
      by (rewrite length_app in Hfuel; lia).
    rewrite bind_Ret, (deref_Some _ _ _ He), bind_Ret, Hall.
    exists l1, e, l2, n. split; [reflexivity |]. split; [exact Habs |].
    split; [exact He |]. split; [exact Hm |].
    destruct (ShmEntry.is_alive (now 1%nat) (ShmNode.entry n)); [reflexivity |].
    rewrite (update_Some _ _ _ _ He), bind_Ret. reflexivity.
Qed.

Lemma set_x1_chain :
  set_chain set_x1 (FastSet.get_bucket set_x1 (compute_hash (payload "x"))) [64].
Proof.
  eexists. split; [vm_compute; reflexivity |]. split; [concrete_shape | concrete_nodup].
Qed.

(** ["x"] is added to a new set, which does not contain it, and is
    contained afterwards.  It is added again to the set in which it
    expires at 1000000100, in a call whose first reading of the clock is
    one nanosecond earlier and whose later readings are 1000000100:
    [add] returns [true] and the record at offset 64 is the only one,
    with the new time to live. *)
Lemma add_returns_true_when_the_element_was_not_contained_witness :
  (exists s' s1,
      FastSet.add 8 (fun _ => Some 64) (running_from 100) (FastSet.create 100 4)
                  (Some (payload "x")) 60
      = Ret (true, s')
      /\ FastSet.contains 8 200 s' (Some (payload "x")) = Ret (true, s1))
  /\ (exists s' n,
         FastSet.add 8 (fun _ => Some 128) (expiring_after 1) set_x1
                     (Some (payload "x")) TTL_INFINITE
         = Ret (true, s')
         /\ size (FastSet.heap s') = 1%nat
         /\ FastSet.heap s' !! 64 = Some n
         /\ ShmEntry.ttl_seconds (ShmNode.entry n) = TTL_INFINITE
         /\ FastSet.buckets s' = FastSet.buckets set_x1
         /\ FastSet.header s' = FastSet.header set_x1).
Proof.
  split.
  - assert (Hchain : set_chain (FastSet.create 100 4)
                       (FastSet.get_bucket (FastSet.create 100 4)
                          (compute_hash (payload "x"))) []).
    { eexists. split; [vm_compute; reflexivity |].
      split; [vm_compute; reflexivity | constructor]. }
    destruct (add_returns_true_when_the_element_was_not_contained
                8 (fun _ => Some 64) (running_from 100) (FastSet.create 100 4) []
                (payload "x") 60 64
                Hchain ltac:(simpl; lia) ltac:(vm_compute; discriminate)
                ltac:(vm_compute; reflexivity) eq_refl ltac:(lia)
                ltac:(vm_compute; reflexivity))
      as (contained & s0 & Hcont & Hcases).
    assert (Hc : FastSet.contains 8 (running_from 100 O) (FastSet.create 100 4)
                                  (Some (payload "x"))
                 = Ret (false,
                        FastSet.set_stats
                          (CollectionStats.read_fetch_add 1
                             (CollectionStats.miss_fetch_add 1
                                (FastSet.stats (FastSet.create 100 4))))
                          (FastSet.create 100 4)))
      by (vm_compute; reflexivity).
    pose proof (eq_trans (eq_sym Hc) Hcont) as Heq.
    injection Heq as <- _.
    destruct Hcases as (s' & Hadd & _ & _ & Hafter).
    destruct (Hafter 200 ltac:(vm_compute; reflexivity)) as (s1 & Hrun).
    exists s', s1. split; [exact Hadd | exact Hrun].
  - destruct (add_returns_true_when_the_element_was_not_contained
                8 (fun _ => Some 128) (expiring_after 1) set_x1 [64]
                (payload "x") TTL_INFINITE 128
                set_x1_chain ltac:(simpl; lia) ltac:(vm_compute; discriminate)
                ltac:(vm_compute; reflexivity) eq_refl ltac:(lia)
                ltac:(vm_compute; reflexivity))
      as (contained & s0 & Hcont & Hcases).
    assert (Hc : exists s1, FastSet.contains 8 (expiring_after 1 O) set_x1
                                             (Some (payload "x"))
                            = Ret (true, s1))
      by (eexists; vm_compute; reflexivity).
    destruct Hc as (s1 & Hc).
    pose proof (eq_trans (eq_sym Hc) Hcont) as Heq.
    injection Heq as <- _.
    destruct Hcases as (l1 & e & l2 & n & Hl & Habs & He & Hm & Hadd).
    assert (Hl1 : l1 = [] /\ e = 64).
    { destruct l1 as [| a [| c l1]]; simpl in Hl.
      - injection Hl as <- _. split; reflexivity.
      - injection Hl as _ Hl. discriminate Hl.
      - injection Hl as _ Hl. discriminate Hl. }
    destruct Hl1 as [-> ->].
    vm_compute in He. injection He as <-.
    eexists. eexists. split; [exact Hadd |].
    split; [vm_compute; reflexivity |].
    split; [vm_compute; reflexivity |].
    split; [reflexivity |]. split; reflexivity.
Defined.

(** A chain from which the record at [e] is unlinked: the [next] of its
    predecessor, or the head, becomes its successor. *)
Lemma chain_unlink (h h' : gmap Z ShmNode.t) (l1 : list Z) (e : Z) (l2 : list Z)
      (n : ShmNode.t) :
  forall p,
    chain ShmNode.next_offset h p (l1 ++ e :: l2) -> NoDup (l1 ++ e :: l2) ->
    h !! e = Some n ->
    (forall x, x ∈ l1 ++ l2 -> last l1 <> Some x ->
               ShmNode.next_offset <$> h' !! x = ShmNode.next_offset <$> h !! x) ->
    (forall j, last l1 = Some j ->
               ShmNode.next_offset <$> h' !! j = Some (ShmNode.next_offset n)) ->
    chain ShmNode.next_offset h' (match l1 with [] => ShmNode.next_offset n | _ => p end)
          (l1 ++ l2).
Proof.
  induction l1 as [| a l1 IH]; intros p Hc Hnd He Hsame Hlast.
  - destruct Hc as (-> & Hp & n' & Hn' & Hc). rewrite He in Hn'. injection Hn' as <-.
    apply (chain_same_next _ h); [| exact Hc].
    intros x Hx. apply Hsame; [exact Hx | discriminate].
  - destruct Hc as (-> & Hp & na & Hna & Hc).
    change ((a :: l1) ++ e :: l2) with (a :: (l1 ++ e :: l2)) in Hnd.
    apply NoDup_cons in Hnd as [Hnotin Hnd].
    split; [reflexivity |]. split; [exact Hp |].
    destruct l1 as [| b l1].
    + pose proof (Hlast a eq_refl) as Ha.
      destruct (h' !! a) as [na' |] eqn:Hna'; [| discriminate].
      injection Ha as Ha. exists na'. split; [reflexivity |]. rewrite Ha.
      destruct Hc as (_ & _ & n' & Hn' & Hc). rewrite He in Hn'. injection Hn' as <-.
      apply (chain_same_next _ h); [| exact Hc].
      intros x Hx. apply Hsame; [right; exact Hx |].
      intros [= <-]. apply Hnotin. right. exact Hx.
    + assert (Hla : last (a :: b :: l1) = last (b :: l1)) by reflexivity.
      assert (Hnl : last (a :: b :: l1) <> Some a).
      { rewrite Hla. intros Hl. apply Hnotin.
        apply elem_of_app. left. apply last_Some_elem_of. exact Hl. }
      pose proof (Hsame a ltac:(left) Hnl) as Ha. rewrite Hna in Ha. simpl in Ha.
      destruct (h' !! a) as [na' |] eqn:Hna'; [| discriminate].
      injection Ha as Ha. exists na'. split; [reflexivity |]. rewrite Ha.
      apply (IH _ Hc Hnd He).
      * intros x Hx Hl. apply Hsame; [right; exact Hx | rewrite Hla; exact Hl].
      * intros j Hj. apply Hlast. rewrite Hla. exact Hj.
Qed.

Lemma chain_app_inv {A : Type} (next : A -> Z) (h : gmap Z A) (l1 l2 : list Z) :
  forall p, chain next h p (l1 ++ l2) -> exists q, chain next h q l2.
Proof.
  induction l1 as [| a l1 IH]; intros p Hc; [exists p; exact Hc |].
  destruct Hc as (_ & _ & n & _ & Hc). exact (IH _ Hc).
Qed.

(** The stores of an unlinking: the [next] of the predecessor (when the
    head is not the node unlinked), the [prev] of the successor (when
    there is one), the mark and the release of the node. *)
Lemma relink_heap {B : Type} (h : gmap Z ShmNode.t) (e : Z) (n : ShmNode.t)
      (prev : option Z) (next pv : Z) (b b0 : ShmBucket.t)
      (k : gmap Z ShmNode.t -> ShmBucket.t -> result B) :
  h !! e = Some n ->
  (forall j, prev = Some j -> j <> e /\ is_Some (h !! j)) ->
  (0 <= next -> next <> e /\ is_Some (h !! next) /\ prev <> Some next) ->
  exists h4,
    ('(h1, bucket1) ← match prev with
                      | Some p => h' ← update p (ShmNode.set_next next) h; Ret (h', b)
                      | None => Ret (h, b0)
                      end;
     h2 ← (if 0 <=? next then update next (ShmNode.set_prev pv) h1 else Ret h1);
     h3 ← update e FastSet.mark_deleted h2;
     k (FastSet.free_node e h3) bucket1)
    = k h4 (match prev with Some _ => b | None => b0 end)
    /\ h4 !! e = None
    /\ (forall x, x <> e -> same_content h h4 x)
    /\ (forall x, x <> e -> prev <> Some x ->
                  ShmNode.next_offset <$> h4 !! x = ShmNode.next_offset <$> h !! x)
    /\ (forall j, prev = Some j -> ShmNode.next_offset <$> h4 !! j = Some next).
Proof.
  intros He Hprev Hnext.
  assert (H1 : exists h1,
             match prev with
             | Some p => h' ← update p (ShmNode.set_next next) h; Ret (h', b)
             | None => Ret (h, b0)
             end = Ret (h1, match prev with Some _ => b | None => b0 end)
             /\ h1 !! e = Some n
             /\ (forall x, same_content h h1 x)
             /\ (forall x, prev <> Some x ->
                           h1 !! x = h !! x)
             /\ (forall j, prev = Some j ->
                           ShmNode.next_offset <$> h1 !! j = Some next)).
  { destruct prev as [j |].
    - destruct (Hprev j eq_refl) as [Hje [nj Hnj]].
      exists (<[j := ShmNode.set_next next nj]> h).
      split; [rewrite (update_Some _ _ _ _ Hnj), bind_Ret; reflexivity |].
      split; [rewrite lookup_insert_ne by congruence; exact He |].
      split; [intros x; apply (same_content_set_next _ j x next nj Hnj) |].
      split.
      + intros x Hx. apply lookup_insert_ne. congruence.
      + intros j' [= <-]. rewrite lookup_insert_eq. reflexivity.
    - exists h. split; [reflexivity |]. split; [exact He |].
      split; [intros x; apply same_content_refl |].
      split; [reflexivity | discriminate]. }
  destruct H1 as (h1 & -> & He1 & Hc1 & Hk1 & Hj1). rewrite bind_Ret.
  assert (H2 : exists h2,
             (if 0 <=? next then update next (ShmNode.set_prev pv) h1 else Ret h1) = Ret h2
             /\ h2 !! e = Some n
             /\ (forall x, same_content h1 h2 x)
             /\ (forall x, ShmNode.next_offset <$> h2 !! x
                           = ShmNode.next_offset <$> h1 !! x)).
  { destruct (Z.leb_spec 0 next) as [Hle | Hgt].
    - destruct (Hnext Hle) as (Hne & [n2 Hn2] & Hnp).
      assert (Hn21 : h1 !! next = Some n2) by (rewrite (Hk1 next Hnp); exact Hn2).
      exists (<[next := ShmNode.set_prev pv n2]> h1).
      split; [apply update_Some; exact Hn21 |].
      split; [rewrite lookup_insert_ne by congruence; exact He1 |].
      split; [intros x; apply (same_content_set_prev _ next x pv n2 Hn21) |].
      intros x. destruct (decide (x = next)) as [-> | Hx].
      + rewrite lookup_insert_eq, Hn21. reflexivity.
      + rewrite lookup_insert_ne by congruence. reflexivity.
    - exists h1. split; [reflexivity |]. split; [exact He1 |].
      split; [intros x; apply same_content_refl | reflexivity]. }
  destruct H2 as (h2 & -> & He2 & Hc2 & Hn2). rewrite bind_Ret.
  rewrite (update_Some _ _ _ _ He2), bind_Ret. unfold FastSet.free_node.
  eexists. split; [reflexivity |].
  split; [apply lookup_delete_eq |].
  split; [| split].
  - intros x Hx. eapply same_content_trans; [apply Hc1 |].
    eapply same_content_trans; [apply Hc2 |]. apply same_content_free. exact Hx.
  - intros x Hx Hp.
    rewrite lookup_delete_ne, lookup_insert_ne by congruence.
    rewrite Hn2, (Hk1 x Hp). reflexivity.
  - intros j Hj. destruct (Hprev j Hj) as [Hje _].
    rewrite lookup_delete_ne, lookup_insert_ne by congruence.
    rewrite Hn2. apply Hj1. exact Hj.
Qed.

(** [remove] of an element that the chain of its bucket holds. *)
Lemma FastSet_remove_found (fuel : nat) (now : Z) (s : FastSet.t) (data : bytes)
      (l1 : list Z) (e : Z) (l2 : list Z) (n : ShmNode.t) :
  set_chain s (FastSet.get_bucket s (compute_hash data)) (l1 ++ e :: l2) ->
  some_node_matches now (FastSet.heap s) data l1 = false ->
  FastSet.heap s !! e = Some n ->
  FastQueue.node_matches now n data (compute_hash data) = true ->
  (length l1 < fuel)%nat -> size_of data <> 0 ->
  exists s',
    FastSet.remove fuel now s (Some data) = Ret (true, s')
    /\ set_chain s' (FastSet.get_bucket s' (compute_hash data)) (l1 ++ l2)
    /\ FastSet.heap s' !! e = None
    /\ (forall o, o <> e -> same_content (FastSet.heap s) (FastSet.heap s') o)
    /\ HashTableHeader.size (FastSet.header s')
       = wrap64 (HashTableHeader.size (FastSet.header s) - 1).
Proof.
  intros (b & Hb & Hc & Hnd) Habs He Hm Hfuel Hsz.
  assert (Ha : ShmEntry.is_alive now (ShmNode.entry n) = true).
  { unfold FastQueue.node_matches in Hm.
    destruct (ShmEntry.is_alive now (ShmNode.entry n)); [reflexivity | discriminate]. }
  destruct (chain_app_inv _ _ l1 (e :: l2) _ Hc) as (q & (-> & Hpe & n' & Hn' & Hc2)).
  rewrite He in Hn'. injection Hn' as <-.
  pose proof Hnd as Hnd'. apply NoDup_app in Hnd' as (Hnd1 & Hdis & Hnd2).
  apply NoDup_cons in Hnd2 as [He2 Hnd2].
  assert (Hprev : forall j, last l1 = Some j -> j <> e /\ is_Some (FastSet.heap s !! j)).
  { intros j Hj. apply last_Some_elem_of in Hj. split.
    - intros ->. apply (Hdis e Hj). left.
    - apply (chain_allocated _ _ _ _ j Hc). apply elem_of_app. left. exact Hj. }
  assert (Hnext : 0 <= ShmNode.next_offset n ->
                  ShmNode.next_offset n <> e
                  /\ is_Some (FastSet.heap s !! ShmNode.next_offset n)
                  /\ last l1 <> Some (ShmNode.next_offset n)).
  { intros Hle. destruct l2 as [| o2 l2]; [simpl in Hc2; lia |].
    destruct Hc2 as (Hnx & _ & n2 & Hn2 & _). rewrite Hnx.
    split; [intros ->; apply He2; left |]. split; [exists n2; exact Hn2 |].
    intros Hl. apply last_Some_elem_of in Hl. apply (Hdis o2 Hl). right. left. }
  set (idx := FastSet.get_bucket s (compute_hash data)) in *.
  destruct (relink_heap (FastSet.heap s) e n (last l1) (ShmNode.next_offset n)
              (match last l1 with Some p => p | None => NULL_OFFSET end)
              b (ShmBucket.set_head (ShmNode.next_offset n) b)
              (fun h4 bucket1 =>
                 Ret (true,
                      FastSet.set_stats
                        (CollectionStats.size_fetch_sub 1 (FastSet.stats s))
                        (FastSet.set_header
                           (HashTableHeader.set_base
                              (CollectionHeader.set_modified_at now
                                 (CollectionHeader.size_fetch_sub 1
                                    (HashTableHeader.base (FastSet.header s))))
                              (FastSet.header s))
                           (FastSet.store_bucket idx (ShmBucket.size_fetch_sub 1 bucket1)
                              (FastSet.set_heap h4 s)))))
              He Hprev Hnext)
    as (h4 & Hrun & Hfree & Hcont & Hnextf & Hlastf).
  eexists. split.
  { unfold FastSet.remove. rewrite (size_of_eqb_0 data Hsz). cbv zeta. fold idx.
    unfold FastSet.bucket_at. rewrite Hb, bind_Ret. unfold FastSet.find_in_bucket.
    rewrite (FastSet_find_loop_found now _ data l1 e l2 n fuel _ None Hc Habs He Hm Hfuel).
    rewrite bind_Ret, (deref_Some _ _ _ He), bind_Ret, Ha. simpl negb. cbv iota.
    replace (from_option Some None (last_passed l1)) with (last l1)
      by (unfold last_passed; destruct (last l1); reflexivity).
    exact Hrun. }
  tsimpl. split; [| split; [exact Hfree | split; [exact Hcont | reflexivity]]].
  unfold set_chain. tsimpl. fold idx.
  exists (ShmBucket.size_fetch_sub 1
            (match last l1 with
             | Some _ => b
             | None => ShmBucket.set_head (ShmNode.next_offset n) b
             end)).
  split; [apply list_lookup_insert_eq; apply (lookup_lt_Some _ _ _ Hb) |].
  split; [| apply NoDup_app; split; [exact Hnd1 | split; [| exact Hnd2]];
            intros x Hx Hx2; apply (Hdis x Hx); right; exact Hx2].
  pose proof (chain_unlink (FastSet.heap s) h4 l1 e l2 n _ Hc Hnd He) as Hu.
  assert (Hhead : ShmBucket.head_offset
                    (ShmBucket.size_fetch_sub 1
                       (match last l1 with
                        | Some _ => b
                        | None => ShmBucket.set_head (ShmNode.next_offset n) b
                        end))
                  = match l1 with
                    | [] => ShmNode.next_offset n
                    | _ => ShmBucket.head_offset b
                    end).
  { destruct l1 as [| a l1]; [reflexivity |].
    destruct (last (a :: l1)) eqn:Hl; [reflexivity |].
    apply last_None in Hl. discriminate. }
  rewrite Hhead. apply Hu.
  - intros x Hx Hl. apply Hnextf; [| exact Hl].
    intros ->. apply elem_of_app in Hx as [Hx | Hx]; [apply (Hdis e Hx); left | contradiction].
  - exact Hlastf.
Qed.

(** X27.  On a set whose bucket for [data] heads a chain of records in
    which no record after one that holds [data] holds it too, [remove]
    of a payload that is not empty returns what [contains] returns at
    this instant.  When it returns [false] the set is left as it was;
    when it returns [true], one record of the chain is unlinked and
    freed, the other records keep their entries and bytes, the size
    stored in the header goes down by one, and [contains] of the
    payload then returns [false]. *)
Theorem remove_takes_a_contained_element_out
        (fuel : nat) (now : Z) (s : FastSet.t) (l : list Z) (data : bytes) :
  set_chain s (FastSet.get_bucket s (compute_hash data)) l ->
  at_most_one_match now (FastSet.heap s) data l ->
  (length l < fuel)%nat -> size_of data <> 0 ->
  exists contained s0 s',
    FastSet.contains fuel now s (Some data) = Ret (contained, s0)
    /\ FastSet.remove fuel now s (Some data) = Ret (contained, s')
    /\ if contained then
         exists l1 e l2,
           l = l1 ++ e :: l2
           /\ set_chain s' (FastSet.get_bucket s' (compute_hash data)) (l1 ++ l2)
           /\ FastSet.heap s' !! e = None
           /\ (forall o, o <> e -> same_content (FastSet.heap s) (FastSet.heap s') o)
           /\ HashTableHeader.size (FastSet.header s')
              = wrap64 (HashTableHeader.size (FastSet.header s) - 1)
           /\ exists s1, FastSet.contains fuel now s' (Some data) = Ret (false, s1)
       else s' = s.
Proof.
  intros Hchain Hone Hfuel Hsz.
  destruct (FastSet_contains_chain fuel now s l data Hchain Hfuel Hsz) as (s0 & Hcont).
  pose proof Hchain as (b & Hb & Hc & Hnd).
  destruct (first_node_match_split now _ data _ l Hc)
    as [Habs | (l1 & e & l2 & n & -> & Habs & He & Hm)].
  - rewrite Habs in Hcont. exists false, s0, s.
    split; [exact Hcont |]. split; [| reflexivity].
    unfold FastSet.remove. rewrite (size_of_eqb_0 data Hsz). cbv zeta.
    unfold FastSet.bucket_at. rewrite Hb, bind_Ret. unfold FastSet.find_in_bucket.
    rewrite (FastSet_find_loop_absent now _ data l fuel _ None Hc Habs Hfuel).
    reflexivity.
  - assert (Hall : some_node_matches now (FastSet.heap s) data (l1 ++ e :: l2) = true).
    { rewrite some_node_matches_app, Habs. simpl. rewrite He, Hm. reflexivity. }
    rewrite Hall in Hcont.
    rewrite length_app in Hfuel. simpl length in Hfuel.
    destruct (FastSet_remove_found fuel now s data l1 e l2 n Hchain Habs He Hm
                ltac:(lia) Hsz)
      as (s' & Hrun & Hchain' & Hfree & Hsame & Hsize).
    exists true, s0, s'. split; [exact Hcont |]. split; [exact Hrun |].
    exists l1, e, l2. split; [reflexivity |]. split; [exact Hchain' |].
    split; [exact Hfree |]. split; [exact Hsame |]. split; [exact Hsize |].
    destruct (FastSet_contains_chain fuel now s' (l1 ++ l2) data Hchain'
                ltac:(rewrite length_app; lia) Hsz) as (s1 & Hrun1).
    exists s1. rewrite Hrun1. f_equal. f_equal.
    rewrite (some_node_matches_content now (FastSet.heap s)).
    + rewrite some_node_matches_app, Habs. simpl.
      exact (Hone l1 e l2 n eq_refl He Hm).
    + intros o Ho. apply Hsame. intros ->.
      apply NoDup_app in Hnd as (_ & Hdis & Hnd2).
      apply NoDup_cons in Hnd2 as [He2 _].
      apply elem_of_app in Ho as [Ho | Ho]; [apply (Hdis e Ho); left | contradiction].
Qed.

Lemma set_x_chain :
  set_chain set_x (FastSet.get_bucket set_x (compute_hash (payload "x"))) [64].
Proof.
  eexists. split; [vm_compute; reflexivity |]. split.
  - concrete_shape.
  - concrete_nodup.
Qed.

Lemma remove_takes_a_contained_element_out_witness :
  exists s' s1,
    FastSet.remove 8 200 set_x (Some (payload "x")) = Ret (true, s')
    /\ FastSet.contains 8 200 s' (Some (payload "x")) = Ret (false, s1).
Proof.
  assert (Hone : at_most_one_match 200 (FastSet.heap set_x) (payload "x") [64]).
  { intros l1 e l2 n Hl _ _.
    destruct l1 as [| a [| a' l1]]; simpl in Hl; [| | discriminate].
    - injection Hl as _ <-. reflexivity.
    - injection Hl as _ Hl. discriminate. }
  destruct (remove_takes_a_contained_element_out 8 200 set_x [64] (payload "x")
              set_x_chain Hone ltac:(simpl; lia) ltac:(vm_compute; discriminate))
    as (contained & s0 & s' & Hcont & Hrun & Hcases).
  assert (Hc : FastSet.contains 8 200 set_x (Some (payload "x"))
               = Ret (true,
                      FastSet.set_stats
                        (CollectionStats.read_fetch_add 1
                           (CollectionStats.hit_fetch_add 1 (FastSet.stats set_x)))
                        set_x))
    by (vm_compute; reflexivity).
  pose proof (eq_trans (eq_sym Hc) Hcont) as Heq.
  injection Heq as <- _.
  destruct Hcases as (l1 & e & l2 & _ & _ & _ & _ & _ & s1 & Hafter).
  exists s', s1. split; [exact Hrun | exact Hafter].
Defined.

(** * The list *)

Ltac lsimpl :=
  cbn [FastList.heap FastList.header FastList.stats FastList.cache_last_index
       FastList.cache_last_offset
       FastList.set_heap FastList.set_header FastList.set_stats FastList.set_cache
       FastList.count_insertion FastList.free_node
       ListHeader.base ListHeader.head_offset ListHeader.tail_offset
       ListHeader.set_base ListHeader.set_head ListHeader.set_tail ListHeader.size
       CollectionHeader.size CollectionHeader.modified_at
       CollectionHeader.size_store CollectionHeader.size_fetch_sub
       CollectionHeader.size_fetch_add CollectionHeader.set_modified_at
       CollectionStats.size CollectionStats.size_store CollectionStats.size_fetch_sub
       CollectionStats.size_fetch_add].

(** The calls of an enumeration of the list over a chain. *)
Lemma FastList_forEach_calls (now : Z) (h : gmap Z ShmNode.t) (l : list Z) :
  forall (fuel : nat) (p index : Z),
    chain ShmNode.next_offset h p l -> (length l < fuel)%nat ->
    FastList.forEach_loop fuel now h always3 p index
    = Ret (indexed index (alive_calls now h l)).
Proof.
  induction l as [| o l IH]; intros fuel p index Hc Hf;
    (destruct fuel as [| fuel]; [simpl in Hf; lia |]).
  - simpl in Hc. loop_end Hc. reflexivity.
  - destruct Hc as (-> & Hp & n & Hn & Hc). simpl in Hf.
    change (o :: l) with ([o] ++ l). rewrite alive_calls_app.
    unfold alive_calls at 1. simpl omap. rewrite Hn.
    simpl FastList.forEach_loop.
    replace (o <? 0) with false by (symmetry; apply Z.ltb_ge; exact Hp).
    rewrite (deref_Some _ _ _ Hn), bind_Ret.
    destruct (ShmEntry.is_alive now (ShmNode.entry n)).
    + simpl. rewrite (IH fuel _ _ Hc) by lia. reflexivity.
    + simpl. apply IH; [exact Hc | lia].
Qed.

Lemma FastList_forEach_shape (fuel : nat) (now : Z) (l : FastList.t) (offs : list Z) :
  list_shape l offs -> (length offs < fuel)%nat ->
  FastList.forEach fuel now l always3
  = Ret (indexed 0 (alive_calls now (FastList.heap l) offs)).
Proof.
  intros [Hdl _] Hf. unfold FastList.forEach.
  apply (FastList_forEach_calls now _ offs fuel _ 0 (dlist_chain _ _ _ _ _ _ Hdl) Hf).
Qed.

(** [add] links the node it writes after the nodes of the list. *)
Lemma FastList_add_spec (alloc : Z -> option Z) (now : Z) (l : FastList.t)
      (offs : list Z) (data : bytes) (ttl off : Z) :
  list_shape l offs -> size_of data <> 0 ->
  alloc (ShmNode.total_size (size_of data)) = Some off ->
  0 <= off -> FastList.heap l !! off = None ->
  exists l',
    FastList.add alloc now l (Some data) ttl = Ret (true, l')
    /\ list_shape l' (offs ++ [off])
    /\ FastList.heap l' !! off
       = Some (new_node now data ttl (ListHeader.tail_offset (FastList.header l))
                        NULL_OFFSET)
    /\ (forall o, o <> off -> same_content (FastList.heap l) (FastList.heap l') o)
    /\ ListHeader.size (FastList.header l')
       = wrap64 (ListHeader.size (FastList.header l) + 1).
Proof.
  intros [Hdl Hv] Hsz Halloc Hoff Hfresh.
  pose proof Hdl as [Hd Hnd].
  assert (Hnotin : off ∉ offs).
  { intros Hin. destruct (dseg_allocated _ _ _ _ _ _ _ _ off Hd Hin) as [x Hx].
    congruence. }
  pose proof (dlist_ends _ _ _ _ _ offs Hdl) as Hends.
  set (tail := ListHeader.tail_offset (FastList.header l)) in *.
  set (node := new_node now data ttl tail NULL_OFFSET).
  assert (Hvalid : ShmEntry.state (ShmNode.entry node) = ShmEntry.STATE_VALID)
    by reflexivity.
  destruct offs as [| o0 l0].
  - destruct Hends as [Hfront Hback].
    eexists. split.
    { unfold FastList.add. rewrite (size_of_eqb_0 data Hsz).
      unfold FastList.allocate_node, manager_allocate. rewrite Halloc, !bind_Ret.
      run_update. cbv zeta. fold tail. rewrite Hback. unfold FastList.link_node.
      change (FastList.node_at_offset NULL_OFFSET) with (@None Z). lsimpl.
      run_update. lsimpl. run_update. lsimpl. rewrite !insert_insert_eq. reflexivity. }
    unfold list_shape. lsimpl.
    assert (Hnode : ShmNode.set_next NULL_OFFSET
                      (ShmNode.set_prev NULL_OFFSET
                         (SerializationUtil.copy_to_node now ShmNode.init data ttl)) = node)
      by (unfold node; rewrite Hback; reflexivity).
    rewrite Hnode.
    split; [| split; [apply lookup_insert_eq |
                      split; [intros o Hne; apply same_content_insert_ne; exact Hne |
                              reflexivity]]].
    split.
    + apply (dlist_snoc _ _ (FastList.heap l) _ _ _ off [] node Hdl Hoff Hnotin
               (lookup_insert_eq _ _ _)); [unfold node; reflexivity | reflexivity | |].
      * intros o Ho. apply elem_of_nil in Ho. contradiction.
      * intros Hc. contradiction.
    + apply (all_valid_snoc _ [] off node); [apply Forall_nil_2 | apply lookup_insert_eq
                                              | exact Hvalid].
  - destruct Hends as (Hfront & Hf0 & Hb0 & Hbin & _ & [nb Hnb]).
    assert (Hne : tail <> off) by (intros Heq; apply Hnotin; rewrite <- Heq; exact Hbin).
    eexists. split.
    { unfold FastList.add. rewrite (size_of_eqb_0 data Hsz).
      unfold FastList.allocate_node, manager_allocate. rewrite Halloc, !bind_Ret.
      run_update. cbv zeta. fold tail. unfold FastList.link_node, FastList.node_at_offset.
      replace (tail <? 0) with false by (symmetry; apply Z.ltb_ge; exact Hb0). lsimpl.
      run_update. lsimpl. run_update. lsimpl. run_update. lsimpl.
      rewrite !insert_insert_eq. reflexivity. }
    unfold list_shape. lsimpl.
    match goal with
    | |- context [<[off := ?x]> (<[tail := _]> _)] =>
        change x with node
    end.
    set (h' := <[off := node]> (<[tail := ShmNode.set_next off nb]> _)).
    assert (Hoff' : h' !! off = Some node) by apply lookup_insert_eq.
    assert (Htail' : h' !! tail = Some (ShmNode.set_next off nb)).
    { unfold h'. rewrite lookup_insert_ne by congruence. apply lookup_insert_eq. }
    assert (Hother : forall o, o <> off -> o <> tail -> h' !! o = FastList.heap l !! o).
    { intros o H1 H2. unfold h'. rewrite !lookup_insert_ne by congruence. reflexivity. }
    assert (Hcontent : forall o, o <> off -> same_content (FastList.heap l) h' o).
    { intros o Ho. destruct (decide (o = tail)) as [-> | Ht].
      - split; rewrite Htail', Hnb; reflexivity.
      - split; rewrite (Hother o Ho Ht); reflexivity. }
    split; [| split; [exact Hoff' | split; [exact Hcontent | reflexivity]]].
    split.
    + apply (dlist_snoc _ _ (FastList.heap l) _ _ _ off (o0 :: l0) node Hdl Hoff Hnotin
               Hoff'); [reflexivity | reflexivity | |].
      * intros o Ho Hob. apply Hother; [| exact Hob]. intros ->. contradiction.
      * intros _. exists nb, (ShmNode.set_next off nb).
        split; [exact Hnb |]. split; [exact Htail' |]. split; reflexivity.
    + apply (all_valid_snoc _ (o0 :: l0) off node); [| exact Hoff' | exact Hvalid].
      eapply all_valid_content; [| exact Hv].
      intros o Ho. apply Hcontent. intros ->. contradiction.
Qed.

(** [addFirst] links the node it writes before the nodes of the list. *)
Lemma FastList_addFirst_spec (alloc : Z -> option Z) (now : Z) (l : FastList.t)
      (offs : list Z) (data : bytes) (ttl off : Z) :
  list_shape l offs -> size_of data <> 0 ->
  alloc (ShmNode.total_size (size_of data)) = Some off ->
  0 <= off -> FastList.heap l !! off = None ->
  exists l',
    FastList.addFirst alloc now l (Some data) ttl = Ret (true, l')
    /\ list_shape l' (off :: offs)
    /\ FastList.heap l' !! off
       = Some (new_node now data ttl NULL_OFFSET
                        (ListHeader.head_offset (FastList.header l)))
    /\ (forall o, o <> off -> same_content (FastList.heap l) (FastList.heap l') o)
    /\ ListHeader.size (FastList.header l')
       = wrap64 (ListHeader.size (FastList.header l) + 1).
Proof.
  intros [Hdl Hv] Hsz Halloc Hoff Hfresh.
  pose proof Hdl as [Hd Hnd].
  assert (Hnotin : off ∉ offs).
  { intros Hin. destruct (dseg_allocated _ _ _ _ _ _ _ _ off Hd Hin) as [x Hx].
    congruence. }
  pose proof (dlist_ends _ _ _ _ _ offs Hdl) as Hends.
  set (head := ListHeader.head_offset (FastList.header l)) in *.
  set (node := new_node now data ttl NULL_OFFSET head).
  assert (Hvalid : ShmEntry.state (ShmNode.entry node) = ShmEntry.STATE_VALID)
    by reflexivity.
  destruct offs as [| o0 l0].
  - destruct Hends as [Hfront Hback].
    eexists. split.
    { unfold FastList.addFirst. rewrite (size_of_eqb_0 data Hsz).
      unfold FastList.allocate_node, manager_allocate. rewrite Halloc, !bind_Ret.
      run_update. cbv zeta. fold head. rewrite Hfront. unfold FastList.link_node.
      change (FastList.node_at_offset NULL_OFFSET) with (@None Z). lsimpl.
      run_update. lsimpl. run_update. lsimpl. rewrite !insert_insert_eq. reflexivity. }
    unfold list_shape. lsimpl.
    assert (Hnode : ShmNode.set_next NULL_OFFSET
                      (ShmNode.set_prev NULL_OFFSET
                         (SerializationUtil.copy_to_node now ShmNode.init data ttl)) = node)
      by (unfold node; rewrite Hfront; reflexivity).
    rewrite Hnode.
    split; [| split; [apply lookup_insert_eq |
                      split; [intros o Hne; apply same_content_insert_ne; exact Hne |
                              reflexivity]]].
    split.
    + apply (dlist_cons _ _ (FastList.heap l) _ _ _ off [] node Hdl Hoff Hnotin
               (lookup_insert_eq _ _ _)); [reflexivity | reflexivity | |].
      * intros o Ho. apply elem_of_nil in Ho. contradiction.
      * intros Hc. contradiction.
    + apply (all_valid_cons _ [] off node); [apply Forall_nil_2 | apply lookup_insert_eq
                                              | exact Hvalid].
  - destruct Hends as (Hfront & Hf0 & Hb0 & Hbin & [nf Hnf] & _).
    assert (Hhin : head ∈ o0 :: l0) by (rewrite Hfront; left).
    assert (Hne : head <> off) by (intros Heq; apply Hnotin; rewrite <- Heq; exact Hhin).
    eexists. split.
    { unfold FastList.addFirst. rewrite (size_of_eqb_0 data Hsz).
      unfold FastList.allocate_node, manager_allocate. rewrite Halloc, !bind_Ret.
      run_update. cbv zeta. fold head. unfold FastList.link_node, FastList.node_at_offset.
      replace (head <? 0) with false by (symmetry; apply Z.ltb_ge; exact Hf0). lsimpl.
      run_update. lsimpl. run_update. lsimpl. run_update. lsimpl.
      rewrite !insert_insert_eq. reflexivity. }
    unfold list_shape. lsimpl.
    match goal with
    | |- context [<[head := _]> (<[off := ?x]> _)] =>
        change x with node
    end.
    set (h' := <[head := ShmNode.set_prev off nf]> (<[off := node]> _)).
    assert (Hoff' : h' !! off = Some node).
    { unfold h'. rewrite lookup_insert_ne by congruence. apply lookup_insert_eq. }
    assert (Hhead' : h' !! head = Some (ShmNode.set_prev off nf)) by apply lookup_insert_eq.
    assert (Hother : forall o, o <> off -> o <> head -> h' !! o = FastList.heap l !! o).
    { intros o H1 H2. unfold h'. rewrite !lookup_insert_ne by congruence. reflexivity. }
    assert (Hcontent : forall o, o <> off -> same_content (FastList.heap l) h' o).
    { intros o Ho. destruct (decide (o = head)) as [-> | Ht].
      - split; rewrite Hhead', Hnf; reflexivity.
      - split; rewrite (Hother o Ho Ht); reflexivity. }
    split; [| split; [exact Hoff' | split; [exact Hcontent | reflexivity]]].
    split.
    + apply (dlist_cons _ _ (FastList.heap l) _ _ _ off (o0 :: l0) node Hdl Hoff Hnotin
               Hoff'); [reflexivity | reflexivity | |].
      * intros o Ho Hob. apply Hother; [| exact Hob]. intros ->. contradiction.
      * intros _. exists nf, (ShmNode.set_prev off nf).
        split; [exact Hnf |]. split; [exact Hhead' |]. split; reflexivity.
    + apply (all_valid_cons _ (o0 :: l0) off node); [| exact Hoff' | exact Hvalid].
      eapply all_valid_content; [| exact Hv].
      intros o Ho. apply Hcontent. intros ->. contradiction.
Qed.

(** X28.  On a well-linked list, with an allocator that returns a free
    block, [add] and [addFirst] of [data] return [true], add one to the
    size stored in the header and leave a well-linked list.  An
    enumeration with a callback that never stops it, at any instant [t],
    then makes the calls it made on the list before, with one call with
    [data] after them (for [add]) or before them (for [addFirst]) if the
    new node is alive at [t]; the indices passed count the calls from
    0. *)
Theorem add_appends_and_addFirst_prepends
        (alloc : Z -> option Z) (now : Z) (l : FastList.t) (offs : list Z)
        (data : bytes) (ttl off : Z) :
  list_shape l offs -> size_of data <> 0 ->
  alloc (ShmNode.total_size (size_of data)) = Some off ->
  0 <= off -> FastList.heap l !! off = None ->
  let added (t : Z) :=
    if ShmEntry.is_alive t
         (ShmNode.entry (SerializationUtil.copy_to_node now ShmNode.init data ttl))
    then [(data, wrap32 (size_of data))] else [] in
  (exists l',
      FastList.add alloc now l (Some data) ttl = Ret (true, l')
      /\ list_shape l' (offs ++ [off])
      /\ ListHeader.size (FastList.header l')
         = wrap64 (ListHeader.size (FastList.header l) + 1)
      /\ forall fuel t,
          (length offs + 1 < fuel)%nat ->
          exists calls,
            FastList.forEach fuel t l always3 = Ret (indexed 0 calls)
            /\ FastList.forEach fuel t l' always3 = Ret (indexed 0 (calls ++ added t)))
  /\ (exists l',
         FastList.addFirst alloc now l (Some data) ttl = Ret (true, l')
         /\ list_shape l' (off :: offs)
         /\ ListHeader.size (FastList.header l')
            = wrap64 (ListHeader.size (FastList.header l) + 1)
         /\ forall fuel t,
             (length offs + 1 < fuel)%nat ->
             exists calls,
               FastList.forEach fuel t l always3 = Ret (indexed 0 calls)
               /\ FastList.forEach fuel t l' always3
                  = Ret (indexed 0 (added t ++ calls))).
Proof.
  intros Hshape Hsz Halloc Hoff Hfree added.
  assert (Hnotin : off ∉ offs).
  { intros Hin. destruct Hshape as [[Hd _] _].
    destruct (dseg_allocated _ _ _ _ _ _ _ _ off Hd Hin) as [n Hn].
    rewrite Hfree in Hn. discriminate. }
  split.
  - destruct (FastList_add_spec alloc now l offs data ttl off Hshape Hsz Halloc Hoff Hfree)
      as (l' & Hrun & Hs' & Hnew & Hc & Hsize).
    exists l'. split; [exact Hrun |]. split; [exact Hs' |]. split; [exact Hsize |].
    intros fuel t Hf. exists (alive_calls t (FastList.heap l) offs).
    split; [apply FastList_forEach_shape; [exact Hshape | lia] |].
    rewrite (FastList_forEach_shape fuel t l' _ Hs') by (rewrite length_app; simpl; lia).
    rewrite alive_calls_app, (alive_calls_new_node t now _ off data ttl _ _ Hnew).
    rewrite (alive_calls_content t (FastList.heap l) (FastList.heap l') offs);
      [reflexivity |].
    intros o Ho. apply Hc. intros ->. contradiction.
  - destruct (FastList_addFirst_spec alloc now l offs data ttl off Hshape Hsz Halloc
                Hoff Hfree)
      as (l' & Hrun & Hs' & Hnew & Hc & Hsize).
    exists l'. split; [exact Hrun |]. split; [exact Hs' |]. split; [exact Hsize |].
    intros fuel t Hf. exists (alive_calls t (FastList.heap l) offs).
    split; [apply FastList_forEach_shape; [exact Hshape | lia] |].
    rewrite (FastList_forEach_shape fuel t l' _ Hs') by (simpl; lia).
    change (off :: offs) with ([off] ++ offs).
    rewrite alive_calls_app, (alive_calls_new_node t now _ off data ttl _ _ Hnew).
    rewrite (alive_calls_content t (FastList.heap l) (FastList.heap l') offs);
      [reflexivity |].
    intros o Ho. apply Hc. intros ->. contradiction.
Qed.

Lemma list_state_shape : list_shape list_state [64; 128].
Proof.
  split; [split |].
  - concrete_shape.
  - concrete_nodup.
  - unfold all_valid. concrete_forall.
Qed.

Lemma add_appends_and_addFirst_prepends_witness :
  exists l',
    FastList.add (fun _ => Some 192) 150 list_state (Some (payload "C")) TTL_INFINITE
    = Ret (true, l')
    /\ FastList.forEach 8 200 l' always3
       = Ret [(payload "B", 1, 0); (payload "C", 1, 1)].
Proof.
  destruct (add_appends_and_addFirst_prepends
              (fun _ => Some 192) 150 list_state [64; 128] (payload "C") TTL_INFINITE 192
              list_state_shape ltac:(vm_compute; discriminate) eq_refl ltac:(lia)
              ltac:(vm_compute; reflexivity))
    as [(l' & Hrun & _ & _ & Hcalls) _].
  destruct (Hcalls 8%nat 200 ltac:(simpl; lia)) as (calls & Hbefore & Hafter).
  assert (Hc : FastList.forEach 8 200 list_state always3 = Ret (indexed 0 [(payload "B", 1)]))
    by (vm_compute; reflexivity).
  assert (Hcalls' : calls = [(payload "B", 1)]).
  { pose proof (eq_trans (eq_sym Hc) Hbefore) as Heq.
    destruct calls as [| [d n] [| c2 rest]]; simpl in Heq; try discriminate.
    injection Heq as -> ->. reflexivity. }
  subst calls.
  exists l'. split; [exact Hrun | exact Hafter].
Defined.

Lemma FastList_indexOf_loop_spec (now : Z) (h : gmap Z ShmNode.t) (data : bytes)
      (l : list Z) :
  forall (fuel : nat) (p d : Z),
    chain ShmNode.next_offset h p l -> nodes_hashed h l -> (length l < fuel)%nat ->
    0 <= d ->
    exists r,
      FastList.indexOf_loop fuel now h data (compute_hash data) p d = Ret r
      /\ search_answer (alive_calls now h l) data d r.
Proof.
  induction l as [| o l IH]; intros fuel p d Hc Hh Hf Hd;
    (destruct fuel as [| fuel]; [simpl in Hf; lia |]).
  - simpl in Hc. exists (-1). split; [loop_end Hc; reflexivity |].
    left. split; [reflexivity |]. intros Hin. apply elem_of_nil in Hin. contradiction.
  - destruct Hc as (-> & Hp & n & Hn & Hc). simpl in Hf.
    apply Forall_cons in Hh as [(n' & Hn' & Hsz & Hhash) Hh].
    rewrite Hn in Hn'. injection Hn' as <-.
    change (o :: l) with ([o] ++ l). rewrite alive_calls_app.
    unfold alive_calls at 1. simpl omap. rewrite Hn.
    simpl FastList.indexOf_loop.
    replace (o <? 0) with false by (symmetry; apply Z.ltb_ge; exact Hp).
    rewrite (deref_Some _ _ _ Hn), bind_Ret.
    destruct (ShmEntry.is_alive now (ShmNode.entry n)).
    + pose proof (hashed_node_matches n data Hsz Hhash) as Hm.
      destruct (_ && _ && _).
      * exists d. split; [reflexivity |]. right. split; [lia |].
        rewrite Z.sub_diag. simpl. split; [f_equal; apply Hm; reflexivity |].
        intros i Hi. lia.
      * assert (Hneq : (ShmNode.data n, ShmEntry.data_size (ShmNode.entry n))
                       <> (data, size_of data))
          by (intros Heq; apply Hm in Heq; discriminate).
        destruct (IH fuel _ (d + 1) Hc Hh ltac:(lia) ltac:(lia)) as (r & Hrun & Hans).
        exists r. split; [exact Hrun |].
        destruct Hans as [[-> Hnot] | (Hle & Hat & Hbefore)].
        -- left. split; [reflexivity |]. simpl. intros Hin.
           apply elem_of_cons in Hin as [Heq | Hin]; [| contradiction].
           apply Hneq. symmetry. exact Heq.
        -- right. split; [lia |].
           replace (Z.to_nat (r - d)) with (S (Z.to_nat (r - (d + 1)))) by lia.
           simpl. split; [exact Hat |].
           intros [| i] Hi; simpl; [intros Heq; apply Hneq; congruence |].
           apply Hbefore. lia.
    + simpl app. apply IH; assumption || lia.
Qed.

(** X29.  On a well-linked list whose nodes record the size and the hash
    of the bytes they hold, [indexOf] of a payload that is not empty
    returns -1 when no call of an enumeration (with a callback that
    never stops it) is made with this payload, and else the index that
    the enumeration passes with the first call made with it;
    [contains] returns whether this index is not negative. *)
Theorem indexOf_gives_the_index_in_the_enumeration
        (fuel : nat) (now : Z) (l : FastList.t) (offs : list Z) (data : bytes) :
  list_shape l offs -> nodes_hashed (FastList.heap l) offs ->
  (length offs < fuel)%nat -> size_of data <> 0 ->
  exists calls r,
    FastList.forEach fuel now l always3 = Ret (indexed 0 calls)
    /\ FastList.indexOf fuel now l (Some data) = Ret r
    /\ FastList.contains fuel now l (Some data) = Ret (0 <=? r)
    /\ ((r = -1 /\ (data, size_of data) ∉ calls)
        \/ (0 <= r
            /\ calls !! Z.to_nat r = Some (data, size_of data)
            /\ forall i, (i < Z.to_nat r)%nat ->
                         calls !! i <> Some (data, size_of data))).
Proof.
  intros Hshape Hhashed Hfuel Hsz.
  rewrite (FastList_forEach_shape fuel now l offs Hshape Hfuel).
  destruct Hshape as [Hdl _].
  destruct (FastList_indexOf_loop_spec now _ data offs fuel _ 0
              (dlist_chain _ _ _ _ _ _ Hdl) Hhashed Hfuel ltac:(lia))
    as (r & Hrun & Hans).
  assert (Hidx : FastList.indexOf fuel now l (Some data) = Ret r).
  { unfold FastList.indexOf. rewrite (size_of_eqb_0 data Hsz). exact Hrun. }
  eexists _, r. split; [reflexivity |]. split; [exact Hidx |].
  split; [unfold FastList.contains; rewrite Hidx; reflexivity |].
  unfold search_answer in Hans. rewrite Z.sub_0_r in Hans. exact Hans.
Qed.

Lemma list_state_hashed : nodes_hashed (FastList.heap list_state) [64; 128].
Proof.
  unfold nodes_hashed. repeat (apply Forall_cons; split); [| | apply Forall_nil; exact I];
    (eexists; split; [vm_compute; reflexivity | split; vm_compute; reflexivity]).
Qed.

Lemma indexOf_gives_the_index_in_the_enumeration_witness :
  exists calls r,
    FastList.forEach 8 200 list_state always3 = Ret (indexed 0 calls)
    /\ FastList.indexOf 8 200 list_state (Some (payload "B")) = Ret r
    /\ FastList.contains 8 200 list_state (Some (payload "B")) = Ret (0 <=? r)
    /\ ((r = -1 /\ (payload "B", size_of (payload "B")) ∉ calls)
        \/ (0 <= r
            /\ calls !! Z.to_nat r = Some (payload "B", size_of (payload "B"))
            /\ forall i, (i < Z.to_nat r)%nat ->
                         calls !! i <> Some (payload "B", size_of (payload "B")))).
Proof.
  exact (indexOf_gives_the_index_in_the_enumeration 8 200 list_state [64; 128]
           (payload "B") list_state_shape list_state_hashed ltac:(simpl; lia)
           ltac:(vm_compute; discriminate)).
Defined.

(** The removal of the first node of a list. *)
Lemma remove_node_first (now : clock) (l : FastList.t) (o : Z) (rest : list Z)
      (out : option bytes) :
  list_shape l (o :: rest) ->
  exists n l',
    FastList.heap l !! o = Some n
    /\ FastList.remove_node now l o out
       = Ret (true,
              match out with
              | Some v => Some (if ShmEntry.is_alive (now O) (ShmNode.entry n)
                                then if ShmEntry.is_alive (now 1%nat) (ShmNode.entry n)
                                     then take (Z.to_nat (ShmEntry.data_size
                                                            (ShmNode.entry n)))
                                               (ShmNode.data n)
                                     else []
                                else v)
              | None => None
              end, l')
    /\ list_shape l' rest
    /\ FastList.heap l' !! o = None
    /\ (forall x, x <> o -> same_content (FastList.heap l) (FastList.heap l') x)
    /\ ListHeader.size (FastList.header l')
       = wrap64 (ListHeader.size (FastList.header l) - 1).
Proof.
  intros [[Hd Hnd] Hv].
  destruct Hd as (Hfront & Hp & n & Hn & Hpp & Hd).
  apply NoDup_cons in Hnd as [Hnotin Hnd].
  apply Forall_cons in Hv as [_ Hv].
  exists n.
  assert (Hout : match out with
                 | Some _ =>
                     if ShmEntry.is_alive (now O) (ShmNode.entry n)
                     then Some (SerializationUtil.copy_from_node (now 1%nat) n)
                     else out
                 | None => None
                 end
                 = match out with
                   | Some v => Some (if ShmEntry.is_alive (now O) (ShmNode.entry n)
                                     then if ShmEntry.is_alive (now 1%nat) (ShmNode.entry n)
                                          then take (Z.to_nat (ShmEntry.data_size
                                                                 (ShmNode.entry n)))
                                                    (ShmNode.data n)
                                          else []
                                     else v)
                   | None => None
                   end).
  { unfold SerializationUtil.copy_from_node.
    destruct out as [v |]; [| reflexivity].
    destruct (ShmEntry.is_alive (now O) (ShmNode.entry n)),
      (ShmEntry.is_alive (now 1%nat) (ShmNode.entry n)); reflexivity. }
  unfold FastList.remove_node, FastList.unlink_node.
  rewrite (deref_Some _ _ _ Hn), !bind_Ret. cbv zeta. rewrite Hout, Hpp.
  change (0 <=? NULL_OFFSET) with false. cbv iota. rewrite bind_Ret.
  destruct rest as [| o2 rest].
  - destruct Hd as [Hnx Hback].
    replace (0 <=? ShmNode.next_offset n) with false
      by (symmetry; apply Z.leb_gt; rewrite Hnx; reflexivity).
    rewrite !bind_Ret. lsimpl.
    rewrite (update_Some _ _ _ _ Hn), bind_Ret.
    eexists. split; [exact Hn |]. split; [reflexivity |].
    unfold list_shape, dlist. lsimpl. unfold FastList.free_node.
    split; [| split; [apply lookup_delete_eq |
                      split; [| reflexivity]]].
    + split; [split |]; [| constructor | constructor].
      split; [exact Hnx | reflexivity].
    + intros x Hne. apply same_content_free. exact Hne.
  - pose proof Hd as (Hnx & Hp2 & n2 & Hn2 & Hpp2 & Hd2).
    assert (Hne : o <> o2) by (intros ->; apply Hnotin; left).
    replace (0 <=? ShmNode.next_offset n) with true
      by (symmetry; apply Z.leb_le; rewrite Hnx; exact Hp2).
    lsimpl. rewrite Hnx. rewrite (update_Some _ _ _ _ Hn2), !bind_Ret. lsimpl.
    erewrite update_Some by (rewrite lookup_insert_ne by congruence; exact Hn).
    rewrite bind_Ret. rewrite Hnx in Hd.
    eexists. split; [exact Hn |]. split; [reflexivity |].
    unfold list_shape, dlist. lsimpl. unfold FastList.free_node.
    assert (Hcontent : forall x, x <> o ->
              same_content (FastList.heap l)
                (delete o (<[o := FastList.mark_deleted n]>
                             (<[o2 := ShmNode.set_prev NULL_OFFSET n2]>
                                (FastList.heap l)))) x).
    { intros x Hne'. eapply same_content_trans.
      - apply (same_content_set_prev _ o2 x NULL_OFFSET n2 Hn2).
      - apply same_content_free. exact Hne'. }
    split; [| split; [apply lookup_delete_eq | split; [exact Hcontent | reflexivity]]].
    split; [split |].
    + eapply dseg_frame;
        [| eapply (dseg_update_first _ _ _ o NULL_OFFSET o2 rest _ _
                     (ShmNode.set_prev NULL_OFFSET n2)); [exact Hd | | |]].
      * intros x Hx. rewrite lookup_delete_ne, lookup_insert_ne; [reflexivity | |];
          intros ->; contradiction.
      * apply NoDup_cons in Hnd as [H _]. exact H.
      * intros n0 Hn0. rewrite Hn2 in Hn0. injection Hn0 as <-. reflexivity.
      * reflexivity.
    + exact Hnd.
    + eapply all_valid_content; [| exact Hv].
      intros x Hx. apply Hcontent. intros ->. contradiction.
Qed.

(** The removal of the last node of a list. *)
Lemma remove_node_last (now : clock) (l : FastList.t) (front : list Z) (o : Z)
      (out : option bytes) :
  list_shape l (front ++ [o]) ->
  exists n l',
    FastList.heap l !! o = Some n
    /\ ListHeader.tail_offset (FastList.header l) = o
    /\ FastList.remove_node now l o out
       = Ret (true,
              match out with
              | Some v => Some (if ShmEntry.is_alive (now O) (ShmNode.entry n)
                                then if ShmEntry.is_alive (now 1%nat) (ShmNode.entry n)
                                     then take (Z.to_nat (ShmEntry.data_size
                                                            (ShmNode.entry n)))
                                               (ShmNode.data n)
                                     else []
                                else v)
              | None => None
              end, l')
    /\ list_shape l' front
    /\ FastList.heap l' !! o = None
    /\ (forall x, x <> o -> same_content (FastList.heap l) (FastList.heap l') x)
    /\ ListHeader.size (FastList.header l')
       = wrap64 (ListHeader.size (FastList.header l) - 1).
Proof.
  intros [[Hd Hnd] Hv].
  apply dseg_app in Hd as (j & jn & Hd1 & Hd2).
  destruct Hd2 as (-> & Hp & n & Hn & Hpp & Hnx & Hback).
  apply NoDup_app in Hnd as (Hnd1 & Hdis & _).
  assert (Hnotin : o ∉ front) by (intros Hin; apply (Hdis o Hin); left).
  apply Forall_app in Hv as [Hv _].
  exists n.
  assert (Hout : match out with
                 | Some _ =>
                     if ShmEntry.is_alive (now O) (ShmNode.entry n)
                     then Some (SerializationUtil.copy_from_node (now 1%nat) n)
                     else out
                 | None => None
                 end
                 = match out with
                   | Some v => Some (if ShmEntry.is_alive (now O) (ShmNode.entry n)
                                     then if ShmEntry.is_alive (now 1%nat) (ShmNode.entry n)
                                          then take (Z.to_nat (ShmEntry.data_size
                                                                 (ShmNode.entry n)))
                                                    (ShmNode.data n)
                                          else []
                                     else v)
                   | None => None
                   end).
  { unfold SerializationUtil.copy_from_node.
    destruct out as [v |]; [| reflexivity].
    destruct (ShmEntry.is_alive (now O) (ShmNode.entry n)),
      (ShmEntry.is_alive (now 1%nat) (ShmNode.entry n)); reflexivity. }
  unfold FastList.remove_node, FastList.unlink_node.
  rewrite (deref_Some _ _ _ Hn), !bind_Ret. cbv zeta. rewrite Hout, Hpp, Hnx.
  change (0 <=? NULL_OFFSET) with false. cbv iota.
  destruct front as [| o1 l1].
  - destruct Hd1 as [Hfront Hj]. rewrite <- Hj.
    change (0 <=? NULL_OFFSET) with false. cbv iota. rewrite !bind_Ret. lsimpl.
    rewrite (update_Some _ _ _ _ Hn), bind_Ret.
    eexists. split; [exact Hn |]. split; [symmetry; exact Hback |].
    split; [reflexivity |].
    unfold list_shape, dlist. lsimpl. unfold FastList.free_node.
    split; [| split; [apply lookup_delete_eq |
                      split; [| reflexivity]]].
    + split; [split |]; [| constructor | constructor]. split; reflexivity.
    + intros x Hne. apply same_content_free. exact Hne.
  - assert (Hne1 : o1 :: l1 <> []) by discriminate.
    pose proof (dseg_last_elem _ _ _ _ _ _ _ _ Hd1 Hne1) as Hjin.
    pose proof (dseg_offsets_nonneg _ _ _ _ _ _ _ _ Hd1) as Hpos.
    rewrite Forall_forall in Hpos. pose proof (Hpos j Hjin) as Hj0.
    destruct (dseg_allocated _ _ _ _ _ _ _ _ j Hd1 Hjin) as [nj Hnj].
    assert (Hjo : j <> o) by (intros ->; contradiction).
    replace (0 <=? j) with true by (symmetry; apply Z.leb_le; exact Hj0).
    rewrite (update_Some _ _ _ _ Hnj), !bind_Ret. lsimpl.
    erewrite update_Some by (rewrite lookup_insert_ne by congruence; exact Hn).
    rewrite bind_Ret.
    eexists. split; [exact Hn |]. split; [symmetry; exact Hback |].
    split; [reflexivity |].
    unfold list_shape, dlist. lsimpl. unfold FastList.free_node.
    assert (Hcontent : forall x, x <> o ->
              same_content (FastList.heap l)
                (delete o (<[o := FastList.mark_deleted n]>
                             (<[j := ShmNode.set_next NULL_OFFSET nj]>
                                (FastList.heap l)))) x).
    { intros x Hne'. eapply same_content_trans.
      - apply (same_content_set_next _ j x NULL_OFFSET nj Hnj).
      - apply same_content_free. exact Hne'. }
    split; [| split; [apply lookup_delete_eq | split; [exact Hcontent | reflexivity]]].
    split; [split |].
    + apply (dseg_retarget_last _ _ (FastList.heap l) _ NULL_OFFSET _ (o1 :: l1) j o
               NULL_OFFSET Hd1 Hnd1).
      * intros x Hx Hne'. rewrite lookup_delete_ne, !lookup_insert_ne;
          [reflexivity | congruence | | ]; intros ->; contradiction.
      * intros _. exists nj, (ShmNode.set_next NULL_OFFSET nj).
        split; [exact Hnj |]. split; [| split; reflexivity].
        rewrite lookup_delete_ne, lookup_insert_ne by congruence.
        apply lookup_insert_eq.
    + exact Hnd1.
    + eapply all_valid_content; [| exact Hv].
      intros x Hx. apply Hcontent. intros ->. contradiction.
Qed.

(** X30.  On a well-linked list, [removeFirst] and [removeLast] return
    [false] and change nothing when the chain is empty.  Otherwise they
    return [true], unlink and free the first (the last) node of the
    chain whether it is alive or not, and subtract one from the size
    stored in the header.  The caller's vector, when there is one, is
    left as it was if the node is not alive at the first reading of the
    clock, in [is_alive()]; if it is, the vector receives what
    [copy_from_node()] reads at the second reading: the bytes of the
    node if it is still alive, and nothing (the vector is emptied) if it
    has expired in between.  An enumeration, at any instant [t], then
    makes the calls it made before without the one of the node removed:
    none is lost when the node was expired. *)
Theorem removeFirst_and_removeLast_take_the_end_of_the_chain
        (now : clock) (l : FastList.t) (offs : list Z) (out : option bytes) :
  list_shape l offs ->
  let filled (n : ShmNode.t) :=
    match out with
    | Some v => Some (if ShmEntry.is_alive (now O) (ShmNode.entry n)
                      then if ShmEntry.is_alive (now 1%nat) (ShmNode.entry n)
                           then take (Z.to_nat (ShmEntry.data_size (ShmNode.entry n)))
                                     (ShmNode.data n)
                           else []
                      else v)
    | None => None
    end in
  let own (t : Z) (n : ShmNode.t) :=
    if ShmEntry.is_alive t (ShmNode.entry n)
    then [(ShmNode.data n, ShmEntry.data_size (ShmNode.entry n))] else [] in
  match offs with
  | [] =>
      FastList.removeFirst now l out = Ret (false, out, l)
      /\ FastList.removeLast now l out = Ret (false, out, l)
  | o :: rest =>
      (exists n l',
          FastList.heap l !! o = Some n
          /\ FastList.removeFirst now l out = Ret (true, filled n, l')
          /\ list_shape l' rest
          /\ FastList.heap l' !! o = None
          /\ ListHeader.size (FastList.header l')
             = wrap64 (ListHeader.size (FastList.header l) - 1)
          /\ forall fuel t,
              (length offs < fuel)%nat ->
              exists calls,
                FastList.forEach fuel t l always3 = Ret (indexed 0 (own t n ++ calls))
                /\ FastList.forEach fuel t l' always3 = Ret (indexed 0 calls))
      /\ (exists front o' n l',
             offs = front ++ [o']
             /\ FastList.heap l !! o' = Some n
             /\ FastList.removeLast now l out = Ret (true, filled n, l')
             /\ list_shape l' front
             /\ FastList.heap l' !! o' = None
             /\ ListHeader.size (FastList.header l')
                = wrap64 (ListHeader.size (FastList.header l) - 1)
             /\ forall fuel t,
                 (length offs < fuel)%nat ->
                 exists calls,
                   FastList.forEach fuel t l always3 = Ret (indexed 0 (calls ++ own t n))
                   /\ FastList.forEach fuel t l' always3 = Ret (indexed 0 calls))
  end.
Proof.
  intros Hshape filled own.
  destruct offs as [| o rest].
  - destruct Hshape as [[[Hh Ht] _] _].
    unfold FastList.removeFirst, FastList.removeLast. rewrite Hh, <- Ht.
    split; reflexivity.
  - split.
    + destruct (remove_node_first now l o rest out Hshape)
        as (n & l' & Hn & Hrun & Hs' & Hfree & Hc & Hsize).
      exists n, l'. split; [exact Hn |].
      pose proof Hshape as [[(Hh & Hp & _) Hnd] _].
      split.
      { unfold FastList.removeFirst, FastList.node_at_offset. rewrite Hh.
        replace (o <? 0) with false by (symmetry; apply Z.ltb_ge; exact Hp).
        exact Hrun. }
      split; [exact Hs' |]. split; [exact Hfree |]. split; [exact Hsize |].
      intros fuel t Hf. exists (alive_calls t (FastList.heap l) rest).
      rewrite (FastList_forEach_shape fuel t l _ Hshape Hf).
      rewrite (FastList_forEach_shape fuel t l' _ Hs') by (simpl in Hf; lia).
      apply NoDup_cons in Hnd as [Hno _].
      split.
      * change (o :: rest) with ([o] ++ rest). rewrite alive_calls_app.
        unfold alive_calls at 1. simpl omap. rewrite Hn. unfold own.
        destruct (ShmEntry.is_alive t (ShmNode.entry n)); reflexivity.
      * rewrite (alive_calls_content t (FastList.heap l) (FastList.heap l') rest);
          [reflexivity |].
        intros x Hx. apply Hc. intros ->. contradiction.
    + destruct (exists_last (l := o :: rest) ltac:(discriminate)) as (front & o' & Heq).
      rewrite Heq in Hshape.
      destruct (remove_node_last now l front o' out Hshape)
        as (n & l' & Hn & Htail & Hrun & Hs' & Hfree & Hc & Hsize).
      exists front, o', n, l'. split; [exact Heq |]. split; [exact Hn |].
      pose proof Hshape as [[Hd Hnd] _].
      assert (Hp : 0 <= o').
      { apply dseg_offsets_nonneg in Hd. rewrite Forall_forall in Hd.
        apply Hd. apply elem_of_app. right. left. }
      split.
      { unfold FastList.removeLast, FastList.node_at_offset. rewrite Htail.
        replace (o' <? 0) with false by (symmetry; apply Z.ltb_ge; exact Hp).
        exact Hrun. }
      split; [exact Hs' |]. split; [exact Hfree |]. split; [exact Hsize |].
      intros fuel t Hf. exists (alive_calls t (FastList.heap l) front).
      rewrite Heq, length_app in Hf. simpl in Hf.
      rewrite (FastList_forEach_shape fuel t l _ Hshape)
        by (rewrite length_app; simpl; lia).
      rewrite (FastList_forEach_shape fuel t l' _ Hs') by lia.
      apply NoDup_app in Hnd as (_ & Hdis & _).
      split.
      * rewrite alive_calls_app. f_equal. f_equal.
        unfold alive_calls. simpl omap. rewrite Hn. unfold own.
        destruct (ShmEntry.is_alive t (ShmNode.entry n)); reflexivity.
      * rewrite (alive_calls_content t (FastList.heap l) (FastList.heap l') front);
          [reflexivity |].
        intros x Hx. apply Hc. intros ->. apply (Hdis o' Hx). left.
Qed.

Lemma list_A1_B_shape : list_shape list_A1_B [64; 128].
Proof.
  split; [split |].
  - concrete_shape.
  - concrete_nodup.
  - unfold all_valid. concrete_forall.
Qed.

(** The node of ["A"], expired since 100, is removed at 200 and the
    caller's vector is left as it was.  In the list in which it expires
    at 1000000100, it is removed by a call whose first reading of the
    clock is one nanosecond earlier and whose second is 1000000100: the
    caller's vector, which held ["old"], is emptied. *)
Lemma removeFirst_and_removeLast_take_the_end_of_the_chain_witness :
  (exists n l',
      FastList.heap list_state !! 64 = Some n
      /\ ShmEntry.is_alive 200 (ShmNode.entry n) = false
      /\ FastList.removeFirst (running_from 200) list_state (Some (payload "old"))
         = Ret (true, Some (payload "old"), l')
      /\ FastList.forEach 8 200 l' always3 = Ret [(payload "B", 1, 0)])
  /\ (exists l',
         FastList.removeFirst (expiring_after 1) list_A1_B (Some (payload "old"))
         = Ret (true, Some [], l')
         /\ list_shape l' [128]).
Proof.
  split.
  - destruct (removeFirst_and_removeLast_take_the_end_of_the_chain
                (running_from 200) list_state
                [64; 128] (Some (payload "old")) list_state_shape)
      as [(n & l' & Hn & Hrun & _ & _ & _ & Hcalls) _].
    assert (Hn0 : exists n0, FastList.heap list_state !! 64 = Some n0
                             /\ ShmEntry.is_alive 200 (ShmNode.entry n0) = false)
      by (eexists; split; vm_compute; reflexivity).
    destruct Hn0 as (n0 & Hn0 & Hdead).
    pose proof (eq_trans (eq_sym Hn) Hn0) as Heq. injection Heq as ->.
    change (running_from 200 O) with 200 in Hrun. rewrite Hdead in Hrun.
    destruct (Hcalls 8%nat 200 ltac:(simpl; lia)) as (calls & Hbefore & Hafter).
    rewrite Hdead in Hbefore. simpl app in Hbefore.
    exists n0, l'. split; [exact Hn0 |]. split; [exact Hdead |]. split; [exact Hrun |].
    rewrite Hafter, <- Hbefore. vm_compute. reflexivity.
  - destruct (removeFirst_and_removeLast_take_the_end_of_the_chain
                (expiring_after 1) list_A1_B
                [64; 128] (Some (payload "old")) list_A1_B_shape)
      as [(n & l' & Hn & Hrun & Hshape & _) _].
    vm_compute in Hn. injection Hn as <-.
    exists l'. split; [exact Hrun | exact Hshape].
Defined.
